(* ===== verification/_CoqProject ===== *)
-Q . S2P
Prelude.v
Text.v
Types.v
Reference.v
Net.v
Packet.v
Classify.v
Dhcp.v
Mdns.v
Json.v
Stores.v
Oui.v
OuiTable.v
Discovery.v
Sqlite.v
HistorySqlite.v
Config.v
Alerts.v
AlertSqlite.v
Auth.v
Rules.v
Daemon.v
Writeback.v
System.v
Api.v
AuditLog.v
Notify.v
Delivery.v
Lifecycle.v
Crashes.v
Startup.v
Tui.v
TuiView.v
Toml.v
Setup.v
Completions.v
Cli.v
Testing.v
TestPackets.v
TestCommon.v
TestStores.v
Sha256.v
TestConfig.v
TestEngines.v
TestApi.v
TestNotify.v
TestSetup.v
TestTui.v
