(* ===== verification/Prelude.v ===== *)
(** * EdgeShield: a verification development

    EdgeShield (the Rust workspace under [src/crates]) is a home-network
    monitor.  A capture thread reads Ethernet frames; each frame is decoded
    and classified; the discovery engine keeps one record per MAC address in
    a device store and reports what is new on a bounded channel; the rule
    engine turns those events into alerts, kept in an alert store; a REST API
    behind an authentication and an audit layer shows and acknowledges them;
    background tasks look for silent devices, take daily snapshots and flush
    the write-back cache of the SQLite store; a restart loads that database.
    A command line starts the daemon, under a PID file, on a TOML
    configuration that a setup wizard writes.

    ** Files, in dependency order

    - [Prelude]: panics and fuel ([exec]), [result] and the [?] operators
      ([let?], [try!], [opt!], [run!] in [rust_scope]), machine integers
      (checked, wrapping and saturating), byte slices with Rust's panics,
      tactics, the hint database [rust], generic lemmas.
    - [Text]: Rust's string functions, lines and characters, [FromStr] and
      [Display] of unsigned integers, UTF-8 validation as used by the source.
    - [Types]: [common/src/types.rs], [time.rs], [alert.rs], [error.rs] and
      the snapshots of [history_store.rs]: [Protocol], [Device], [Alert],
      [Severity], [Timestamp], errors.  The texts of MAC addresses, IP
      addresses and dates are not code of the repository: the classes [MacText],
      [IpText] and [Chrono], with their documented round trips as laws.
    - [Reference]: concrete instances of these classes, for the witnesses;
      [Net]: the texts of [std::net], the instance of [IpText] the program
      runs on, with the proof that it reads what it prints.
    - [Packet]: [packet/src/decode.rs] and the loop of [capture.rs].  The
      header readers of [pnet] are the class [Pnet]; its laws give the wire
      offsets.
    - [Classify]: [protocol/src/classifier.rs] and [ntp.rs].
    - [Dhcp], [Mdns]: [protocol/src/dhcp.rs] and [mdns.rs].
    - [Json]: the [serde] derives as functions to and from JSON values; the
      text of [serde_json] is the class [SerdeJson].
    - [Stores]: the traits [DeviceStore] and [AlertStore] as classes with
      laws, [MemoryStore], and the bounded channel.
    - [Oui]: [oui/build.rs] (the parser of the vendor list) and the lookup;
      [OuiTable]: the generated table, its escaped names and their reading by
      the compiler.
    - [Discovery]: [discovery/src/discovery.rs], over any device store.
    - [Sqlite]: [storage/src/sqlite.rs]: cache, dirty set, table, flush,
      load, migration, and a flush interleaved with upserts.
    - [HistorySqlite]: [storage/src/history_sqlite.rs].
    - [Config]: [config/src/config.rs]: sections, defaults, validation.
    - [Alerts]: the contract of an alert store and [rules/src/store.rs].
    - [AlertSqlite]: [storage/src/alert_sqlite.rs], and its agreement with
      the store in memory.
    - [Auth]: [api/src/auth.rs]: keys, permissions, rate limiter, middleware.
    - [Rules]: [rules/src/engine.rs] and [config_bridge.rs], over any alert
      store.
    - [Daemon]: [daemon/src/daemon.rs]: the rules it builds and the background
      tasks as turns.
    - [Writeback]: the pipeline and the flush task of [daemon.rs] on the
      SQLite store, interleaved access by access, up to the final flush and
      the next start.
    - [System]: the tasks of the daemon interleaved in any order over the
      shared stores and the event channel.
    - [Api]: [api/src/routes.rs], [audit.rs] and the stack of [api.rs], over
      any three stores.
    - [AuditLog]: the audit file, its lines and the tasks that write them.
    - [Notify]: [notify/src]: the fan-out, the construction of the clients and
      the messages of the notifiers.
    - [Delivery]: the rule engine and the fan-out as two tasks over the
      bounded alert channel, each blocked where its code waits; put behind
      [System], from a frame to what the notifiers were handed.
    - [Lifecycle]: lives of the whole system on one database, each ended by
      a shutdown and its final flush, and started again from what that left;
      [Crashes]: lives that end in any way, over stores and channels that
      fail.
    - [Startup]: [run] of [daemon.rs] from a configuration to the running
      daemon, with [telemetry.rs], the state [serve] of [api.rs] builds and
      what it needs to listen.
    - [Tui]: [tui/src]: the client of the dashboard, its snapshot, views,
      selections and keys, against any server and against [Api]; [TuiView]:
      what the views, the overlay and the status bar draw, as widgets.
    - [Toml]: the part of TOML the repository writes, read into values, and
      the [serde] derives of [config.rs] on them; the law that ties the [toml]
      crate to both.
    - [Setup]: [cli/src/setup.rs]: the emitter of the configuration, the key,
      the prompts, [run] on a file system that may fail.
    - [Completions], [Cli]: [cli/src/cli.rs]: the completion scripts, the PID
      file, the search for a configuration, the subcommands.
    - [Sha256]: the digest itself, so that whole requests can be evaluated.
    - [Testing] and [TestPackets], [TestCommon], [TestStores], [TestConfig],
      [TestEngines], [TestApi], [TestNotify], [TestSetup], [TestTui]: the
      repository's own tests, translated one by one under their names and
      evaluated on the definitions of the other files.

    ** How the code is read

    A struct is a record, usually in a module named after it; an enum an
    inductive type; a function a definition with the source's name.  [u64]
    and the other integers are [Z] with their bounds written out where the
    code depends on them; [+] on [u64] is [add_u64], which panics in a
    checked build and wraps in a release build.  An index or a slice out of
    range is [Panic].  [BTreeMap], [BTreeSet] and [DashMap] are [gmap] and
    [gset], listed in the order of their keys where the code iterates in
    order, and in an arbitrary given order where the order is unspecified.
    A method on shared state takes the state and returns the new one; every
    reading of a clock is an argument.  A method of a shared store is one
    atomic step, which is what its lock or shard gives; the one place where
    the source interleaves two of them with an effect, a flush against the
    upserts of the pipeline, is modelled access by access
    ([Sqlite.shared_step], [Writeback.make_move]).  [System], [Lifecycle] and
    [Crashes] make a flush one turn: what they state is about the addresses
    in the table, which this interleaving does not change.

    What is not under [src] is a class: its operations, its laws, which state
    documented behaviour, and an instance that satisfies them, so that no
    theorem speaks of nothing.

    Loops on input carry fuel: the name reader of [Mdns] has twelve runs of
    the payload (the start and at most ten jumps, each run reading every
    byte at most once), the option loop of [Dhcp] the length of the packet.
    That it is always enough is part of the theorems ([parse_mdns_total],
    [parse_dhcp_reads_grammar], [process_packet_panics_iff]): they state
    that the result is never [Diverge].

    ** What the theorems show

    - Parsing: the decoder returns what the wire format says and panics only
      on lengths that run past the frame ([decode_packet_refines_wire]);
      classes are determined by the bytes ([classify_frame]); the DHCP, mDNS
      and NTP parsers are total or panic on exactly the inputs named, and
      invert encodings
      ([parse_dhcp_reads_grammar], [parse_dhcp_roundtrip],
      [parse_mdns_total], [read_name_roundtrip], [parse_ntp_exact]).
    - The inventory: devices are keyed, consistent and only grow; a frame
      touches its two devices only; events are exactly the news
      ([discovery_inventory_invariant], [discovery_packet_effect],
      [discovery_events_exact], [process_packet_panics_iff]); the vendor of
      an address is the one of the vendored list ([vendor_of_listed]).
    - The whole: without rules of its own, when no event is dropped and every
      alert is stored, over any interleaving of the tasks every new device is
      reported exactly once ([new_devices_reported_once]), and over any number
      of such lives of the daemon on one database, each ended by a successful
      final flush, at most once ([devices_reported_once_over_lives]); with any
      rules, when channels are full, stores fail, lives crash or their flushes fail, again only after a life that took
      the device along ([devices_reported_again_only_if_forgotten]); whatever
      the interleaving, every event and every alert tells of a frame that
      arrived or of a device that was silent ([no_false_alarms]).
    - Persistence: what a restart loads ([sqlite_restart], and with the flush
      task interleaved with the pipeline, up to the update that overtook a
      flush, [daemon_inventory_survives_restart]), what a flush does and
      what it can lose ([sqlite_flush_outcome], [flush_race_loses_update]),
      the daily history ([history_store_daily], [history_turn_exact]), the
      JSON form ([device_json_roundtrip]).
    - Alerts: the life of an alert for any store ([alert_store_lifecycle]),
      the equivalence of the two stores, up to the limits SQLite does not
      take ([alert_stores_agree]), when a rule fires and with which message,
      on every answer of the store ([evaluate_rule_exact]), never more often than its cooldown
      ([rule_cooldown_spacing]), in rule order ([process_event_in_order]).
    - Configuration: what is accepted ([config_from_str_accepts]) and the
      rules it gives ([build_rules_exact]).
    - The API: no key, no entry, alone and with the handlers behind it
      ([auth_middleware_gate], [auth_fails_closed],
      [api_serves_only_admitted]), the limiter against a specification that
      forgets nothing, overflow included ([rate_limiter_exact]), the
      answers ([device_endpoints_exact], [metrics_exact],
      [history_endpoint_exact]), acknowledging silences a rule
      ([acknowledge_request_silences]), the audit log ([audit_log_complete])
      and its file ([audit_file_reads_back]).
    - Starting up: what the wizard writes is read back as what was asked for
      ([setup_config_roundtrip]), an existing file is only replaced on demand
      and only by a text that is accepted ([setup_run_outcome]), the printed
      key opens the API and no other does ([setup_key_opens_api]), prompts
      keep what is set ([setup_prompts_exact]); [setup] then [run] agree
      ([setup_then_run_loads]); the run command on every branch, a
      panicking daemon included ([run_daemon_exact]), its guard ([pid_guard_exact]) and the guard's
      race ([pid_guard_race]); the integers of
      accepted configurations ([accepted_config_typed]); what a started daemon consists of, and when
      it starts ([start_exact]).
    - Delivery: alerts reach the notifiers in the order they were raised,
      none lost or repeated ([alerts_delivered_in_order]), and a new device
      is handed to every notifier once ([new_devices_notified_once]); as long
      as deliveries return, what was raised is delivered
      ([deliveries_drain]); one that does not return stalls the rule engine
      and loses events ([stuck_notifier_stalls_engine]).
    - At the edges: every alert reaches every notifier, and what the messages
      say ([fanout_delivers_all], [notify_messages_exact]); the dashboard
      writes nothing but the acknowledgments asked for and shows what the
      daemon has ([dashboard_only_acknowledges], [dashboard_mirrors_daemon]);
      its keys act on what is highlighted ([highlighted_is_acted_on]), its
      texts are exact ([human_bytes_exact], [status_bar_width]).
    - Agreement with the tests: each [Test*] file ends with the fact that no
      test of its suites fails ([failing _ = []]).  A test panics where the
      Rust test would; the suites check the definitions against the inputs
      and outputs their authors wrote down, independently of the theorems.

    ** What is not modelled

    Left out for good: turning widgets into cells, the scheduling of threads
    and tasks, signals, sockets, TLS, libpcap, the file system beyond the
    contents of files, the rest of the TOML language, [clap]'s parsing of
    arguments, Axum's matching of paths and decoding of queries, and tracing
    output.  Of the tests, those of
    [time.rs] (the text of [chrono]), of the vendor table (a generated file)
    and of the drawn dashboard (cells of a terminal) have no translation. *)

From Stdlib Require Export Ascii ZArith Lia.
From stdpp Require Export base tactics option numbers list strings gmap sets sorting.

#[global] Open Scope string_scope.
#[global] Open Scope list_scope.
#[global] Open Scope Z_scope.

(** * Control outcomes

    A Rust computation either returns, panics (an out-of-range index or
    slice, an arithmetic overflow in a checked build, an [expect]), or, in
    the model only, exhausts the fuel of a loop. *)

Inductive exec (A : Type) : Type :=
| Done (a : A)
| Panic
| Diverge.
Arguments Done {A} a.
Arguments Panic {A}.
Arguments Diverge {A}.

#[global] Instance exec_ret : MRet exec := fun A a => Done a.
#[global] Instance exec_bind : MBind exec := fun A B f m =>
  match m with Done a => f a | Panic => Panic | Diverge => Diverge end.

Definition is_done {A} (m : exec A) : bool :=
  match m with Done _ => true | _ => false end.

(** Rust's [Result]. *)
Inductive result (A E : Type) : Type :=
| Ok (a : A)
| Err (e : E).
Arguments Ok {A E} a.
Arguments Err {A E} e.

Definition result_ok {A E} (r : result A E) : option A :=
  match r with Ok a => Some a | Err _ => None end.

Definition is_ok {A E} (r : result A E) : bool :=
  match r with Ok _ => true | Err _ => false end.

Definition map_err {A E F} (f : E -> F) (r : result A E) : result A F :=
  match r with Ok a => Ok a | Err e => Err (f e) end.

Definition ok_or {A E} (o : option A) (e : E) : result A E :=
  match o with Some a => Ok a | None => Err e end.

(** The [?] operator, in a plain [result] and in an [exec] of a [result]. *)
Definition result_bind {A B E} (m : result A E) (f : A -> result B E) : result B E :=
  match m with Ok a => f a | Err e => Err e end.

Definition try_bind {A B E} (m : exec (result A E)) (f : A -> exec (result B E))
  : exec (result B E) :=
  match m with
  | Done (Ok a) => f a
  | Done (Err e) => Done (Err e)
  | Panic => Panic
  | Diverge => Diverge
  end.

(** [?] on an [Option] in a function that may panic. *)
Definition opt_bind {A B} (m : exec (option A)) (f : A -> exec (option B))
  : exec (option B) :=
  match m with
  | Done (Some a) => f a
  | Done None => Done None
  | Panic => Panic
  | Diverge => Diverge
  end.

Declare Scope rust_scope.
Delimit Scope rust_scope with rust.
Notation "'let?' x := m 'in' k" := (result_bind m (fun x => k))
  (at level 10, x pattern, m at level 100, k at level 200) : rust_scope.
Notation "'try!' x := m 'in' k" := (try_bind m (fun x => k))
  (at level 10, x pattern, m at level 100, k at level 200) : rust_scope.
Notation "'opt!' x := m 'in' k" := (opt_bind m (fun x => k))
  (at level 10, x pattern, m at level 100, k at level 200) : rust_scope.
Notation "'run!' x := m 'in' k" := (mbind (M:=exec) (fun x => k) m)
  (at level 10, x pattern, m at level 100, k at level 200) : rust_scope.
#[global] Open Scope rust_scope.

(** * Machine integers

    An unsigned integer of width [w] is a [Z] between 0 and its maximum;
    the operations below are the ones the source uses. *)

Definition u8_max : Z := 255.
Definition u16_max : Z := 65535.
Definition u32_max : Z := 4294967295.
Definition u64_max : Z := 18446744073709551615.
Definition i64_max : Z := 9223372036854775807.

Definition in_u8 (z : Z) : Prop := 0 <= z <= u8_max.
Definition in_u64 (z : Z) : Prop := 0 <= z <= u64_max.

(** [u64::saturating_add]. *)
Definition saturating_add_u64 (a b : Z) : Z := Z.min (a + b) u64_max.

(** The built-in [+] on [u64]: a checked build panics on overflow, a
    release build wraps. *)
Definition add_u64 (overflow_checks : bool) (a b : Z) : exec Z :=
  if a + b <=? u64_max then Done (a + b)
  else if overflow_checks then Panic else Done ((a + b) mod (u64_max + 1)).

(** [Iterator::sum] over [u64] is the left fold of the built-in [+]. *)
Fixpoint sum_u64_from (overflow_checks : bool) (acc : Z) (l : list Z) : exec Z :=
  match l with
  | [] => Done acc
  | z :: l' => run! s := add_u64 overflow_checks acc z in sum_u64_from overflow_checks s l'
  end.
Definition sum_u64 (overflow_checks : bool) (l : list Z) : exec Z :=
  sum_u64_from overflow_checks 0 l.

(** [u16::from_be_bytes] and [u32::from_be_bytes]. *)
Definition u16_from_be_bytes (a b : Z) : Z := Z.lor (Z.shiftl a 8) b.
Definition u32_from_be_bytes (a b c d : Z) : Z :=
  Z.lor (Z.shiftl (u16_from_be_bytes a b) 16) (u16_from_be_bytes c d).

(** * Byte slices

    A byte is a [Z] in [0, 256), a slice is a list of them; indexing and
    range slicing panic out of range, as in Rust. *)

Definition bytes_ok (l : list Z) : Prop := Forall in_u8 l.

Definition index (l : list Z) (i : nat) : exec Z :=
  match l !! i with Some z => Done z | None => Panic end.

(** [&l[i..]] *)
Definition slice_from (l : list Z) (i : nat) : exec (list Z) :=
  if (i <=? length l)%nat then Done (drop i l) else Panic.

(** [&l[i..j]] *)
Definition slice (l : list Z) (i j : nat) : exec (list Z) :=
  if ((i <=? j) && (j <=? length l))%nat then Done (take (j - i) (drop i l)) else Panic.

(** [l.get(i..)] *)
Definition get_from (l : list Z) (i : nat) : option (list Z) :=
  if (i <=? length l)%nat then Some (drop i l) else None.

Fixpoint starts_with_bytes (p l : list Z) : bool :=
  match p, l with
  | [], _ => true
  | _ :: _, [] => false
  | x :: p', y :: l' => (x =? y) && starts_with_bytes p' l'
  end.

(** [BTreeSet] and [BTreeMap] iterate in the order of their keys: the
    elements of a finite set, sorted by a decidable total order. *)
Definition sorted_elements {A} `{Countable A} (R : relation A) `{!RelDecision R}
  (s : gset A) : list A := merge_sort R (elements s).

(** * Tactics *)

(** Case analysis on every [exec], [result] and [option] scrutinee in sight. *)
Ltac rust_cases :=
  repeat (case_match; simplify_eq/=; try done).

Ltac bool_to_prop :=
  repeat match goal with
  | H : (_ && _)%bool = true |- _ => apply andb_true_iff in H; destruct H
  | H : (_ || _)%bool = false |- _ => apply orb_false_iff in H; destruct H
  | H : (_ <=? _)%nat = true |- _ => apply Nat.leb_le in H
  | H : (_ <=? _)%nat = false |- _ => apply Nat.leb_gt in H
  | H : (_ <? _)%nat = true |- _ => apply Nat.ltb_lt in H
  | H : (_ <? _)%nat = false |- _ => apply Nat.ltb_ge in H
  | H : (_ =? _)%nat = true |- _ => apply Nat.eqb_eq in H
  | H : (_ =? _)%nat = false |- _ => apply Nat.eqb_neq in H
  | H : (_ <=? _) = true |- _ => apply Z.leb_le in H
  | H : (_ <=? _) = false |- _ => apply Z.leb_gt in H
  | H : (_ <? _) = true |- _ => apply Z.ltb_lt in H
  | H : (_ <? _) = false |- _ => apply Z.ltb_ge in H
  | H : (_ =? _) = true |- _ => apply Z.eqb_eq in H
  | H : (_ =? _) = false |- _ => apply Z.eqb_neq in H
  | H : negb _ = true |- _ => apply negb_true_iff in H
  | H : negb _ = false |- _ => apply negb_false_iff in H
  end.

Create HintDb rust.
Create Rewrite HintDb rust.

(** * Generic lemmas *)

Lemma saturating_add_u64_bound a b : in_u64 a -> 0 <= b -> in_u64 (saturating_add_u64 a b).
Proof. unfold in_u64, saturating_add_u64, u64_max. lia. Qed.

Lemma saturating_add_u64_ge a b : in_u64 a -> 0 <= b -> a <= saturating_add_u64 a b.
Proof. unfold in_u64, saturating_add_u64, u64_max. lia. Qed.

Lemma saturating_add_u64_min n k :
  0 <= k -> saturating_add_u64 (Z.min n u64_max) k = Z.min (n + k) u64_max.
Proof. unfold saturating_add_u64, u64_max. lia. Qed.

Lemma saturating_add_u64_small a b :
  a + b <= u64_max -> saturating_add_u64 a b = a + b.
Proof. unfold saturating_add_u64. lia. Qed.

#[export] Hint Resolve saturating_add_u64_bound saturating_add_u64_ge : rust.

Lemma index_lt l i : (i < length l)%nat -> exists z, index l i = Done z /\ l !! i = Some z.
Proof.
  intros H. unfold index. destruct (lookup_lt_is_Some_2 l i H) as [z ->]. eauto.
Qed.

Lemma index_Some l i z : l !! i = Some z -> index l i = Done z.
Proof. unfold index. by intros ->. Qed.

Lemma index_panic l i : index l i = Panic <-> (length l <= i)%nat.
Proof.
  unfold index. destruct (l !! i) eqn:E.
  - apply lookup_lt_Some in E. split; [done | lia].
  - apply lookup_ge_None in E. done.
Qed.

Lemma slice_from_le l i : (i <= length l)%nat -> slice_from l i = Done (drop i l).
Proof. intros H. unfold slice_from. by rewrite (proj2 (Nat.leb_le _ _) H). Qed.

Lemma slice_from_gt l i : (length l < i)%nat -> slice_from l i = Panic.
Proof. intros H. unfold slice_from. by rewrite (proj2 (Nat.leb_gt _ _) H). Qed.

Lemma slice_in l i j :
  (i <= j)%nat -> (j <= length l)%nat -> slice l i j = Done (take (j - i) (drop i l)).
Proof.
  intros H1 H2. unfold slice.
  by rewrite (proj2 (Nat.leb_le _ _) H1), (proj2 (Nat.leb_le _ _) H2).
Qed.

Lemma starts_with_bytes_spec p l :
  starts_with_bytes p l = true <-> exists r, l = p ++ r.
Proof.
  revert l. induction p as [|x p IH]; intros l; simpl.
  { split; eauto. }
  destruct l as [|y l]; [split; [done | by intros [r Hr]]|].
  rewrite andb_true_iff, IH, Z.eqb_eq. split.
  - intros [-> [r ->]]. by exists r.
  - intros [r Hr]. injection Hr as -> ->. eauto.
Qed.

Lemma lor_shiftl_add k a b :
  0 <= k -> 0 <= a -> 0 <= b < 2 ^ k -> Z.lor (Z.shiftl a k) b = a * 2 ^ k + b.
Proof.
  intros Hk Ha Hb. rewrite Z.shiftl_mul_pow2 by lia.
  pose proof (Z.add_lor_land (a * 2 ^ k) b) as Hadd.
  enough (Z.land (a * 2 ^ k) b = 0) by lia.
  apply Z.bits_inj'. intros n Hn. rewrite Z.land_spec, Z.bits_0.
  destruct (Z.lt_ge_cases n k) as [Hlt|Hge]; [by rewrite Z.mul_pow2_bits_low|].
  destruct (Z.eq_dec b 0) as [->|Hb0]; [by rewrite Z.bits_0, andb_false_r|].
  rewrite (Z.bits_above_log2 b n), andb_false_r; [done | lia |].
  apply Z.log2_lt_pow2; [lia|]. apply Z.lt_le_trans with (2 ^ k); [lia|]. by apply Z.pow_le_mono_r.
Qed.

Lemma u16_from_be_bytes_add a b :
  0 <= a -> in_u8 b -> u16_from_be_bytes a b = 256 * a + b.
Proof.
  unfold u16_from_be_bytes, in_u8, u8_max. intros Ha Hb. rewrite lor_shiftl_add by lia. lia.
Qed.

Lemma u16_from_be_bytes_bound a b :
  in_u8 a -> in_u8 b -> 0 <= u16_from_be_bytes a b <= u16_max.
Proof.
  intros Ha Hb. rewrite u16_from_be_bytes_add by (unfold in_u8 in *; lia).
  unfold in_u8, u8_max, u16_max in *. lia.
Qed.

Lemma u32_from_be_bytes_add a b c d :
  0 <= a -> in_u8 b -> in_u8 c -> in_u8 d ->
  u32_from_be_bytes a b c d = 16777216 * a + 65536 * b + 256 * c + d.
Proof.
  intros Ha Hb Hc Hd. unfold u32_from_be_bytes. rewrite !u16_from_be_bytes_add by (unfold in_u8 in *; lia).
  unfold in_u8, u8_max in *. rewrite lor_shiftl_add by lia. lia.
Qed.

Lemma bytes_ok_lookup l i z : bytes_ok l -> l !! i = Some z -> in_u8 z.
Proof. intros Hl Hi. by eapply Forall_lookup_1. Qed.

Lemma bytes_ok_drop l n : bytes_ok l -> bytes_ok (drop n l).
Proof. apply Forall_drop. Qed.

Lemma bytes_ok_take l n : bytes_ok l -> bytes_ok (take n l).
Proof. apply Forall_take. Qed.

#[export] Hint Resolve bytes_ok_lookup bytes_ok_drop bytes_ok_take : rust.

Lemma elem_of_sorted_elements {A} `{Countable A} (R : relation A) `{!RelDecision R}
  (s : gset A) x : x ∈ sorted_elements R s <-> x ∈ s.
Proof. unfold sorted_elements. by rewrite merge_sort_Permutation, elem_of_elements. Qed.

Lemma sorted_elements_NoDup {A} `{Countable A} (R : relation A) `{!RelDecision R}
  (s : gset A) : NoDup (sorted_elements R s).
Proof. unfold sorted_elements. rewrite merge_sort_Permutation. apply NoDup_elements. Qed.

Lemma is_done_Done {A} (m : exec A) : is_done m = true -> exists a, m = Done a.
Proof. destruct m; simpl; eauto; done. Qed.

Lemma elem_of_option_list {A} (x : A) (o : option A) : x ∈ option_list o <-> o = Some x.
Proof. destruct o as [y|]; simpl; rewrite ?list_elem_of_singleton, ?elem_of_nil; naive_solver. Qed.

Lemma sublist_weaken {A} (l k1 k2 : list A) : l `sublist_of` k1 -> l `sublist_of` (k1 ++ k2).
Proof. intros H. apply sublist_inserts_r. done. Qed.

Lemma sublist_snoc {A} (l k : list A) x : l `sublist_of` k -> (l ++ [x]) `sublist_of` (k ++ [x]).
Proof. intros H. by apply sublist_app. Qed.

Lemma sublist_in {A} (l k : list A) x : l `sublist_of` k -> x ∈ l -> x ∈ k.
Proof. induction 1; rewrite ?elem_of_cons; naive_solver. Qed.

Lemma mapM_take {A B} (f : A -> option B) l k n : mapM f l = Some k -> mapM f (take n l) = Some (take n k).
Proof.
  rewrite !mapM_Some. intros H. revert n. induction H as [|x y l k Hxy Hl IH]; intros [|n]; simpl;
    constructor; auto.
Qed.

Lemma filter_sublist {A} (f : A -> bool) (l : list A) : List.filter f l `sublist_of` l.
Proof. induction l as [|x l IH]; simpl; [done|]. destruct (f x); by constructor. Qed.

Lemma filter_all {A} (P : A -> Prop) `{!forall x, Decision (P x)} (l : list A) :
  (forall x, x ∈ l -> P x) -> filter P l = l.
Proof.
  induction l as [|x l IH]; intros Hl; [done|].
  rewrite filter_cons_True by (apply Hl; left). f_equal. apply IH. intros y Hy. apply Hl. by right.
Qed.

Lemma sum_u64_from_exact oc acc l :
  Forall (fun z => 0 <= z) l -> acc + foldr Z.add 0 l <= u64_max ->
  sum_u64_from oc acc l = Done (acc + foldr Z.add 0 l).
Proof.
  intros Hl. revert acc. induction Hl as [|z l Hz Hl IH]; intros acc Hb; simpl in *.
  { f_equal. lia. }
  assert (0 <= foldr Z.add 0 l) by (clear -Hl; induction Hl; simpl; lia).
  unfold add_u64. rewrite (proj2 (Z.leb_le _ _)) by lia.
  simpl. rewrite IH by lia. f_equal. lia.
Qed.
