(* ===== verification/Text.v ===== *)
(** Rust [str] and [String]: a string is the sequence of its UTF-8 bytes
    (a Stdlib [string], one [ascii] per byte).  This file defines what the
    source uses of the standard library on strings (case folding, prefixes
    and suffixes, trimming, splitting, decimal printing and parsing, UTF-8
    validation) and proves the facts the components share. *)

From S2P Require Import Prelude.


#[global] Arguments String.append !_ _ : simpl nomatch.

Definition chr (z : Z) : ascii := Ascii.ascii_of_N (Z.to_N z).
Definition ord (c : ascii) : Z := Z.of_N (Ascii.N_of_ascii c).

(** [String::from_utf8_unchecked] and [str::as_bytes]. *)
Fixpoint string_of_bytes (l : list Z) : string :=
  match l with [] => "" | z :: l' => String (chr z) (string_of_bytes l') end.
Fixpoint as_bytes (s : string) : list Z :=
  match s with "" => [] | String c s' => ord c :: as_bytes s' end.

(** [str::to_ascii_lowercase]. *)
Definition lower_char (c : ascii) : ascii :=
  let z := ord c in if (65 <=? z) && (z <=? 90) then chr (z + 32) else c.
Fixpoint to_ascii_lowercase (s : string) : string :=
  match s with "" => "" | String c s' => String (lower_char c) (to_ascii_lowercase s') end.

(** [str::strip_prefix], [str::starts_with]. *)
Fixpoint strip_prefix (p s : string) : option string :=
  match p, s with
  | "", _ => Some s
  | String _ _, "" => None
  | String c p', String d s' => if Ascii.eqb c d then strip_prefix p' s' else None
  end.
Definition starts_with (s p : string) : bool :=
  match strip_prefix p s with Some _ => true | None => false end.

(** [str::strip_suffix]. *)
Fixpoint strip_suffix (suf s : string) : option string :=
  if String.eqb s suf then Some ""
  else match s with
       | "" => None
       | String c s' => String c <$> strip_suffix suf s'
       end.

(** [str::contains] of a string pattern. *)
Fixpoint contains (s p : string) : bool :=
  starts_with s p || match s with "" => false | String _ s' => contains s' p end.

(** [str::trim_end_matches] of one byte. *)
Fixpoint trim_end_matches (c : ascii) (s : string) : string :=
  match s with
  | "" => ""
  | String d s' =>
      match trim_end_matches c s' with
      | "" => if Ascii.eqb c d then "" else String d ""
      | r => String d r
      end
  end.

(** The UTF-8 encodings of the characters with the [White_Space] property,
    the ones [str::trim] removes. *)
Definition white_space : list string :=
  string_of_bytes <$>
  ([[9]; [10]; [11]; [12]; [13]; [32]; [194; 133]; [194; 160]; [225; 154; 128]] ++
   ((fun k => [226; 128; k]) <$> [128; 129; 130; 131; 132; 133; 134; 135; 136; 137; 138; 168; 169; 175]) ++
   [[226; 129; 159]; [227; 128; 128]]).

Definition strip_any (strip : string -> string -> option string) (l : list string) (s : string)
  : option string :=
  foldr (fun w acc => match strip w s with Some r => Some r | None => acc end) None l.

Fixpoint trim_with (strip : string -> string -> option string) (fuel : nat) (s : string) : string :=
  match fuel with
  | O => s
  | S fuel' =>
      match strip_any strip white_space s with
      | Some r => trim_with strip fuel' r
      | None => s
      end
  end.
Definition trim_start (s : string) : string := trim_with strip_prefix (String.length s) s.
Definition trim_end (s : string) : string := trim_with strip_suffix (String.length s) s.
Definition trim (s : string) : string := trim_end (trim_start s).
Definition is_empty (s : string) : bool := match s with "" => true | _ => false end.

(** [str::split(c).next()]: the part before the first separator. *)
Fixpoint split_first (c : ascii) (s : string) : string :=
  match s with
  | "" => ""
  | String d s' => if Ascii.eqb c d then "" else String d (split_first c s')
  end.

Definition newline : ascii := "010".
Definition nl : string := String newline "".
Definition dquote : ascii := "034".
Definition backslash : ascii := "092".

(** [str::split(c)]. *)
Fixpoint split_on (c : ascii) (s : string) : list string :=
  match s with
  | "" => [""]
  | String d s' =>
      if Ascii.eqb c d then "" :: split_on c s'
      else match split_on c s' with
           | p :: ps => String d p :: ps
           | [] => [String d ""]
           end
  end.

(** [str::replace] of one byte by a string. *)
Fixpoint replace_char (c : ascii) (by_ : string) (s : string) : string :=
  match s with
  | "" => ""
  | String d s' =>
      if Ascii.eqb c d then by_ +:+ replace_char c by_ s' else String d (replace_char c by_ s')
  end.

(** [<[String]>::join]. *)
Fixpoint join (sep : string) (l : list string) : string :=
  match l with
  | [] => ""
  | [s] => s
  | s :: l' => s +:+ sep +:+ join sep l'
  end.

(** * Unsigned decimals: [Display] and [FromStr] of the integer types *)

Definition digit (d : Z) : ascii := chr (48 + d).
Definition digit_value (c : ascii) : option Z :=
  let z := ord c in if (48 <=? z) && (z <=? 57) then Some (z - 48) else None.

(** The digits of [n] in front of [acc]; twenty digits hold every [u64]. *)
Fixpoint fmt_go (fuel : nat) (n : Z) (acc : string) : string :=
  match fuel with
  | O => acc
  | S fuel' =>
      let acc' := String (digit (n mod 10)) acc in
      if n <? 10 then acc' else fmt_go fuel' (n / 10) acc'
  end.
Definition fmt_uint (n : Z) : string := fmt_go 20 n "".

(** [from_str_radix(_, 10)]: every step is checked against the maximum. *)
Fixpoint parse_digits (max acc : Z) (s : string) : option Z :=
  match s with
  | "" => Some acc
  | String c s' =>
      match digit_value c with
      | Some d => if acc * 10 + d <=? max then parse_digits max (acc * 10 + d) s' else None
      | None => None
      end
  end.
(** An optional plus sign, then at least one digit. *)
Definition parse_uint (max : Z) (s : string) : option Z :=
  match s with
  | "" => None
  | String c s' =>
      if Ascii.eqb c "+" then match s' with "" => None | _ => parse_digits max 0 s' end
      else parse_digits max 0 s
  end.

(** * UTF-8 validation, [std::str::from_utf8] *)

Definition in_range (lo hi z : Z) : bool := (lo <=? z) && (z <=? hi).
Definition cont (z : Z) : bool := in_range 128 191 z.

Fixpoint utf8_valid (l : list Z) : bool :=
  match l with
  | [] => true
  | a :: l1 =>
      if in_range 0 127 a then utf8_valid l1
      else match l1 with
      | [] => false
      | b :: l2 =>
          if in_range 194 223 a then cont b && utf8_valid l2
          else match l2 with
          | [] => false
          | c :: l3 =>
              if (a =? 224) then in_range 160 191 b && cont c && utf8_valid l3
              else if (a =? 237) then in_range 128 159 b && cont c && utf8_valid l3
              else if in_range 225 239 a then cont b && cont c && utf8_valid l3
              else match l3 with
              | [] => false
              | d :: l4 =>
                  if (a =? 240) then in_range 144 191 b && cont c && cont d && utf8_valid l4
                  else if (a =? 244) then in_range 128 143 b && cont c && cont d && utf8_valid l4
                  else if in_range 241 243 a then cont b && cont c && cont d && utf8_valid l4
                  else false
              end
          end
      end
  end.
Definition from_utf8 (l : list Z) : option string :=
  if utf8_valid l then Some (string_of_bytes l) else None.

(** * Hexadecimal digits *)
Definition hex_value (c : ascii) : option Z :=
  let z := ord c in
  if in_range 48 57 z then Some (z - 48)
  else if in_range 65 70 z then Some (z - 55)
  else if in_range 97 102 z then Some (z - 87)
  else None.
Definition hex_digit (d : Z) : ascii := if d <? 10 then chr (48 + d) else chr (55 + d).
Definition is_ascii_hexdigit (c : ascii) : bool :=
  let z := ord c in in_range 48 57 z || in_range 65 70 z || in_range 97 102 z.
Fixpoint all_chars (f : ascii -> bool) (s : string) : bool :=
  match s with "" => true | String c s' => f c && all_chars f s' end.

(** [str::repeat]. *)
Fixpoint repeat_str (n : nat) (s : string) : string :=
  match n with O => "" | S n' => s +:+ repeat_str n' s end.

(** [s.chars().count()]: the bytes that start a character. *)
Fixpoint char_count (s : string) : nat :=
  match s with
  | "" => O
  | String c s' => if cont (ord c) then char_count s' else S (char_count s')
  end.

Definition is_ascii_char (c : ascii) : bool := ord c <? 128.

(** A line, without its end. *)
Definition no_newline (s : string) : bool := all_chars (fun c => negb (Ascii.eqb newline c)) s.

(** * Lemmas *)

Lemma ord_chr z : in_u8 z -> ord (chr z) = z.
Proof.
  unfold in_u8, u8_max, ord, chr. intros H.
  rewrite Ascii.N_ascii_embedding by lia. lia.
Qed.

Lemma chr_ord c : chr (ord c) = c.
Proof. unfold chr, ord. rewrite N2Z.id. apply Ascii.ascii_N_embedding. Qed.

Lemma ord_bound c : in_u8 (ord c).
Proof. unfold in_u8, u8_max, ord. pose proof (Ascii.N_ascii_bounded c). lia. Qed.

Lemma as_bytes_string_of_bytes l : bytes_ok l -> as_bytes (string_of_bytes l) = l.
Proof. induction 1 as [|z l Hz Hl IH]; simpl; [done|]. by rewrite ord_chr, IH. Qed.

Lemma string_of_bytes_as_bytes s : string_of_bytes (as_bytes s) = s.
Proof. induction s; simpl; [done|]. by rewrite chr_ord, IHs. Qed.

Lemma bytes_ok_as_bytes s : bytes_ok (as_bytes s).
Proof. induction s; constructor; [apply ord_bound | done]. Qed.

Lemma length_as_bytes s : length (as_bytes s) = String.length s.
Proof. induction s; simpl; congruence. Qed.

Lemma string_app_nil_r s : s +:+ "" = s.
Proof. induction s; simpl; congruence. Qed.

Lemma string_app_assoc a b c : (a +:+ b) +:+ c = a +:+ (b +:+ c).
Proof. induction a; simpl; congruence. Qed.

Lemma string_length_app a b : String.length (a +:+ b) = (String.length a + String.length b)%nat.
Proof. induction a; simpl; congruence. Qed.

Lemma strip_prefix_app p s : strip_prefix p (p +:+ s) = Some s.
Proof. induction p; simpl; [done|]. by rewrite Ascii.eqb_refl. Qed.

Lemma strip_prefix_Some p s r : strip_prefix p s = Some r <-> s = p +:+ r.
Proof.
  revert s. induction p as [|c p IH]; intros s; simpl.
  { split; congruence. }
  destruct s as [|d s]; [done|].
  destruct (Ascii.eqb_spec c d) as [->|Hne].
  - rewrite IH. split; congruence.
  - split; congruence.
Qed.

Lemma starts_with_spec s p : starts_with s p = true <-> exists r, s = p +:+ r.
Proof.
  unfold starts_with. destruct (strip_prefix p s) as [r|] eqn:E.
  - apply strip_prefix_Some in E. split; eauto.
  - split; [done|]. intros [r Hr]. apply strip_prefix_Some in Hr. congruence.
Qed.

Lemma strip_suffix_app suf r : strip_suffix suf (r +:+ suf) = Some r.
Proof.
  induction r as [|c r IH]; cbn [String.append strip_suffix].
  { destruct suf; cbn [strip_suffix]; by rewrite String.eqb_refl. }
  assert (String.eqb (String c (r +:+ suf)) suf = false) as ->.
  { apply String.eqb_neq. intros H. apply (f_equal String.length) in H. simpl in H.
    rewrite string_length_app in H. lia. }
  by rewrite IH.
Qed.

Lemma strip_suffix_Some suf s r : strip_suffix suf s = Some r <-> s = r +:+ suf.
Proof.
  split; [|intros ->; apply strip_suffix_app].
  revert r. induction s as [|c s IH]; intros r; cbn [strip_suffix].
  - case_match eqn:E; intros; simplify_eq. by apply String.eqb_eq in E.
  - case_match eqn:E; [intros; simplify_eq; by apply String.eqb_eq in E|].
    intros (r' & Hr & ->)%fmap_Some. by rewrite (IH _ Hr).
Qed.

Lemma contains_spec s p : contains s p = true <-> exists a b, s = a +:+ (p +:+ b).
Proof.
  induction s as [|c s IH]; simpl; rewrite orb_true_iff, starts_with_spec.
  - split.
    + intros [[r Hr]|]; [|done]. exists "", r. done.
    + intros (a & b & H). destruct a; [left; exists b; done | done].
  - rewrite IH. split.
    + intros [[r Hr]|(a & b & ->)]; [exists "", r; done | exists (String c a), b; done].
    + intros ([|d a] & b & H); simpl in H; [left; eauto | right].
      injection H as -> ->. eauto.
Qed.

Lemma lower_char_idemp c : lower_char (lower_char c) = lower_char c.
Proof. destruct c as [[] [] [] [] [] [] [] []]; reflexivity. Qed.

Lemma to_ascii_lowercase_idemp s :
  to_ascii_lowercase (to_ascii_lowercase s) = to_ascii_lowercase s.
Proof. induction s; simpl; [done|]. by rewrite lower_char_idemp, IHs. Qed.

Lemma all_chars_app f a b : all_chars f (a +:+ b) = all_chars f a && all_chars f b.
Proof. induction a; simpl; [done|]. by rewrite IHa, andb_assoc. Qed.

Lemma all_chars_weaken f g s :
  (forall c, f c = true -> g c = true) -> all_chars f s = true -> all_chars g s = true.
Proof.
  intros Hfg. induction s as [|c s IH]; simpl; [done|]. rewrite !andb_true_iff. naive_solver.
Qed.

Lemma split_on_line l rest :
  no_newline l = true -> split_on newline (l +:+ String newline rest) = l :: split_on newline rest.
Proof.
  unfold no_newline. induction l as [|c l IH]; cbn [String.append split_on all_chars].
  { by rewrite Ascii.eqb_refl. }
  rewrite andb_true_iff, negb_true_iff. intros [-> Hl]. by rewrite IH.
Qed.

Lemma char_count_app a b : char_count (a +:+ b) = (char_count a + char_count b)%nat.
Proof. induction a as [|c a IH]; cbn [String.append char_count]; [done|]. case_match; rewrite IH; done. Qed.

Lemma char_count_repeat n s : char_count (repeat_str n s) = (n * char_count s)%nat.
Proof. induction n; cbn [repeat_str]; [done|]. rewrite char_count_app, IHn. lia. Qed.

Lemma char_count_ascii s : all_chars is_ascii_char s = true -> char_count s = String.length s.
Proof.
  induction s as [|c s IH]; cbn [all_chars char_count String.length]; [done|].
  rewrite andb_true_iff. intros [Hc Hs]. rewrite (IH Hs).
  assert (cont (ord c) = false) as ->; [|done].
  unfold is_ascii_char, cont, in_range in *. bool_to_prop. apply andb_false_iff. left.
  apply Z.leb_gt. lia.
Qed.

Lemma trim_end_matches_last c s :
  trim_end_matches c s = s \/ exists s', s = s' +:+ String c "".
Proof.
  induction s as [|d s IH]; simpl; [by left|].
  destruct IH as [IH|[s' ->]]; [|right; by exists (String d s')].
  rewrite IH. destruct s as [|e s]; [|by left].
  destruct (Ascii.eqb_spec c d) as [->|]; [right; by exists "" | by left].
Qed.

Lemma digit_value_digit d : 0 <= d < 10 -> digit_value (digit d) = Some d.
Proof.
  intros Hd. unfold digit_value, digit. rewrite ord_chr by (unfold in_u8, u8_max; lia).
  rewrite (proj2 (Z.leb_le _ _)), (proj2 (Z.leb_le _ _)) by lia. simpl. f_equal. lia.
Qed.

(** Printing in front of [acc] and reading back is reading [acc] from [n]. *)
Lemma parse_fmt_go max fuel n acc :
  0 <= n < 10 ^ Z.of_nat fuel -> n <= max -> (0 < fuel)%nat ->
  parse_digits max 0 (fmt_go fuel n acc) = parse_digits max n acc.
Proof.
  revert n acc. induction fuel as [|fuel IH]; intros n acc Hn Hmax Hf; [lia|].
  cbn [fmt_go]. destruct (n <? 10) eqn:E; bool_to_prop.
  - rewrite Z.mod_small by lia. cbn [parse_digits]. rewrite digit_value_digit by lia.
    rewrite (proj2 (Z.leb_le _ _)) by lia. f_equal; lia.
  - rewrite Nat2Z.inj_succ, Z.pow_succ_r in Hn by lia.
    pose proof (Z.div_mod n 10). pose proof (Z.mod_pos_bound n 10).
    assert (0 <= n / 10 < 10 ^ Z.of_nat fuel).
    { split; [apply Z.div_pos; lia|]. apply Z.div_lt_upper_bound; lia. }
    assert (0 < fuel)%nat.
    { destruct fuel; [simpl in *; lia|lia]. }
    rewrite IH by lia. cbn [parse_digits]. rewrite digit_value_digit by lia.
    rewrite (proj2 (Z.leb_le _ _)) by lia. f_equal. lia.
Qed.

Lemma fmt_go_head fuel n acc :
  (0 < fuel)%nat -> exists d s, 0 <= d < 10 /\ fmt_go fuel n acc = String (digit d) s.
Proof.
  revert n acc. induction fuel as [|fuel IH]; intros n acc Hf; [lia|]. cbn [fmt_go].
  pose proof (Z.mod_pos_bound n 10).
  case_match; [eauto with lia|].
  destruct fuel; [simpl; eauto with lia|]. apply IH. lia.
Qed.

Lemma digit_not_plus d : 0 <= d < 10 -> Ascii.eqb (digit d) "+" = false.
Proof.
  intros Hd. apply Ascii.eqb_neq. intros H. apply (f_equal ord) in H.
  unfold digit in H. rewrite ord_chr in H by (unfold in_u8, u8_max; lia).
  change (ord "+") with 43 in H. lia.
Qed.

(** [FromStr] reads back what [Display] writes. *)
Lemma parse_fmt_uint max n : 0 <= n <= max -> max <= u64_max -> parse_uint max (fmt_uint n) = Some n.
Proof.
  intros Hn Hmax. unfold fmt_uint.
  destruct (fmt_go_head 20 n "") as (d & s & Hd & E); [lia|].
  unfold parse_uint. rewrite E, digit_not_plus, <- E by lia.
  rewrite parse_fmt_go; [done | | lia | lia].
  unfold u64_max in Hmax. change (10 ^ Z.of_nat 20) with 100000000000000000000. lia.
Qed.

Lemma parse_digits_bound max acc s n :
  0 <= acc <= max -> parse_digits max acc s = Some n -> acc <= n <= max.
Proof.
  revert acc. induction s as [|c s IH]; intros acc Hacc; cbn [parse_digits].
  { intros; simplify_eq; lia. }
  unfold digit_value. destruct (_ && _) eqn:E; [|done].
  case_match eqn:Hle; [|done]. bool_to_prop. intros Hp%IH; lia.
Qed.

Lemma parse_uint_bound max s n : 0 <= max -> parse_uint max s = Some n -> 0 <= n <= max.
Proof.
  intros Hmax. unfold parse_uint. destruct s as [|c s]; [done|].
  case_match; [destruct s; [done|]|]; intros Hp%parse_digits_bound; lia.
Qed.

Lemma fmt_uint_inj m n : in_u64 m -> in_u64 n -> fmt_uint m = fmt_uint n -> m = n.
Proof.
  unfold in_u64. intros Hm Hn H.
  pose proof (parse_fmt_uint u64_max m ltac:(lia) ltac:(lia)) as E.
  rewrite H, parse_fmt_uint in E by lia. congruence.
Qed.

Lemma from_utf8_Some l s : from_utf8 l = Some s -> utf8_valid l = true /\ s = string_of_bytes l.
Proof. unfold from_utf8. case_match; intros; by simplify_eq. Qed.

(** Seven-bit bytes are always valid UTF-8. *)
Lemma utf8_valid_ascii l : Forall (fun z => 0 <= z <= 127) l -> utf8_valid l = true.
Proof.
  induction 1 as [|z l Hz Hl IH]; [done|]. cbn [utf8_valid]. unfold in_range at 1.
  rewrite (proj2 (Z.leb_le _ _)), (proj2 (Z.leb_le _ _)) by lia. done.
Qed.

Lemma hex_value_digit d : 0 <= d < 16 -> hex_value (hex_digit d) = Some d.
Proof.
  intros Hd. unfold hex_value, hex_digit, in_range.
  destruct (d <? 10) eqn:E; bool_to_prop; rewrite ord_chr by (unfold in_u8, u8_max; lia);
    repeat case_match; bool_to_prop; f_equal; try lia.
  all: repeat match goal with H : _ && _ = false |- _ => apply andb_false_iff in H end.
  all: repeat match goal with H : _ \/ _ |- _ => destruct H end; bool_to_prop; lia.
Qed.

#[export] Hint Rewrite strip_prefix_app strip_suffix_app to_ascii_lowercase_idemp : rust.
