(* ===== verification/Types.v ===== *)
(** The domain model of [crates/common]: protocols, addresses, timestamps,
    the [Device] record with its counters, alerts, history snapshots and the
    error types, with the interfaces of the crates their text forms need. *)

From S2P Require Import Prelude Text.

(** * Addresses *)

(** [mac_address::MacAddress]: six octets. *)
Record MacAddress : Type := mkMac {
  mac0 : Z; mac1 : Z; mac2 : Z; mac3 : Z; mac4 : Z; mac5 : Z
}.
#[global] Instance MacAddress_eq_dec : EqDecision MacAddress.
Proof. solve_decision. Defined.
#[global] Instance MacAddress_countable : Countable MacAddress.
Proof.
  apply (inj_countable' (fun m => (mac0 m, mac1 m, mac2 m, mac3 m, mac4 m, mac5 m))
    (fun t => match t with (a, b, c, d, e, f) => mkMac a b c d e f end)).
  by intros [].
Defined.
Definition octets_ok (m : MacAddress) : Prop :=
  in_u8 (mac0 m) /\ in_u8 (mac1 m) /\ in_u8 (mac2 m) /\
  in_u8 (mac3 m) /\ in_u8 (mac4 m) /\ in_u8 (mac5 m).
Definition mac_of_bytes (l : list Z) : option MacAddress :=
  match l with [a; b; c; d; e; f] => Some (mkMac a b c d e f) | _ => None end.
Definition mac_eqb (a b : MacAddress) : bool := bool_decide (a = b).

(** [std::net::IpAddr]: the 32 or 128 bits of the address. *)
Inductive IpAddr : Type := V4 (bits : Z) | V6 (bits : Z).
#[global] Instance IpAddr_eq_dec : EqDecision IpAddr.
Proof. solve_decision. Defined.
#[global] Instance IpAddr_countable : Countable IpAddr.
Proof.
  apply (inj_countable' (fun i => match i with V4 z => inl z | V6 z => inr z end)
    (fun s => match s with inl z => V4 z | inr z => V6 z end)).
  by intros [].
Defined.

Definition ip_ok (i : IpAddr) : Prop :=
  match i with V4 z => 0 <= z <= u32_max | V6 z => 0 <= z < 2 ^ 128 end.

(** The derived order of [IpAddr]: every IPv4 address before every IPv6 one. *)
Definition ip_le (a b : IpAddr) : Prop :=
  match a, b with
  | V4 x, V4 y | V6 x, V6 y => x <= y
  | V4 _, V6 _ => True
  | V6 _, V4 _ => False
  end.
#[global] Instance ip_le_dec : RelDecision ip_le.
Proof. intros [] []; simpl; apply _. Defined.

(** * Timestamps, [common/src/time.rs]

    A [DateTime<Utc>] is its number of nanoseconds since the Unix epoch. *)

Definition Timestamp : Type := Z.
Definition ns_per_ms : Z := 1000000.
Definition ns_per_s : Z := 1000000000.
(** [timestamp_millis] then [from_timestamp_millis]. *)
Definition deserialize_iso8601 (dt : Z) : Timestamp := (dt / ns_per_ms) * ns_per_ms.

(** Monotonic instants ([std::time::Instant]) and durations, in nanoseconds. *)
Notation Instant := Z (only parsing).
Definition from_secs (s : Z) : Z := s * ns_per_s.
(** [Instant::duration_since] saturates at zero. *)
Definition duration_since (now t : Instant) : Z := Z.max 0 (now - t).

(** * Protocols *)

Inductive Protocol : Type :=
| Arp | Ipv4 | Icmp | Tcp | Udp | Dns | Dhcp | Http | Https | Mdns | Ntp
| Other (n : Z).
#[global] Instance Protocol_eq_dec : EqDecision Protocol.
Proof. solve_decision. Defined.

(** The order of the variants; [Other n] is compared by [n]. *)
Definition protocol_rank (p : Protocol) : Z :=
  match p with
  | Arp => 0 | Ipv4 => 1 | Icmp => 2 | Tcp => 3 | Udp => 4 | Dns => 5 | Dhcp => 6
  | Http => 7 | Https => 8 | Mdns => 9 | Ntp => 10 | Other _ => 11
  end.
Definition protocol_arg (p : Protocol) : Z := match p with Other n => n | _ => 0 end.
Definition protocol_of_rank (r n : Z) : Protocol :=
  match r with
  | 0 => Arp | 1 => Ipv4 | 2 => Icmp | 3 => Tcp | 4 => Udp | 5 => Dns | 6 => Dhcp
  | 7 => Http | 8 => Https | 9 => Mdns | 10 => Ntp | _ => Other n
  end.
#[global] Instance Protocol_countable : Countable Protocol.
Proof.
  apply (inj_countable' (fun p => (protocol_rank p, protocol_arg p))
    (fun t => protocol_of_rank t.1 t.2)).
  by intros [].
Defined.
Definition protocol_le (a b : Protocol) : Prop :=
  protocol_rank a < protocol_rank b \/
  protocol_rank a = protocol_rank b /\ protocol_arg a <= protocol_arg b.
#[global] Instance protocol_le_dec : RelDecision protocol_le.
Proof. intros a b. unfold protocol_le. apply _. Defined.
Definition protocol_ok (p : Protocol) : Prop :=
  match p with Other n => in_u8 n | _ => True end.

(** [impl Display for Protocol]. *)
Definition protocol_display (p : Protocol) : string :=
  match p with
  | Arp => "ARP" | Ipv4 => "IPv4" | Icmp => "ICMP" | Tcp => "TCP" | Udp => "UDP"
  | Dns => "DNS" | Dhcp => "DHCP" | Http => "HTTP" | Https => "HTTPS"
  | Mdns => "mDNS" | Ntp => "NTP"
  | Other n => "UNKNOWN(" +:+ fmt_uint n +:+ ")"
  end.

(** [impl FromStr for Protocol]. *)
Definition protocol_from_str (s : string) : result Protocol string :=
  if String.eqb s "ARP" then Ok Arp
  else if String.eqb s "IPv4" then Ok Ipv4
  else if String.eqb s "ICMP" then Ok Icmp
  else if String.eqb s "TCP" then Ok Tcp
  else if String.eqb s "UDP" then Ok Udp
  else if String.eqb s "DNS" then Ok Dns
  else if String.eqb s "DHCP" then Ok Dhcp
  else if String.eqb s "HTTP" then Ok Http
  else if String.eqb s "HTTPS" then Ok Https
  else if String.eqb s "mDNS" then Ok Mdns
  else if String.eqb s "NTP" then Ok Ntp
  else match (strip_prefix "UNKNOWN(" s ≫= strip_suffix ")") ≫= parse_uint u8_max with
       | Some n => Ok (Other n)
       | None => Err ("unknown protocol: " +:+ s)
       end.

(** [serialize_protocol_stats]: the entries, in key order, under their
    [Display] form. *)
Definition stats_entries (stats : gmap Protocol Z) : list (Protocol * Z) :=
  merge_sort (fun a b => protocol_le a.1 b.1) (map_to_list stats).
Definition serialize_protocol_stats (stats : gmap Protocol Z) : list (string * Z) :=
  (fun e => (protocol_display e.1, e.2)) <$> stats_entries stats.

(** [deserialize_protocol_stats]: the loop over the raw map, entries in the
    order the hash map yields them; keys that do not parse are dropped. *)
Definition deserialize_protocol_stats (raw : list (string * Z)) : gmap Protocol Z :=
  foldl (fun m e => match protocol_from_str e.1 with
                    | Ok proto => <[proto := e.2]> m
                    | Err _ => m
                    end) ∅ raw.

(** * Devices *)

Module Device.
Record t : Type := mk {
  mac : MacAddress;
  ips : gset IpAddr;
  hostname : option string;
  first_seen : Timestamp;
  last_seen : Timestamp;
  packet_count : Z;
  bytes_sent : Z;
  bytes_received : Z;
  protocols : gset Protocol;
  vendor : option string;
  dhcp_vendor_class : option string;
  protocol_stats : gmap Protocol Z
}.
#[global] Instance eq_dec : EqDecision t.
Proof. solve_decision. Defined.

(** [Device::new] at time [now]. *)
Definition new (m : MacAddress) (now : Timestamp) : t :=
  mk m ∅ None now now 0 0 0 ∅ None None ∅.

(** [entry(protocol).or_insert(0)], then a saturating increment. *)
Definition bump (stats : gmap Protocol Z) (p : Protocol) : gmap Protocol Z :=
  <[p := saturating_add_u64 (default 0 (stats !! p)) 1]> stats.

Definition record_sent (d : t) (bytes : Z) (p : Protocol) (now : Timestamp) : t :=
  mk (mac d) (ips d) (hostname d) (first_seen d) now
     (saturating_add_u64 (packet_count d) 1)
     (saturating_add_u64 (bytes_sent d) bytes)
     (bytes_received d)
     ({[p]} ∪ protocols d) (vendor d) (dhcp_vendor_class d)
     (bump (protocol_stats d) p).

Definition record_received (d : t) (bytes : Z) (p : Protocol) (now : Timestamp) : t :=
  mk (mac d) (ips d) (hostname d) (first_seen d) now
     (saturating_add_u64 (packet_count d) 1)
     (bytes_sent d)
     (saturating_add_u64 (bytes_received d) bytes)
     ({[p]} ∪ protocols d) (vendor d) (dhcp_vendor_class d)
     (bump (protocol_stats d) p).

Definition add_ip (d : t) (ip : IpAddr) : t :=
  mk (mac d) ({[ip]} ∪ ips d) (hostname d) (first_seen d) (last_seen d)
     (packet_count d) (bytes_sent d) (bytes_received d) (protocols d) (vendor d)
     (dhcp_vendor_class d) (protocol_stats d).

(** Field assignments ([device.hostname = ...] and the like). *)
Definition set_hostname (h : option string) (d : t) : t :=
  mk (mac d) (ips d) h (first_seen d) (last_seen d) (packet_count d) (bytes_sent d)
     (bytes_received d) (protocols d) (vendor d) (dhcp_vendor_class d) (protocol_stats d).
Definition set_vendor (v : option string) (d : t) : t :=
  mk (mac d) (ips d) (hostname d) (first_seen d) (last_seen d) (packet_count d) (bytes_sent d)
     (bytes_received d) (protocols d) v (dhcp_vendor_class d) (protocol_stats d).
Definition set_dhcp_vendor_class (v : option string) (d : t) : t :=
  mk (mac d) (ips d) (hostname d) (first_seen d) (last_seen d) (packet_count d) (bytes_sent d)
     (bytes_received d) (protocols d) (vendor d) v (protocol_stats d).

(** The well-formedness every operation keeps: counters in range, a count
    for exactly the protocols seen, each of them positive. *)
Definition wf (d : t) : Prop :=
  in_u64 (packet_count d) /\ in_u64 (bytes_sent d) /\ in_u64 (bytes_received d) /\
  protocols d = dom (protocol_stats d) /\
  map_Forall (fun _ n => 1 <= n <= u64_max) (protocol_stats d).

(** The calls a device record receives from the pipeline. *)
Inductive op : Type :=
| Sent (bytes : Z) (p : Protocol) (now : Timestamp)
| Received (bytes : Z) (p : Protocol) (now : Timestamp)
| AddIp (ip : IpAddr).
Definition apply (d : t) (o : op) : t :=
  match o with
  | Sent b p now => record_sent d b p now
  | Received b p now => record_received d b p now
  | AddIp ip => add_ip d ip
  end.
Definition op_ok (o : op) : Prop :=
  match o with Sent b _ _ | Received b _ _ => 0 <= b | AddIp _ => True end.

(** What a trace of calls adds up to, before saturation. *)
Definition op_packets (o : op) : Z := match o with AddIp _ => 0 | _ => 1 end.
Definition op_sent (o : op) : Z := match o with Sent b _ _ => b | _ => 0 end.
Definition op_received (o : op) : Z := match o with Received b _ _ => b | _ => 0 end.
(** How often a trace touches protocol [p]. *)
Definition op_proto (p : Protocol) (o : op) : Z :=
  match o with
  | Sent _ q _ | Received _ q _ => if decide (p = q) then 1 else 0
  | AddIp _ => 0
  end.
Definition total (f : op -> Z) (l : list op) : Z := foldr (fun o n => f o + n) 0 l.
End Device.

(** * Errors *)

Inductive PacketError : Type :=
| Truncated (expected actual : nat)
| UnsupportedLinkType (n : Z)
| CaptureOpen (interface source : string)
| Capture (msg : string).

Inductive StorageError : Type :=
| DeviceNotFound (s : string)
| Internal (s : string).

(** The texts of [thiserror]. *)
Definition packet_error_display (e : PacketError) : string :=
  match e with
  | CaptureOpen interface source =>
      "failed to open capture interface '" +:+ interface +:+ "': " +:+ source
  | Truncated expected actual =>
      "packet too short: expected at least " +:+ fmt_uint (Z.of_nat expected) +:+ " bytes, got " +:+
      fmt_uint (Z.of_nat actual)
  | UnsupportedLinkType n => "unsupported link type: " +:+ fmt_uint n
  | Capture msg => "capture error: " +:+ msg
  end.
Definition storage_error_display (e : StorageError) : string :=
  match e with
  | DeviceNotFound s => "device not found: " +:+ s
  | Internal s => "storage error: " +:+ s
  end.

(** * Alerts *)

Inductive Severity : Type := Info | Warning | Critical.
#[global] Instance Severity_eq_dec : EqDecision Severity.
Proof. solve_decision. Defined.

Definition severity_display (s : Severity) : string :=
  match s with Info => "info" | Warning => "warning" | Critical => "critical" end.

Definition severity_from_str (s : string) : result Severity string :=
  let l := to_ascii_lowercase s in
  if String.eqb l "info" then Ok Info
  else if String.eqb l "warning" || String.eqb l "warn" then Ok Warning
  else if String.eqb l "critical" then Ok Critical
  else Err ("invalid severity '" +:+ s +:+ "': expected info, warning, or critical").

Inductive AlertEventType : Type :=
| NewDevice | DeviceOffline | ProtocolChange | Custom (s : string).
#[global] Instance AlertEventType_eq_dec : EqDecision AlertEventType.
Proof. solve_decision. Defined.

Definition event_type_display (e : AlertEventType) : string :=
  match e with
  | NewDevice => "new_device"
  | DeviceOffline => "device_offline"
  | ProtocolChange => "protocol_change"
  | Custom s => s
  end.

Notation AlertId := Z (only parsing).

Module Alert.
Record t : Type := mk {
  id : AlertId;
  rule_name : string;
  severity : Severity;
  event_type : AlertEventType;
  mac : MacAddress;
  message : string;
  device_snapshot : Device.t;
  timestamp : Timestamp;
  acknowledged : bool
}.
#[global] Instance eq_dec : EqDecision t.
Proof. solve_decision. Defined.

(** [Alert::new] at time [now]. *)
Definition new (rule_name : string) (severity : Severity) (event_type : AlertEventType)
  (device : Device.t) (message : string) (now : Timestamp) : t :=
  mk 0 rule_name severity event_type (Device.mac device) message device now false.

Definition set_id (i : AlertId) (a : t) : t :=
  mk i (rule_name a) (severity a) (event_type a) (mac a) (message a)
     (device_snapshot a) (timestamp a) (acknowledged a).
Definition set_acknowledged (b : bool) (a : t) : t :=
  mk (id a) (rule_name a) (severity a) (event_type a) (mac a) (message a)
     (device_snapshot a) (timestamp a) b.
End Alert.

(** * Device history snapshots, [common/src/history_store.rs] *)

Module Snapshot.
Record t : Type := mk {
  mac : MacAddress;
  snapshot_date : string;
  snapshot_timestamp : Timestamp;
  ips : gset IpAddr;
  hostname : option string;
  vendor : option string;
  dhcp_vendor_class : option string;
  packet_count : Z;
  bytes_sent : Z;
  bytes_received : Z;
  protocols : gset Protocol;
  protocol_stats : gmap Protocol Z;
  first_seen : Timestamp;
  last_seen : Timestamp
}.
#[global] Instance eq_dec : EqDecision t.
Proof. solve_decision. Defined.

(** [DeviceHistorySnapshot::from_device] at time [now]. *)
Definition from_device (d : Device.t) (date : string) (now : Timestamp) : t :=
  mk (Device.mac d) date now (Device.ips d) (Device.hostname d) (Device.vendor d)
     (Device.dhcp_vendor_class d) (Device.packet_count d) (Device.bytes_sent d)
     (Device.bytes_received d) (Device.protocols d) (Device.protocol_stats d)
     (Device.first_seen d) (Device.last_seen d).
End Snapshot.

(** * Interfaces of the crates the text forms come from *)

(** [mac_address]: [Display] and [FromStr] of a MAC address. *)
Class MacText : Type := {
  mac_to_string : MacAddress -> string;
  mac_parse : string -> option MacAddress
}.
Class MacTextLaws `{!MacText} : Prop := {
  mac_parse_to_string m : octets_ok m -> mac_parse (mac_to_string m) = Some m
}.

(** [std::net::IpAddr]: [Display] and [FromStr]. *)
Class IpText : Type := {
  ip_to_string : IpAddr -> string;
  ip_parse : string -> option IpAddr
}.
Class IpTextLaws `{!IpText} : Prop := {
  ip_parse_to_string i : ip_ok i -> ip_parse (ip_to_string i) = Some i
}.

(** [chrono]: [format("%Y-%m-%dT%H:%M:%S%.3fZ")], which keeps milliseconds,
    the RFC 3339 parser, and [format("%Y-%m-%d")]; the parser reads back what
    the formatter wrote for the years 1970 to 9999. *)
Definition chrono_range (ts : Timestamp) : Prop := 0 <= ts < 253402300800 * ns_per_s.
Class Chrono : Type := {
  fmt_iso8601 : Timestamp -> string;
  parse_datetime : string -> option Timestamp;
  fmt_date : Timestamp -> string
}.
Class ChronoLaws `{!Chrono} : Prop := {
  parse_fmt_iso8601 ts :
    chrono_range ts -> parse_datetime (fmt_iso8601 ts) = Some (deserialize_iso8601 ts);
  fmt_iso8601_ms ts : fmt_iso8601 (deserialize_iso8601 ts) = fmt_iso8601 ts
}.

(** [impl Display for Timestamp]. *)
Definition timestamp_display `{!Chrono} (ts : Timestamp) : string := fmt_iso8601 ts.

(** * Lemmas *)

Lemma fmt_uint_u8_parse n : in_u8 n -> parse_uint u8_max (fmt_uint n) = Some n.
Proof. intros Hn. apply parse_fmt_uint; unfold in_u8, u8_max, u64_max in *; lia. Qed.

(** [FromStr] inverts [Display] on every protocol a [u8] can carry. *)
Lemma protocol_from_str_display p :
  protocol_ok p -> protocol_from_str (protocol_display p) = Ok p.
Proof.
  destruct p as [| | | | | | | | | | |n]; try reflexivity. intros Hn.
  assert (strip_prefix "UNKNOWN(" (protocol_display (Other n)) = Some (fmt_uint n +:+ ")"))
    as Hp by apply (strip_prefix_app "UNKNOWN(").
  unfold protocol_from_str. rewrite Hp. cbn [mbind option_bind].
  rewrite strip_suffix_app. cbn [mbind option_bind].
  rewrite fmt_uint_u8_parse by done. reflexivity.
Qed.

Lemma protocol_display_inj p q :
  protocol_ok p -> protocol_ok q -> protocol_display p = protocol_display q -> p = q.
Proof.
  intros Hp Hq H. apply protocol_from_str_display in Hp, Hq. congruence.
Qed.

(** What parses is a fixed name, or the catch-all around a [u8]. *)
Lemma protocol_from_str_Ok s p :
  protocol_from_str s = Ok p ->
  protocol_ok p /\
  (protocol_display p = s \/
   exists n d, p = Other n /\ s = "UNKNOWN(" +:+ d +:+ ")" /\ parse_uint u8_max d = Some n).
Proof.
  unfold protocol_from_str.
  repeat match goal with
  | |- context [String.eqb s ?x] =>
      destruct (String.eqb_spec s x) as [->|_];
        [intros [= <-]; split; [exact I | left; reflexivity]|]
  end.
  destruct (_ ≫= _) as [n|] eqn:E; intros [= <-].
  apply bind_Some in E as (d & E & Hn).
  apply bind_Some in E as (r & Hr%strip_prefix_Some & Hd%strip_suffix_Some).
  pose proof (parse_uint_bound u8_max d n ltac:(unfold u8_max; lia) Hn).
  split; [unfold protocol_ok, in_u8; lia|]. right. exists n, d. by subst.
Qed.

#[global] Instance protocol_le_total : Total protocol_le.
Proof. intros a b. unfold protocol_le. lia. Qed.
#[global] Instance protocol_le_trans : Transitive protocol_le.
Proof. intros a b c. unfold protocol_le. lia. Qed.
#[global] Instance ip_le_total : Total ip_le.
Proof. intros [] []; simpl; auto; lia. Qed.
#[global] Instance ip_le_trans : Transitive ip_le.
Proof. intros [] [] []; simpl; try done; lia. Qed.

Lemma stats_entries_perm stats : stats_entries stats ≡ₚ map_to_list stats.
Proof. apply merge_sort_Permutation. Qed.

(** Folding inserts over a keyed list is [list_to_map] of its reverse. *)
Lemma deserialize_protocol_stats_app raw e :
  deserialize_protocol_stats (raw ++ [e]) =
    match protocol_from_str e.1 with
    | Ok proto => <[proto := e.2]> (deserialize_protocol_stats raw)
    | Err _ => deserialize_protocol_stats raw
    end.
Proof. unfold deserialize_protocol_stats. by rewrite foldl_app. Qed.

Lemma deserialize_entries (l : list (Protocol * Z)) :
  NoDup l.*1 -> Forall (fun e => protocol_ok e.1) l ->
  deserialize_protocol_stats ((fun e => (protocol_display e.1, e.2)) <$> l) = list_to_map l.
Proof.
  induction l as [|e l IH] using rev_ind; intros Hnd Hok; [done|].
  rewrite fmap_app in Hnd. apply NoDup_app in Hnd as (Hnd & Hdis & _).
  apply Forall_app in Hok as [Hok He]. inversion He as [|? ? Hp]; subst.
  rewrite fmap_app. cbn [fmap list_fmap]. rewrite deserialize_protocol_stats_app. cbn [fst snd].
  rewrite protocol_from_str_display by done.
  rewrite IH by done. destruct e as [p n].
  rewrite list_to_map_snoc; [done|].
  intros Hin. apply (Hdis p Hin). cbn. apply list_elem_of_singleton. done.
Qed.

Lemma deserialize_serialize_stats stats raw :
  map_Forall (fun p _ => protocol_ok p) stats ->
  raw ≡ₚ serialize_protocol_stats stats ->
  deserialize_protocol_stats raw = stats.
Proof.
  intros Hok Hperm. unfold serialize_protocol_stats in Hperm.
  rewrite stats_entries_perm in Hperm.
  apply Permutation_map_inv in Hperm as (l & Hraw & Hl).
  change (raw = (fun e : Protocol * Z => (protocol_display e.1, e.2)) <$> l) in Hraw. subst raw.
  symmetry in Hl.
  rewrite deserialize_entries.
  - rewrite (list_to_map_proper _ (map_to_list stats)), list_to_map_to_list; [done| |done].
    rewrite Hl. apply NoDup_fst_map_to_list.
  - rewrite Hl. apply NoDup_fst_map_to_list.
  - rewrite Hl. apply Forall_forall. intros [p n] Hin.
    apply elem_of_map_to_list in Hin. by apply Hok in Hin.
Qed.

Lemma severity_from_str_display s : severity_from_str (severity_display s) = Ok s.
Proof. by destruct s. Qed.

Lemma deserialize_iso8601_idemp ts :
  deserialize_iso8601 (deserialize_iso8601 ts) = deserialize_iso8601 ts.
Proof. unfold deserialize_iso8601, ns_per_ms. by rewrite Z.div_mul. Qed.

Lemma deserialize_iso8601_bound ts :
  deserialize_iso8601 ts <= ts < deserialize_iso8601 ts + ns_per_ms.
Proof.
  unfold deserialize_iso8601, ns_per_ms.
  pose proof (Z.div_mod ts 1000000). pose proof (Z.mod_pos_bound ts 1000000). lia.
Qed.

Lemma deserialize_iso8601_mono a b : a <= b -> deserialize_iso8601 a <= deserialize_iso8601 b.
Proof.
  intros H. unfold deserialize_iso8601, ns_per_ms.
  pose proof (Z.div_le_mono a b 1000000). lia.
Qed.

Lemma chrono_range_trunc ts : chrono_range ts -> chrono_range (deserialize_iso8601 ts).
Proof.
  unfold chrono_range. intros [H1 H2]. pose proof (deserialize_iso8601_bound ts).
  pose proof (deserialize_iso8601_mono 0 ts H1). change (deserialize_iso8601 0) with 0 in *. lia.
Qed.

#[export] Hint Resolve chrono_range_trunc : rust.
#[export] Hint Rewrite deserialize_iso8601_idemp severity_from_str_display : rust.

Module DeviceFacts.
Import Device.

Lemma wf_new m now : wf (new m now).
Proof.
  unfold wf, new, in_u64, u64_max; simpl. rewrite dom_empty_L.
  split_and!; try lia; try done; apply map_Forall_empty.
Qed.

Lemma dom_bump stats p : dom (bump stats p) = {[p]} ∪ dom stats.
Proof. unfold bump. by rewrite dom_insert_L. Qed.

Lemma bump_bounds stats p :
  map_Forall (fun _ n => 1 <= n <= u64_max) stats ->
  map_Forall (fun _ n => 1 <= n <= u64_max) (bump stats p).
Proof.
  intros H. unfold bump. apply map_Forall_insert_2; [|done].
  unfold saturating_add_u64, u64_max.
  destruct (stats !! p) as [n|] eqn:E; simpl; [apply H in E; unfold u64_max in *|]; lia.
Qed.

Lemma apply_wf d o : op_ok o -> wf d -> wf (apply d o).
Proof.
  intros Ho (H1 & H2 & H3 & H4 & H5).
  destruct o; unfold wf; simpl in *; rewrite ?dom_bump, ?H4;
    split_and!; auto using bump_bounds with rust.
  all: apply saturating_add_u64_bound; auto; lia.
Qed.

Lemma total_app f l o : total f (l ++ [o]) = total f l + f o.
Proof. induction l; simpl in *; lia. Qed.

Lemma total_nonneg f l : (forall o, o ∈ l -> 0 <= f o) -> 0 <= total f l.
Proof.
  induction l as [|o l IH]; simpl; [lia|]. intros H.
  assert (0 <= f o) by (apply H; set_solver).
  assert (0 <= total f l) by (apply IH; set_solver). unfold total in *. lia.
Qed.

Lemma bump_lookup stats p q :
  default 0 (bump stats p !! q) =
    if decide (q = p) then saturating_add_u64 (default 0 (stats !! p)) 1
    else default 0 (stats !! q).
Proof.
  unfold bump. case_decide as Hd; [subst; by rewrite lookup_insert_eq|].
  by rewrite lookup_insert_ne.
Qed.

(** The counters of a device are the totals of its trace, saturated. *)
Lemma trace_counters m now l :
  Forall op_ok l ->
  let d := foldl apply (new m now) l in
  packet_count d = Z.min (total op_packets l) u64_max /\
  bytes_sent d = Z.min (total op_sent l) u64_max /\
  bytes_received d = Z.min (total op_received l) u64_max /\
  forall p, default 0 (protocol_stats d !! p) = Z.min (total (op_proto p) l) u64_max.
Proof.
  induction l as [|o l IH] using rev_ind; intros Hok.
  { simpl. unfold u64_max. split_and!; try lia. intros p. rewrite lookup_empty. simpl. lia. }
  apply Forall_app in Hok as [Hok Ho]. inversion Ho as [|? ? Ho']; subst.
  specialize (IH Hok) as (I1 & I2 & I3 & I4). intros d. subst d.
  rewrite foldl_app. cbn [foldl]. set (d := foldl apply (new m now) l) in *.
  rewrite !total_app.
  destruct o as [b q t|b q t|ip]; simpl in *; rewrite ?I1, ?I2, ?I3;
    rewrite ?saturating_add_u64_min, ?Z.add_0_r by lia; split_and!; auto.
  all: intros p; rewrite total_app; simpl; rewrite ?Z.add_0_r; auto.
  all: rewrite bump_lookup, !I4; case_decide; subst; rewrite ?Z.add_0_r; auto.
  all: by rewrite saturating_add_u64_min by lia.
Qed.

Lemma trace_identity d l :
  mac (foldl apply d l) = mac d /\ first_seen (foldl apply d l) = first_seen d /\
  hostname (foldl apply d l) = hostname d /\ vendor (foldl apply d l) = vendor d.
Proof.
  revert d. induction l as [|o l IH]; intros d; [done|].
  cbn [foldl]. destruct (IH (apply d o)) as (-> & -> & -> & ->). by destruct o.
Qed.

Lemma trace_wf d l : Forall op_ok l -> wf d -> wf (foldl apply d l).
Proof.
  intros Hl. revert d. induction Hl; intros d Hd; simpl; [done|]. auto using apply_wf.
Qed.
End DeviceFacts.

#[export] Hint Resolve DeviceFacts.wf_new DeviceFacts.apply_wf : rust.

(** * Properties *)

(** The text form of a protocol is faithful: [FromStr] reads back what
    [Display] prints for every representable protocol, whatever [FromStr]
    accepts is representable, and distinct protocols print differently. *)
Theorem protocol_text_roundtrip (p q : Protocol) (s : string) :
  protocol_ok p -> protocol_ok q ->
  protocol_from_str (protocol_display p) = Ok p /\
  (protocol_display p = protocol_display q -> p = q) /\
  (forall r, protocol_from_str s = Ok r ->
     protocol_ok r /\ (protocol_display r = s \/ exists n, r = Other n)).
Proof.
  intros Hp Hq. split_and!.
  - by apply protocol_from_str_display.
  - by apply protocol_display_inj.
  - intros r Hr. apply protocol_from_str_Ok in Hr as [Hr [H|(n & d & -> & _)]]; eauto.
Qed.

Lemma protocol_text_roundtrip_witness :
  protocol_from_str "UNKNOWN(42)" = Ok (Other 42) /\
  (forall r, protocol_from_str "UNKNOWN(+7)" = Ok r ->
     protocol_ok r /\ (protocol_display r = "UNKNOWN(+7)" \/ exists n, r = Other n)).
Proof.
  destruct (protocol_text_roundtrip (Other 42) Mdns "UNKNOWN(+7)") as (H & _ & H').
  - unfold protocol_ok, in_u8, u8_max; lia.
  - exact I.
  - split; [exact H | exact H'].
Defined.

(** The JSON form of the per-protocol counters is lossless: whatever
    order the intermediate hash map yields the serialized entries in, reading
    them back gives the map that was written. *)
Theorem protocol_stats_roundtrip (stats : gmap Protocol Z) (raw : list (string * Z)) :
  map_Forall (fun p _ => protocol_ok p) stats ->
  raw ≡ₚ serialize_protocol_stats stats ->
  deserialize_protocol_stats raw = stats.
Proof. apply deserialize_serialize_stats. Qed.

Lemma protocol_stats_roundtrip_witness :
  deserialize_protocol_stats [("UNKNOWN(42)", 7); ("TCP", 3)] = {[Tcp := 3; Other 42 := 7]}.
Proof.
  apply protocol_stats_roundtrip.
  - apply map_Forall_insert_2; [exact I|]. apply map_Forall_singleton.
    unfold protocol_ok, in_u8, u8_max; lia.
  - assert (serialize_protocol_stats {[Tcp := 3; Other 42 := 7]}
      = [("TCP", 3); ("UNKNOWN(42)", 7)]) as -> by (vm_compute; reflexivity).
    apply Permutation_swap.
Defined.

(** Over every sequence of [record_sent], [record_received] and [add_ip]
    calls on a fresh device, the counters are exactly the saturated totals of
    the sequence (never wrapping), each protocol's count is its number of
    packets, the identity fields never change and the record stays
    well-formed. *)
Theorem device_counters_exact (m : MacAddress) (now : Timestamp) (l : list Device.op) :
  Forall Device.op_ok l ->
  let d := foldl Device.apply (Device.new m now) l in
  Device.wf d /\ Device.mac d = m /\ Device.first_seen d = now /\
  Device.packet_count d = Z.min (Device.total Device.op_packets l) u64_max /\
  Device.bytes_sent d = Z.min (Device.total Device.op_sent l) u64_max /\
  Device.bytes_received d = Z.min (Device.total Device.op_received l) u64_max /\
  forall p, default 0 (Device.protocol_stats d !! p) =
            Z.min (Device.total (Device.op_proto p) l) u64_max.
Proof.
  intros Hl d. subst d.
  destruct (DeviceFacts.trace_identity (Device.new m now) l) as (Hm & Hf & _).
  destruct (DeviceFacts.trace_counters m now l Hl) as (H1 & H2 & H3 & H4).
  split_and!; auto. apply DeviceFacts.trace_wf; auto with rust.
Qed.

Lemma device_counters_exact_witness :
  let l := [Device.Sent 100 Tcp 5; Device.AddIp (V4 7); Device.Received u64_max Udp 6;
            Device.Received 9 Tcp 8] in
  let d := foldl Device.apply (Device.new (mkMac 2 0 0 0 0 1) 3) l in
  Device.bytes_received d = u64_max /\ Device.packet_count d = 3.
Proof.
  intros l d.
  destruct (device_counters_exact (mkMac 2 0 0 0 0 1) 3 l) as (_ & _ & _ & H1 & _ & H3 & _).
  - repeat constructor; simpl; unfold u64_max; lia.
  - split; [exact H3 | exact H1].
Defined.
