(* ===== verification/Reference.v ===== *)
(** Concrete instances of the text interfaces of [Types]: MAC addresses
    printed in hexadecimal, timestamps as their milliseconds.  They show that
    the laws the theorems assume can hold, and let closed examples evaluate. *)

From S2P Require Import Prelude Text Types.

(** * MAC addresses: [AA:BB:CC:DD:EE:FF] *)

Definition hex_byte (b : Z) (rest : string) : string :=
  String (hex_digit (b / 16)) (String (hex_digit (b mod 16)) rest).
Definition hex_pair (a b : ascii) : option Z :=
  x ← hex_value a; y ← hex_value b; Some (16 * x + y).

Definition ref_mac_to_string (m : MacAddress) : string :=
  hex_byte (mac0 m) (String ":" (hex_byte (mac1 m) (String ":" (hex_byte (mac2 m) (String ":"
    (hex_byte (mac3 m) (String ":" (hex_byte (mac4 m) (String ":" (hex_byte (mac5 m) "")))))))))).
Definition ref_mac_parse (s : string) : option MacAddress :=
  match s with
  | String a0 (String a1 (String ":" (String b0 (String b1 (String ":" (String c0 (String c1
      (String ":" (String d0 (String d1 (String ":" (String e0 (String e1 (String ":"
      (String f0 (String f1 "")))))))))))))))) =>
      a ← hex_pair a0 a1; b ← hex_pair b0 b1; c ← hex_pair c0 c1;
      d ← hex_pair d0 d1; e ← hex_pair e0 e1; f ← hex_pair f0 f1;
      Some (mkMac a b c d e f)
  | _ => None
  end.
Definition ref_mac_text : MacText :=
  {| mac_to_string := ref_mac_to_string; mac_parse := ref_mac_parse |}.

(** * Timestamps: milliseconds in decimal *)

Definition ref_chrono : Chrono := {|
  fmt_iso8601 ts := fmt_uint (ts / ns_per_ms);
  parse_datetime s := (fun n => n * ns_per_ms) <$> parse_uint i64_max s;
  fmt_date ts := fmt_uint (ts / (86400 * ns_per_s))
|}.

(** * Laws *)

Lemma hex_pair_byte b : in_u8 b -> hex_pair (hex_digit (b / 16)) (hex_digit (b mod 16)) = Some b.
Proof.
  unfold in_u8, u8_max. intros Hb. unfold hex_pair.
  pose proof (Z.mod_pos_bound b 16). pose proof (Z.div_mod b 16).
  rewrite !hex_value_digit by lia. simpl. f_equal. lia.
Qed.

Lemma ref_mac_roundtrip m : octets_ok m -> ref_mac_parse (ref_mac_to_string m) = Some m.
Proof.
  intros (H0 & H1 & H2 & H3 & H4 & H5). unfold ref_mac_to_string, hex_byte, ref_mac_parse.
  rewrite !hex_pair_byte by done. simpl. by destruct m.
Qed.

Lemma ref_chrono_roundtrip ts :
  chrono_range ts -> parse_datetime (Chrono:=ref_chrono) (fmt_iso8601 (Chrono:=ref_chrono) ts) =
    Some (deserialize_iso8601 ts).
Proof.
  unfold chrono_range, ns_per_s. intros Hts. simpl. unfold deserialize_iso8601, ns_per_ms.
  rewrite parse_fmt_uint; [done | | unfold i64_max, u64_max; lia].
  unfold i64_max. split; [apply Z.div_pos; lia|].
  apply Z.lt_le_incl, Z.div_lt_upper_bound; lia.
Qed.

Definition ref_mac_laws : @MacTextLaws ref_mac_text := @Build_MacTextLaws ref_mac_text ref_mac_roundtrip.
Definition ref_chrono_laws : @ChronoLaws ref_chrono.
Proof.
  split; [apply ref_chrono_roundtrip|]. intros ts. simpl. f_equal.
  unfold deserialize_iso8601, ns_per_ms. by rewrite Z.div_mul.
Defined.
