(* ===== verification/Net.v ===== *)
(** The texts of [std::net]: [Display] and [FromStr] of [IpAddr], as the
    standard library has them (the longest run of zero groups shortened, an
    IPv4-mapped address with a dotted tail; no leading zeros in decimal
    numbers, at most four digits in a group).  The rest of the development is
    over the class [IpText]; this is the instance the program runs on. *)

From S2P Require Import Prelude Text Types Reference.

(** * Numbers *)

Definition lower_hex (d : Z) : ascii := lower_char (hex_digit d).
(** [{:x}] of a [u16]. *)
Definition fmt_hex (z : Z) : string :=
  let d k := lower_hex (z / 16 ^ k mod 16) in
  if z <? 16 then String (d 0) ""
  else if z <? 256 then String (d 1) (String (d 0) "")
  else if z <? 4096 then String (d 2) (String (d 1) (String (d 0) ""))
  else String (d 3) (String (d 2) (String (d 1) (String (d 0) ""))).

(** [char::to_digit]. *)
Definition to_digit (radix : Z) (c : ascii) : option Z :=
  d ← hex_value c; if d <? radix then Some d else None.

(** [Parser::read_number]: the value, the number of digits, and the rest. *)
Fixpoint read_digits (radix max : Z) (room : nat) (acc : Z) (count : nat) (s : string)
  {struct s} : option (Z * nat * string) :=
  match s with
  | "" => Some (acc, count, "")
  | String c s' =>
      match to_digit radix c with
      | None => Some (acc, count, s)
      | Some d =>
          if max <? acc * radix + d then None
          else match room with
               | O => None
               | S room' => read_digits radix max room' (acc * radix + d) (S count) s'
               end
      end
  end.
Definition leading_zero (s : string) : bool :=
  match s with String c _ => Ascii.eqb c "0" | "" => false end.
Definition read_number (radix max : Z) (max_digits : nat) (allow_zero_prefix : bool) (s : string)
  : option (Z * string) :=
  '(n, count, rest) ← read_digits radix max max_digits 0 0 s;
  if (count =? 0)%nat then None
  else if negb allow_zero_prefix && leading_zero s && (1 <? count)%nat then None
  else Some (n, rest).
Definition read_char (c : ascii) (s : string) : option string :=
  match s with String d s' => if Ascii.eqb c d then Some s' else None | "" => None end.

(** * IPv4 *)

Definition read_octet : string -> option (Z * string) := read_number 10 u8_max 3 false.
Definition read_ipv4 (s : string) : option (Z * string) :=
  '(a, s) ← read_octet s; s ← read_char "." s;
  '(b, s) ← read_octet s; s ← read_char "." s;
  '(c, s) ← read_octet s; s ← read_char "." s;
  '(d, s) ← read_octet s;
  Some (u32_from_be_bytes a b c d, s).
Definition ipv4_display (z : Z) : string :=
  fmt_uint (z / 2 ^ 24 mod 256) +:+ String "." (fmt_uint (z / 2 ^ 16 mod 256) +:+ String "."
    (fmt_uint (z / 2 ^ 8 mod 256) +:+ String "." (fmt_uint (z mod 256)))).

(** * IPv6 *)

(** The [n] groups of sixteen bits, the most significant first. *)
Fixpoint groups (n : nat) (z : Z) : list Z :=
  match n with O => [] | S n' => groups n' (z / 65536) ++ [z mod 65536] end.
Definition of_groups (l : list Z) : Z := foldl (fun acc g => acc * 65536 + g) 0 l.

(** The first of the longest runs of zeros: its start and its length. *)
Record Span : Type := mkSpan { span_start : nat; span_len : nat }.
Fixpoint zero_span (i : nat) (longest current : Span) (l : list Z) : Span :=
  match l with
  | [] => longest
  | g :: l' =>
      if g =? 0 then
        let start := if (span_len current =? 0)%nat then i else span_start current in
        let current := mkSpan start (S (span_len current)) in
        zero_span (S i) (if (span_len longest <? span_len current)%nat then current else longest) current l'
      else zero_span (S i) longest (mkSpan 0 0) l'
  end.
Definition fmt_subslice (l : list Z) : string := join ":" (fmt_hex <$> l).
Definition ipv6_display (z : Z) : string :=
  let segments := groups 8 z in
  if z / 2 ^ 32 =? 65535 then "::ffff:" +:+ ipv4_display (z mod 2 ^ 32)
  else
    let zeroes := zero_span 0 (mkSpan 0 0) (mkSpan 0 0) segments in
    if (1 <? span_len zeroes)%nat then
      fmt_subslice (take (span_start zeroes) segments) +:+ "::" +:+
      fmt_subslice (drop (span_start zeroes + span_len zeroes) segments)
    else fmt_subslice segments.

(** [read_groups]: up to [limit] groups, the last two of which may be an IPv4
    address; what was read and the rest. *)
Definition read_separated {A} (first : bool) (inner : string -> option A) (s : string) : option A :=
  if first then inner s else read_char ":" s ≫= inner.
Fixpoint read_groups (limit : nat) (first : bool) (s : string) : list Z * bool * string :=
  match limit with
  | O => ([], false, s)
  | S limit' =>
      match (if (limit' =? 0)%nat then None else read_separated first read_ipv4 s) with
      | Some (v4, rest) => ([v4 / 65536; v4 mod 65536], true, rest)
      | None =>
          match read_separated first (read_number 16 u16_max 4 true) s with
          | Some (g, rest) => let '(gs, v4, rest) := read_groups limit' false rest in (g :: gs, v4, rest)
          | None => ([], false, s)
          end
      end
  end.
Definition read_ipv6 (s : string) : option (Z * string) :=
  let '(head, head_ipv4, s) := read_groups 8 true s in
  if (length head =? 8)%nat then Some (of_groups head, s)
  else if head_ipv4 : bool then None
  else
    s ← read_char ":" s; s ← read_char ":" s;
    let '(tail, _, s) := read_groups (8 - (length head + 1)) true s in
    Some (of_groups (head ++ replicate (8 - length head - length tail) 0 ++ tail), s).

(** * Addresses *)

Definition std_ip_to_string (i : IpAddr) : string :=
  match i with V4 z => ipv4_display z | V6 z => ipv6_display z end.
Definition read_ip (s : string) : option (IpAddr * string) :=
  match read_ipv4 s with
  | Some (z, rest) => Some (V4 z, rest)
  | None => '(z, rest) ← read_ipv6 s; Some (V6 z, rest)
  end.
Definition std_ip_parse (s : string) : option IpAddr :=
  '(i, rest) ← read_ip s; if is_empty rest then Some i else None.
Definition std_ip_text : IpText :=
  {| ip_to_string := std_ip_to_string; ip_parse := std_ip_parse |}.

(** * Lemmas *)

(** ** Numbers in front of other text *)

(** The text behind a number does not go on with a digit or a dot. *)
Definition stops (p : ascii -> bool) (s : string) : Prop :=
  match s with String c _ => p c = false | "" => True end.
Definition is_digit (radix : Z) (c : ascii) : bool :=
  match to_digit radix c with Some _ => true | None => false end.

Lemma read_digits_app radix max room acc count s z n X :
  stops (is_digit radix) X -> read_digits radix max room acc count s = Some (z, n, "") ->
  read_digits radix max room acc count (s +:+ X) = Some (z, n, X).
Proof.
  intros HX. revert room acc count. induction s as [|c s IH]; intros room acc count; simpl.
  - intros ?. simplify_eq. destruct X as [|c X]; [done|]. simpl in *. unfold is_digit in HX.
    by destruct (to_digit radix c).
  - destruct (to_digit radix c) as [d|]; [|done]. destruct (max <? acc * radix + d); [done|].
    destruct room as [|room]; [done|]. apply IH.
Qed.

Lemma read_number_app radix max k zeros s z X :
  s <> "" -> stops (is_digit radix) X -> read_number radix max k zeros s = Some (z, "") ->
  read_number radix max k zeros (s +:+ X) = Some (z, X).
Proof.
  intros Hs HX. unfold read_number. destruct (read_digits radix max k 0 0 s) as [[[v n] rest]|] eqn:E; [|done].
  cbn. intros H. assert (rest = "") as -> by (by repeat case_match; simplify_eq).
  rewrite (read_digits_app _ _ _ _ _ _ _ _ X HX E). cbn.
  replace (leading_zero (s +:+ X)) with (leading_zero s) by (by destruct s).
  destruct (n =? 0)%nat; [done|]. destruct (negb zeros && _ && _); [done|]. by injection H as <-.
Qed.

(** Every octet and every group is read back. *)
Definition reads_back (r : option (Z * string)) (z : Z) : bool :=
  match r with Some (z', "") => z' =? z | _ => false end.
Lemma reads_back_true r z : reads_back r z = true -> r = Some (z, "").
Proof. destruct r as [[z' []]|]; simpl; try done. by intros ->%Z.eqb_eq. Qed.

Lemma octets_read :
  forallb (fun z => negb (is_empty (fmt_uint z)) &&
    reads_back (read_octet (fmt_uint z)) z) (seqZ 0 256) = true.
Proof. vm_compute. reflexivity. Qed.
Lemma read_octet_app z X :
  0 <= z < 256 -> stops (is_digit 10) X -> read_octet (fmt_uint z +:+ X) = Some (z, X).
Proof.
  intros Hz HX. pose proof octets_read as H. rewrite forallb_forall in H.
  specialize (H z ltac:(apply list_elem_of_In, elem_of_seqZ; lia)).
  apply andb_true_iff in H as [Hne Hr]. apply reads_back_true in Hr.
  unfold read_octet in *. apply read_number_app; [|done|done]. by destruct (fmt_uint z).
Qed.

Lemma lower_hex_facts d :
  0 <= d < 16 -> to_digit 16 (lower_hex d) = Some d /\ is_ascii_hexdigit (lower_hex d) = true.
Proof.
  intros Hd.
  assert (forallb (fun d => bool_decide (to_digit 16 (lower_hex d) = Some d) &&
                            is_ascii_hexdigit (lower_hex d)) (seqZ 0 16) = true) as H
    by (vm_compute; reflexivity).
  rewrite forallb_forall in H. specialize (H d ltac:(apply list_elem_of_In, elem_of_seqZ; lia)).
  by apply andb_true_iff in H as [?%bool_decide_eq_true ?].
Qed.

(** A group of hexadecimal digits, from its value in front of them. *)
Lemma read_digits_hex room acc count d s :
  0 <= d < 16 -> 0 <= acc -> acc * 16 + d <= u16_max ->
  read_digits 16 u16_max (S room) acc count (String (lower_hex d) s) =
    read_digits 16 u16_max room (acc * 16 + d) (S count) s.
Proof.
  intros Hd Ha Hm. cbn [read_digits]. rewrite (proj1 (lower_hex_facts d Hd)).
  by rewrite (proj2 (Z.ltb_ge _ _)) by done.
Qed.

Lemma fmt_hex_facts g :
  0 <= g < 65536 ->
  fmt_hex g <> "" /\ all_chars is_ascii_hexdigit (fmt_hex g) = true /\
  forall X, stops (is_digit 16) X -> read_number 16 u16_max 4 true (fmt_hex g +:+ X) = Some (g, X).
Proof.
  intros Hg. assert (forall k, 0 <= g / 16 ^ k mod 16 < 16) as Hd by (intros; apply Z.mod_pos_bound; lia).
  assert (forall k, is_ascii_hexdigit (lower_hex (g / 16 ^ k mod 16)) = true) as Hx
    by (intros; by apply lower_hex_facts).
  assert (fmt_hex g <> "") as Hn by (unfold fmt_hex; by repeat case_match). split; [done|].
  split; [unfold fmt_hex; repeat case_match; cbn [all_chars]; by rewrite !Hx|].
  intros X HX. apply read_number_app; [done..|]. unfold read_number, fmt_hex.
  pose proof (Hd 0) as H0. pose proof (Hd 1) as H1. pose proof (Hd 2) as H2. pose proof (Hd 3) as H3.
  change (16 ^ 0) with 1 in *. change (16 ^ 1) with 16 in *. change (16 ^ 2) with 256 in *.
  change (16 ^ 3) with 4096 in *.
  pose proof (Z.div_mod g 16). pose proof (Z.div_mod (g / 16) 16). pose proof (Z.div_mod (g / 256) 16).
  pose proof (Z.div_mod (g / 4096) 16). rewrite !Z.div_div in * by lia. rewrite Z.div_1_r in *.
  assert (0 <= g / 65536 < 1) by (split; [apply Z.div_pos; lia | apply Z.div_lt_upper_bound; lia]).
  change (16 * 16) with 256 in *. change (256 * 16) with 4096 in *. change (4096 * 16) with 65536 in *.
  unfold u16_max in *.
  destruct (g <? 16) eqn:E1; bool_to_prop; [|destruct (g <? 256) eqn:E2; bool_to_prop;
    [|destruct (g <? 4096) eqn:E3; bool_to_prop]]; rewrite !read_digits_hex by (unfold u16_max; lia); cbn;
    do 2 f_equal; lia.
Qed.

(** ** IPv4 *)

Lemma u32_of_octets z :
  0 <= z < 2 ^ 32 ->
  u32_from_be_bytes (z / 2 ^ 24 mod 256) (z / 2 ^ 16 mod 256) (z / 2 ^ 8 mod 256) (z mod 256) = z.
Proof.
  intros Hz. pose proof (Z.mod_pos_bound z 256). pose proof (Z.mod_pos_bound (z / 2 ^ 8) 256).
  pose proof (Z.mod_pos_bound (z / 2 ^ 16) 256). pose proof (Z.mod_pos_bound (z / 2 ^ 24) 256).
  pose proof (Z.div_mod z 256). pose proof (Z.div_mod (z / 2 ^ 8) 256).
  pose proof (Z.div_mod (z / 2 ^ 16) 256). pose proof (Z.div_mod (z / 2 ^ 24) 256).
  rewrite !Z.div_div in * by lia. change (2 ^ 8) with 256 in *. change (2 ^ 16) with 65536 in *.
  change (2 ^ 24) with 16777216 in *. change (256 * 256) with 65536 in *.
  change (65536 * 256) with 16777216 in *. change (16777216 * 256) with (2 ^ 32) in *.
  assert (0 <= z / 2 ^ 32 < 1) by (split; [apply Z.div_pos; lia | apply Z.div_lt_upper_bound; lia]).
  rewrite u32_from_be_bytes_add by (unfold in_u8, u8_max; lia). lia.
Qed.

Lemma ipv4_read z X :
  0 <= z < 2 ^ 32 -> stops (is_digit 10) X -> read_ipv4 (ipv4_display z +:+ X) = Some (z, X).
Proof.
  intros Hz HX. unfold read_ipv4, ipv4_display.
  rewrite string_app_assoc. cbn [String.append]. rewrite string_app_assoc. cbn [String.append].
  rewrite string_app_assoc. cbn [String.append].
  pose proof (u32_of_octets z Hz) as Hu. revert Hu.
  assert (forall k, 0 <= z / k mod 256 < 256) as Hk by (intros; apply Z.mod_pos_bound; lia).
  assert (0 <= z mod 256 < 256) as Hd by (apply Z.mod_pos_bound; lia).
  pose proof (Hk (2 ^ 24)) as Ha. pose proof (Hk (2 ^ 16)) as Hb. pose proof (Hk (2 ^ 8)) as Hc.
  clear Hk Hz. revert Ha Hb Hc Hd.
  generalize (z / 2 ^ 24 mod 256) (z / 2 ^ 16 mod 256) (z / 2 ^ 8 mod 256) (z mod 256).
  intros a b c d Ha Hb Hc Hd Hu.
  rewrite (read_octet_app a) by done. cbn -[read_octet fmt_uint u32_from_be_bytes].
  rewrite (read_octet_app b) by done. cbn -[read_octet fmt_uint u32_from_be_bytes].
  rewrite (read_octet_app c) by done. cbn -[read_octet fmt_uint u32_from_be_bytes].
  rewrite (read_octet_app d) by done. cbn -[u32_from_be_bytes]. by rewrite Hu.
Qed.

(** A group is not taken for the start of an IPv4 address. *)
Definition group_end (X : string) : Prop := X = "" \/ exists r, X = String ":" r.

Lemma read_digits_rest h X room acc count z n rest :
  all_chars is_ascii_hexdigit h = true -> group_end X ->
  read_digits 10 u8_max room acc count (h +:+ X) = Some (z, n, rest) -> read_char "." rest = None.
Proof.
  intros Hh HX. revert room acc count Hh. induction h as [|c h IH]; intros room acc count; simpl.
  - intros _. by destruct HX as [->|[r ->]]; intros ?; simplify_eq/=.
  - intros [Hc Hh]%andb_true_iff. destruct (to_digit 10 c) as [d|].
    + destruct (u8_max <? _); [done|]. destruct room as [|room]; [done|]. by apply IH.
    + intros H. injection H as <- <- <-. cbn [read_char]. destruct (Ascii.eqb_spec "." c) as [<-|]; [|done].
      by vm_compute in Hc.
Qed.

Lemma group_not_ipv4 h X :
  all_chars is_ascii_hexdigit h = true -> group_end X -> read_ipv4 (h +:+ X) = None.
Proof.
  intros Hh HX. unfold read_ipv4, read_octet, read_number.
  destruct (read_digits 10 u8_max 3 0 0 (h +:+ X)) as [[[z n] rest]|] eqn:E; [|done]. cbn.
  destruct (n =? 0)%nat; [done|]. destruct (_ && _); [done|]. cbn.
  by rewrite (read_digits_rest h X 3 0 0 z n rest Hh HX E).
Qed.

(** ** IPv6 *)

Definition group_ok (g : Z) : Prop := 0 <= g < 65536.
(** What follows the groups: nothing, or the run of zeros. *)
Definition tail_text (X : string) : Prop := X = "" \/ exists r, X = String ":" (String ":" r).

Lemma group_end_stops X : group_end X -> stops (is_digit 16) X.
Proof. by intros [->|[r ->]]. Qed.

Lemma read_separated_group {A} (f : string -> option A) first s :
  read_separated first f ((if first then "" else ":") +:+ s) = f s.
Proof. by destruct first. Qed.

(** Nothing is read off the end, or off the run of zeros. *)
Lemma read_groups_end limit first X :
  tail_text X -> read_groups limit first X = ([], false, X).
Proof.
  intros HX. destruct limit as [|limit]; [done|]. cbn [read_groups].
  by destruct HX as [->|[r ->]], first, (limit =? 0)%nat.
Qed.

Lemma read_groups_text l limit (first : bool) X :
  Forall group_ok l -> (length l <= limit)%nat -> l <> [] -> tail_text X ->
  read_groups limit first ((if first then "" else ":") +:+ fmt_subslice l +:+ X) = (l, false, X).
Proof.
  intros Hl. revert limit first. induction Hl as [|g l Hg Hl IH]; intros limit first Hn Hne HX; [done|].
  destruct limit as [|limit]; simpl in Hn; [lia|].
  destruct (fmt_hex_facts g Hg) as (_ & Hh & Hr).
  set (Y := (match l with [] => "" | _ => ":" +:+ fmt_subslice l end) +:+ X).
  assert (fmt_subslice (g :: l) +:+ X = fmt_hex g +:+ Y) as ->.
  { unfold Y, fmt_subslice. destruct l as [|g' l]; cbn [fmap list_fmap join]; [done|].
    by rewrite !string_app_assoc. }
  assert (group_end Y) as HY.
  { unfold Y. destruct l; [|by right; eexists]. destruct HX as [->|[r ->]]; [by left | by right; eexists]. }
  cbn [read_groups]. rewrite !read_separated_group, group_not_ipv4 by done.
  assert ((if (limit =? 0)%nat then None else None) = @None (Z * string)) as -> by by destruct (limit =? 0)%nat.
  rewrite Hr by (by apply group_end_stops).
  destruct l as [|g' l].
  - unfold Y. cbn [String.append]. by rewrite read_groups_end.
  - unfold Y. rewrite string_app_assoc. rewrite (IH limit false) by (done || lia). done.
Qed.

(** ** The groups of an address *)

Lemma groups_length n z : length (groups n z) = n.
Proof. revert z. induction n as [|n IH]; intros z; simpl; [done|]. rewrite length_app, IH. simpl. lia. Qed.
Lemma groups_ok n z : Forall group_ok (groups n z).
Proof.
  revert z. induction n as [|n IH]; intros z; simpl; [done|].
  apply Forall_app. split; [done|]. constructor; [|done]. apply Z.mod_pos_bound. lia.
Qed.
Lemma of_groups_app l g : of_groups (l ++ [g]) = of_groups l * 65536 + g.
Proof. unfold of_groups. by rewrite foldl_app. Qed.
Lemma of_groups_groups n z : 0 <= z < 65536 ^ Z.of_nat n -> of_groups (groups n z) = z.
Proof.
  revert z. induction n as [|n IH]; intros z Hz; cbn [groups].
  { simpl in Hz. unfold of_groups. simpl. lia. }
  rewrite Nat2Z.inj_succ, Z.pow_succ_r in Hz by lia. rewrite of_groups_app, IH.
  - pose proof (Z.div_mod z 65536). lia.
  - split; [apply Z.div_pos; lia | apply Z.div_lt_upper_bound; lia].
Qed.

(** The run that is shortened is a run of zeros. *)
Definition runs (L pre : list Z) (longest current : Span) : Prop :=
  (exists p q, pre = p ++ replicate (span_len longest) 0 ++ q /\ span_start longest = length p) /\
  (exists p, pre = p ++ replicate (span_len current) 0 /\
    (span_len current <> 0%nat -> span_start current = length p)).

Lemma zero_span_run l pre longest current :
  runs (pre ++ l) pre longest current ->
  let sp := zero_span (length pre) longest current l in
  exists p q, pre ++ l = p ++ replicate (span_len sp) 0 ++ q /\ span_start sp = length p.
Proof.
  revert pre longest current. induction l as [|g l IH]; intros pre longest current [Hl Hc].
  { cbn. by rewrite app_nil_r. }
  assert (forall a b, runs (pre ++ g :: l) (pre ++ [g]) a b ->
    exists p q, pre ++ g :: l = p ++ replicate (span_len (zero_span (S (length pre)) a b l)) 0 ++ q /\
      span_start (zero_span (S (length pre)) a b l) = length p) as Hnext.
  { intros a b Hab. specialize (IH (pre ++ [g]) a b). rewrite length_app, Nat.add_1_r in IH.
    rewrite <- app_assoc in IH. by apply IH. }
  destruct Hl as (p & q & Hp & Hs). cbn [zero_span]. cbv zeta.
  destruct (Z.eqb_spec g 0) as [->|Hg]; apply Hnext.
  - destruct Hc as (p' & Hp' & Hs'). set (n := span_len current) in *.
    assert (pre ++ [0] = p' ++ replicate (S n) 0) as Hn.
    { rewrite Hp', replicate_S_end, app_assoc. done. }
    assert ((if (n =? 0)%nat then length pre else span_start current) = length p') as Hst.
    { destruct (Nat.eqb_spec n 0) as [E|E]; [|by apply Hs'].
      rewrite Hp', E. cbn [replicate]. by rewrite app_nil_r. }
    split; [|by exists p']. change (span_len (mkSpan _ (S n))) with (S n).
    destruct (span_len longest <? S n)%nat; cbn [span_len span_start].
    + exists p', []. split; [rewrite app_nil_r; exact Hn | exact Hst].
    + exists p, (q ++ [0]). split; [|done]. by rewrite Hp, <- !app_assoc.
  - split; cbn [span_len span_start].
    + exists p, (q ++ [g]). split; [|done]. by rewrite Hp, <- !app_assoc.
    + exists (pre ++ [g]). by rewrite app_nil_r.
Qed.

Lemma zero_span_split L :
  let sp := zero_span 0 (mkSpan 0 0) (mkSpan 0 0) L in
  L = take (span_start sp) L ++ replicate (span_len sp) 0 ++ drop (span_start sp + span_len sp) L.
Proof.
  cbv zeta. destruct (zero_span_run L [] (mkSpan 0 0) (mkSpan 0 0)) as (p & q & HL & Hs).
  { split; [by exists [], [] | by exists []]. }
  cbn [app length] in HL, Hs. revert HL Hs.
  generalize (span_len (zero_span 0 (mkSpan 0 0) (mkSpan 0 0) L)) as n.
  generalize (span_start (zero_span 0 (mkSpan 0 0) (mkSpan 0 0) L)) as k. intros k n HL ->.
  rewrite HL at 2 3. rewrite take_app_length, <- drop_drop, drop_app_length, drop_app_length'; [done|].
  by rewrite length_replicate.
Qed.

(** ** Round trips *)

Lemma read_char_eq c s : read_char c (String c s) = Some s.
Proof. unfold read_char. by rewrite Ascii.eqb_refl. Qed.

Lemma read_groups_slice l limit X :
  Forall group_ok l -> (length l <= limit)%nat -> tail_text X ->
  read_groups limit true (fmt_subslice l +:+ X) = (l, false, X).
Proof.
  intros Hl Hn HX. destruct l as [|g l]; [by apply read_groups_end|].
  by apply (read_groups_text (g :: l) limit true).
Qed.

Lemma slice_not_ipv4 l X : Forall group_ok l -> tail_text X -> read_ipv4 (fmt_subslice l +:+ X) = None.
Proof.
  intros Hl HX. assert (group_end X) as HX' by (destruct HX as [->|[r ->]]; [by left | by right; eexists]).
  destruct Hl as [|g l Hg Hl]; [by apply (group_not_ipv4 "")|]. destruct (fmt_hex_facts g Hg) as (_ & Hh & _).
  unfold fmt_subslice. destruct l as [|g' l]; cbn [fmap list_fmap join].
  - by apply group_not_ipv4.
  - rewrite string_app_assoc. apply group_not_ipv4; [done|]. rewrite string_app_assoc. by right; eexists.
Qed.

Lemma ipv6_read_groups l :
  Forall group_ok l -> length l = 8%nat ->
  read_ip (fmt_subslice l) = Some (V6 (of_groups l), "").
Proof.
  intros Hl Hn. unfold read_ip, read_ipv6. rewrite <- (string_app_nil_r (fmt_subslice l)).
  rewrite slice_not_ipv4 by (done || by left). rewrite read_groups_slice by (done || lia || by left).
  by rewrite Hn.
Qed.

Lemma ipv6_read_short a n b :
  Forall group_ok a -> Forall group_ok b -> (1 < n)%nat -> (length a + n + length b = 8)%nat ->
  read_ip (fmt_subslice a +:+ "::" +:+ fmt_subslice b) = Some (V6 (of_groups (a ++ replicate n 0 ++ b)), "").
Proof.
  intros Ha Hb Hn Hl. unfold read_ip, read_ipv6.
  rewrite slice_not_ipv4 by (done || by right; eexists).
  rewrite read_groups_slice by (done || lia || by right; eexists).
  rewrite (proj2 (Nat.eqb_neq _ _)) by lia. cbn [String.append]. rewrite read_char_eq. cbn [mbind option_bind].
  rewrite read_char_eq. cbn [mbind option_bind]. rewrite <- (string_app_nil_r (fmt_subslice b)).
  rewrite read_groups_slice by (done || lia || by left).
  cbn [mbind option_bind]. by replace (8 - length a - length b)%nat with n by lia.
Qed.

Lemma ipv6_read_mapped z :
  0 <= z < 2 ^ 32 ->
  read_ip ("::ffff:" +:+ ipv4_display z) = Some (V6 (65535 * 2 ^ 32 + z), "").
Proof.
  intros Hz. unfold read_ip.
  assert (read_ipv4 ("::ffff:" +:+ ipv4_display z) = None) as ->
    by (apply (group_not_ipv4 ""); [done | by right; eexists]).
  unfold read_ipv6. cbn [String.append]. rewrite read_groups_end by (by right; eexists).
  cbn [length Nat.eqb]. rewrite read_char_eq. cbn [mbind option_bind]. rewrite read_char_eq.
  cbn [mbind option_bind Nat.sub Nat.add read_groups Nat.eqb read_separated].
  change (String "f" (String "f" (String "f" (String "f" (String ":" (ipv4_display z))))))
    with ("ffff" +:+ String ":" (ipv4_display z)).
  rewrite (group_not_ipv4 "ffff") by (done || by right; eexists).
  rewrite (read_number_app 16 u16_max 4 true "ffff" 65535 (String ":" (ipv4_display z))) by done.
  cbn -[ipv4_display of_groups read_ipv4].
  rewrite <- (string_app_nil_r (ipv4_display z)), ipv4_read by done.
  cbn -[of_groups]. do 3 f_equal. unfold of_groups. cbn [foldl].
  pose proof (Z.div_mod z 65536). lia.
Qed.

Lemma std_ip_roundtrip i : ip_ok i -> std_ip_parse (std_ip_to_string i) = Some i.
Proof.
  intros Hi. unfold std_ip_parse. enough (read_ip (std_ip_to_string i) = Some (i, "")) as -> by done.
  destruct i as [z|z]; cbn [std_ip_to_string ip_ok] in *.
  - unfold read_ip. rewrite <- (string_app_nil_r (ipv4_display z)).
    by rewrite ipv4_read by (done || unfold u32_max in Hi; lia).
  - unfold ipv6_display. destruct (Z.eqb_spec (z / 2 ^ 32) 65535) as [E|_].
    + rewrite ipv6_read_mapped by (apply Z.mod_pos_bound; lia). rewrite <- E. do 3 f_equal.
      pose proof (Z.div_mod z (2 ^ 32)). lia.
    + pose proof (zero_span_split (groups 8 z)) as Hsp. cbv zeta in Hsp. revert Hsp.
      generalize (zero_span 0 (mkSpan 0 0) (mkSpan 0 0) (groups 8 z)) as sp. intros sp Hsp.
      pose proof (groups_length 8 z) as Hlen. pose proof (groups_ok 8 z) as Hok.
      pose proof (of_groups_groups 8 z Hi) as Hz. revert Hsp Hlen Hok Hz.
      generalize (groups 8 z) as L. intros L Hsp Hlen Hok <-.
      destruct (Nat.ltb_spec 1 (span_len sp)); [|by apply ipv6_read_groups].
      rewrite Hsp at 3. apply ipv6_read_short; [by apply Forall_take | by apply Forall_drop | done |].
      rewrite Hsp in Hlen at 1. rewrite !length_app, length_replicate in Hlen. lia.
Qed.

Definition std_ip_laws : @IpTextLaws std_ip_text := @Build_IpTextLaws std_ip_text std_ip_roundtrip.
