(* ===== verification/Packet.v ===== *)
(** Packet capture and decoding: [crates/packet/src/decode.rs] and
    [crates/packet/src/capture.rs].

    [pnet] is not part of the repository.  Its packet views are the class
    [Pnet]: for each header type, [X::new(data)] followed by the getters the
    decoder calls.  [PnetLaws] states what its documentation says of them:
    a view exists when the slice holds the fixed header, and a getter reads
    the field at its place in the wire format.

    The capture thread is a state machine over what its environment does
    (pcap results, the stop signal, a full channel). *)

From S2P Require Import Prelude Text Types.

(** * Data *)

Record PacketBuf : Type := mkPacketBuf { raw : list Z; link_header_len : nat }.

(** [PacketBuf::network_payload]. *)
Definition network_payload (b : PacketBuf) : list Z :=
  default [] (get_from (raw b) (link_header_len b)).

Record EthernetHeader : Type := mkEthernetHeader {
  eth_source : MacAddress;
  eth_destination : MacAddress;
  ethertype : Z
}.

Record Ipv4Header : Type := mkIpv4Header {
  ip_source : IpAddr;
  ip_destination : IpAddr;
  ip_protocol : Z;
  total_length : Z;
  header_length : Z
}.

Record PortHeader : Type := mkPortHeader { source_port : Z; destination_port : Z }.
Record IcmpHeader : Type := mkIcmpHeader { icmp_type : Z; icmp_code : Z }.

Inductive TransportHeader : Type :=
| TcpHdr (h : PortHeader)
| UdpHdr (h : PortHeader)
| IcmpHdr (h : IcmpHeader).

Record DecodedPacket : Type := mkDecodedPacket {
  dp_raw : PacketBuf;
  ethernet : EthernetHeader;
  ipv4 : option Ipv4Header;
  transport : option TransportHeader;
  payload : list Z
}.

(** * The packet views of pnet *)

Record EthernetView : Type := mkEthernetView {
  get_source : MacAddress; get_destination : MacAddress; get_ethertype : Z
}.
Record Ipv4View : Type := mkIpv4View {
  v4_source : Z; v4_destination : Z; v4_next_level_protocol : Z;
  v4_total_length : Z; v4_header_length : Z
}.
Record TcpView : Type := mkTcpView {
  tcp_source : Z; tcp_destination : Z; tcp_data_offset : Z
}.
Record UdpView : Type := mkUdpView { udp_source : Z; udp_destination : Z }.
Record IcmpView : Type := mkIcmpView { get_icmp_type : Z; get_icmp_code : Z }.

Class Pnet : Type := {
  ethernet_packet : list Z -> option EthernetView;
  ipv4_packet : list Z -> option Ipv4View;
  tcp_packet : list Z -> option TcpView;
  udp_packet : list Z -> option UdpView;
  icmp_packet : list Z -> option IcmpView;
  arp_packet : list Z -> option (list Z)
}.

(** Big-endian fields of a slice known to be long enough. *)
Definition byte_at (l : list Z) (i : nat) : Z := default 0 (l !! i).
Definition u16_at (l : list Z) (i : nat) : Z :=
  u16_from_be_bytes (byte_at l i) (byte_at l (i + 1)).
Definition u32_at (l : list Z) (i : nat) : Z :=
  u32_from_be_bytes (byte_at l i) (byte_at l (i + 1)) (byte_at l (i + 2)) (byte_at l (i + 3)).
Definition mac_at (l : list Z) (i : nat) : MacAddress :=
  mkMac (byte_at l i) (byte_at l (i + 1)) (byte_at l (i + 2))
        (byte_at l (i + 3)) (byte_at l (i + 4)) (byte_at l (i + 5)).

Definition when_long {A} (n : nat) (l : list Z) (a : A) : option A :=
  if (n <=? length l)%nat then Some a else None.

Definition wire_ethernet (l : list Z) : EthernetView :=
  mkEthernetView (mac_at l 6) (mac_at l 0) (u16_at l 12).
Definition wire_ipv4 (l : list Z) : Ipv4View :=
  mkIpv4View (u32_at l 12) (u32_at l 16) (byte_at l 9) (u16_at l 2) (Z.land (byte_at l 0) 15).
Definition wire_tcp (l : list Z) : TcpView :=
  mkTcpView (u16_at l 0) (u16_at l 2) (Z.land (Z.shiftr (byte_at l 12) 4) 15).
Definition wire_udp (l : list Z) : UdpView := mkUdpView (u16_at l 0) (u16_at l 2).
Definition wire_icmp (l : list Z) : IcmpView := mkIcmpView (byte_at l 0) (byte_at l 1).

Class PnetLaws `{!Pnet} : Prop := {
  ethernet_packet_new l : ethernet_packet l = when_long 14 l (wire_ethernet l);
  ipv4_packet_new l : ipv4_packet l = when_long 20 l (wire_ipv4 l);
  tcp_packet_new l : tcp_packet l = when_long 20 l (wire_tcp l);
  udp_packet_new l : udp_packet l = when_long 8 l (wire_udp l);
  icmp_packet_new l : icmp_packet l = when_long 4 l (wire_icmp l);
  arp_packet_new l : arp_packet l = when_long 28 l l
}.

(** A reader that satisfies the laws, for concrete evaluations. *)
Definition wire_pnet : Pnet := {|
  ethernet_packet l := when_long 14 l (wire_ethernet l);
  ipv4_packet l := when_long 20 l (wire_ipv4 l);
  tcp_packet l := when_long 20 l (wire_tcp l);
  udp_packet l := when_long 8 l (wire_udp l);
  icmp_packet l := when_long 4 l (wire_icmp l);
  arp_packet l := when_long 28 l l
|}.
Definition wire_pnet_laws : @PnetLaws wire_pnet :=
  @Build_PnetLaws wire_pnet (fun _ => eq_refl) (fun _ => eq_refl) (fun _ => eq_refl)
    (fun _ => eq_refl) (fun _ => eq_refl) (fun _ => eq_refl).

(** [EtherTypes::Ipv4] and the [IpNextHeaderProtocols] the decoder names. *)
Definition ETHERTYPE_IPV4 : Z := 2048.
Definition IPPROTO_ICMP : Z := 1.
Definition IPPROTO_TCP : Z := 6.
Definition IPPROTO_UDP : Z := 17.

(** * Decoding *)

Section Decode.
Context `{!Pnet}.

Definition decode_ethernet (buf : PacketBuf) : result EthernetHeader PacketError :=
  let? v := ok_or (ethernet_packet (raw buf)) (Truncated 14 (length (raw buf))) in
  Ok (mkEthernetHeader (get_source v) (get_destination v) (get_ethertype v)).

Definition decode_ipv4 (data : list Z) : result Ipv4Header PacketError :=
  let? v := ok_or (ipv4_packet data) (Truncated 20 (length data)) in
  Ok (mkIpv4Header (V4 (v4_source v)) (V4 (v4_destination v)) (v4_next_level_protocol v)
        (v4_total_length v) (v4_header_length v * 4)).

Definition decode_transport (ip : Ipv4Header) (data : list Z)
  : result (option TransportHeader * nat) PacketError :=
  if ip_protocol ip =? IPPROTO_TCP then
    let? tcp := ok_or (tcp_packet data) (Truncated 20 (length data)) in
    Ok (Some (TcpHdr (mkPortHeader (tcp_source tcp) (tcp_destination tcp))),
        (Z.to_nat (tcp_data_offset tcp) * 4)%nat)
  else if ip_protocol ip =? IPPROTO_UDP then
    let? udp := ok_or (udp_packet data) (Truncated 8 (length data)) in
    Ok (Some (UdpHdr (mkPortHeader (udp_source udp) (udp_destination udp))), 8%nat)
  else if ip_protocol ip =? IPPROTO_ICMP then
    let? icmp := ok_or (icmp_packet data) (Truncated 4 (length data)) in
    Ok (Some (IcmpHdr (mkIcmpHeader (get_icmp_type icmp) (get_icmp_code icmp))), 4%nat)
  else Ok (None, 0%nat).

Definition decode_packet (buf : PacketBuf) : exec (result DecodedPacket PacketError) :=
  try! eth := Done (decode_ethernet buf) in
  if ethertype eth =? ETHERTYPE_IPV4 then
    run! net := slice_from (raw buf) 14 in
    try! ip_header := Done (decode_ipv4 net) in
    let transport_offset := (14 + Z.to_nat (header_length ip_header))%nat in
    run! data := slice_from (raw buf) transport_offset in
    try! tr := Done (decode_transport ip_header data) in
    run! rest := slice_from (raw buf) (transport_offset + tr.2) in
    Done (Ok (mkDecodedPacket buf eth (Some ip_header) tr.1 rest))
  else Done (Ok (mkDecodedPacket buf eth None None [])).

Definition decode_arp (data : list Z) : result (list Z) PacketError :=
  ok_or (arp_packet data) (Truncated 28 (length data)).
End Decode.

(** ** What the wire format says of a frame, independently of the decoder *)

Definition frame_ethertype (l : list Z) : Z := u16_at l 12.
Definition frame_ip_header_len (l : list Z) : nat := Z.to_nat (Z.land (byte_at l 14) 15 * 4).
Definition frame_protocol (l : list Z) : Z := byte_at l 23.
Definition transport_start (l : list Z) : nat := (14 + frame_ip_header_len l)%nat.
(** The fixed part of the transport header, and its whole length. *)
Definition transport_fixed (l : list Z) : nat :=
  if frame_protocol l =? IPPROTO_TCP then 20
  else if frame_protocol l =? IPPROTO_UDP then 8
  else if frame_protocol l =? IPPROTO_ICMP then 4 else 0.
Definition transport_len (l : list Z) : nat :=
  if frame_protocol l =? IPPROTO_TCP
  then (Z.to_nat (Z.land (Z.shiftr (byte_at l (transport_start l + 12)) 4) 15) * 4)%nat
  else transport_fixed l.

(** What the decoder does with a frame, read off the wire format. *)
Inductive verdict : Type :=
| TooShort (expected actual : nat)
| OutOfBounds
| NotIp
| Decoded (payload_offset : nat).

Definition frame_verdict (l : list Z) : verdict :=
  let n := length l in
  if (n <? 14)%nat then TooShort 14 n
  else if negb (frame_ethertype l =? ETHERTYPE_IPV4) then NotIp
  else if (n <? 34)%nat then TooShort 20 (n - 14)
  else if (n <? transport_start l)%nat then OutOfBounds
  else if (n <? transport_start l + transport_fixed l)%nat
       then TooShort (transport_fixed l) (n - transport_start l)
  else if (n <? transport_start l + transport_len l)%nat then OutOfBounds
  else Decoded (transport_start l + transport_len l).

(** * Capture *)

(** [linktype_to_header_len]: DLT number to link-layer header length. *)
Definition linktype_to_header_len (linktype : Z) : nat :=
  match linktype with
  | 1 => 14
  | 12 => 0
  | 113 => 16
  | _ => 14
  end.

Definition MAX_CAPTURE_ERRORS : Z := 10.

(** One turn of the loops of [capture_loop]: what [stop_rx.try_recv],
    [open_capture] and [next_packet] returned, and whether the channel had
    room for [try_send]. *)
Inductive capture_event : Type :=
| StopSignal
| OpenOk (linktype : Z)
| OpenFailed
| GotPacket (data : list Z) (room : bool)
| TimeoutExpired
| CaptureFailed.

Inductive capture_state : Type :=
| Opening (consecutive_errors : Z)
| Reading (consecutive_errors : Z) (header_len : nat)
| Stopped
| GaveUp.

(** The state after the turn and the packets put on the channel.  Each state
    polls only its own calls: an event of another state changes nothing. *)
Definition capture_turn (s : capture_state) (e : capture_event)
  : capture_state * list PacketBuf :=
  match s, e with
  | Opening _, StopSignal => (Stopped, [])
  | Opening _, OpenOk lt => (Reading 0 (linktype_to_header_len lt), [])
  | Opening n, OpenFailed =>
      if n + 1 >=? MAX_CAPTURE_ERRORS then (GaveUp, []) else (Opening (n + 1), [])
  | Reading _ _, StopSignal => (Stopped, [])
  | Reading _ h, GotPacket data room =>
      (Reading 0 h, if room then [mkPacketBuf data h] else [])
  | Reading n h, TimeoutExpired => (Reading n h, [])
  | Reading n _, CaptureFailed => (Opening n, [])
  | _, _ => (s, [])
  end.

Fixpoint capture_run (s : capture_state) (es : list capture_event)
  : capture_state * list PacketBuf :=
  match es with
  | [] => (s, [])
  | e :: es' =>
      let (s1, out1) := capture_turn s e in
      let (s2, out2) := capture_run s1 es' in
      (s2, out1 ++ out2)
  end.

(** [capture_loop] on a fresh thread. *)
Definition capture_loop (es : list capture_event) : capture_state * list PacketBuf :=
  capture_run (Opening 0) es.

(** [CaptureSession]: the sender of the stop signal and the handle of the
    thread, which [stop] takes, and where the thread is. *)
Record CaptureSession : Type := mkCaptureSession {
  stop_tx : bool; thread_handle : bool; thread : capture_state
}.
(** [start], and the thread some turns later. *)
Definition session_start : CaptureSession := mkCaptureSession true true (Opening 0).
Definition session_run (s : CaptureSession) (es : list capture_event) : CaptureSession :=
  mkCaptureSession (stop_tx s) (thread_handle s) (capture_run (thread s) es).1.
Definition ended (s : capture_state) : bool :=
  match s with Stopped | GaveUp => true | _ => false end.
(** [stop], which [drop] calls again: the signal is sent once, and [join]
    waits for the thread; [None] is a wait that never ends. *)
Definition session_stop (s : CaptureSession) : option CaptureSession :=
  let thread' := if stop_tx s then (capture_turn (thread s) StopSignal).1 else thread s in
  if thread_handle s && negb (ended thread') then None
  else Some (mkCaptureSession false false thread').

(** The IPv4 header the wire format has behind an Ethernet header. *)
Definition wire_ip_header (l : list Z) : Ipv4Header :=
  let v := wire_ipv4 (drop 14 l) in
  mkIpv4Header (V4 (v4_source v)) (V4 (v4_destination v)) (v4_next_level_protocol v)
    (v4_total_length v) (v4_header_length v * 4).

(** The transport header the wire format has at [transport_start]. *)
Definition wire_transport (l : list Z) : option TransportHeader :=
  let t := drop (transport_start l) l in
  if frame_protocol l =? IPPROTO_TCP
  then Some (TcpHdr (mkPortHeader (tcp_source (wire_tcp t)) (tcp_destination (wire_tcp t))))
  else if frame_protocol l =? IPPROTO_UDP
  then Some (UdpHdr (mkPortHeader (udp_source (wire_udp t)) (udp_destination (wire_udp t))))
  else if frame_protocol l =? IPPROTO_ICMP
  then Some (IcmpHdr (mkIcmpHeader (get_icmp_type (wire_icmp t)) (get_icmp_code (wire_icmp t))))
  else None.

Definition is_failed_open (e : capture_event) : bool :=
  match e with OpenFailed => true | _ => false end.

Definition count_failed (es : list capture_event) : Z :=
  Z.of_nat (length (List.filter is_failed_open es)).

Definition interrupts (e : capture_event) : bool :=
  match e with OpenOk _ | StopSignal => true | _ => false end.

(** [n] opens failed in a row at the end of [es], with no success between. *)
Definition failing (es : list capture_event) (n : Z) : Prop :=
  exists es1 es2, es = es1 ++ es2 /\ (capture_loop es1).1 = Opening 0 /\
    Forall (fun e => interrupts e = false) es2 /\ count_failed es2 = n.

(** The state of the thread explains its error counter. *)
Definition capture_inv (es : list capture_event) (s : capture_state) : Prop :=
  match s with
  | Opening n => 0 <= n < MAX_CAPTURE_ERRORS /\ failing es n
  | Reading n _ => n = 0
  | Stopped => StopSignal ∈ es
  | GaveUp => exists es1 es2, es = es1 ++ es2 /\ failing es1 MAX_CAPTURE_ERRORS
  end.

Definition event_data (e : capture_event) : list (list Z) :=
  match e with GotPacket d _ => [d] | _ => [] end.

(** A TCP SYN from 192.168.1.10:54321 to 93.184.216.34:80 with two bytes of data. *)
Definition tcp_syn_frame : list Z :=
  [170;187;204;221;238;255; 0;17;34;51;68;85; 8;0;
   69;0;0;60;0;1;64;0;64;6;0;0;192;168;1;10;93;184;216;34;
   212;49;0;80;0;0;0;1;0;0;0;0;80;2;255;255;0;0;0;0; 7; 9].

(** * Lemmas *)

Lemma byte_at_drop l k i : byte_at (drop k l) i = byte_at l (k + i).
Proof. unfold byte_at. by rewrite lookup_drop. Qed.

Lemma u16_at_drop l k i : u16_at (drop k l) i = u16_at l (k + i).
Proof. unfold u16_at. by rewrite !byte_at_drop, Nat.add_assoc. Qed.

Lemma when_long_ge {A} n l (a : A) : (n <= length l)%nat -> when_long n l a = Some a.
Proof. intros H. unfold when_long. by rewrite (proj2 (Nat.leb_le _ _) H). Qed.

Lemma when_long_lt {A} n l (a : A) : (length l < n)%nat -> when_long n l a = None.
Proof. intros H. unfold when_long. by rewrite (proj2 (Nat.leb_gt _ _) H). Qed.

Lemma nibble_bound z : 0 <= Z.land z 15 <= 15.
Proof.
  change 15 with (Z.ones 4) at 1 2. rewrite Z.land_ones by lia.
  pose proof (Z.mod_pos_bound z (2 ^ 4)). lia.
Qed.

(** The view lemmas in the form the decoder meets them. *)
Section DecodeFacts.
Context `{!Pnet, !PnetLaws}.

Lemma decode_ethernet_long buf :
  (14 <= length (raw buf))%nat ->
  decode_ethernet buf =
    Ok (mkEthernetHeader (mac_at (raw buf) 6) (mac_at (raw buf) 0) (frame_ethertype (raw buf))).
Proof. intros Hl. unfold decode_ethernet. by rewrite ethernet_packet_new, when_long_ge. Qed.

Lemma decode_ethernet_short buf :
  (length (raw buf) < 14)%nat ->
  decode_ethernet buf = Err (Truncated 14 (length (raw buf))).
Proof. intros Hl. unfold decode_ethernet. by rewrite ethernet_packet_new, when_long_lt. Qed.

Lemma decode_ipv4_net l :
  decode_ipv4 (drop 14 l) =
    if (34 <=? length l)%nat then Ok (wire_ip_header l)
    else Err (Truncated 20 (length l - 14)).
Proof.
  unfold decode_ipv4. rewrite ipv4_packet_new.
  destruct (34 <=? length l)%nat eqn:E; bool_to_prop.
  - rewrite when_long_ge by (rewrite length_drop; lia). reflexivity.
  - rewrite when_long_lt by (rewrite length_drop; lia). by rewrite length_drop.
Qed.

Lemma wire_ip_header_len l :
  Z.to_nat (header_length (wire_ip_header l)) = frame_ip_header_len l.
Proof. unfold wire_ip_header. simpl. by rewrite byte_at_drop. Qed.

Lemma wire_ip_header_protocol l : ip_protocol (wire_ip_header l) = frame_protocol l.
Proof. unfold wire_ip_header. simpl. by rewrite byte_at_drop. Qed.

Lemma decode_transport_wire l :
  (transport_start l <= length l)%nat ->
  decode_transport (wire_ip_header l) (drop (transport_start l) l) =
    if (transport_start l + transport_fixed l <=? length l)%nat
    then Ok (wire_transport l, transport_len l)
    else Err (Truncated (transport_fixed l) (length l - transport_start l)).
Proof.
  intros Hs. unfold decode_transport, wire_transport, transport_len, transport_fixed.
  rewrite wire_ip_header_protocol, tcp_packet_new, udp_packet_new, icmp_packet_new.
  repeat case_match; bool_to_prop; try lia;
    rewrite ?when_long_ge, ?when_long_lt by (rewrite length_drop; lia);
    rewrite ?length_drop; simpl; rewrite ?byte_at_drop; done.
Qed.
End DecodeFacts.

Lemma transport_fixed_le_len l :
  frame_protocol l <> IPPROTO_TCP -> transport_len l = transport_fixed l.
Proof. intros H. unfold transport_len. by rewrite (proj2 (Z.eqb_neq _ _) H). Qed.

(** Everything [decode_packet] can do with a frame, by its verdict. *)
Lemma decode_packet_by_verdict `{!Pnet, !PnetLaws} (buf : PacketBuf) :
  let l := raw buf in
  let eth := mkEthernetHeader (mac_at l 6) (mac_at l 0) (frame_ethertype l) in
  decode_packet buf =
    match frame_verdict l with
    | TooShort e a => Done (Err (Truncated e a))
    | OutOfBounds => Panic
    | NotIp => Done (Ok (mkDecodedPacket buf eth None None []))
    | Decoded off =>
        Done (Ok (mkDecodedPacket buf eth (Some (wire_ip_header l)) (wire_transport l) (drop off l)))
    end.
Proof.
  intros l eth. unfold decode_packet, frame_verdict. fold l.
  destruct (length l <? 14)%nat eqn:E1; bool_to_prop.
  { by rewrite decode_ethernet_short. }
  rewrite decode_ethernet_long by done. cbn [try_bind ethertype]. fold l.
  destruct (frame_ethertype l =? ETHERTYPE_IPV4); cbn [negb]; [|done].
  rewrite slice_from_le by done. cbn [mbind exec_bind]. rewrite decode_ipv4_net.
  destruct (length l <? 34)%nat eqn:E2; bool_to_prop.
  { by rewrite (proj2 (Nat.leb_gt _ _)) by lia. }
  rewrite (proj2 (Nat.leb_le _ _)) by lia. cbn [try_bind].
  rewrite wire_ip_header_len. fold (transport_start l).
  destruct (length l <? transport_start l)%nat eqn:E3; bool_to_prop.
  { by rewrite slice_from_gt. }
  rewrite slice_from_le by done. cbn [mbind exec_bind]. rewrite decode_transport_wire by done.
  destruct (length l <? transport_start l + transport_fixed l)%nat eqn:E4; bool_to_prop.
  { by rewrite (proj2 (Nat.leb_gt _ _)) by lia. }
  rewrite (proj2 (Nat.leb_le _ _)) by lia. cbn [try_bind fst snd].
  destruct (length l <? transport_start l + transport_len l)%nat eqn:E5; bool_to_prop.
  - by rewrite slice_from_gt.
  - by rewrite slice_from_le.
Qed.

(** ** Capture *)

(** Stopping returns, at whatever point the thread is, and leaves nothing for
    [drop] to do. *)
Lemma session_stop_returns es :
  exists s, session_stop (session_run session_start es) = Some s /\ ended (thread s) = true /\
    session_stop s = Some s.
Proof.
  unfold session_stop, session_run. cbn [stop_tx thread_handle thread session_start].
  destruct (capture_run (Opening 0) es).1; eexists; repeat split.
Qed.

Lemma capture_run_app s es1 es2 :
  capture_run s (es1 ++ es2) =
    let (s1, o1) := capture_run s es1 in
    let (s2, o2) := capture_run s1 es2 in (s2, o1 ++ o2).
Proof.
  revert s. induction es1 as [|e es1 IH]; intros s; simpl.
  { by destruct (capture_run s es2). }
  destruct (capture_turn s e) as [s1 o1]. rewrite IH.
  destruct (capture_run s1 es1) as [s2 o2]. destruct (capture_run s2 es2) as [s3 o3].
  by rewrite app_assoc.
Qed.

Lemma count_failed_app a b : count_failed (a ++ b) = count_failed a + count_failed b.
Proof. unfold count_failed. rewrite List.filter_app, length_app. lia. Qed.

Lemma capture_loop_snoc es e :
  capture_loop (es ++ [e]) =
    let (s, o) := capture_loop es in
    let (s', o') := capture_turn s e in (s', o ++ o').
Proof.
  unfold capture_loop. rewrite capture_run_app. destruct (capture_run (Opening 0) es) as [s o].
  simpl. destruct (capture_turn s e) as [s' o']. by rewrite app_nil_r.
Qed.

Lemma failing_snoc es n e :
  failing es n -> interrupts e = false -> failing (es ++ [e]) (n + count_failed [e]).
Proof.
  intros (es1 & es2 & -> & H1 & H2 & <-) He. exists es1, (es2 ++ [e]).
  split_and!; [by rewrite app_assoc | done | | by rewrite count_failed_app].
  apply Forall_app; auto.
Qed.

Lemma failing_zero es : (capture_loop es).1 = Opening 0 -> failing es 0.
Proof. intros H. exists es, []. by rewrite app_nil_r. Qed.

Lemma capture_loop_fst_snoc es e :
  (capture_loop (es ++ [e])).1 = (capture_turn (capture_loop es).1 e).1.
Proof.
  rewrite capture_loop_snoc. destruct (capture_loop es) as [s o]. cbn [fst].
  by destruct (capture_turn s e).
Qed.

(** An event the opening state ignores. *)
Lemma failing_idle es n e :
  interrupts e = false -> is_failed_open e = false -> failing es n -> failing (es ++ [e]) n.
Proof.
  intros H1 H2 H. replace n with (n + count_failed [e]); [by apply failing_snoc|].
  unfold count_failed. simpl. rewrite H2. simpl. lia.
Qed.

Lemma capture_inv_opening es n e :
  (capture_loop es).1 = Opening n -> capture_inv es (Opening n) ->
  capture_inv (es ++ [e]) (capture_turn (Opening n) e).1.
Proof.
  intros Hs [Hb Hf]. destruct e; cbn [capture_turn fst].
  1: { cbn. set_solver. }
  2: { pose proof (failing_snoc es n OpenFailed Hf eq_refl) as Hf'.
       change (count_failed [OpenFailed]) with 1 in Hf'.
       destruct (n + 1 >=? MAX_CAPTURE_ERRORS) eqn:E; rewrite Z.geb_leb in E; bool_to_prop; cbn.
       - exists (es ++ [OpenFailed]), []. rewrite app_nil_r. split; [done|].
         by replace MAX_CAPTURE_ERRORS with (n + 1) by lia.
       - split; [lia|done]. }
  all: cbn; auto using failing_idle.
Qed.

Lemma capture_inv_loop es : capture_inv es (capture_loop es).1.
Proof.
  induction es as [|e es IH] using rev_ind.
  { simpl. split; [unfold MAX_CAPTURE_ERRORS; lia|]. by apply failing_zero. }
  rewrite capture_loop_fst_snoc. pose proof (capture_loop_fst_snoc es e) as Hn.
  destruct (capture_loop es).1 as [n|n h| |] eqn:Hes.
  - by apply capture_inv_opening.
  - cbn in IH. subst n. destruct e; cbn in *; try done; [set_solver|].
    split; [unfold MAX_CAPTURE_ERRORS; lia|]. by apply failing_zero.
  - cbn in *. set_solver.
  - destruct IH as (es1 & es2 & -> & Hf). cbn. exists es1, (es2 ++ [e]). by rewrite app_assoc.
Qed.

Lemma capture_turn_out s e :
  (raw <$> (capture_turn s e).2) `sublist_of` event_data e.
Proof.
  destruct s, e; cbn; repeat case_match; cbn; try apply sublist_nil_l; apply sublist_nil_l || reflexivity.
Qed.

Lemma capture_run_out s es :
  (raw <$> (capture_run s es).2) `sublist_of` (es ≫= event_data).
Proof.
  revert s. induction es as [|e es IH]; intros s; [apply sublist_nil_l|].
  simpl. pose proof (capture_turn_out s e) as Ht.
  destruct (capture_turn s e) as [s1 o1]. specialize (IH s1).
  destruct (capture_run s1 es) as [s2 o2]. simpl in *. rewrite fmap_app.
  by apply sublist_app.
Qed.

(** * Properties *)

(** C14: [decode_packet] agrees with the wire format on every byte string: it
    reports exactly the truncations of the Ethernet, IPv4 and transport
    headers, returns the header fields and the bytes behind the transport
    header otherwise, and panics exactly when the lengths a frame claims
    (IHL, TCP data offset) run past its end. *)
Theorem decode_packet_refines_wire `{!Pnet, !PnetLaws} (buf : PacketBuf) :
  let l := raw buf in
  let eth := mkEthernetHeader (mac_at l 6) (mac_at l 0) (frame_ethertype l) in
  decode_packet buf =
    match frame_verdict l with
    | TooShort e a => Done (Err (Truncated e a))
    | OutOfBounds => Panic
    | NotIp => Done (Ok (mkDecodedPacket buf eth None None []))
    | Decoded off =>
        Done (Ok (mkDecodedPacket buf eth (Some (wire_ip_header l)) (wire_transport l) (drop off l)))
    end.
Proof. apply decode_packet_by_verdict. Qed.

Lemma decode_packet_refines_wire_witness :
  @decode_packet wire_pnet (mkPacketBuf tcp_syn_frame 14) =
    Done (Ok (mkDecodedPacket (mkPacketBuf tcp_syn_frame 14)
      (mkEthernetHeader (mkMac 0 17 34 51 68 85) (mkMac 170 187 204 221 238 255) 2048)
      (Some (mkIpv4Header (V4 3232235786) (V4 1572395042) 6 60 20))
      (Some (TcpHdr (mkPortHeader 54321 80))) [7; 9])).
Proof.
  pose proof (@decode_packet_refines_wire wire_pnet wire_pnet_laws (mkPacketBuf tcp_syn_frame 14)) as H.
  exact H.
Defined.

(** A frame makes [decode_packet] panic, instead of returning the
    [Truncated] error its documentation promises, if and only if it is an
    IPv4 frame of at least 34 bytes whose IP header length runs past the
    frame, or a TCP one whose data offset does. *)
Theorem decode_packet_panics_iff `{!Pnet, !PnetLaws} (buf : PacketBuf) :
  decode_packet buf = Panic <->
  frame_ethertype (raw buf) = ETHERTYPE_IPV4 /\ (34 <= length (raw buf))%nat /\
  ((length (raw buf) < transport_start (raw buf))%nat \/
   frame_protocol (raw buf) = IPPROTO_TCP /\
   (transport_start (raw buf) + 20 <= length (raw buf)
      < transport_start (raw buf) + transport_len (raw buf))%nat).
Proof.
  rewrite decode_packet_by_verdict. set (l := raw buf). unfold frame_verdict.
  assert (transport_fixed l = 20%nat /\ frame_protocol l = IPPROTO_TCP \/
          transport_len l = transport_fixed l /\ frame_protocol l <> IPPROTO_TCP) as Hf.
  { destruct (decide (frame_protocol l = IPPROTO_TCP)) as [E|E];
      [left | right; eauto using transport_fixed_le_len].
    unfold transport_fixed. by rewrite E. }
  repeat case_match; simplify_eq; bool_to_prop; split; intros; try done; try lia.
  all: split_and!; try done; try lia.
Qed.

Lemma decode_packet_panics_iff_witness :
  @decode_packet wire_pnet (mkPacketBuf (take 40 (<[14%nat := 79]> tcp_syn_frame)) 14) = Panic.
Proof.
  apply (@decode_packet_panics_iff wire_pnet wire_pnet_laws).
  split; [vm_compute; reflexivity|]. split; [vm_compute; lia|]. left. vm_compute. lia.
Defined.

(** C39: the capture thread gives up only after ten failed opens in a row
    (no successful open and no stop signal between them), stops otherwise
    only on a stop signal, keeps its error counter below ten in between, and
    puts on the channel only captured packets, in order. *)
Theorem capture_loop_error_budget (es : list capture_event) :
  let (s, out) := capture_loop es in
  capture_inv es s /\ (raw <$> out) `sublist_of` (es ≫= event_data).
Proof.
  pose proof (capture_inv_loop es) as Hi. pose proof (capture_run_out (Opening 0) es) as Ho.
  unfold capture_loop in *. by destruct (capture_run (Opening 0) es).
Qed.
