(* ===== verification/Classify.v ===== *)
(** Protocol classification, [crates/protocol/src/classifier.rs], and the NTP
    header check, [crates/protocol/src/ntp.rs]. *)

From S2P Require Import Prelude Text Types Packet.

(** * Classification *)

Definition UDP_DNS : Z := 53.
Definition UDP_DHCP_SERVER : Z := 67.
Definition UDP_DHCP_CLIENT : Z := 68.
Definition UDP_MDNS : Z := 5353.
Definition UDP_NTP : Z := 123.
Definition TCP_DNS : Z := 53.
Definition TCP_HTTP : Z := 80.
Definition TCP_HTTPS : Z := 443.

Definition METHODS : list (list Z) :=
  as_bytes <$> ["GET "; "POST "; "PUT "; "DELETE "; "HEAD "; "OPTIONS "; "PATCH ";
                "TRACE "; "CONNECT "].

(** The loop over [METHODS] returns at the first match. *)
Fixpoint starts_with_method (methods : list (list Z)) (payload : list Z) : bool :=
  match methods with
  | [] => false
  | m :: ms => if starts_with_bytes m payload then true else starts_with_method ms payload
  end.

Definition is_http_banner (payload : list Z) : exec bool :=
  if (length payload <? 5)%nat then Done false
  else if starts_with_method METHODS payload then Done true
  else if (7 <=? length payload)%nat then
    run! head := slice payload 0 7 in
    Done (bool_decide (head = as_bytes "HTTP/1."))
  else Done false.

Definition classify_tcp (src_port dst_port : Z) (payload : list Z) : exec Protocol :=
  if (src_port =? TCP_DNS) || (dst_port =? TCP_DNS) then Done Dns
  else if (src_port =? TCP_HTTP) || (dst_port =? TCP_HTTP) then Done Http
  else if (src_port =? TCP_HTTPS) || (dst_port =? TCP_HTTPS) then Done Https
  else
    run! banner := is_http_banner payload in
    Done (if banner : bool then Http else Tcp).

Definition classify_udp (src_port dst_port : Z) : Protocol :=
  if (src_port =? UDP_DNS) || (dst_port =? UDP_DNS) then Dns
  else if (src_port =? UDP_DHCP_SERVER) || (dst_port =? UDP_DHCP_SERVER)
       || (src_port =? UDP_DHCP_CLIENT) || (dst_port =? UDP_DHCP_CLIENT) then Dhcp
  else if (src_port =? UDP_MDNS) || (dst_port =? UDP_MDNS) then Mdns
  else if (src_port =? UDP_NTP) || (dst_port =? UDP_NTP) then Ntp
  else Udp.

Definition ETHERTYPE_ARP : Z := 2054.

Definition classify (packet : DecodedPacket) : exec Protocol :=
  if ethertype (ethernet packet) =? ETHERTYPE_ARP then Done Arp
  else match ipv4 packet with
       | None => Done (Other 0)
       | Some _ =>
           match transport packet with
           | Some (TcpHdr tcp) =>
               classify_tcp (source_port tcp) (destination_port tcp) (payload packet)
           | Some (UdpHdr udp) => Done (classify_udp (source_port udp) (destination_port udp))
           | Some (IcmpHdr _) => Done Icmp
           | None => Done Ipv4
           end
       end.

(** The other direction of a flow. *)
Definition reverse_header (h : TransportHeader) : TransportHeader :=
  match h with
  | TcpHdr p => TcpHdr (mkPortHeader (destination_port p) (source_port p))
  | UdpHdr p => UdpHdr (mkPortHeader (destination_port p) (source_port p))
  | IcmpHdr i => IcmpHdr i
  end.
Definition reverse_packet (p : DecodedPacket) : DecodedPacket :=
  mkDecodedPacket (dp_raw p) (ethernet p) (ipv4 p) (reverse_header <$> transport p) (payload p).

(** * NTP *)

Record NtpInfo : Type := mkNtpInfo { version : Z; mode : Z; leap_indicator : Z }.

Definition parse_ntp (payload : list Z) : exec (option NtpInfo) :=
  if (length payload <? 48)%nat then Done None
  else
    run! first_byte := index payload 0 in
    let leap_indicator := Z.land (Z.shiftr first_byte 6) 3 in
    let version := Z.land (Z.shiftr first_byte 3) 7 in
    let mode := Z.land first_byte 7 in
    Done (if negb (version =? 3) && negb (version =? 4) then None
          else if negb ((1 <=? mode) && (mode <=? 6)) then None
          else Some (mkNtpInfo version mode leap_indicator)).

(** The first byte of an NTP header. *)
Definition ntp_first_byte (i : NtpInfo) : Z :=
  64 * leap_indicator i + 8 * version i + mode i.
Definition ntp_valid (i : NtpInfo) : Prop :=
  0 <= leap_indicator i <= 3 /\ (version i = 3 \/ version i = 4) /\ 1 <= mode i <= 6.

(** * Lemmas *)

Lemma starts_with_method_spec ms payload :
  starts_with_method ms payload = true <-> exists m r, m ∈ ms /\ payload = m ++ r.
Proof.
  induction ms as [|m ms IH]; simpl.
  { split; [done|]. intros (m & r & H & _). set_solver. }
  destruct (starts_with_bytes m payload) eqn:E.
  - apply starts_with_bytes_spec in E as [r ->]. split; [|done]. intros _.
    exists m, r. set_solver.
  - rewrite IH. split.
    + intros (m' & r & Hm & ->). exists m', r. set_solver.
    + intros (m' & r & [->|Hm]%elem_of_cons & ->); [|eauto].
      rewrite (proj2 (starts_with_bytes_spec m (m ++ r))) in E; [done | eauto].
Qed.

Lemma is_http_banner_Done payload : exists b, is_http_banner payload = Done b.
Proof.
  unfold is_http_banner. repeat case_match; eauto; bool_to_prop.
  rewrite slice_in by lia. simpl. eauto.
Qed.

Lemma is_http_banner_true payload :
  is_http_banner payload = Done true <->
  (5 <= length payload)%nat /\
  exists p r, p ∈ METHODS ++ [as_bytes "HTTP/1."] /\ payload = p ++ r.
Proof.
  unfold is_http_banner.
  destruct (length payload <? 5)%nat eqn:E1; bool_to_prop.
  { split; [done | lia]. }
  destruct (starts_with_method METHODS payload) eqn:E2.
  { apply starts_with_method_spec in E2 as (m & r & Hm & ->).
    split; [|done]. intros _. split; [done|]. exists m, r. rewrite elem_of_app. auto. }
  assert (forall m r, m ∈ METHODS -> payload <> m ++ r) as Hno.
  { intros m r Hm ->. enough (starts_with_method METHODS (m ++ r) = true) by congruence.
    apply starts_with_method_spec. eauto. }
  assert ((exists p r, p ∈ METHODS ++ [as_bytes "HTTP/1."] /\ payload = p ++ r) <->
          exists r, payload = as_bytes "HTTP/1." ++ r) as Hiff.
  { split; [|intros [r Hr]; eexists _, r; split; [|exact Hr]; set_solver].
    intros (p & r & [Hp|Hp%list_elem_of_singleton]%elem_of_app & Hr);
      [by destruct (Hno p r Hp) | subst; eauto]. }
  rewrite Hiff. destruct (7 <=? length payload)%nat eqn:E3; bool_to_prop.
  - rewrite slice_in, drop_0 by lia. cbn [mbind exec_bind Nat.sub]. split.
    + intros [= Hh]. apply bool_decide_eq_true_1 in Hh. split; [lia|]. exists (drop 7 payload).
      exact (eq_trans (eq_sym (take_drop 7 payload)) (f_equal (fun x => x ++ drop 7 payload) Hh)).
    + intros [_ [r ->]]. reflexivity.
  - split; [done|]. intros [_ [r ->]]. rewrite length_app in E3. simpl in E3. lia.
Qed.

Lemma classify_Done p : exists c, classify p = Done c.
Proof.
  unfold classify, classify_tcp. destruct (is_http_banner_Done (payload p)) as [b Hb].
  repeat case_match; rewrite ?Hb; simpl; eauto.
Qed.

Lemma shiftr_land_spec b k w : 0 <= k -> 0 <= w ->
  Z.land (Z.shiftr b k) (Z.ones w) = (b / 2 ^ k) mod 2 ^ w.
Proof. intros. by rewrite Z.land_ones, Z.shiftr_div_pow2. Qed.

Lemma ntp_fields b :
  Z.land (Z.shiftr b 6) 3 = (b / 64) mod 4 /\
  Z.land (Z.shiftr b 3) 7 = (b / 8) mod 8 /\
  Z.land b 7 = b mod 8.
Proof.
  split_and!.
  - apply (shiftr_land_spec b 6 2); lia.
  - apply (shiftr_land_spec b 3 3); lia.
  - apply (Z.land_ones b 3). lia.
Qed.

(** Membership in a short list of classes, decided by its cases. *)
Ltac class_cases :=
  unfold IPPROTO_TCP, IPPROTO_UDP, IPPROTO_ICMP in *;
  split_and!; rewrite ?elem_of_cons, ?elem_of_nil; intuition congruence.

(** * Properties *)

(** End to end, the class of a decoded frame is determined by its bytes:
    ARP exactly for EtherType 0x0806, [Other 0] exactly for the other
    non-IPv4 frames, ICMP exactly for IPv4 protocol 1, plain IPv4 exactly for
    a protocol that is not ICMP, TCP or UDP, and a port-based class otherwise;
    classification of a decoded frame never panics. *)
Theorem classify_frame `{!Pnet, !PnetLaws} (buf : PacketBuf) (p : DecodedPacket) :
  decode_packet buf = Done (Ok p) ->
  let l := raw buf in
  let is_ip := frame_ethertype l = ETHERTYPE_IPV4 in
  exists c, classify p = Done c /\
    (c = Arp <-> frame_ethertype l = ETHERTYPE_ARP) /\
    (c = Other 0 <-> ~ is_ip /\ frame_ethertype l <> ETHERTYPE_ARP) /\
    (c = Icmp <-> is_ip /\ frame_protocol l = IPPROTO_ICMP) /\
    (c = Ipv4 <-> is_ip /\ frame_protocol l ∉ [IPPROTO_ICMP; IPPROTO_TCP; IPPROTO_UDP]) /\
    (c ∈ [Tcp; Https; Http] -> is_ip /\ frame_protocol l = IPPROTO_TCP) /\
    (c ∈ [Udp; Dhcp; Mdns; Ntp] -> is_ip /\ frame_protocol l = IPPROTO_UDP).
Proof.
  rewrite decode_packet_by_verdict. intros Hd l is_ip. fold l in Hd.
  assert ((p = mkDecodedPacket buf (mkEthernetHeader (mac_at l 6) (mac_at l 0) (frame_ethertype l))
              None None [] /\ ~ is_ip) \/
          (exists rest, p = mkDecodedPacket buf
              (mkEthernetHeader (mac_at l 6) (mac_at l 0) (frame_ethertype l))
              (Some (wire_ip_header l)) (wire_transport l) rest /\ is_ip)) as [[-> Hip]|(rest & -> & Hip)].
  { subst is_ip. unfold frame_verdict in Hd. repeat case_match; simplify_eq; bool_to_prop; eauto. }
  - unfold classify. cbn [ethernet ethertype ipv4].
    destruct (Z.eqb_spec (frame_ethertype l) ETHERTYPE_ARP) as [E|E]; eexists; (split; [done|]);
      class_cases.
  - assert (frame_ethertype l <> ETHERTYPE_ARP) as Ha by (rewrite Hip; done).
    unfold classify. cbn [ethernet ethertype ipv4 transport payload].
    rewrite (proj2 (Z.eqb_neq _ _) Ha). unfold wire_transport.
    destruct (Z.eqb_spec (frame_protocol l) IPPROTO_TCP) as [E1|E1];
      [|destruct (Z.eqb_spec (frame_protocol l) IPPROTO_UDP) as [E2|E2];
      [|destruct (Z.eqb_spec (frame_protocol l) IPPROTO_ICMP) as [E3|E3]]].
    + unfold classify_tcp. destruct (is_http_banner_Done rest) as [b Hb].
      repeat case_match; rewrite ?Hb; eexists; (split; [reflexivity|]); rewrite E1;
        try destruct b; class_cases.
    + unfold classify_udp. eexists; (split; [reflexivity|]); rewrite E2.
      repeat case_match; class_cases.
    + eexists; (split; [reflexivity|]); rewrite E3; class_cases.
    + eexists; (split; [reflexivity|]); class_cases.
Qed.

Lemma classify_frame_witness :
  exists c, @classify (mkDecodedPacket (mkPacketBuf tcp_syn_frame 14)
      (mkEthernetHeader (mkMac 0 17 34 51 68 85) (mkMac 170 187 204 221 238 255) 2048)
      (Some (mkIpv4Header (V4 3232235786) (V4 1572395042) 6 60 20))
      (Some (TcpHdr (mkPortHeader 54321 80))) [7; 9]) = Done c /\ c <> Arp.
Proof.
  destruct (@classify_frame wire_pnet wire_pnet_laws (mkPacketBuf tcp_syn_frame 14)
    (mkDecodedPacket (mkPacketBuf tcp_syn_frame 14)
      (mkEthernetHeader (mkMac 0 17 34 51 68 85) (mkMac 170 187 204 221 238 255) 2048)
      (Some (mkIpv4Header (V4 3232235786) (V4 1572395042) 6 60 20))
      (Some (TcpHdr (mkPortHeader 54321 80))) [7; 9])) as (c & Hc & Harp & _).
  - vm_compute. reflexivity.
  - exists c. split; [exact Hc|]. intros E. apply Harp in E. vm_compute in E. discriminate E.
Defined.

(** Classification does not depend on the direction of a flow (swapping
    the ports of a packet keeps its class), and on a port without a
    convention a TCP payload is HTTP exactly when it has at least five bytes
    and begins with a request method and a space or with [HTTP/1.]. *)
Theorem classify_flow_and_banner (p : DecodedPacket) (s d : Z) (body : list Z) :
  classify (reverse_packet p) = classify p /\
  (s ∉ [TCP_DNS; TCP_HTTP; TCP_HTTPS] -> d ∉ [TCP_DNS; TCP_HTTP; TCP_HTTPS] ->
   (classify_tcp s d body = Done Http <->
    (5 <= length body)%nat /\
    exists pre r, pre ∈ METHODS ++ [as_bytes "HTTP/1."] /\ body = pre ++ r)).
Proof.
  split.
  - unfold classify, reverse_packet. cbn [ethernet ipv4 transport payload].
    destruct (transport p) as [[h|h|h]|]; simpl; repeat case_match; try done.
    + unfold classify_tcp. rewrite (orb_comm (destination_port h =? TCP_DNS)),
        (orb_comm (destination_port h =? TCP_HTTP)), (orb_comm (destination_port h =? TCP_HTTPS)).
      done.
    + unfold classify_udp. f_equal.
      rewrite (orb_comm (destination_port h =? UDP_DNS)), (orb_comm (destination_port h =? UDP_MDNS)),
        (orb_comm (destination_port h =? UDP_NTP)), (orb_comm (destination_port h =? UDP_DHCP_SERVER)).
      rewrite <- !orb_assoc, (orb_comm (destination_port h =? UDP_DHCP_CLIENT)). done.
  - intros Hs Hd. rewrite <- is_http_banner_true. unfold classify_tcp.
    repeat match goal with
    | |- context [?x =? ?y] => rewrite (proj2 (Z.eqb_neq x y)) by set_solver
    end. simpl.
    destruct (is_http_banner_Done body) as [[] ->]; simpl; split; congruence.
Qed.

Lemma classify_flow_and_banner_witness :
  classify_tcp 51000 8080 (as_bytes "GET / HTTP/1.1") = Done Http.
Proof.
  apply (classify_flow_and_banner
    (mkDecodedPacket (mkPacketBuf [] 14) (mkEthernetHeader (mkMac 0 0 0 0 0 0) (mkMac 0 0 0 0 0 0) 0)
       None None []) 51000 8080).
  - vm_compute. set_solver.
  - vm_compute. set_solver.
  - split; [vm_compute; lia|]. exists (as_bytes "GET "), (as_bytes "/ HTTP/1.1").
    split; [|reflexivity]. unfold METHODS. set_solver.
Defined.

(** [parse_ntp] never panics on a byte string, accepts exactly the
    payloads of 48 bytes or more whose first byte packs a leap indicator, a
    version 3 or 4 and a mode 1 to 6, and returns those three fields. *)
Theorem parse_ntp_exact (payload : list Z) :
  bytes_ok payload ->
  exists r, parse_ntp payload = Done r /\
    forall i, r = Some i <->
      (48 <= length payload)%nat /\ ntp_valid i /\ payload !! 0%nat = Some (ntp_first_byte i).
Proof.
  intros Hok. unfold parse_ntp.
  destruct (length payload <? 48)%nat eqn:E; bool_to_prop.
  { eexists; split; [done|]. intros i. split; [done | lia]. }
  destruct (index_lt payload 0) as (b & -> & Hb); [lia|]. simpl.
  pose proof (bytes_ok_lookup _ _ _ Hok Hb) as Hr. unfold in_u8, u8_max in Hr.
  destruct (ntp_fields b) as (-> & -> & ->). eexists; split; [done|]. intros [v m li].
  rewrite Hb. unfold ntp_valid, ntp_first_byte. simpl.
  pose proof (Z.div_mod b 8). pose proof (Z.mod_pos_bound b 8).
  pose proof (Z.div_mod b 64). pose proof (Z.mod_pos_bound b 64).
  assert (b / 8 / 8 = b / 64) as Hdd by (rewrite Z.div_div; done).
  pose proof (Z.div_mod (b / 8) 8). pose proof (Z.mod_pos_bound (b / 8) 8).
  assert ((b / 64) mod 4 = b / 64) as -> by (apply Z.mod_small; split; [apply Z.div_pos|]; lia).
  split.
  - repeat case_match; intros [= <- <- <-]; bool_to_prop.
    assert (b / 8 mod 8 = 3 \/ b / 8 mod 8 = 4).
    { match goal with H : _ && _ = false |- _ => apply andb_false_iff in H as [H|H] end;
        bool_to_prop; auto. }
    split_and!; try done; try lia. f_equal. lia.
  - intros (_ & (? & Hv & ?) & [= Hbb]).
    assert (b mod 8 = m) as -> by lia. assert (b / 8 = 8 * li + v) as Hq by lia.
    assert (b / 8 mod 8 = v) as -> by lia. assert (b / 64 = li) as -> by lia.
    destruct Hv; subst v; simpl;
      rewrite (proj2 (Z.leb_le 1 m)), (proj2 (Z.leb_le m 6)) by lia; done.
Qed.

Lemma parse_ntp_exact_witness :
  exists r, parse_ntp (227 :: replicate 47 0) = Done r /\ r = Some (mkNtpInfo 4 3 3).
Proof.
  destruct (parse_ntp_exact (227 :: replicate 47 0)) as (r & Hr & Hi).
  - apply Forall_cons. split; [unfold in_u8, u8_max; lia|].
    apply Forall_replicate. unfold in_u8, u8_max; lia.
  - exists r. split; [exact Hr|]. apply Hi. split; [vm_compute; lia|].
    split; [|reflexivity]. unfold ntp_valid; simpl; lia.
Defined.
