(* ===== verification/Dhcp.v ===== *)
(** DHCP option parsing, [crates/protocol/src/dhcp.rs]: the parser by byte
    offsets as the source has it, an inductive grammar of the options field,
    and the proof that the parser reads exactly that grammar. *)

From S2P Require Import Prelude Text.

(** * The parser *)

Record DhcpInfo : Type := mkDhcpInfo {
  hostname : option string;
  vendor_class : option string;
  message_type : option Z
}.
Definition empty_info : DhcpInfo := mkDhcpInfo None None None.

(** The text of an option: valid UTF-8, without trailing NULs, not empty. *)
Definition option_text (value : list Z) : option string :=
  match from_utf8 value with
  | Some s =>
      let s := trim_end_matches "000" s in
      if is_empty s then None else Some s
  | None => None
  end.

Definition or_else {A} (new old : option A) : option A :=
  match new with Some _ => new | None => old end.

(** The [match tag] of the loop body. *)
Definition apply_option (info : DhcpInfo) (tag : Z) (value : list Z) : exec DhcpInfo :=
  if tag =? 12 then
    Done (mkDhcpInfo (or_else (option_text value) (hostname info)) (vendor_class info)
            (message_type info))
  else if tag =? 60 then
    Done (mkDhcpInfo (hostname info) (or_else (option_text value) (vendor_class info))
            (message_type info))
  else if tag =? 53 then
    run! v := index value 0 in
    Done (mkDhcpInfo (hostname info) (vendor_class info) (Some v))
  else Done info.

(** The [while] loop, from [offset]. *)
Fixpoint parse_options (fuel : nat) (payload : list Z) (offset : nat) (info : DhcpInfo)
  : exec DhcpInfo :=
  match fuel with
  | O => Diverge
  | S fuel' =>
      if negb (offset + 1 <? length payload)%nat then Done info
      else
        run! tag := index payload offset in
        if tag =? 255 then Done info
        else if tag =? 0 then parse_options fuel' payload (offset + 1) info
        else if (length payload <=? offset + 1)%nat then Done info
        else
          run! b := index payload (offset + 1) in
          let len := Z.to_nat b in
          if (length payload <? offset + 2 + len)%nat then Done info
          else
            run! value := slice payload (offset + 2) (offset + 2 + len) in
            run! info' := apply_option info tag value in
            parse_options fuel' payload (offset + (2 + len)) info'
  end.

Definition parse_dhcp (payload : list Z) : exec (option DhcpInfo) :=
  if (length payload <? 240)%nat then Done None
  else if (length payload <? 244)%nat then Done None
  else
    run! c0 := index payload 240 in
    run! c1 := index payload 241 in
    run! c2 := index payload 242 in
    run! c3 := index payload 243 in
    if negb (c0 =? 99) || negb (c1 =? 130) || negb (c2 =? 83) || negb (c3 =? 99) then Done None
    else
      run! info := parse_options (length payload) payload 244 empty_info in
      Done (Some info).

(** * The grammar of the options field *)

Inductive options : list Z -> list (Z * list Z) -> Prop :=
| options_stop l : (length l < 2)%nat -> options l []
| options_end l : options (255 :: l) []
| options_pad l os : options l os -> options (0 :: l) os
| options_truncated tag len l :
    tag <> 0 -> tag <> 255 -> (length l < Z.to_nat len)%nat -> options (tag :: len :: l) []
| options_tlv tag len value l os :
    tag <> 0 -> tag <> 255 -> length value = Z.to_nat len ->
    options l os -> options (tag :: len :: value ++ l) ((tag, value) :: os).

Fixpoint run_options (info : DhcpInfo) (os : list (Z * list Z)) : exec DhcpInfo :=
  match os with
  | [] => Done info
  | (tag, value) :: os' => run! info' := apply_option info tag value in run_options info' os'
  end.

(** The encoder of the grammar, and the packets it makes. *)
Definition encode_option (o : Z * list Z) : list Z := o.1 :: Z.of_nat (length o.2) :: o.2.
Definition encode_options (os : list (Z * list Z)) : list Z := concat (encode_option <$> os).
Definition option_ok (o : Z * list Z) : Prop := 1 <= o.1 <= 254 /\ (length o.2 <= 255)%nat.
Definition magic_cookie : list Z := [99; 130; 83; 99].

(** The value the last usable option of a tag leaves. *)
Definition last_text (tag : Z) (os : list (Z * list Z)) (old : option string) : option string :=
  foldl (fun acc o => if o.1 =? tag then or_else (option_text o.2) acc else acc) old os.
Definition last_type (os : list (Z * list Z)) (old : option Z) : option Z :=
  foldl (fun acc o => if o.1 =? 53 then or_else (head o.2) acc else acc) old os.

(** * Lemmas *)

Lemma apply_option_Done info tag value :
  (tag, value) <> (53, []) -> exists info', apply_option info tag value = Done info'.
Proof.
  intros H. unfold apply_option. repeat case_match; eauto. bool_to_prop. subst tag.
  destruct value as [|v value]; [done|]. simpl. eauto.
Qed.

Lemma apply_option_panic info : apply_option info 53 [] = Panic.
Proof. reflexivity. Qed.

Lemma run_options_panic info os : run_options info os = Panic <-> (53, []) ∈ os.
Proof.
  revert info. induction os as [|[tag value] os IH]; intros info; simpl; [set_solver|].
  destruct (decide ((tag, value) = (53, []))) as [E|E].
  - injection E as -> ->. rewrite apply_option_panic. simpl. set_solver.
  - destruct (apply_option_Done info tag value E) as [info' ->]. simpl. rewrite IH. set_solver.
Qed.

Lemma run_options_Diverge info os : run_options info os <> Diverge.
Proof.
  revert info. induction os as [|[tag value] os IH]; intros info; simpl; [done|].
  destruct (decide ((tag, value) = (53, []))) as [E|E].
  - by injection E as -> ->.
  - destruct (apply_option_Done info tag value E) as [info' ->]. apply IH.
Qed.

(** Without an empty option 53, the fields are the last usable values. *)
Lemma run_options_last info os :
  (53, []) ∉ os ->
  run_options info os =
    Done (mkDhcpInfo (last_text 12 os (hostname info)) (last_text 60 os (vendor_class info))
            (last_type os (message_type info))).
Proof.
  revert info. induction os as [|[tag value] os IH]; intros info H; simpl.
  { by destruct info. }
  apply not_elem_of_cons in H as [Hne H].
  unfold apply_option, last_text, last_type. cbn [foldl fst snd].
  destruct (Z.eqb_spec tag 12) as [->|]; [simpl; rewrite IH by done; reflexivity|].
  destruct (Z.eqb_spec tag 60) as [->|]; [simpl; rewrite IH by done; reflexivity|].
  destruct (Z.eqb_spec tag 53) as [->|]; [|simpl; rewrite IH by done; reflexivity].
  destruct value as [|v value]; [done|]. simpl. rewrite IH by done. reflexivity.
Qed.

Lemma drop_cons_lookup (l : list Z) i x r : drop i l = x :: r -> l !! i = Some x /\ drop (S i) l = r.
Proof.
  intros H. split.
  - rewrite <- (Nat.add_0_r i), <- lookup_drop, H. reflexivity.
  - rewrite <- Nat.add_1_r, <- drop_drop, H. reflexivity.
Qed.

(** The offset loop reads the grammar off the bytes behind its offset. *)
Lemma parse_options_grammar payload l os :
  options l os -> forall offset info fuel,
  bytes_ok payload -> drop offset payload = l -> (length l < fuel)%nat ->
  parse_options fuel payload offset info = run_options info os.
Proof.
  induction 1 as [l Hl|l|l os Hos IH|tag len l H0 H255 Hl|tag len value l os H0 H255 Hlen Hos IH];
    intros offset info fuel Hok Hd Hf; (destruct fuel as [|fuel]; [lia|]); cbn [parse_options];
    pose proof (f_equal length Hd) as Hlen'; rewrite length_drop in Hlen'.
  - by rewrite (proj2 (Nat.ltb_ge _ _)) by lia.
  - destruct (offset + 1 <? length payload)%nat; [|done].
    apply drop_cons_lookup in Hd as [Hx _]. by rewrite (index_Some _ _ _ Hx).
  - destruct (offset + 1 <? length payload)%nat eqn:E; simpl; bool_to_prop.
    + apply drop_cons_lookup in Hd as [Hx Hd]. rewrite (index_Some _ _ _ Hx). simpl.
      rewrite <- Nat.add_1_r in Hd. apply IH; simpl in *; auto; lia.
    + simpl in Hlen'. assert (l = []) as -> by (destruct l; simpl in *; [done|lia]).
      by inversion Hos.
  - simpl in Hlen'. rewrite (proj2 (Nat.ltb_lt _ _)) by lia. cbn [negb].
    apply drop_cons_lookup in Hd as [Hx Hd]. apply drop_cons_lookup in Hd as [Hy Hd].
    rewrite (index_Some _ _ _ Hx). cbn [mbind exec_bind].
    rewrite (proj2 (Z.eqb_neq _ _) H255), (proj2 (Z.eqb_neq _ _) H0).
    rewrite (proj2 (Nat.leb_gt _ _)) by lia. rewrite Nat.add_1_r, (index_Some _ _ _ Hy).
    cbn [mbind exec_bind]. by rewrite (proj2 (Nat.ltb_lt _ _)) by lia.
  - simpl in Hlen'. rewrite length_app in Hlen'.
    rewrite (proj2 (Nat.ltb_lt _ _)) by lia. cbn [negb].
    apply drop_cons_lookup in Hd as [Hx Hd]. apply drop_cons_lookup in Hd as [Hy Hd].
    rewrite (index_Some _ _ _ Hx). cbn [mbind exec_bind].
    rewrite (proj2 (Z.eqb_neq _ _) H255), (proj2 (Z.eqb_neq _ _) H0).
    rewrite (proj2 (Nat.leb_gt _ _)) by lia. rewrite Nat.add_1_r, (index_Some _ _ _ Hy).
    cbn [mbind exec_bind]. rewrite (proj2 (Nat.ltb_ge _ _)) by lia.
    rewrite slice_in by lia.
    replace (offset + 2 + Z.to_nat len - (offset + 2))%nat with (length value) by lia.
    replace (offset + 2)%nat with (S (S offset)) by lia.
    rewrite Hd, take_app_length. cbn [mbind exec_bind run_options].
    destruct (apply_option info tag value) as [info'| |]; try done. cbn [mbind exec_bind].
    apply IH; auto; [|simpl in Hf; rewrite length_app in Hf; lia].
    replace (offset + (2 + Z.to_nat len))%nat with (S (S offset) + length value)%nat by lia.
    by rewrite <- drop_drop, Hd, drop_app_length.
Qed.

(** Every byte string has a reading. *)
Lemma options_total l : bytes_ok l -> exists os, options l os.
Proof.
  remember (length l) as n eqn:Hn. revert l Hn.
  induction n as [n IH] using lt_wf_ind; intros l -> Hok.
  destruct l as [|tag [|len l]]; [eexists; apply options_stop; simpl; lia..|].
  inversion Hok as [|? ? Ht Hok']; subst. inversion Hok' as [|? ? Hlen Hok'']; subst.
  destruct (decide (tag = 255)) as [->|H255]; [eexists; apply options_end|].
  destruct (decide (tag = 0)) as [->|H0].
  { destruct (IH (length (len :: l))) with (l := len :: l) as [os Hos]; simpl; auto.
    exists os. by apply options_pad. }
  destruct (decide (length l < Z.to_nat len)%nat) as [Hl|Hl].
  { eexists. by apply options_truncated. }
  destruct (IH (length (drop (Z.to_nat len) l))) with (l := drop (Z.to_nat len) l) as [os Hos];
    [rewrite length_drop; simpl; lia | done | by apply bytes_ok_drop |].
  exists ((tag, take (Z.to_nat len) l) :: os).
  rewrite <- (take_drop (Z.to_nat len) l) at 1. apply options_tlv; auto.
  rewrite length_take. lia.
Qed.

Lemma options_encode os rest :
  Forall option_ok os -> options (encode_options os ++ 255 :: rest) os.
Proof.
  induction 1 as [|[tag value] os [Ht Hl] Hos IH]; [apply options_end|].
  cbn [fst snd] in *. change (encode_options ((tag, value) :: os))
    with (tag :: Z.of_nat (length value) :: value ++ encode_options os).
  cbn [app]. rewrite <- app_assoc. apply options_tlv; [lia|lia|lia|done].
Qed.

(** The cookie test, as the four bytes at offset 240. *)
Lemma parse_dhcp_unfold payload :
  parse_dhcp payload =
    if decide (take 4 (drop 240 payload) = magic_cookie)
    then run! info := parse_options (length payload) payload 244 empty_info in Done (Some info)
    else Done None.
Proof.
  unfold parse_dhcp, magic_cookie.
  destruct (length payload <? 240)%nat eqn:E1; bool_to_prop.
  { rewrite drop_ge by lia. done. }
  pose proof (length_drop payload 240) as Hd.
  destruct (length payload <? 244)%nat eqn:E2; bool_to_prop.
  { case_decide as Hc; [|done]. apply (f_equal length) in Hc.
    rewrite length_take, Hd in Hc. cbn [length] in Hc. lia. }
  destruct (drop 240 payload) as [|a [|b [|c [|d r]]]] eqn:Hr; cbn [length] in Hd; try lia.
  apply drop_cons_lookup in Hr as [Ha Hr]. apply drop_cons_lookup in Hr as [Hb Hr].
  apply drop_cons_lookup in Hr as [Hc Hr]. apply drop_cons_lookup in Hr as [Hdd _].
  rewrite (index_Some _ _ _ Ha), (index_Some _ _ _ Hb), (index_Some _ _ _ Hc),
    (index_Some _ _ _ Hdd). cbn [mbind exec_bind take].
  destruct (Z.eqb_spec a 99), (Z.eqb_spec b 130), (Z.eqb_spec c 83), (Z.eqb_spec d 99);
    cbn [negb orb]; rewrite take_0; case_decide; congruence.
Qed.

Lemma cookie_length payload :
  take 4 (drop 240 payload) = magic_cookie -> (244 <= length payload)%nat.
Proof.
  intros Hc. apply (f_equal length) in Hc. rewrite length_take, length_drop in Hc.
  change (length magic_cookie) with 4%nat in Hc. lia.
Qed.

Lemma parse_dhcp_not_Diverge payload : bytes_ok payload -> parse_dhcp payload <> Diverge.
Proof.
  intros Hok. rewrite parse_dhcp_unfold. case_decide as Hc; [|done].
  apply cookie_length in Hc.
  destruct (options_total (drop 244 payload)) as [os Hos]; [by apply bytes_ok_drop|].
  rewrite (parse_options_grammar payload _ os Hos); [|done|done|rewrite length_drop; lia].
  pose proof (run_options_Diverge empty_info os). by destruct (run_options empty_info os).
Qed.

(** * Properties *)

(** C25: on every byte string [parse_dhcp] terminates and reads the option
    grammar: without the magic cookie at offset 240 it returns nothing; with
    it the options field has a reading, the result is that reading applied in
    order (for each tag the last usable value), and the parser panics exactly
    when the reading contains a message-type option of length zero. *)
Theorem parse_dhcp_reads_grammar (payload : list Z) :
  bytes_ok payload ->
  if decide (take 4 (drop 240 payload) = magic_cookie) then
    exists os, options (drop 244 payload) os /\
      (parse_dhcp payload = Panic <-> (53, []) ∈ os) /\
      ((53, []) ∉ os ->
       parse_dhcp payload =
         Done (Some (mkDhcpInfo (last_text 12 os None) (last_text 60 os None) (last_type os None))))
  else parse_dhcp payload = Done None.
Proof.
  intros Hok. rewrite parse_dhcp_unfold. case_decide as Hc; [|done].
  destruct (options_total (drop 244 payload)) as [os Hos]; [by apply bytes_ok_drop|].
  pose proof (cookie_length _ Hc).
  rewrite (parse_options_grammar payload _ os Hos); [|done|done|rewrite length_drop; lia].
  exists os. split_and!; [done| |].
  - rewrite <- (run_options_panic empty_info os).
    pose proof (run_options_Diverge empty_info os).
    destruct (run_options empty_info os); split; intros; try done.
  - intros Hn. by rewrite run_options_last.
Qed.

Lemma parse_dhcp_reads_grammar_witness :
  exists os, options [53; 0; 255] os /\
    (parse_dhcp (replicate 240 0 ++ magic_cookie ++ [53; 0; 255]) = Panic <-> (53, []) ∈ os).
Proof.
  pose proof (parse_dhcp_reads_grammar (replicate 240 0 ++ magic_cookie ++ [53; 0; 255])) as H.
  rewrite decide_True in H by reflexivity.
  destruct H as (os & Hos & Hp & _).
  - apply Forall_app. split; [apply Forall_replicate; unfold in_u8, u8_max; lia|].
    repeat (apply Forall_cons; split; [unfold in_u8, u8_max; lia|]). apply Forall_nil. exact I.
  - exists os. split; [exact Hos | exact Hp].
Defined.

(** Encoding then parsing: a packet made of a 240-byte header, the
    cookie and any list of well-formed options, closed by the end option,
    parses to the last usable host name, vendor class and message type of
    that list, whatever bytes follow. *)
Theorem parse_dhcp_roundtrip (header rest : list Z) (os : list (Z * list Z)) :
  length header = 240%nat ->
  bytes_ok (header ++ magic_cookie ++ encode_options os ++ 255 :: rest) ->
  Forall option_ok os -> (53, []) ∉ os ->
  parse_dhcp (header ++ magic_cookie ++ encode_options os ++ 255 :: rest) =
    Done (Some (mkDhcpInfo (last_text 12 os None) (last_text 60 os None) (last_type os None))).
Proof.
  intros Hh Hok Hos Hn. rewrite parse_dhcp_unfold.
  assert (forall l, drop 240 (header ++ l) = l) as Hdrop
    by (intros l; rewrite <- Hh; apply drop_app_length).
  rewrite Hdrop, decide_True by done.
  assert (drop 244 (header ++ magic_cookie ++ encode_options os ++ 255 :: rest) =
          encode_options os ++ 255 :: rest) as Hd.
  { change 244%nat with (240 + 4)%nat. by rewrite <- drop_drop, Hdrop. }
  rewrite (parse_options_grammar _ _ os (options_encode os rest Hos)); auto.
  - by rewrite run_options_last.
  - rewrite !length_app, Hh. simpl. lia.
Qed.

Lemma parse_dhcp_roundtrip_witness :
  parse_dhcp (replicate 240 0 ++ magic_cookie ++
    encode_options [(53, [1]); (12, as_bytes "nas" ++ [0])] ++ 255 :: []) =
    Done (Some (mkDhcpInfo (Some "nas") None (Some 1))).
Proof.
  apply (parse_dhcp_roundtrip (replicate 240 0) [] [(53, [1]); (12, as_bytes "nas" ++ [0])]).
  - reflexivity.
  - apply Forall_app. split; [apply Forall_replicate; unfold in_u8, u8_max; lia|].
    repeat (apply Forall_cons; split; [vm_compute; split; discriminate|]). apply Forall_nil. exact I.
  - repeat constructor; simpl; lia.
  - rewrite !not_elem_of_cons. split_and!; [discriminate | discriminate | apply not_elem_of_nil].
Defined.
