(* ===== verification/Mdns.v ===== *)
(** mDNS parsing, [crates/protocol/src/mdns.rs]: names with compression
    pointers, resource records and the walk over the sections of a message.
    Every index and slice of the source is an [exec] operation, so that the
    theorem that the parser returns on every byte string covers its panics and
    its loops. *)

From S2P Require Import Prelude Text.

(** * Names *)

(** The [loop] of [read_name_internal]. *)
Fixpoint read_name_loop (fuel : nat) (payload : list Z) (original_offset : nat)
  (collect : bool) (offset : nat) (labels : list string) (end_offset : option nat)
  (jumps : Z) : exec (option (nat * option string)) :=
  match fuel with
  | O => Diverge
  | S fuel' =>
      if (length payload <=? offset)%nat then Done None
      else
        run! len := index payload offset in
        if Z.land len 192 =? 192 then
          if (length payload <=? offset + 1)%nat then Done None
          else
            run! low := index payload (offset + 1) in
            let pointer := Z.to_nat (Z.lor (Z.shiftl (Z.land len 63) 8) low) in
            let end_offset := match end_offset with None => Some (offset + 2)%nat | e => e end in
            let jumps := jumps + 1 in
            if (10 <? jumps) || (original_offset <=? pointer)%nat then Done None
            else read_name_loop fuel' payload original_offset collect pointer labels end_offset jumps
        else if len =? 0 then
          let offset := (offset + 1)%nat in
          let final_end := default offset end_offset in
          let name := if collect && negb (bool_decide (labels = []))
                      then Some (join "." labels) else None in
          Done (Some (final_end, name))
        else
          let label_end := (offset + 1 + Z.to_nat len)%nat in
          if (length payload <? label_end)%nat then Done None
          else if collect then
            run! bytes := slice payload (offset + 1) label_end in
            match from_utf8 bytes with
            | Some s =>
                read_name_loop fuel' payload original_offset collect label_end
                  (labels ++ [s]) end_offset jumps
            | None => Done None
            end
          else read_name_loop fuel' payload original_offset collect label_end labels
                 end_offset jumps
  end.

(** At most eleven runs through the payload: the start and ten jumps. *)
Definition name_fuel (payload : list Z) : nat := 12 * (length payload + 2).

Definition read_name_internal (payload : list Z) (offset : nat) (collect : bool)
  : exec (option (nat * option string)) :=
  read_name_loop (name_fuel payload) payload offset collect offset [] None 0.
Definition skip_name (payload : list Z) (offset : nat) : exec (option (nat * option string)) :=
  read_name_internal payload offset false.
Definition read_name (payload : list Z) (offset : nat) : exec (option (nat * option string)) :=
  read_name_internal payload offset true.

(** * Records *)

Definition RECORD_TYPE_PTR : Z := 12.
Definition RECORD_TYPE_SRV : Z := 33.

Record ParsedRecord : Type := mkParsedRecord {
  name : option string;
  record_type : Z;
  next_offset : nat;
  srv_target : option string;
  ptr_rdata : option string
}.

(** [u16::from_be_bytes([payload[i], payload[i + 1]])]. *)
Definition read_u16 (payload : list Z) (i : nat) : exec Z :=
  run! a := index payload i in
  run! b := index payload (i + 1) in
  Done (u16_from_be_bytes a b).

Definition parse_record (payload : list Z) (offset : nat) : exec (option ParsedRecord) :=
  opt! (name_end, name) := read_name payload offset in
  if (length payload <? name_end + 10)%nat then Done None
  else
    run! record_type := read_u16 payload name_end in
    run! rdlen := read_u16 payload (name_end + 8) in
    let rdlength := Z.to_nat rdlen in
    let rdata_start := (name_end + 10)%nat in
    if (length payload <? rdata_start + rdlength)%nat then Done None
    else
      let next_offset := (rdata_start + rdlength)%nat in
      run! rdata := slice payload rdata_start (rdata_start + rdlength) in
      if record_type =? RECORD_TYPE_PTR then
        opt! (_, rdata_name) := read_name payload rdata_start in
        Done (Some (mkParsedRecord name record_type next_offset None rdata_name))
      else if (record_type =? RECORD_TYPE_SRV) && (7 <=? length rdata)%nat then
        opt! (_, target) := read_name payload (rdata_start + 6) in
        Done (Some (mkParsedRecord name record_type next_offset target None))
      else Done (Some (mkParsedRecord name record_type next_offset None None)).

(** * Messages *)

Record MdnsInfo : Type := mkMdnsInfo {
  mdns_hostname : option string;
  instance : option string;
  service_type : option string
}.
Definition no_info : MdnsInfo := mkMdnsInfo None None None.

(** [for _ in 0..qdcount]. *)
Fixpoint skip_questions (n : nat) (payload : list Z) (offset : nat) : exec (option nat) :=
  match n with
  | O => Done (Some offset)
  | S n' =>
      opt! (name_end, _) := skip_name payload offset in
      if (length payload <? name_end + 4)%nat then Done None
      else skip_questions n' payload (name_end + 4)
  end.

Definition note_record (info : MdnsInfo) (r : ParsedRecord) : MdnsInfo :=
  let info :=
    match mdns_hostname info, srv_target r with
    | None, Some target =>
        if record_type r =? RECORD_TYPE_SRV
        then mkMdnsInfo (Some target) (instance info) (service_type info) else info
    | _, _ => info
    end in
  match instance info with
  | None =>
      if record_type r =? RECORD_TYPE_PTR
      then mkMdnsInfo (mdns_hostname info) (ptr_rdata r) (name r) else info
  | Some _ => info
  end.

(** How the records loop of one section ends: at its count, or by the early
    [return] on a record that does not parse. *)
Inductive walk : Type :=
| Continue (offset : nat) (info : MdnsInfo)
| Return (r : option MdnsInfo).

Fixpoint walk_section (n : nat) (payload : list Z) (offset : nat) (info : MdnsInfo) : exec walk :=
  match n with
  | O => Done (Continue offset info)
  | S n' =>
      run! r := parse_record payload offset in
      match r with
      | None =>
          Done (Return (match mdns_hostname info, instance info with
                        | None, None => None
                        | _, _ => Some info
                        end))
      | Some record => walk_section n' payload (next_offset record) (note_record info record)
      end
  end.

(** [for section_count in [ancount, nscount, arcount]]. *)
Fixpoint walk_sections (counts : list Z) (payload : list Z) (offset : nat) (info : MdnsInfo)
  : exec (option MdnsInfo) :=
  match counts with
  | [] =>
      Done (match mdns_hostname info, instance info, service_type info with
            | None, None, None => None
            | _, _, _ => Some info
            end)
  | n :: counts' =>
      run! w := walk_section (Z.to_nat n) payload offset info in
      match w with
      | Continue offset' info' => walk_sections counts' payload offset' info'
      | Return r => Done r
      end
  end.

Definition parse_mdns (payload : list Z) : exec (option MdnsInfo) :=
  if (length payload <? 12)%nat then Done None
  else
    run! qdcount := read_u16 payload 4 in
    run! ancount := read_u16 payload 6 in
    run! nscount := read_u16 payload 8 in
    run! arcount := read_u16 payload 10 in
    opt! offset := skip_questions (Z.to_nat qdcount) payload 12 in
    walk_sections [ancount; nscount; arcount] payload offset no_info.

(** * Encoding, for the round trip *)

Definition encode_label (s : string) : list Z := Z.of_nat (String.length s) :: as_bytes s.
Definition encode_labels (labels : list string) : list Z := concat (encode_label <$> labels).
(** A label of the DNS wire format: 1 to 63 bytes, here valid UTF-8. *)
Definition label_ok (s : string) : Prop :=
  (1 <= String.length s <= 63)%nat /\ utf8_valid (as_bytes s) = true.

(** The loop returns, with an end inside the payload. *)
Definition name_result (payload : list Z) (r : exec (option (nat * option string))) : Prop :=
  match r with
  | Done None => True
  | Done (Some (e, _)) => (e <= length payload)%nat
  | _ => False
  end.

(** * Lemmas *)

Lemma index_in l i : (i < length l)%nat -> exists z, index l i = Done z.
Proof. intros Hi. destruct (index_lt l i Hi) as (z & Hz & _). eauto. Qed.

(** A decreasing measure: ten jumps, each followed by one pass over the bytes. *)
Lemma read_name_loop_result fuel payload o collect offset labels end_ jumps :
  bytes_ok payload ->
  0 <= jumps <= 10 ->
  (o <= length payload)%nat ->
  match end_ with Some e => (e <= length payload)%nat | None => True end ->
  ((11 - Z.to_nat jumps) * (length payload + 2) + (length payload - offset) < fuel)%nat ->
  name_result payload (read_name_loop fuel payload o collect offset labels end_ jumps).
Proof.
  intros Hok. revert offset labels end_ jumps.
  induction fuel as [|fuel IH]; intros offset labels end_ jumps Hj Ho He Hf; [by apply Nat.nlt_0_r in Hf|].
  cbn [read_name_loop].
  destruct (length payload <=? offset)%nat eqn:E1; [exact I|]. bool_to_prop.
  destruct (index_lt payload offset E1) as (len & -> & Hlen).
  pose proof (bytes_ok_lookup _ _ _ Hok Hlen) as Hb. cbn [mbind exec_bind].
  destruct (Z.land len 192 =? 192).
  - destruct (length payload <=? offset + 1)%nat eqn:E2; [exact I|]. bool_to_prop.
    destruct (index_in payload (offset + 1) E2) as [low ->]. cbn [mbind exec_bind].
    destruct (_ || _) eqn:E3; [exact I|]. bool_to_prop.
    apply IH; [lia | lia | destruct end_; lia |].
    replace (11 - Z.to_nat (jumps + 1))%nat with (10 - Z.to_nat jumps)%nat by lia. nia.
  - destruct (Z.eqb_spec len 0) as [->|Hne].
    { destruct end_; simpl; lia. }
    unfold in_u8 in Hb.
    destruct (_ <? _)%nat eqn:E2; [exact I|]. bool_to_prop.
    destruct collect.
    + rewrite slice_in by lia. cbn [mbind exec_bind]. destruct (from_utf8 _); [|exact I].
      apply IH; auto; lia.
    + apply IH; auto; lia.
Qed.

Lemma read_name_internal_result payload offset collect :
  bytes_ok payload -> (offset <= length payload)%nat ->
  name_result payload (read_name_internal payload offset collect).
Proof.
  intros Hok Ho. unfold read_name_internal, name_fuel.
  apply read_name_loop_result; auto; lia.
Qed.

Lemma read_u16_Done payload i :
  (i + 1 < length payload)%nat -> exists z, read_u16 payload i = Done z.
Proof.
  intros H. unfold read_u16. destruct (index_in payload i) as [a ->]; [lia|].
  destruct (index_in payload (i + 1)) as [b ->]; [lia|]. simpl. eauto.
Qed.

(** Case analysis on a name read inside the payload. *)
Ltac name_cases e payload offset collect :=
  let H := fresh "Hname" in let nm := fresh "nm" in
  assert (H : name_result payload (read_name_internal payload offset collect))
    by (apply read_name_internal_result; [assumption | lia]);
  unfold read_name, skip_name in *;
  destruct (read_name_internal payload offset collect) as [[[e nm]|]| |];
  cbn [name_result opt_bind] in *; try contradiction.
Ltac returns := eexists; split; [reflexivity | cbn; try done; try lia].

Lemma parse_record_Done payload offset :
  bytes_ok payload -> (offset <= length payload)%nat ->
  exists r, parse_record payload offset = Done r /\
    match r with Some rec => (next_offset rec <= length payload)%nat | None => True end.
Proof.
  intros Hok Ho. unfold parse_record. name_cases e payload offset true; [|returns].
  destruct (_ <? _)%nat eqn:E1; [returns|]. bool_to_prop.
  destruct (read_u16_Done payload e) as [rt ->]; [lia|].
  destruct (read_u16_Done payload (e + 8)) as [rl ->]; [lia|]. cbn [mbind exec_bind].
  destruct (_ <? _)%nat eqn:E2; [returns|]. bool_to_prop. rewrite slice_in by lia.
  cbn [mbind exec_bind].
  destruct (rt =? RECORD_TYPE_PTR).
  { name_cases e' payload (e + 10)%nat true; returns. }
  destruct (_ && _) eqn:E3; [|returns].
  bool_to_prop. rewrite length_take, length_drop in *.
  name_cases e' payload (e + 10 + 6)%nat true; returns.
Qed.

Lemma skip_questions_Done n payload offset :
  bytes_ok payload -> (offset <= length payload)%nat ->
  exists r, skip_questions n payload offset = Done r /\
    match r with Some o => (o <= length payload)%nat | None => True end.
Proof.
  intros Hok. revert offset.
  induction n as [|n IH]; intros offset Ho; cbn [skip_questions]; [returns|].
  name_cases e payload offset false; [|returns].
  destruct (_ <? _)%nat eqn:E; [returns|]. bool_to_prop. by apply IH.
Qed.

Lemma walk_section_Done n payload offset info :
  bytes_ok payload -> (offset <= length payload)%nat ->
  exists w, walk_section n payload offset info = Done w /\
    match w with Continue o _ => (o <= length payload)%nat | Return _ => True end.
Proof.
  intros Hok. revert offset info.
  induction n as [|n IH]; intros offset info Ho; cbn [walk_section]; [returns|].
  destruct (parse_record_Done payload offset Hok Ho) as ([rec|] & -> & Hr);
    cbn [mbind exec_bind]; [by apply IH | returns].
Qed.

Lemma walk_sections_Done counts payload offset info :
  bytes_ok payload -> (offset <= length payload)%nat ->
  exists r, walk_sections counts payload offset info = Done r.
Proof.
  intros Hok. revert offset info.
  induction counts as [|n counts IH]; intros offset info Ho; cbn [walk_sections]; [eauto|].
  destruct (walk_section_Done (Z.to_nat n) payload offset info Hok Ho) as ([] & -> & Hw);
    cbn [mbind exec_bind]; eauto.
Qed.

Lemma parse_mdns_Done payload : bytes_ok payload -> exists r, parse_mdns payload = Done r.
Proof.
  intros Hok. unfold parse_mdns. destruct (_ <? _)%nat eqn:E; [eauto|]. bool_to_prop.
  destruct (read_u16_Done payload 4) as [q ->]; [lia|].
  destruct (read_u16_Done payload 6) as [an ->]; [lia|].
  destruct (read_u16_Done payload 8) as [ns ->]; [lia|].
  destruct (read_u16_Done payload 10) as [ar ->]; [lia|]. cbn [mbind exec_bind].
  destruct (skip_questions_Done (Z.to_nat q) payload 12 Hok) as ([o|] & -> & Ho); [lia| |];
    cbn [opt_bind]; [by apply walk_sections_Done | eauto].
Qed.

(** ** Reading back an encoded name *)

Lemma land_192_small z : 0 <= z <= 63 -> Z.land z 192 = 0.
Proof.
  intros Hz. change 192 with (Z.shiftl 3 6).
  apply Z.bits_inj'. intros n Hn. rewrite Z.land_spec, Z.bits_0.
  destruct (Z.lt_ge_cases n 6).
  - rewrite Z.shiftl_spec_low by lia. apply andb_false_r.
  - destruct (Z.eq_dec z 0) as [->|]; [by rewrite Z.bits_0|].
    rewrite (Z.bits_above_log2 z n); [done|lia|].
    apply Z.log2_lt_pow2; [lia|]. apply Z.lt_le_trans with (2 ^ 6); [lia|].
    by apply Z.pow_le_mono_r.
Qed.

Lemma encode_labels_cons s labels :
  encode_labels (s :: labels) = Z.of_nat (String.length s) :: as_bytes s ++ encode_labels labels.
Proof. reflexivity. Qed.

Lemma index_app_here pre x l : index (pre ++ x :: l) (length pre) = Done x.
Proof. apply index_Some. rewrite lookup_app_r by lia. by rewrite Nat.sub_diag. Qed.

(** One label in front of the rest. *)
Lemma read_label_step fuel pre s rest o labels end_ jumps :
  label_ok s ->
  let payload := pre ++ encode_label s ++ rest in
  read_name_loop (S fuel) payload o true (length pre) labels end_ jumps =
  read_name_loop fuel payload o true (length (pre ++ encode_label s)) (labels ++ [s]) end_ jumps.
Proof.
  intros [Hl Hu] payload. cbn [read_name_loop].
  assert (length payload = length pre + S (String.length s) + length rest)%nat as Hlen.
  { unfold payload, encode_label. rewrite !length_app. simpl. rewrite length_as_bytes. lia. }
  rewrite (proj2 (Nat.leb_gt _ _)) by lia.
  assert (index payload (length pre) = Done (Z.of_nat (String.length s))) as ->
    by apply index_app_here.
  cbn [mbind exec_bind]. rewrite land_192_small by lia. change (0 =? 192) with false. cbv iota.
  rewrite (proj2 (Z.eqb_neq (Z.of_nat _) 0)) by lia. rewrite Nat2Z.id.
  rewrite (proj2 (Nat.ltb_ge _ _)) by lia. rewrite slice_in by lia. cbn [mbind exec_bind].
  replace (length pre + 1 + String.length s - (length pre + 1))%nat with (length (as_bytes s))
    by (rewrite length_as_bytes; lia).
  assert (drop (length pre + 1) payload = as_bytes s ++ rest) as ->.
  { unfold payload, encode_label. rewrite <- drop_drop, drop_app_length. reflexivity. }
  rewrite take_app_length. unfold from_utf8. rewrite Hu, string_of_bytes_as_bytes.
  f_equal. rewrite length_app. unfold encode_label. simpl. rewrite length_as_bytes. lia.
Qed.

Lemma read_labels ls : Forall label_ok ls -> forall pre rest fuel o labels end_ jumps,
  (length ls <= fuel)%nat ->
  let payload := pre ++ encode_labels ls ++ rest in
  read_name_loop fuel payload o true (length pre) labels end_ jumps =
  read_name_loop (fuel - length ls) payload o true (length (pre ++ encode_labels ls))
    (labels ++ ls) end_ jumps.
Proof.
  induction 1 as [|s ls Hs Hls IH]; intros pre rest fuel o labels end_ jumps Hf payload.
  { subst payload. unfold encode_labels. simpl. rewrite !app_nil_r, Nat.sub_0_r. done. }
  destruct fuel as [|fuel]; simpl in Hf; [lia|].
  assert (payload = (pre ++ encode_label s) ++ encode_labels ls ++ rest) as Hp.
  { subst payload. unfold encode_labels. simpl. by rewrite <- !app_assoc. }
  assert (payload = pre ++ encode_label s ++ (encode_labels ls ++ rest)) as Hp'
    by (by rewrite Hp, <- app_assoc).
  rewrite Hp' at 1. rewrite read_label_step, <- Hp' by done. rewrite Hp at 1.
  rewrite IH by lia. rewrite <- Hp. cbn [length Nat.sub]. rewrite <- !app_assoc. reflexivity.
Qed.

Lemma read_name_zero fuel pre rest o labels end_ jumps :
  labels <> [] ->
  read_name_loop (S fuel) (pre ++ 0 :: rest) o true (length pre) labels end_ jumps =
  Done (Some (default (length pre + 1)%nat end_, Some (join "." labels))).
Proof.
  intros Hl. cbn [read_name_loop].
  rewrite (proj2 (Nat.leb_gt _ _)) by (rewrite length_app; simpl; lia).
  rewrite index_app_here. cbn. by rewrite bool_decide_eq_false_2.
Qed.

(** The high byte of a pointer, checked on its 64 values. *)
Lemma pointer_high q : 0 <= q < 64 -> Z.land (192 + q) 192 = 192 /\ Z.land (192 + q) 63 = q.
Proof.
  intros Hq.
  assert (forallb (fun k => (Z.land (192 + Z.of_nat k) 192 =? 192) &&
                            (Z.land (192 + Z.of_nat k) 63 =? Z.of_nat k)) (seq 0 64) = true)
    as H by (vm_compute; reflexivity).
  rewrite forallb_forall in H. specialize (H (Z.to_nat q)). rewrite Z2Nat.id in H by lia.
  rewrite andb_true_iff, !Z.eqb_eq in H. apply H. apply in_seq. lia.
Qed.

(** Following the first pointer of a name. *)
Lemma read_name_pointer fuel pre rest o labels jumps target :
  Z.of_nat target < 16384 -> (target < o)%nat -> 0 <= jumps < 10 ->
  let payload :=
    pre ++ [192 + Z.of_nat target / 256; Z.of_nat target mod 256] ++ rest in
  read_name_loop (S fuel) payload o true (length pre) labels None jumps =
  read_name_loop fuel payload o true target labels (Some (length pre + 2)%nat) (jumps + 1).
Proof.
  intros Ht Ho Hj payload.
  assert (0 <= Z.of_nat target / 256 < 64) as Hq.
  { split; [apply Z.div_pos; lia | apply Z.div_lt_upper_bound; lia]. }
  pose proof (Z.mod_pos_bound (Z.of_nat target) 256).
  pose proof (Z.div_mod (Z.of_nat target) 256).
  destruct (pointer_high _ Hq) as [H192 H63].
  assert (length payload = length pre + (2 + length rest))%nat as Hlen
    by (unfold payload; by rewrite length_app).
  cbn [read_name_loop]. rewrite (proj2 (Nat.leb_gt _ _)) by lia.
  rewrite (index_Some payload (length pre) (192 + Z.of_nat target / 256))
    by (unfold payload; rewrite lookup_app_r, Nat.sub_diag by lia; reflexivity).
  rewrite (index_Some payload (length pre + 1) (Z.of_nat target mod 256))
    by (unfold payload; rewrite lookup_app_r by lia;
        replace (length pre + 1 - length pre)%nat with 1%nat by lia; reflexivity).
  cbn [mbind exec_bind]. rewrite H192, H63, Z.eqb_refl.
  rewrite (proj2 (Nat.leb_gt _ _)) by lia.
  pose proof (u16_from_be_bytes_add (Z.of_nat target / 256) (Z.of_nat target mod 256)) as Hu.
  unfold u16_from_be_bytes in Hu. rewrite Hu by (unfold in_u8, u8_max; lia).
  replace (Z.to_nat _) with target by lia.
  rewrite (proj2 (Z.ltb_ge _ _)), (proj2 (Nat.leb_gt _ _)) by lia. reflexivity.
Qed.

Lemma encode_labels_length ls : Forall label_ok ls -> (2 * length ls <= length (encode_labels ls))%nat.
Proof.
  induction 1 as [|s ls [Hs _] Hls IH]; [simpl; lia|].
  rewrite encode_labels_cons. simpl. rewrite length_app, length_as_bytes. lia.
Qed.

(** * Properties *)

(** C20: the mDNS parser is total: on every byte string, however malformed,
    [parse_mdns] returns; no index or slice is out of range, and neither the
    label loop nor the compression pointers can make it run forever. *)
Theorem parse_mdns_total (payload : list Z) :
  bytes_ok payload -> exists r, parse_mdns payload = Done r.
Proof. apply parse_mdns_Done. Qed.

(** A question whose name is a pointer to itself. *)
Lemma parse_mdns_total_witness :
  exists r, parse_mdns [0;0;0;0;0;1;0;1;0;0;0;0;192;12;0;12;0;1] = Done r.
Proof.
  apply parse_mdns_total.
  repeat (apply Forall_cons; split; [unfold in_u8, u8_max; lia|]). apply Forall_nil. exact I.
Defined.

(** C28: names round trip, compressed or not: a list of well-formed labels
    encoded anywhere in a payload reads back as the labels joined by dots,
    ending just behind its zero byte; and when it is followed somewhere by
    more labels and a pointer to it, that name reads back as all the labels,
    ending just behind the two pointer bytes. *)
Theorem read_name_roundtrip (pre mid rest : list Z) (suffix prefix_labels : list string) :
  Forall label_ok suffix -> Forall label_ok prefix_labels -> suffix <> [] ->
  Z.of_nat (length pre) < 16384 ->
  let here := encode_labels suffix ++ [0] in
  let ptr := [192 + Z.of_nat (length pre) / 256; Z.of_nat (length pre) mod 256] in
  let payload := pre ++ here ++ mid ++ encode_labels prefix_labels ++ ptr ++ rest in
  let second := length (pre ++ here ++ mid) in
  read_name payload (length pre) =
    Done (Some (length (pre ++ here), Some (join "." suffix))) /\
  read_name payload second =
    Done (Some (second + length (encode_labels prefix_labels) + 2,
                Some (join "." (prefix_labels ++ suffix))))%nat.
Proof.
  intros Hs Hp Hne Hpre here ptr payload second.
  pose proof (encode_labels_length suffix Hs) as Hls.
  pose proof (encode_labels_length prefix_labels Hp) as Hlp.
  assert (length payload = length pre + length (encode_labels suffix) + 1 + length mid +
          length (encode_labels prefix_labels) + 2 + length rest)%nat as Hlen.
  { unfold payload, here, ptr. rewrite !length_app. simpl. lia. }
  assert (forall fuel ls e j o, (length suffix < fuel)%nat ->
    read_name_loop fuel payload o true (length pre) ls e j =
      Done (Some (default (length (pre ++ here)) e, Some (join "." (ls ++ suffix))))) as Hsuf.
  { intros fuel ls e j o Hf.
    assert (payload = pre ++ encode_labels suffix ++
              0 :: (mid ++ encode_labels prefix_labels ++ ptr ++ rest)) as Hpay
      by (unfold payload, here; by rewrite <- !app_assoc).
    rewrite Hpay, read_labels by (auto; lia).
    destruct (fuel - length suffix)%nat eqn:E; [lia|].
    rewrite app_assoc, read_name_zero by (destruct ls, suffix; done).
    do 4 f_equal. unfold here. rewrite !length_app. simpl. lia. }
  assert (length suffix < name_fuel payload)%nat by (unfold name_fuel; lia).
  split; [by apply Hsuf|]. unfold read_name, read_name_internal.
  assert (payload = (pre ++ here ++ mid) ++ encode_labels prefix_labels ++ (ptr ++ rest)) as Hpay
    by (unfold payload; by rewrite <- !app_assoc).
  rewrite Hpay at 2. unfold second at 2. rewrite read_labels by (auto; unfold name_fuel; lia).
  destruct (name_fuel payload - length prefix_labels)%nat as [|fuel] eqn:E;
    [unfold name_fuel in E; lia|].
  rewrite app_assoc. unfold ptr at 1. rewrite read_name_pointer; [|done| |lia].
  - change [192 + Z.of_nat (length pre) / 256; Z.of_nat (length pre) mod 256] with ptr.
    rewrite <- app_assoc, <- Hpay, Hsuf by (unfold name_fuel in E; lia).
    unfold second. rewrite (length_app (pre ++ here ++ mid)). reflexivity.
  - unfold second. rewrite !length_app. unfold here. rewrite length_app. simpl. lia.
Qed.

(** [printer.local] at offset 0, then [web] and a pointer to it. *)
Lemma read_name_roundtrip_witness :
  read_name (encode_labels ["printer"; "local"] ++ [0] ++ [3; 119; 101; 98; 192; 0]) 15 =
    Done (Some (21%nat, Some "web.printer.local")).
Proof.
  apply (read_name_roundtrip [] [] [] ["printer"; "local"] ["web"]).
  - repeat constructor; simpl; lia.
  - repeat constructor; simpl; lia.
  - discriminate.
  - simpl. lia.
Defined.
