(* ===== verification/Json.v ===== *)
(** JSON values and the serde codecs the crates derive: [Device] and its
    parts ([crates/common/src/types.rs], [crates/common/src/time.rs]) and
    alerts ([crates/common/src/alert.rs]).  The text of a JSON value is
    [serde_json]'s, a parameter that parses back what it printed. *)

From S2P Require Import Prelude Text Types Reference Net.

(** * Values *)

Inductive json : Type :=
| JNull
| JBool (b : bool)
| JNum (n : Z)
| JStr (s : string)
| JArr (l : list json)
| JObj (fields : list (string * json)).

(** [serde_json::to_string] and [serde_json::from_str]. *)
Class SerdeJson : Type := {
  json_to_string : json -> string;
  json_from_str : string -> option json
}.
Class SerdeJsonLaws `{!SerdeJson} : Prop := {
  json_from_to_string j : json_from_str (json_to_string j) = Some j
}.

(** A struct field: present exactly once, or an error; unknown fields are
    ignored. *)
Definition field (k : string) (fields : list (string * json)) : result (option json) string :=
  match List.filter (fun f => String.eqb f.1 k) fields with
  | [] => Ok None
  | [(_, v)] => Ok (Some v)
  | _ => Err ("duplicate field `" +:+ k +:+ "`")
  end.
Definition required {A} (k : string) (dec : json -> option A) (fields : list (string * json))
  : option A :=
  match field k fields with Ok (Some v) => dec v | _ => None end.
(** A missing [Option] field is [None]. *)
Definition optional {A} (k : string) (dec : json -> option A) (fields : list (string * json))
  : option (option A) :=
  match field k fields with
  | Ok None | Ok (Some JNull) => Some None
  | Ok (Some v) => Some <$> dec v
  | Err _ => None
  end.

Definition string_from_json (j : json) : option string :=
  match j with JStr s => Some s | _ => None end.
Definition u64_from_json (j : json) : option Z :=
  match j with JNum n => if in_range 0 u64_max n then Some n else None | _ => None end.
Definition bool_from_json (j : json) : option bool :=
  match j with JBool b => Some b | _ => None end.
Definition array_from_json {A} (dec : json -> option A) (j : json) : option (list A) :=
  match j with JArr l => mapM dec l | _ => None end.
Definition option_to_json (o : option string) : json :=
  match o with Some s => JStr s | None => JNull end.

(** * Protocols, addresses, timestamps *)

(** The derived form: a unit variant is its name, [Other(n)] a one-entry
    object. *)
Definition variant_names : list (string * Protocol) :=
  [("Arp", Arp); ("Ipv4", Ipv4); ("Icmp", Icmp); ("Tcp", Tcp); ("Udp", Udp); ("Dns", Dns);
   ("Dhcp", Dhcp); ("Http", Http); ("Https", Https); ("Mdns", Mdns); ("Ntp", Ntp)].
Definition variant_of (s : string) : option Protocol :=
  snd <$> List.find (fun v => String.eqb v.1 s) variant_names.
Definition protocol_to_json (p : Protocol) : json :=
  match p with
  | Other n => JObj [("Other", JNum n)]
  | _ => match List.find (fun v => bool_decide (v.2 = p)) variant_names with
         | Some v => JStr v.1
         | None => JNull
         end
  end.
Definition protocol_from_json (j : json) : option Protocol :=
  match j with
  | JStr s => variant_of s
  | JObj [(k, JNull)] => variant_of k
  | JObj [(k, JNum n)] =>
      if String.eqb k "Other" && in_range 0 u8_max n then Some (Other n) else None
  | _ => None
  end.

Section Codecs.
Context {MT : MacText} {IT : IpText} {CH : Chrono}.

Definition mac_to_json (m : MacAddress) : json := JStr (mac_to_string m).
Definition mac_from_json (j : json) : option MacAddress := string_from_json j ≫= mac_parse.
Definition ip_to_json (i : IpAddr) : json := JStr (ip_to_string i).
Definition ip_from_json (j : json) : option IpAddr := string_from_json j ≫= ip_parse.

(** [serialize_iso8601] and [deserialize_iso8601]. *)
Definition timestamp_to_json (t : Timestamp) : json := JStr (fmt_iso8601 t).
Definition timestamp_from_json (j : json) : option Timestamp :=
  s ← string_from_json j; deserialize_iso8601 <$> parse_datetime s.

(** [serialize_protocol_stats] as a JSON map, and back through a
    [HashMap<String, u64>]. *)
Definition stats_to_json (stats : gmap Protocol Z) : json :=
  JObj ((fun e => (e.1, JNum e.2)) <$> serialize_protocol_stats stats).
Definition stats_from_json (j : json) : option (gmap Protocol Z) :=
  match j with
  | JObj fields =>
      raw ← mapM (fun f => n ← u64_from_json f.2; Some (f.1, n)) fields;
      Some (deserialize_protocol_stats raw)
  | _ => None
  end.

(** * [Device] *)

Definition device_to_json (d : Device.t) : json :=
  JObj [("mac", mac_to_json (Device.mac d));
        ("ips", JArr (ip_to_json <$> sorted_elements ip_le (Device.ips d)));
        ("hostname", option_to_json (Device.hostname d));
        ("first_seen", timestamp_to_json (Device.first_seen d));
        ("last_seen", timestamp_to_json (Device.last_seen d));
        ("packet_count", JNum (Device.packet_count d));
        ("bytes_sent", JNum (Device.bytes_sent d));
        ("bytes_received", JNum (Device.bytes_received d));
        ("protocols", JArr (protocol_to_json <$> sorted_elements protocol_le (Device.protocols d)));
        ("vendor", option_to_json (Device.vendor d));
        ("dhcp_vendor_class", option_to_json (Device.dhcp_vendor_class d));
        ("protocol_stats", stats_to_json (Device.protocol_stats d))].

Definition device_from_json (j : json) : option Device.t :=
  match j with
  | JObj fs =>
      mac ← required "mac" mac_from_json fs;
      ips ← required "ips" (array_from_json ip_from_json) fs;
      hostname ← optional "hostname" string_from_json fs;
      first_seen ← required "first_seen" timestamp_from_json fs;
      last_seen ← required "last_seen" timestamp_from_json fs;
      packet_count ← required "packet_count" u64_from_json fs;
      bytes_sent ← required "bytes_sent" u64_from_json fs;
      bytes_received ← required "bytes_received" u64_from_json fs;
      protocols ← required "protocols" (array_from_json protocol_from_json) fs;
      vendor ← optional "vendor" string_from_json fs;
      dhcp_vendor_class ← optional "dhcp_vendor_class" string_from_json fs;
      protocol_stats ← required "protocol_stats" stats_from_json fs;
      Some (Device.mk mac (list_to_set ips) hostname first_seen last_seen packet_count bytes_sent
              bytes_received (list_to_set protocols) vendor dhcp_vendor_class protocol_stats)
  | _ => None
  end.

(** * [Alert] *)

Definition severity_to_json (s : Severity) : json := JStr (severity_display s).
Definition event_type_to_json (e : AlertEventType) : json :=
  match e with
  | Custom s => JObj [("custom", JStr s)]
  | _ => JStr (event_type_display e)
  end.
Definition alert_to_json (a : Alert.t) : json :=
  JObj [("id", JNum (Alert.id a)); ("rule_name", JStr (Alert.rule_name a));
        ("severity", severity_to_json (Alert.severity a));
        ("event_type", event_type_to_json (Alert.event_type a));
        ("mac", mac_to_json (Alert.mac a)); ("message", JStr (Alert.message a));
        ("device_snapshot", device_to_json (Alert.device_snapshot a));
        ("timestamp", timestamp_to_json (Alert.timestamp a));
        ("acknowledged", JBool (Alert.acknowledged a))].

(** The derived readers; a unit variant may also be written as a one-entry
    object. *)
Definition severity_of_name (s : string) : option Severity :=
  List.find (fun v => String.eqb (severity_display v) s) [Info; Warning; Critical].
Definition severity_from_json (j : json) : option Severity :=
  match j with
  | JStr s | JObj [(s, JNull)] => severity_of_name s
  | _ => None
  end.
Definition event_type_of_name (s : string) : option AlertEventType :=
  List.find (fun v => String.eqb (event_type_display v) s) [NewDevice; DeviceOffline; ProtocolChange].
Definition event_type_from_json (j : json) : option AlertEventType :=
  match j with
  | JStr s | JObj [(s, JNull)] => event_type_of_name s
  | JObj [(k, JStr s)] => if String.eqb k "custom" then Some (Custom s) else None
  | _ => None
  end.
Definition alert_from_json (j : json) : option Alert.t :=
  match j with
  | JObj fs =>
      id ← required "id" u64_from_json fs;
      rule_name ← required "rule_name" string_from_json fs;
      severity ← required "severity" severity_from_json fs;
      event_type ← required "event_type" event_type_from_json fs;
      mac ← required "mac" mac_from_json fs;
      message ← required "message" string_from_json fs;
      device_snapshot ← required "device_snapshot" device_from_json fs;
      timestamp ← required "timestamp" timestamp_from_json fs;
      acknowledged ← required "acknowledged" bool_from_json fs;
      Some (Alert.mk id rule_name severity event_type mac message device_snapshot timestamp acknowledged)
  | _ => None
  end.
End Codecs.

(** * What a text form keeps *)

(** A device every field of which has a text: octets, addresses and protocol
    numbers in range, times in the years the formatter prints. *)
Definition representable (d : Device.t) : Prop :=
  octets_ok (Device.mac d) /\ set_Forall ip_ok (Device.ips d) /\
  set_Forall protocol_ok (Device.protocols d) /\
  map_Forall (fun p n => protocol_ok p /\ in_u64 n) (Device.protocol_stats d) /\
  chrono_range (Device.first_seen d) /\ chrono_range (Device.last_seen d) /\
  in_u64 (Device.packet_count d) /\ in_u64 (Device.bytes_sent d) /\ in_u64 (Device.bytes_received d).

(** The times of a device, to the millisecond. *)
Definition to_millis (d : Device.t) : Device.t :=
  Device.mk (Device.mac d) (Device.ips d) (Device.hostname d)
    (deserialize_iso8601 (Device.first_seen d)) (deserialize_iso8601 (Device.last_seen d))
    (Device.packet_count d) (Device.bytes_sent d) (Device.bytes_received d) (Device.protocols d)
    (Device.vendor d) (Device.dhcp_vendor_class d) (Device.protocol_stats d).

(** The same for an alert. *)
Definition alert_representable (a : Alert.t) : Prop :=
  in_u64 (Alert.id a) /\ octets_ok (Alert.mac a) /\ representable (Alert.device_snapshot a) /\
  chrono_range (Alert.timestamp a).
Definition alert_millis (a : Alert.t) : Alert.t :=
  Alert.mk (Alert.id a) (Alert.rule_name a) (Alert.severity a) (Alert.event_type a) (Alert.mac a)
    (Alert.message a) (to_millis (Alert.device_snapshot a)) (deserialize_iso8601 (Alert.timestamp a))
    (Alert.acknowledged a).

(** * Lemmas *)

Lemma u64_from_json_num n : in_u64 n -> u64_from_json (JNum n) = Some n.
Proof.
  unfold in_u64, u64_from_json, in_range. intros Hn.
  rewrite (proj2 (Z.leb_le 0 n)), (proj2 (Z.leb_le n u64_max)) by lia. done.
Qed.

Lemma protocol_json_roundtrip p : protocol_ok p -> protocol_from_json (protocol_to_json p) = Some p.
Proof.
  destruct p as [| | | | | | | | | | |n]; try reflexivity. intros Hn. simpl. unfold in_range.
  simpl in Hn. unfold in_u8 in Hn.
  rewrite (proj2 (Z.leb_le 0 n)), (proj2 (Z.leb_le n u8_max)) by lia. done.
Qed.

(** Decoding the array form of a set gives the set back. *)
Lemma array_roundtrip {A} `{Countable A} (R : relation A) `{!RelDecision R} (P : A -> Prop)
  (enc : A -> json) (dec : json -> option A) (s : gset A) :
  (forall a, P a -> dec (enc a) = Some a) -> set_Forall P s ->
  array_from_json dec (JArr (enc <$> sorted_elements R s)) = Some (sorted_elements R s).
Proof.
  intros Hdec Hs. simpl. assert (Forall P (sorted_elements R s)) as Hall.
  { apply Forall_forall. intros a Ha. apply elem_of_sorted_elements in Ha. by apply Hs. }
  apply mapM_Some, Forall2_fmap_l, Forall_Forall2_diag. eapply Forall_impl; [exact Hall | apply Hdec].
Qed.

Lemma sorted_elements_set {A} `{Countable A} (R : relation A) `{!RelDecision R} (s : gset A) :
  list_to_set (sorted_elements R s) = s.
Proof. apply set_eq. intros a. by rewrite elem_of_list_to_set, elem_of_sorted_elements. Qed.

Lemma optional_string k o fs :
  field k fs = Ok (Some (option_to_json o)) -> optional k string_from_json fs = Some o.
Proof. unfold optional. intros ->. by destruct o. Qed.

Section Facts.
Context {MT : MacText} {IT : IpText} {CH : Chrono}.

Lemma timestamp_json_roundtrip {CL : ChronoLaws} t :
  chrono_range t -> timestamp_from_json (timestamp_to_json t) = Some (deserialize_iso8601 t).
Proof.
  intros Ht. unfold timestamp_from_json, timestamp_to_json. simpl.
  rewrite parse_fmt_iso8601 by done. simpl. by rewrite deserialize_iso8601_idemp.
Qed.

Lemma mac_json_roundtrip {ML : MacTextLaws} m :
  octets_ok m -> mac_from_json (mac_to_json m) = Some m.
Proof. apply mac_parse_to_string. Qed.
Lemma ip_json_roundtrip {IL : IpTextLaws} i : ip_ok i -> ip_from_json (ip_to_json i) = Some i.
Proof. apply ip_parse_to_string. Qed.

Lemma stats_json_roundtrip stats :
  map_Forall (fun p n => protocol_ok p /\ in_u64 n) stats ->
  stats_from_json (stats_to_json stats) = Some stats.
Proof.
  intros Hs. unfold stats_from_json, stats_to_json.
  assert (mapM (fun f : string * json => n ← u64_from_json f.2; Some (f.1, n))
    ((fun e : string * Z => (e.1, JNum e.2)) <$> serialize_protocol_stats stats) =
    Some (serialize_protocol_stats stats)) as ->.
  { unfold serialize_protocol_stats.
    assert (Forall (fun e => in_u64 e.2) (stats_entries stats)) as Hall.
    { apply Forall_forall. intros [p n] Hin. rewrite stats_entries_perm in Hin.
      apply elem_of_map_to_list in Hin. by apply Hs in Hin as [_ ?]. }
    apply mapM_Some, Forall2_fmap_l, Forall2_fmap_l, Forall2_fmap_r, Forall_Forall2_diag.
    eapply Forall_impl; [exact Hall|]. intros [p n] Hn. cbn [fst snd compose] in *.
    by rewrite u64_from_json_num. }
  cbn [mbind option_bind]. f_equal. apply deserialize_serialize_stats; [|done].
  intros p n Hp. by apply Hs in Hp as [? _].
Qed.

Lemma device_json_inverse {ML : MacTextLaws} {IL : IpTextLaws} {CL : ChronoLaws} d :
  representable d -> device_from_json (device_to_json d) = Some (to_millis d).
Proof.
  intros (Hm & Hi & Hp & Hst & Hf & Hl & Hc & Hs & Hr).
  unfold device_from_json, device_to_json.
  rewrite (optional_string "hostname" (Device.hostname d)), (optional_string "vendor" (Device.vendor d)),
    (optional_string "dhcp_vendor_class" (Device.dhcp_vendor_class d)) by reflexivity.
  unfold required, field. cbn [List.filter String.eqb Ascii.eqb Bool.eqb fst].
  rewrite mac_json_roundtrip by done. cbn [mbind option_bind].
  rewrite (array_roundtrip ip_le ip_ok) by (done || apply ip_json_roundtrip).
  rewrite (array_roundtrip protocol_le protocol_ok) by (done || apply protocol_json_roundtrip).
  rewrite !timestamp_json_roundtrip, !u64_from_json_num, stats_json_roundtrip by done.
  cbn [mbind option_bind]. by rewrite !sorted_elements_set.
Qed.

Lemma severity_json_roundtrip v : severity_from_json (severity_to_json v) = Some v.
Proof. by destruct v. Qed.
Lemma event_type_json_roundtrip e : event_type_from_json (event_type_to_json e) = Some e.
Proof. by destruct e. Qed.

Lemma alert_json_inverse {ML : MacTextLaws} {IL : IpTextLaws} {CL : ChronoLaws} a :
  alert_representable a -> alert_from_json (alert_to_json a) = Some (alert_millis a).
Proof.
  intros (Hi & Hm & Hd & Ht). unfold alert_from_json, alert_to_json.
  unfold required, field. cbn [List.filter String.eqb Ascii.eqb Bool.eqb fst].
  rewrite mac_json_roundtrip, device_json_inverse, timestamp_json_roundtrip, u64_from_json_num,
    severity_json_roundtrip, event_type_json_roundtrip by done. done.
Qed.
End Facts.

(** * An instance: a code for JSON values, written in two letters *)

Fixpoint json_tree (j : json) : gen_tree (string + Z) :=
  match j with
  | JNull => GenNode 0 []
  | JBool b => GenNode (if b then 2 else 1) []
  | JNum n => GenLeaf (inr n)
  | JStr s => GenLeaf (inl s)
  | JArr l => GenNode 3 (map json_tree l)
  | JObj fs => GenNode 4 (flat_map (fun f => [GenLeaf (inl f.1); json_tree f.2]) fs)
  end.
Fixpoint tree_json (t : gen_tree (string + Z)) : json :=
  match t with
  | GenLeaf (inl s) => JStr s
  | GenLeaf (inr n) => JNum n
  | GenNode 1 _ => JBool false
  | GenNode 2 _ => JBool true
  | GenNode 3 l => JArr (map tree_json l)
  | GenNode 4 l =>
      JObj ((fix go (l : list (gen_tree (string + Z))) : list (string * json) :=
        match l with
        | GenLeaf (inl k) :: v :: l' => (k, tree_json v) :: go l'
        | _ => []
        end) l)
  | GenNode _ _ => JNull
  end.

Fixpoint pos_letters (p : positive) : string :=
  match p with
  | xH => ""
  | xO p' => String "a" (pos_letters p')
  | xI p' => String "b" (pos_letters p')
  end.
Fixpoint letters_pos (s : string) : positive :=
  match s with
  | "" => xH
  | String c s' => if Ascii.eqb c "a" then xO (letters_pos s') else xI (letters_pos s')
  end.

Fixpoint tree_json_tree (j : json) : tree_json (json_tree j) = j.
Proof.
  destruct j as [|[]|n|s|l|fs]; try reflexivity; simpl; f_equal.
  - induction l as [|j l IH]; simpl; [reflexivity|]. by rewrite tree_json_tree, IH.
  - induction fs as [|[k j] fs IH]; simpl; [reflexivity|]. by rewrite tree_json_tree, IH.
Qed.
Lemma letters_pos_letters p : letters_pos (pos_letters p) = p.
Proof. induction p; simpl; congruence. Qed.

Definition ref_serde_json : SerdeJson := {|
  json_to_string j := pos_letters (encode (json_tree j));
  json_from_str s := tree_json <$> decode (letters_pos s)
|}.
Lemma ref_json_roundtrip j : @json_from_str ref_serde_json (@json_to_string ref_serde_json j) = Some j.
Proof.
  simpl. rewrite letters_pos_letters, decode_encode. simpl. f_equal. apply tree_json_tree.
Qed.
Definition ref_serde_json_laws : @SerdeJsonLaws ref_serde_json :=
  @Build_SerdeJsonLaws ref_serde_json ref_json_roundtrip.

(** * Properties *)

(** A device survives its JSON text, the form in which alerts are stored
    and the API answers: parsing what was printed gives the device back
    with its two times cut to the millisecond, and printing that again
    gives the very same text. *)
Theorem device_json_roundtrip {MT : MacText} {IT : IpText} {CH : Chrono} {SJ : SerdeJson}
  {ML : MacTextLaws} {IL : IpTextLaws} {CL : ChronoLaws} {SL : SerdeJsonLaws} (d : Device.t) :
  representable d ->
  json_from_str (json_to_string (device_to_json d)) ≫= device_from_json = Some (to_millis d) /\
  json_to_string (device_to_json (to_millis d)) = json_to_string (device_to_json d) /\
  to_millis (to_millis d) = to_millis d.
Proof.
  intros Hd. rewrite json_from_to_string. cbn [mbind option_bind].
  split; [by apply device_json_inverse|]. split.
  - unfold device_to_json, to_millis, timestamp_to_json. simpl. by rewrite !fmt_iso8601_ms.
  - unfold to_millis. simpl. by rewrite !deserialize_iso8601_idemp.
Qed.

Definition demo_json_device : Device.t :=
  Device.mk (mkMac 2 0 0 0 0 1) {[V4 3232235777]} (Some "printer") 1700000000123456789
    1700000000999999999 7 100 200 {[Tcp; Other 9]} None (Some "MSFT") {[Tcp := 5; Other 9 := 2]}.

Lemma device_json_roundtrip_witness :
  exists d, @json_from_str ref_serde_json (@json_to_string ref_serde_json
      (@device_to_json ref_mac_text std_ip_text ref_chrono demo_json_device))
    ≫= @device_from_json ref_mac_text std_ip_text ref_chrono = Some d /\
    Device.first_seen d = 1700000000123000000 /\ Device.vendor d = None.
Proof.
  exists (to_millis demo_json_device). split; [|split; reflexivity].
  apply (@device_json_roundtrip ref_mac_text std_ip_text ref_chrono ref_serde_json ref_mac_laws
    std_ip_laws ref_chrono_laws ref_serde_json_laws demo_json_device).
  unfold representable, octets_ok, in_u8, in_u64, u8_max, u64_max, chrono_range, ns_per_s; simpl.
  split_and!; try lia.
  - apply set_Forall_singleton. simpl. unfold u32_max. lia.
  - apply set_Forall_union; apply set_Forall_singleton; simpl; unfold in_u8, u8_max; [done | lia].
  - apply map_Forall_insert_2; [|apply map_Forall_singleton];
      unfold in_u64, in_u8, u8_max, u64_max; simpl; unfold in_u8, u8_max; lia.
Defined.
