(* ===== verification/Stores.v ===== *)
(** The storage interfaces and their in-memory implementation:
    [crates/storage/src/store.rs] (the [DeviceStore] trait and [MemoryStore])
    and the [AlertStore] trait of [crates/common/src/alert_store.rs].

    A trait is a class of operations on an explicit state; its contract is a
    class of laws over an abstraction of that state.  The discovery engine,
    the API and the rule engine are verified against the laws, and each
    implementation discharges them. *)

From S2P Require Import Prelude Text Types.

(** * Device stores *)

(** [trait DeviceStore].  [upsert] takes [&self] on shared interior state:
    here it returns the new state. *)
Class DeviceStore (S : Type) : Type := {
  ds_get : S -> MacAddress -> result (option Device.t) StorageError;
  ds_upsert : S -> Device.t -> S * result unit StorageError;
  ds_list : S -> result (list Device.t) StorageError;
  ds_count : S -> result nat StorageError
}.

(** Every device is stored under its own MAC address. *)
Definition keyed (m : gmap MacAddress Device.t) : Prop :=
  map_Forall (fun k d => Device.mac d = k) m.

(** The order of [sort_by_key(|d| d.mac.to_string())]. *)
Definition mac_text_le `{!MacText} (a b : Device.t) : Prop :=
  String.le (mac_to_string (Device.mac a)) (mac_to_string (Device.mac b)).
#[global] Instance mac_text_le_dec `{!MacText} : RelDecision mac_text_le.
Proof. intros a b. unfold mac_text_le. apply _. Defined.

(** What a device store promises: it is a finite map from MAC addresses to
    devices, listed in the order of the address text. *)
Class DeviceStoreLaws (S : Type) `{!DeviceStore S, !MacText} : Type := {
  ds_map : S -> gmap MacAddress Device.t;
  ds_get_spec s m : ds_get s m = Ok (ds_map s !! m);
  ds_upsert_ok s d : (ds_upsert s d).2 = Ok tt;
  ds_upsert_map s d : ds_map (ds_upsert s d).1 = <[Device.mac d := d]> (ds_map s);
  ds_list_spec s : exists l, ds_list s = Ok l /\
    l ≡ₚ (map_to_list (ds_map s)).*2 /\ StronglySorted mac_text_le l;
  ds_count_spec s : ds_count s = Ok (size (ds_map s))
}.

(** * [MemoryStore]: a [DashMap] as a finite map *)

Module MemoryStore.
Record t : Type := mk { devices : gmap MacAddress Device.t }.

Definition new : t := mk ∅.
Definition get (s : t) (m : MacAddress) : result (option Device.t) StorageError :=
  Ok (devices s !! m).
Definition upsert (s : t) (d : Device.t) : t * result unit StorageError :=
  (mk (<[Device.mac d := d]> (devices s)), Ok tt).
Definition list_devices `{!MacText} (s : t) : result (list Device.t) StorageError :=
  Ok (merge_sort mac_text_le (map_to_list (devices s)).*2).
Definition count (s : t) : result nat StorageError := Ok (size (devices s)).
End MemoryStore.

#[global] Instance memory_device_store `{!MacText} : DeviceStore MemoryStore.t := {|
  ds_get := MemoryStore.get;
  ds_upsert := MemoryStore.upsert;
  ds_list := MemoryStore.list_devices;
  ds_count := MemoryStore.count
|}.

(** * Alert stores *)

(** [struct AlertFilter]. *)
Module AlertFilter.
Record t : Type := mk {
  severity : option Severity;
  acknowledged : option bool;
  rule_name : option string;
  limit : option nat
}.
Definition default : t := mk None None None None.
End AlertFilter.

(** [trait AlertStore]. *)
Class AlertStore (A : Type) : Type := {
  as_insert : A -> Alert.t -> A * result AlertId StorageError;
  as_list : A -> AlertFilter.t -> result (list Alert.t) StorageError;
  as_get : A -> AlertId -> result (option Alert.t) StorageError;
  as_acknowledge : A -> AlertId -> A * result unit StorageError;
  as_delete : A -> AlertId -> A * result unit StorageError;
  as_is_acknowledged : A -> string -> MacAddress -> result bool StorageError;
  as_count : A -> result nat StorageError
}.

(** Which alerts a filter keeps, before its limit. *)
Definition filter_keeps (f : AlertFilter.t) (a : Alert.t) : bool :=
  match AlertFilter.severity f with
  | Some s => bool_decide (Alert.severity a = s)
  | None => true
  end &&
  match AlertFilter.acknowledged f with
  | Some b => Bool.eqb (Alert.acknowledged a) b
  | None => true
  end &&
  match AlertFilter.rule_name f with
  | Some n => String.eqb (Alert.rule_name a) n
  | None => true
  end.
Definition apply_limit {A} (l : option nat) (xs : list A) : list A :=
  match l with Some n => take n xs | None => xs end.
(** Limits that are integers for SQLite. *)
Definition limit_fits (l : option nat) : bool :=
  match l with Some n => Z.of_nat n <=? i64_max | None => true end.
(** [LIMIT {l}] on the selected rows: SQLite reads a literal above [i64::MAX]
    as a real number, and the statement fails on its first step. *)
Definition select_limited {A} (l : option nat) (rows : list A) : result (list A) StorageError :=
  if limit_fits l then Ok (apply_limit l rows)
  else Err (Internal "row parse failed: datatype mismatch").

(** An acknowledged alert of this rule for this device. *)
Definition acknowledged_for (rule_name : string) (mac : MacAddress) (a : Alert.t) : bool :=
  Alert.acknowledged a && String.eqb (Alert.rule_name a) rule_name &&
  bool_decide (Alert.mac a = mac).

(** * Opening a table of the database *)

(** What SQLite answers to [Connection::open], to the pragmas and to the
    schema statements ([CREATE ... IF NOT EXISTS]). *)
Record table_io : Type := mkTableIo {
  connected : result unit string; pragmas_set : result unit string; schema_made : result unit string
}.
Definition open_table {T} (opening schema : string) (io : table_io) (existing : T)
  : result (option T) StorageError :=
  let? _ := map_err (fun e => Internal (opening +:+ e)) (connected io) in
  let? _ := map_err (fun e => Internal ("failed to set pragmas: " +:+ e)) (pragmas_set io) in
  let? _ := map_err (fun e => Internal (schema +:+ e)) (schema_made io) in
  Ok (Some existing).

(** * Bounded channels

    [tokio::sync::mpsc] is not part of the repository: a channel is a
    parameter with the documented behaviour of [try_send], which queues the
    value when there is room and fails without an effect otherwise. *)

Class Mpsc (A : Type) : Type := {
  chan : Type;
  try_send : chan -> A -> chan * bool
}.
Class MpscLaws (A : Type) `{!Mpsc A} : Type := {
  queued : chan -> list A;
  capacity : chan -> nat;
  try_send_spec c a :
    let (c', ok) := try_send c a in
    capacity c' = capacity c /\
    (ok = true <-> (length (queued c) < capacity c)%nat) /\
    queued c' = if ok then queued c ++ [a] else queued c
}.
Arguments chan A {_}.

(** A bounded queue, for concrete evaluations. *)
Definition queue_mpsc (A : Type) : Mpsc A := {|
  chan := list A * nat;
  try_send c a := if (length c.1 <? c.2)%nat then ((c.1 ++ [a], c.2), true) else (c, false)
|}.

(** * Lemmas *)

Section MacTextFacts.
Context `{!MacText}.

#[global] Instance mac_text_le_total : Total mac_text_le.
Proof. intros a b. unfold mac_text_le. apply total. apply _. Qed.
#[global] Instance mac_text_le_trans : Transitive mac_text_le.
Proof. intros a b c. unfold mac_text_le. apply transitivity. Qed.

Lemma mac_to_string_inj `{!MacTextLaws} a b :
  octets_ok a -> octets_ok b -> mac_to_string a = mac_to_string b -> a = b.
Proof.
  intros Ha Hb Hab. apply mac_parse_to_string in Ha, Hb. rewrite <- Hab in Hb. congruence.
Qed.
End MacTextFacts.

#[global] Program Instance memory_device_store_laws `{!MacText} : DeviceStoreLaws MemoryStore.t := {|
  ds_map := MemoryStore.devices
|}.
Next Obligation. done. Qed.
Next Obligation. done. Qed.
Next Obligation. done. Qed.
Next Obligation.
  intros ? s. eexists. split; [reflexivity|]. split.
  - apply merge_sort_Permutation.
  - apply StronglySorted_merge_sort; apply _.
Qed.
Next Obligation. done. Qed.

#[global] Program Definition queue_mpsc_laws (A : Type) : @MpscLaws A (queue_mpsc A) :=
  @Build_MpscLaws A (queue_mpsc A) fst snd _.
Next Obligation.
  intros A [l n] a. simpl. destruct (length l <? n)%nat eqn:E; simpl; bool_to_prop;
    split_and!; auto; split; intros; (done || lia).
Qed.

Lemma keyed_insert m d : keyed m -> keyed (<[Device.mac d := d]> m).
Proof. intros H. by apply map_Forall_insert_2. Qed.
Lemma keyed_empty : keyed ∅.
Proof. apply map_Forall_empty. Qed.
#[export] Hint Resolve keyed_insert keyed_empty : rust.

(** A channel only ever gains what was sent, at its end. *)
Lemma try_send_queued {A} `{!Mpsc A, !MpscLaws A} (c : chan A) (a : A) :
  queued (try_send c a).1 = queued c \/ queued (try_send c a).1 = queued c ++ [a].
Proof.
  pose proof (try_send_spec c a) as H. destruct (try_send c a) as [c' []]; naive_solver.
Qed.

Lemma try_send_room {A} `{!Mpsc A, !MpscLaws A} (c : chan A) (a : A) :
  (length (queued c) < capacity c)%nat -> queued (try_send c a).1 = queued c ++ [a].
Proof.
  intros Hroom. pose proof (try_send_spec c a) as Hs.
  destruct (try_send c a) as [c' []]; destruct Hs as (_ & Hiff & Hq); [done|].
  apply Hiff in Hroom. done.
Qed.

(** Reading after a sequence of upserts: the last write of each address. *)
Lemma upserts_map {S} `{!DeviceStore S, !MacText, !DeviceStoreLaws S} (s : S) (l : list Device.t) :
  ds_map (foldl (fun s d => (ds_upsert s d).1) s l) =
    foldl (fun m d => <[Device.mac d := d]> m) (ds_map s) l.
Proof.
  revert s. induction l as [|d l IH]; intros s; simpl; [done|]. by rewrite IH, ds_upsert_map.
Qed.

(** * Properties *)

(** Over any sequence of upserts on a fresh [MemoryStore], every read
    returns the last device written for that address, [count] is the number
    of addresses written, and [list] returns exactly those devices, once
    each, in the order of their MAC text. *)
Theorem memory_store_refines_map `{!MacText} (l : list Device.t) :
  let s := foldl (fun s d => (MemoryStore.upsert s d).1) MemoryStore.new l in
  let m := foldl (fun m d => <[Device.mac d := d]> m) ∅ l in
  (forall k, MemoryStore.get s k = Ok (m !! k)) /\
  keyed m /\ dom m = list_to_set (Device.mac <$> l) /\
  MemoryStore.count s = Ok (size m) /\
  exists ds, MemoryStore.list_devices s = Ok ds /\ NoDup ds /\
    (forall d, d ∈ ds <-> m !! Device.mac d = Some d) /\ StronglySorted mac_text_le ds.
Proof.
  intros s m.
  assert (MemoryStore.devices s = m) as Hs
    by exact (upserts_map (S:=MemoryStore.t) MemoryStore.new l).
  assert (keyed m) as Hk.
  { clear s Hs. subst m. induction l as [|d l IH] using rev_ind; [apply keyed_empty|].
    rewrite foldl_app. simpl. auto with rust. }
  assert (dom m = list_to_set (Device.mac <$> l)) as Hdom.
  { clear s Hs Hk. subst m. induction l as [|d l IH] using rev_ind; [apply dom_empty_L|].
    rewrite foldl_app. simpl. rewrite dom_insert_L, IH, fmap_app, list_to_set_app_L. simpl. set_solver. }
  split_and!; auto.
  - intros k. unfold MemoryStore.get. by rewrite Hs.
  - unfold MemoryStore.count. by rewrite Hs.
  - eexists; split; [reflexivity|]. rewrite Hs. split_and!.
    + rewrite merge_sort_Permutation. apply (NoDup_fmap_1 Device.mac).
      assert (Device.mac <$> (map_to_list m).*2 = (map_to_list m).*1) as ->;
        [|apply NoDup_fst_map_to_list].
      rewrite <- list_fmap_compose. apply list_fmap_ext. intros i [k d] Hi. simpl.
      apply list_elem_of_lookup_2, elem_of_map_to_list in Hi. by apply Hk in Hi.
    + intros d. rewrite merge_sort_Permutation, list_elem_of_fmap. split.
      * intros ([k d'] & -> & Hd). apply elem_of_map_to_list in Hd. pose proof (Hk _ _ Hd).
        simpl in *. by subst.
      * intros Hd. exists (Device.mac d, d). by rewrite elem_of_map_to_list.
    + apply StronglySorted_merge_sort; apply _.
Qed.
