(* ===== verification/Oui.v ===== *)
(** Vendor lookup: the parser of the IEEE list in [crates/oui/build.rs] and
    [lookup] of [crates/oui/src/lib.rs].  The perfect-hash table itself is a
    file the build generates: it is the parameter [OUI_MAP]. *)

From S2P Require Import Prelude Text Types.

(** * The parser of the IEEE list *)

(** [u32::from_str_radix(_, 16)]. *)
Fixpoint parse_hex_digits (acc : Z) (s : string) : option Z :=
  match s with
  | "" => Some acc
  | String c s' =>
      match hex_value c with
      | Some d => if acc * 16 + d <=? u32_max then parse_hex_digits (acc * 16 + d) s' else None
      | None => None
      end
  end.
Definition u32_from_str_radix_16 (s : string) : option Z :=
  match s with
  | "" => None
  | String c s' =>
      if Ascii.eqb c "+" then match s' with "" => None | _ => parse_hex_digits 0 s' end
      else parse_hex_digits 0 s
  end.

(** [str::get(..n)]: there must be a character boundary at [n]. *)
Fixpoint get_prefix (n : nat) (s : string) : option string :=
  match n, s with
  | O, "" => Some ""
  | O, String c _ => if cont (ord c) then None else Some ""
  | S _, "" => None
  | S n', String c s' => String c <$> get_prefix n' s'
  end.

(** [s.split(pat).nth(1)]: what stands between the first and the second
    occurrence of the pattern. *)
Fixpoint until (pat s : string) : string :=
  if starts_with s pat then ""
  else match s with "" => "" | String c s' => String c (until pat s') end.
Fixpoint split_nth_1 (pat s : string) : option string :=
  match strip_prefix pat s with
  | Some rest => Some (until pat rest)
  | None => match s with "" => None | String _ s' => split_nth_1 pat s' end
  end.

(** The body of the loop: the entry a line contributes. *)
Definition parse_oui_line (line : string) : option (Z * string) :=
  if negb (contains line "(base 16)") then None
  else
    prefix ← get_prefix 6 line;
    let oui_hex := trim prefix in
    rest ← split_nth_1 "(base 16)" line;
    let name := trim rest in
    if is_empty name then None
    else
      oui ← u32_from_str_radix_16 oui_hex;
      Some (oui, name).

(** [None] is a line the reader could not decode. *)
Definition parse_oui_file (lines : list (option string)) : gmap Z string :=
  foldl (fun entries line =>
    match line ≫= parse_oui_line with
    | Some (oui, name) => <[oui := name]> entries
    | None => entries
    end) ∅ lines.

(** * Lookup *)

Class Oui : Type := { OUI_MAP : Z -> option string }.

Definition oui_of (m : MacAddress) : Z := u32_from_be_bytes 0 (mac0 m) (mac1 m) (mac2 m).
Definition lookup_vendor `{!Oui} (m : MacAddress) : option string := OUI_MAP (oui_of m).

Definition same_oui (a b : MacAddress) : Prop :=
  mac0 a = mac0 b /\ mac1 a = mac1 b /\ mac2 a = mac2 b.

(** The entries of the readable lines, and the last one for a key. *)
Definition entries_of (lines : list (option string)) : list (Z * string) :=
  omap (fun line => line ≫= parse_oui_line) lines.
Definition last_entry (key : Z) (lines : list (option string)) : option string :=
  snd <$> last (filter (fun e => e.1 = key) (entries_of lines)).

(** * Lemmas *)

Lemma oui_of_bytes m : octets_ok m ->
  oui_of m = 65536 * mac0 m + 256 * mac1 m + mac2 m.
Proof.
  intros (H0 & H1 & H2 & _). unfold oui_of. rewrite u32_from_be_bytes_add by (done || lia). lia.
Qed.

Lemma oui_of_inj a b : octets_ok a -> octets_ok b -> oui_of a = oui_of b <-> same_oui a b.
Proof.
  intros Ha Hb. rewrite !oui_of_bytes by done.
  destruct Ha as (A0 & A1 & A2 & _), Hb as (B0 & B1 & B2 & _).
  unfold same_oui, in_u8, u8_max in *. lia.
Qed.

Lemma parse_hex_digits_bound acc s n :
  0 <= acc <= u32_max -> parse_hex_digits acc s = Some n -> acc <= n <= u32_max.
Proof.
  revert acc. induction s as [|c s IH]; intros acc Hacc; cbn [parse_hex_digits].
  { intros; simplify_eq; lia. }
  destruct (hex_value c) as [d|] eqn:Hd; [|done].
  assert (0 <= d).
  { unfold hex_value, in_range in Hd. repeat case_match; simplify_eq; bool_to_prop; lia. }
  case_match eqn:Hle; [|done]. bool_to_prop. intros Hp%IH; lia.
Qed.

Lemma parse_oui_file_snoc lines line :
  parse_oui_file (lines ++ [line]) =
    match line ≫= parse_oui_line with
    | Some (oui, name) => <[oui := name]> (parse_oui_file lines)
    | None => parse_oui_file lines
    end.
Proof. unfold parse_oui_file. by rewrite foldl_app. Qed.

Lemma last_entry_snoc key lines line :
  last_entry key (lines ++ [line]) =
    match line ≫= parse_oui_line with
    | Some (oui, name) => if decide (oui = key) then Some name else last_entry key lines
    | None => last_entry key lines
    end.
Proof.
  unfold last_entry, entries_of. rewrite omap_app. simpl.
  destruct (line ≫= parse_oui_line) as [[oui name]|]; [|by rewrite app_nil_r].
  rewrite filter_app. simpl. case_decide as Hk.
  - rewrite filter_cons_True, filter_nil, last_snoc by done. done.
  - rewrite filter_cons_False, filter_nil, app_nil_r by done. done.
Qed.

Lemma parse_oui_file_last lines key : parse_oui_file lines !! key = last_entry key lines.
Proof.
  induction lines as [|line lines IH] using rev_ind; [done|].
  rewrite parse_oui_file_snoc, last_entry_snoc.
  destruct (line ≫= parse_oui_line) as [[oui name]|]; [|done].
  case_decide as Hk; [subst; by rewrite lookup_insert_eq | by rewrite lookup_insert_ne].
Qed.

(** * Properties *)

(** When the generated table holds what the parser read from the list,
    the vendor of a MAC address is the name on the last line for its first
    three octets, and nothing else of the address matters. *)
Theorem lookup_vendor_of_table `{!Oui} (lines : list (option string)) (a b : MacAddress) :
  (forall k, OUI_MAP k = parse_oui_file lines !! k) ->
  octets_ok a -> octets_ok b ->
  lookup_vendor a = last_entry (65536 * mac0 a + 256 * mac1 a + mac2 a) lines /\
  (same_oui a b -> lookup_vendor a = lookup_vendor b).
Proof.
  intros Ht Ha Hb. unfold lookup_vendor. rewrite !Ht, parse_oui_file_last. split.
  - by rewrite oui_of_bytes.
  - intros Hs. apply (oui_of_inj a b) in Hs as ->; [|done|done]. by rewrite parse_oui_file_last.
Qed.

Definition sample_list : list (option string) :=
  [Some "28-6F-B9   (hex)                Nokia Shanghai Bell Co., Ltd.";
   Some "286FB9     (base 16)            Nokia Shanghai Bell Co., Ltd.";
   None;
   Some "B827EB     (base 16)            Raspberry Pi Foundation"].

Lemma lookup_vendor_of_table_witness :
  @lookup_vendor {| OUI_MAP := fun k => parse_oui_file sample_list !! k |}
    (mkMac 184 39 235 1 2 3) = Some "Raspberry Pi Foundation".
Proof.
  destruct (@lookup_vendor_of_table {| OUI_MAP := fun k => parse_oui_file sample_list !! k |}
    sample_list (mkMac 184 39 235 1 2 3) (mkMac 184 39 235 0 0 0)) as [H _].
  - reflexivity.
  - unfold octets_ok, in_u8, u8_max; simpl; lia.
  - unfold octets_ok, in_u8, u8_max; simpl; lia.
  - rewrite H. vm_compute. reflexivity.
Defined.
