(* ===== verification/OuiTable.v ===== *)
(** The table of vendors the build generates: [escape_rust_str] and
    [generate_phf_map] of [crates/oui/build.rs].  A name becomes a Rust
    string literal, the compiler reads it back, and [lookup] finds it.  The
    perfect hash ([phf_codegen]) is a parameter that prints the entries;
    which characters take no column ([unicode_width]) is one too. *)

From S2P Require Import Prelude Text Types Oui.

(** * Characters *)

Definition cont_head (s : string) : bool :=
  match s with String c _ => cont (ord c) | "" => false end.

(** [str::chars]: a character is its bytes. *)
Fixpoint chars (s : string) : list string :=
  match s with
  | "" => []
  | String c s' =>
      match chars s' with
      | g :: gs => if cont_head g then String c g :: gs else String c "" :: g :: gs
      | [] => [String c ""]
      end
  end.

(** [char::is_control]: the category Cc. *)
Definition is_control (g : string) : bool :=
  match g with
  | String c "" => in_range 0 31 (ord c) || (ord c =? 127)
  | String a (String b "") => (ord a =? 194) && in_range 128 159 (ord b)
  | _ => false
  end.

(** [UnicodeWidthChar::width(c) == Some(0)]. *)
Class UnicodeWidth : Type := { zero_width : string -> bool }.

Section Table.
Context {UW : UnicodeWidth}.

Definition visible (g : string) : bool := negb (is_control g || zero_width g).

Definition chr_string (c : ascii) : string := String c "".
Definition escape_char (g : string) : string :=
  if String.eqb g (chr_string backslash) then String backslash (chr_string backslash)
  else if String.eqb g (chr_string dquote) then String backslash (chr_string dquote)
  else if String.eqb g (chr_string newline) then String backslash "n"
  else if String.eqb g (chr_string "013") then String backslash "r"
  else if String.eqb g (chr_string "009") then String backslash "t"
  else g.
Definition escape_rust_str (s : string) : string :=
  String dquote (foldr (fun g out => (if visible g then escape_char g else "") +:+ out)
                   (chr_string dquote) (chars s)).

(** The names the table is built with, in the order of the keys. *)
Definition literals (entries : gmap Z string) : gmap Z string := escape_rust_str <$> entries.
Definition oui_le (a b : Z * string) : Prop := a.1 <= b.1.
#[global] Instance oui_le_dec : RelDecision oui_le := fun a b => decide (a.1 <= b.1).
Definition map_entries (entries : gmap Z string) : list (Z * string) :=
  merge_sort oui_le (map_to_list (literals entries)).

(** The file [oui_map.rs], around what [phf_codegen] prints. *)
Definition generate_phf_map (phf_display : list (Z * string) -> string) (entries : gmap Z string)
  : string :=
  "// Auto-generated by build.rs. Do not edit." +:+ nl +:+
  "// Source: https://standards-oui.ieee.org/oui/oui.txt" +:+ nl +:+
  "// " +:+ fmt_uint (Z.of_nat (size entries)) +:+ " entries" +:+ nl +:+ nl +:+
  "pub static OUI_MAP: phf::Map<u32, &str> = " +:+ phf_display (map_entries entries) +:+ ";" +:+ nl.

(** What is left of a name. *)
Definition visible_text (s : string) : string :=
  foldr (fun g out => (if visible g then g else "") +:+ out) "" (chars s).
End Table.

(** The value of a Rust string literal without numeric escapes or
    continuation lines; a bare carriage return is not allowed in one. *)
Definition unescape (c : ascii) : option ascii :=
  if Ascii.eqb c backslash || Ascii.eqb c dquote then Some c
  else if Ascii.eqb c "n" then Some newline
  else if Ascii.eqb c "r" then Some "013"%char
  else if Ascii.eqb c "t" then Some "009"%char
  else None.
Fixpoint literal_body (s : string) : option (string * string) :=
  match s with
  | "" => None
  | String c s' =>
      if Ascii.eqb c dquote then Some ("", s')
      else if Ascii.eqb c backslash then
        match s' with
        | "" => None
        | String e s'' => d ← unescape e; r ← literal_body s''; Some (String d r.1, r.2)
        end
      else if Ascii.eqb c "013" then None
      else r ← literal_body s'; Some (String c r.1, r.2)
  end.
Definition read_literal (s : string) : option string :=
  match s with
  | String c s' =>
      if Ascii.eqb c dquote
      then match literal_body s' with Some (text, "") => Some text | _ => None end
      else None
  | "" => None
  end.

(** * Lemmas *)

(** ** Pieces of a text *)

Definition infix_of (p s : string) : Prop := exists a b, s = a +:+ p +:+ b.

Lemma infix_refl s : infix_of s s.
Proof. exists "", "". by rewrite string_app_nil_r. Qed.
Lemma infix_trans p q s : infix_of p q -> infix_of q s -> infix_of p s.
Proof.
  intros (a & b & ->) (a' & b' & ->). exists (a' +:+ a), (b +:+ b').
  by rewrite !string_app_assoc.
Qed.
Lemma infix_tail c s : infix_of s (String c s).
Proof. exists (String c ""), "". simpl. by rewrite string_app_nil_r. Qed.
Lemma infix_strip_prefix p s r : strip_prefix p s = Some r -> infix_of r s.
Proof. intros ->%strip_prefix_Some. exists p, "". by rewrite string_app_nil_r. Qed.
Lemma infix_strip_suffix p s r : strip_suffix p s = Some r -> infix_of r s.
Proof. intros ->%strip_suffix_Some. by exists "", p. Qed.

Lemma infix_trim_with strip n s :
  (forall p s r, strip p s = Some r -> infix_of r s) -> infix_of (trim_with strip n s) s.
Proof.
  intros Hs. revert s. induction n as [|n IH]; intros s; cbn [trim_with]; [apply infix_refl|].
  destruct (strip_any strip white_space s) as [r|] eqn:E; [|apply infix_refl].
  eapply infix_trans; [apply IH|]. clear IH. revert E. unfold strip_any.
  induction white_space as [|w l IH]; cbn [foldr]; [done|].
  destruct (strip w s) eqn:Ew; [intros [= <-]; by eapply Hs | done].
Qed.
Lemma infix_trim s : infix_of (trim s) s.
Proof.
  eapply infix_trans; apply infix_trim_with; eauto using infix_strip_prefix, infix_strip_suffix.
Qed.

Lemma infix_until p s : infix_of (until p s) s.
Proof.
  assert (exists r, s = until p s +:+ r) as [r Hr]; [|by exists "", r].
  induction s as [|c s [r IH]]; cbn [until]; destruct (starts_with _ p);
    [by exists "" | by exists "" | by exists (String c s) |]. exists r. simpl. by rewrite <- IH.
Qed.
Lemma infix_split_nth_1 p s r : split_nth_1 p s = Some r -> infix_of r s.
Proof.
  revert r. induction s as [|c s IH]; intros r; cbn [split_nth_1];
    destruct (strip_prefix p _) as [rest|] eqn:E; try done.
  - intros [= <-]. eapply infix_trans; [apply infix_until | by eapply infix_strip_prefix].
  - intros [= <-]. eapply infix_trans; [apply infix_until | by eapply infix_strip_prefix].
  - intros H%IH. eapply infix_trans; [exact H | apply infix_tail].
Qed.

Lemma infix_parse_oui_line line k name :
  parse_oui_line line = Some (k, name) -> infix_of name line.
Proof.
  unfold parse_oui_line. destruct (negb _); [done|].
  destruct (get_prefix 6 line) as [p|]; [|done]. cbn [mbind option_bind].
  destruct (split_nth_1 _ line) as [rest|] eqn:E; [|done]. cbn [mbind option_bind].
  destruct (is_empty (trim rest)); [done|]. destruct (u32_from_str_radix_16 _); [|done].
  intros [= _ <-]. eapply infix_trans; [apply infix_trim | by eapply infix_split_nth_1].
Qed.

(** ** Well-formed texts

    What the escaping needs of UTF-8: no continuation byte follows an ASCII
    character. *)

Fixpoint ascii_closed (s : string) : Prop :=
  match s with
  | "" => True
  | String c s' => (ord c < 128 -> cont_head s' = false) /\ ascii_closed s'
  end.

Lemma ascii_closed_infix p s : infix_of p s -> ascii_closed s -> ascii_closed p.
Proof.
  intros (a & b & ->). induction a as [|c a IH]; simpl; [|naive_solver].
  induction p as [|c p IH]; simpl; [done|]. intros [H1 H2]. split; [|by apply IH].
  intros Hc. specialize (H1 Hc). by destruct p.
Qed.

Lemma utf8_valid_head l : utf8_valid l = true -> head l ≫= (fun z => if cont z then Some tt else None) = None.
Proof.
  destruct l as [|a l]; [done|]. cbn [utf8_valid head mbind option_bind].
  destruct (cont a) eqn:Hc; [|done]. unfold cont, in_range in Hc. bool_to_prop.
  unfold in_range at 1. destruct (Z.leb_spec 0 a), (Z.leb_spec a 127); simpl; try lia.
  destruct l as [|b l]; [done|]. unfold in_range at 1. destruct (Z.leb_spec 194 a); simpl; [lia|].
  destruct l as [|c l]; [done|].
  destruct (Z.eqb_spec a 224); [lia|]. destruct (Z.eqb_spec a 237); [lia|]. unfold in_range at 1.
  destruct (Z.leb_spec 225 a); simpl; [lia|].
  destruct l as [|d l]; [done|]. destruct (Z.eqb_spec a 240); [lia|]. destruct (Z.eqb_spec a 244); [lia|].
  unfold in_range at 1. destruct (Z.leb_spec 241 a); simpl; [lia|done].
Qed.

(** A character of two to four bytes, in front of a valid rest. *)
Lemma utf8_valid_step a l :
  utf8_valid (a :: l) = true ->
  (in_range 0 127 a = true /\ utf8_valid l = true) \/
  (in_range 0 127 a = false /\ exists bs rest, l = bs ++ rest /\ bs <> [] /\
     Forall (fun z => cont z = true) bs /\ utf8_valid rest = true).
Proof.
  cbn [utf8_valid]. destruct (in_range 0 127 a); [by left|]. intros H. right. split; [done|].
  assert (forall lo hi z, 128 <= lo -> hi <= 191 -> in_range lo hi z = true -> cont z = true) as Hr.
  { unfold cont, in_range. intros *. rewrite !andb_true_iff, !Z.leb_le. lia. }
  destruct l as [|b l]; [done|]. destruct (in_range 194 223 a).
  { apply andb_true_iff in H as [Hb Hl]. exists [b], l. split_and!; [done..| |done]. by repeat constructor. }
  destruct l as [|c l]; [done|].
  assert (forall x, x && cont c && utf8_valid l = true -> (x = true -> cont b = true) ->
    exists bs rest, b :: c :: l = bs ++ rest /\ bs <> [] /\ Forall (fun z => cont z = true) bs /\
      utf8_valid rest = true) as H2.
  { intros x Hx Hb. apply andb_true_iff in Hx as [[Hx Hc]%andb_true_iff Hl].
    exists [b; c], l. split_and!; [done..| |done]. repeat constructor; auto. }
  destruct (a =? 224); [eapply H2; [done|]; apply Hr; lia|].
  destruct (a =? 237); [eapply H2; [done|]; apply Hr; lia|].
  destruct (in_range 225 239 a); [by eapply H2|].
  destruct l as [|d l]; [done|].
  assert (forall x, x && cont c && cont d && utf8_valid l = true -> (x = true -> cont b = true) ->
    exists bs rest, b :: c :: d :: l = bs ++ rest /\ bs <> [] /\ Forall (fun z => cont z = true) bs /\
      utf8_valid rest = true) as H3.
  { intros x Hx Hb. apply andb_true_iff in Hx as [[[Hx Hc]%andb_true_iff Hd]%andb_true_iff Hl].
    exists [b; c; d], l. split_and!; [done..| |done]. repeat constructor; auto. }
  destruct (a =? 240); [eapply H3; [done|]; apply Hr; lia|].
  destruct (a =? 244); [eapply H3; [done|]; apply Hr; lia|].
  destruct (in_range 241 243 a); [by eapply H3|done].
Qed.

Lemma ascii_closed_utf8 s : utf8_valid (as_bytes s) = true -> ascii_closed s.
Proof.
  remember (String.length s) as n eqn:Hn. revert s Hn.
  induction n as [n IH] using lt_wf_ind. intros [|c s] Hn Hv; [done|]. simpl in Hn.
  cbn [as_bytes] in Hv. apply utf8_valid_step in Hv as [[Ha Hv]|(Ha & bs & rest & Hl & Hne & Hb & Hv)].
  - split; [|eapply IH; [|done|done]; lia]. intros _. apply utf8_valid_head in Hv.
    destruct s as [|d s]; [done|]. cbn in Hv |- *. by destruct (cont (ord d)).
  - split. { intros Hc. unfold in_range in Ha. pose proof (ord_bound c) as [? _]. bool_to_prop. lia. }
    clear Hne. assert (String.length s < n)%nat as Hs by lia. clear Hn Ha. revert s Hl Hs.
    induction Hb as [|b bs Hb _ IHb]; intros s Hl Hs.
    { eapply IH; [exact Hs | done |]. by rewrite Hl. }
    destruct s as [|d s]; [done|]. cbn [as_bytes app] in Hl. injection Hl as Hd Hl. simpl in Hs.
    split; [|apply IHb; [done|lia]]. intros Hc. rewrite Hd in Hc. unfold cont, in_range in Hb.
    bool_to_prop. lia.
Qed.

(** ** Characters *)

Definition high (s : string) : bool := all_chars (fun c => 128 <=? ord c) s.
(** An ASCII character, or a sequence of other bytes. *)
Definition char_ok (g : string) : Prop := (exists c, g = chr_string c /\ ord c < 128) \/ high g = true.

Lemma chars_concat s : foldr String.append "" (chars s) = s.
Proof.
  induction s as [|c s IH]; [done|]. cbn [chars]. destruct (chars s) as [|g gs]; simpl in *.
  - by rewrite <- IH.
  - destruct (cont_head g); simpl; by rewrite <- IH.
Qed.
Lemma chars_head s g gs : chars s = g :: gs -> cont_head g = cont_head s /\ g <> "".
Proof.
  destruct s as [|c s]; [done|]. cbn [chars]. destruct (chars s) as [|g' gs']; [by intros [= <- <-]|].
  destruct (cont_head g'); by intros [= <- <-].
Qed.

Lemma chars_ok s : ascii_closed s -> Forall char_ok (chars s).
Proof.
  assert (forall c, ord c < 128 \/ (128 <=? ord c) = true) as Hd.
  { intros c. destruct (Z.leb_spec 128 (ord c)); auto. }
  assert (forall c, char_ok (chr_string c)) as Hone.
  { intros c. destruct (Hd c) as [H|H]; [left; eauto|]. right. unfold high. cbn. by rewrite H. }
  induction s as [|c s IH]; [constructor|]. intros [Hc Hs]. specialize (IH Hs). cbn [chars].
  destruct (chars s) as [|g gs] eqn:E; [constructor; [apply Hone | done]|].
  destruct (chars_head _ _ _ E) as [Hh _]. apply Forall_cons in IH as [Hg Hgs].
  destruct (cont_head g) eqn:Eg; [|constructor; [apply Hone | by constructor]].
  constructor; [|done]. right. unfold high. cbn [all_chars].
  destruct (Hd c) as [H|H]; [rewrite (Hc H) in Hh; discriminate Hh|]. rewrite H. cbn.
  destruct Hg as [(d & -> & Hlt)|Hg]; [|exact Hg]. exfalso. cbn in Eg. unfold cont, in_range in Eg.
  bool_to_prop. lia.
Qed.

Section Literals.
Context {UW : UnicodeWidth}.

Lemma high_not c s : high (String c s) = true -> forall d, ord d < 128 -> Ascii.eqb c d = false.
Proof.
  unfold high. cbn [all_chars]. intros [Hc _]%andb_true_iff d Hd. bool_to_prop.
  apply Ascii.eqb_neq. intros ->. lia.
Qed.

Lemma literal_high g t : high g = true -> literal_body (g +:+ t) =
  (fun r => (g +:+ r.1, r.2)) <$> literal_body t.
Proof.
  induction g as [|c g IH]; intros Hg; cbn [String.append].
  { by destruct (literal_body t) as [[]|]. }
  cbn [literal_body]. rewrite !(high_not _ _ Hg) by (vm_compute; reflexivity).
  unfold high in *. cbn [all_chars] in Hg. apply andb_true_iff in Hg as [_ Hg]. rewrite IH by done.
  by destruct (literal_body t) as [[]|].
Qed.

Lemma literal_char g t : char_ok g -> visible g = true ->
  literal_body (escape_char g +:+ t) = (fun r => (g +:+ r.1, r.2)) <$> literal_body t.
Proof.
  intros [(c & -> & Hc)|Hg] Hv.
  - unfold escape_char, chr_string. cbn [String.eqb].
    destruct (Ascii.eqb_spec c backslash) as [->|Hb]; [cbn; by destruct (literal_body t) as [[]|]|].
    destruct (Ascii.eqb_spec c dquote) as [->|Hq]; [cbn; by destruct (literal_body t) as [[]|]|].
    destruct (Ascii.eqb_spec c newline) as [->|Hn]; [cbn; by destruct (literal_body t) as [[]|]|].
    destruct (Ascii.eqb_spec c "013") as [->|Hr]; [cbn; by destruct (literal_body t) as [[]|]|].
    destruct (Ascii.eqb_spec c "009") as [->|Ht]; [cbn; by destruct (literal_body t) as [[]|]|].
    cbn [String.append literal_body]. rewrite (proj2 (Ascii.eqb_neq _ _) Hq),
      (proj2 (Ascii.eqb_neq _ _) Hb), (proj2 (Ascii.eqb_neq _ _) Hr).
    by destruct (literal_body t) as [[]|].
  - assert (escape_char g = g) as ->; [|by apply literal_high].
    unfold escape_char, chr_string. destruct g as [|c g]; [done|]. cbn [String.eqb].
    by rewrite !(high_not _ _ Hg) by (vm_compute; reflexivity).
Qed.

(** The literal of a text denotes its visible characters. *)
Lemma read_escaped s : ascii_closed s -> read_literal (escape_rust_str s) = Some (visible_text s).
Proof.
  intros Hs%chars_ok. unfold read_literal, escape_rust_str, visible_text. rewrite Ascii.eqb_refl.
  enough (forall gs, Forall char_ok gs ->
    literal_body (foldr (fun g out => (if visible g then escape_char g else "") +:+ out)
      (chr_string dquote) gs) = Some (foldr (fun g out => (if visible g then g else "") +:+ out) "" gs, ""))
    as -> by done.
  clear s Hs. induction 1 as [|g gs Hg _ IH]; [done|]. cbn [foldr].
  destruct (visible g) eqn:Hv; [|exact IH]. by rewrite literal_char, IH.
Qed.

Lemma visible_text_id s : Forall (fun g => visible g = true) (chars s) -> visible_text s = s.
Proof.
  intros H. transitivity (foldr String.append "" (chars s)); [|apply chars_concat].
  unfold visible_text. induction H as [|g gs Hg _ IH]; [done|]. cbn. by rewrite Hg, IH.
Qed.

Lemma entry_closed lines k name :
  Forall (fun l => utf8_valid (as_bytes l) = true) (omap id lines) ->
  last_entry k lines = Some name -> ascii_closed name.
Proof.
  intros Hv Hl. unfold last_entry in Hl. apply fmap_Some in Hl as ([k' n] & Hl%last_Some_elem_of & ->).
  apply list_elem_of_filter in Hl as [_ Hl]. unfold entries_of in Hl.
  apply list_elem_of_omap in Hl as ([line|] & Hin & Hp); [|done]. cbn in Hp.
  eapply ascii_closed_infix; [by eapply infix_parse_oui_line|].
  apply ascii_closed_utf8. rewrite Forall_forall in Hv. apply Hv.
  apply list_elem_of_omap. by exists (Some line).
Qed.
End Literals.

(** * Properties *)

(** C35: from the vendored list to the vendor of an address.  When the
    compiled table holds, under the keys of the generated file, what its
    string literals denote, the vendor of an address is the name on the last
    line of the list for its first three octets, without the characters
    that cannot be seen; quotes and backslashes of a name survive the
    literal; nothing but those octets matters. *)
Theorem vendor_of_listed {UW : UnicodeWidth} {OT : Oui} (lines : list (option string))
  (a b : MacAddress) :
  Forall (fun l => utf8_valid (as_bytes l) = true) (omap id lines) ->
  (forall k, OUI_MAP k = literals (parse_oui_file lines) !! k ≫= read_literal) ->
  octets_ok a -> octets_ok b ->
  lookup_vendor a = visible_text <$> last_entry (65536 * mac0 a + 256 * mac1 a + mac2 a) lines /\
  (forall name, last_entry (65536 * mac0 a + 256 * mac1 a + mac2 a) lines = Some name ->
     Forall (fun g => visible g = true) (chars name) -> lookup_vendor a = Some name) /\
  (same_oui a b -> lookup_vendor a = lookup_vendor b).
Proof.
  intros Hv Ht Ha Hb.
  assert (forall m, octets_ok m ->
    lookup_vendor m = visible_text <$> last_entry (oui_of m) lines) as H.
  { intros m Hm. unfold lookup_vendor. rewrite Ht. unfold literals.
    rewrite lookup_fmap, parse_oui_file_last. destruct (last_entry _ lines) as [name|] eqn:E; [|done].
    cbn. by apply read_escaped, (entry_closed lines (oui_of m)). }
  rewrite <- oui_of_bytes by done. split_and!.
  - by apply H.
  - intros name Hn Hvis. rewrite H, Hn by done. cbn. by rewrite visible_text_id.
  - intros Hs%oui_of_inj; [|done|done]. by rewrite !H, Hs by done.
Qed.

(** * Witnesses *)

(** A zero-width space in the middle of a name, and quotes in another. *)
#[local] Instance demo_width : UnicodeWidth :=
  {| zero_width g := bool_decide (g = string_of_bytes [226; 128; 139]) |}.
Definition demo_lines : list (option string) :=
  [Some ("286FB9     (base 16)            Nokia" +:+ string_of_bytes [226; 128; 139] +:+ " Bell");
   None;
   Some ("B827EB     (base 16)            The " +:+ chr_string dquote +:+ "Pi" +:+ chr_string dquote +:+
         " Foundation")].
#[local] Instance demo_table : Oui :=
  {| OUI_MAP k := literals (parse_oui_file demo_lines) !! k ≫= read_literal |}.

Lemma vendor_of_listed_witness :
  lookup_vendor (mkMac 40 111 185 1 2 3) = Some "Nokia Bell" /\
  lookup_vendor (mkMac 184 39 235 1 2 3) =
    Some ("The " +:+ chr_string dquote +:+ "Pi" +:+ chr_string dquote +:+ " Foundation").
Proof.
  assert (Forall (fun l => utf8_valid (as_bytes l) = true) (omap id demo_lines)) as Hv
    by (repeat constructor).
  assert (octets_ok (mkMac 40 111 185 1 2 3) /\ octets_ok (mkMac 184 39 235 1 2 3)) as [Ha Hb]
    by (unfold octets_ok, in_u8, u8_max; simpl; lia).
  assert (forall k, OUI_MAP k = literals (parse_oui_file demo_lines) !! k ≫= read_literal) as Ht by done.
  destruct (vendor_of_listed demo_lines _ _ Hv Ht Ha Hb) as (H1 & _ & _).
  destruct (vendor_of_listed demo_lines _ _ Hv Ht Hb Ha) as (_ & H2 & _).
  split.
  - rewrite H1. vm_compute. reflexivity.
  - apply H2; [vm_compute; reflexivity|]. repeat constructor.
Defined.
