(* ===== verification/Discovery.v ===== *)
(** The discovery engine, [crates/discovery/src/discovery.rs]: the packet
    pipeline (decode, classify, extract names, update the source and the
    destination device, emit events), over any device store and any event
    channel that keep their promises. *)

From S2P Require Import Prelude Text Types Reference Packet Classify Dhcp Mdns Oui Stores.

(** * Events *)

Inductive DiscoveryEvent : Type :=
| DeviceDiscovered (d : Device.t)
| DeviceUpdated (d : Device.t)
| DeviceOffline (d : Device.t).
#[global] Instance DiscoveryEvent_eq_dec : EqDecision DiscoveryEvent.
Proof. solve_decision. Defined.

(** The readings of [Timestamp::now()] while one packet is processed: the
    shared packet time, and the ones inside [Device::new] for a new source
    and a new destination. *)
Record Clock : Type := mkClock { now : Timestamp; new_src : Timestamp; new_dst : Timestamp }.

(** What the payload parsers found. *)
Record Names : Type := mkNames {
  dhcp_hostname : option string;
  dhcp_class : option string;
  mdns_name : option string
}.
Definition no_names : Names := mkNames None None None.

Section Engine.
Context {S : Type} {PN : Pnet} {OU : Oui} {DS : DeviceStore S} {MP : Mpsc DiscoveryEvent}.

(** The engine's fields: the store and the sender of the event channel. *)
Record engine : Type := mkEngine { store : S; event_tx : chan DiscoveryEvent }.

Definition emit (e : engine) (ev : DiscoveryEvent) : engine :=
  mkEngine (store e) (try_send (event_tx e) ev).1.

Definition emit_offline_event (e : engine) (d : Device.t) : engine :=
  emit e (DeviceOffline d).

(** [Device::new] and its vendor, for an address seen for the first time. *)
Definition fresh_device (m : MacAddress) (t : Timestamp) : Device.t :=
  let d := Device.new m t in
  match lookup_vendor m with
  | Some vendor => Device.set_vendor (Some vendor) d
  | None => d
  end.

(** [if let Some(x) = new && field.is_none()]: a field is only filled once. *)
Definition fill (new old : option string) : option string :=
  match new, old with
  | Some x, None => Some x
  | _, _ => old
  end.

Definition add_ips (ip : option Ipv4Header) (d : Device.t) : Device.t :=
  match ip with
  | Some h => Device.add_ip (Device.add_ip d (ip_source h)) (ip_destination h)
  | None => d
  end.
Definition add_ips_dst (ip : option Ipv4Header) (d : Device.t) : Device.t :=
  match ip with
  | Some h => Device.add_ip (Device.add_ip d (ip_destination h)) (ip_source h)
  | None => d
  end.

(** The mutations of the source device, in order. *)
Definition touch_src (packet : DecodedPacket) (p : Protocol) (n : Names) (t : Timestamp)
  (d : Device.t) : Device.t :=
  let d := Device.record_sent d (Z.of_nat (length (raw (dp_raw packet)))) p t in
  let d := Device.set_hostname (fill (dhcp_hostname n) (Device.hostname d)) d in
  let d := Device.set_hostname (fill (mdns_name n) (Device.hostname d)) d in
  let d := Device.set_dhcp_vendor_class (fill (dhcp_class n) (Device.dhcp_vendor_class d)) d in
  add_ips (ipv4 packet) d.

Definition touch_dst (packet : DecodedPacket) (p : Protocol) (t : Timestamp)
  (d : Device.t) : Device.t :=
  let d := Device.record_received d (Z.of_nat (length (raw (dp_raw packet)))) p t in
  add_ips_dst (ipv4 packet) d.

(** The comparisons that decide whether an update is worth an event. *)
Definition changed_src (before after : Device.t) : bool :=
  bool_decide (Device.protocols after <> Device.protocols before) ||
  bool_decide (Device.hostname after <> Device.hostname before) ||
  bool_decide (Device.dhcp_vendor_class after <> Device.dhcp_vendor_class before) ||
  negb (size (Device.ips after) =? size (Device.ips before))%nat.
Definition changed_dst (before after : Device.t) : bool :=
  bool_decide (Device.protocols after <> Device.protocols before) ||
  negb (size (Device.ips after) =? size (Device.ips before))%nat.

(** One of the two blocks of [update_devices]: read or create, mutate, write
    back, emit. *)
Definition update_one (e : engine) (m : MacAddress) (t_new : Timestamp)
  (touch : Device.t -> Device.t) (changed : Device.t -> Device.t -> bool)
  : engine * result unit StorageError :=
  match ds_get (store e) m with
  | Err err => (e, Err err)
  | Ok found =>
      let before := match found with Some d => d | None => fresh_device m t_new end in
      let after := touch before in
      let (s', r) := ds_upsert (store e) after in
      let e' := mkEngine s' (event_tx e) in
      match r with
      | Err err => (e', Err err)
      | Ok _ =>
          (match found with
           | None => emit e' (DeviceDiscovered after)
           | Some _ => if changed before after then emit e' (DeviceUpdated after) else e'
           end, Ok tt)
      end
  end.

Definition update_devices (e : engine) (packet : DecodedPacket) (p : Protocol) (n : Names)
  (c : Clock) : engine * result unit StorageError :=
  let src := eth_source (ethernet packet) in
  let dst := eth_destination (ethernet packet) in
  match update_one e src (new_src c) (touch_src packet p n (now c)) changed_src with
  | (e1, Err err) => (e1, Err err)
  | (e1, Ok _) =>
      if bool_decide (src = dst) then (e1, Ok tt)
      else update_one e1 dst (new_dst c) (touch_dst packet p (now c)) changed_dst
  end.

(** Steps 2b and 2c: what the DHCP and mDNS parsers contribute. *)
Definition extract_names (packet : DecodedPacket) (p : Protocol) : exec Names :=
  run! dhcp :=
    (if bool_decide (p = Dhcp) then parse_dhcp (payload packet) else Done None) in
  run! mdns :=
    (if bool_decide (p = Mdns) then parse_mdns (payload packet) else Done None) in
  Done (mkNames (dhcp ≫= hostname) (dhcp ≫= vendor_class) (mdns ≫= mdns_hostname)).

(** [process_packet]: a decode error drops the packet, a store error is
    logged. *)
Definition process_packet (e : engine) (buf : PacketBuf) (c : Clock) : exec engine :=
  run! r := decode_packet buf in
  match r with
  | Err _ => Done e
  | Ok decoded =>
      run! p := classify decoded in
      run! n := extract_names decoded p in
      Done (update_devices e decoded p n c).1
  end.
End Engine.
Arguments engine S {_}.

(** * What the engine does to the abstract inventory *)

Section Specification.
Context {S : Type} {PN : Pnet} {OU : Oui} {DS : DeviceStore S} {MP : Mpsc DiscoveryEvent}.

(** The device a block starts from. *)
Definition known_or_fresh (m : gmap MacAddress Device.t) (k : MacAddress) (t : Timestamp)
  : Device.t := match m !! k with Some d => d | None => fresh_device k t end.
(** The event a block offers to the channel. *)
Definition offered (m : gmap MacAddress Device.t) (k : MacAddress) (t : Timestamp)
  (touch : Device.t -> Device.t) (changed : Device.t -> Device.t -> bool)
  : option DiscoveryEvent :=
  let before := known_or_fresh m k t in
  match m !! k with
  | None => Some (DeviceDiscovered (touch before))
  | Some _ => if changed before (touch before) then Some (DeviceUpdated (touch before)) else None
  end.
Definition offer (e : engine S) (ev : option DiscoveryEvent) : engine S :=
  match ev with Some ev => emit e ev | None => e end.
(** Mutations that keep the address keep the store keyed. *)
Definition keeps_mac (touch : Device.t -> Device.t) : Prop :=
  forall d, Device.mac (touch d) = Device.mac d.
Definition src_of (packet : DecodedPacket) : MacAddress := eth_source (ethernet packet).
Definition dst_of (packet : DecodedPacket) : MacAddress := eth_destination (ethernet packet).
(** The store after [update_devices]. *)
Definition updated_map (m : gmap MacAddress Device.t) (packet : DecodedPacket) (p : Protocol)
  (n : Names) (c : Clock) : gmap MacAddress Device.t :=
  let m1 := <[src_of packet :=
               touch_src packet p n (now c) (known_or_fresh m (src_of packet) (new_src c))]> m in
  if bool_decide (src_of packet = dst_of packet) then m1
  else <[dst_of packet :=
          touch_dst packet p (now c) (known_or_fresh m (dst_of packet) (new_dst c))]> m1.
(** The events it offers: at most one per device. *)
Definition offered_events (m : gmap MacAddress Device.t) (packet : DecodedPacket) (p : Protocol)
  (n : Names) (c : Clock) : list DiscoveryEvent :=
  option_list (offered m (src_of packet) (new_src c) (touch_src packet p n (now c)) changed_src) ++
  if bool_decide (src_of packet = dst_of packet) then []
  else option_list (offered m (dst_of packet) (new_dst c) (touch_dst packet p (now c)) changed_dst).
Definition send_all (c : chan DiscoveryEvent) (evs : list DiscoveryEvent) : chan DiscoveryEvent :=
  foldl (fun c ev => (try_send c ev).1) c evs.

(** The engine over a stream of packets. *)
Fixpoint process_all (e : engine S) (l : list (PacketBuf * Clock)) : exec (engine S) :=
  match l with
  | [] => Done e
  | (buf, c) :: l' => run! e' := process_packet e buf c in process_all e' l'
  end.
End Specification.

(** How a record may change: identity and first facts are kept, sets and
    counters only grow. *)
Definition kept (old new : option string) : Prop := old = None \/ new = old.
Definition evolves (a b : Device.t) : Prop :=
  Device.mac b = Device.mac a /\ Device.first_seen b = Device.first_seen a /\
  Device.vendor b = Device.vendor a /\
  kept (Device.hostname a) (Device.hostname b) /\
  kept (Device.dhcp_vendor_class a) (Device.dhcp_vendor_class b) /\
  Device.ips a ⊆ Device.ips b /\ Device.protocols a ⊆ Device.protocols b /\
  Device.packet_count a <= Device.packet_count b /\
  Device.bytes_sent a <= Device.bytes_sent b /\
  Device.bytes_received a <= Device.bytes_received b.
Definition inventory_ok (m : gmap MacAddress Device.t) : Prop :=
  keyed m /\ map_Forall (fun _ d => Device.wf d) m.
Definition inventory_grows (m m' : gmap MacAddress Device.t) : Prop :=
  forall k d, m !! k = Some d -> exists d', m' !! k = Some d' /\ evolves d d'.
Definition packet_ips (packet : DecodedPacket) : gset IpAddr :=
  match ipv4 packet with Some h => {[ip_source h; ip_destination h]} | None => ∅ end.

(** A concrete engine: [MemoryStore], a queue of eight events, no vendors. *)
Definition demo_oui : Oui := {| OUI_MAP := fun _ => None |}.
Definition demo_store : DeviceStore MemoryStore.t := @memory_device_store ref_mac_text.
Definition demo_laws : @DeviceStoreLaws MemoryStore.t demo_store ref_mac_text :=
  @memory_device_store_laws ref_mac_text.
Definition demo_engine : @engine MemoryStore.t (queue_mpsc DiscoveryEvent) :=
  @mkEngine MemoryStore.t (queue_mpsc DiscoveryEvent) MemoryStore.new ([], 8%nat).
Definition demo_process := @process_packet MemoryStore.t wire_pnet demo_oui demo_store
  (queue_mpsc DiscoveryEvent).
Definition demo_packet : PacketBuf := mkPacketBuf tcp_syn_frame 14.
Definition demo_src : MacAddress := mkMac 0 17 34 51 68 85.
Definition demo_dst : MacAddress := mkMac 170 187 204 221 238 255.
(** The same frame as an ARP one, and with an IHL of 15 words. *)
Definition demo_arp : PacketBuf := mkPacketBuf (<[13%nat := 6]> tcp_syn_frame) 14.
Definition demo_overrun : PacketBuf := mkPacketBuf (take 40 (<[14%nat := 79]> tcp_syn_frame)) 14.

(** * Lemmas *)

Lemma fill_keeps new old x : old = Some x -> fill new old = Some x.
Proof. intros ->. by destruct new. Qed.

Lemma fill_idemp new old : fill new (fill new old) = fill new old.
Proof. by destruct new, old. Qed.

Section EngineFacts.
Context {S : Type} {PN : Pnet} {OU : Oui} {DS : DeviceStore S} {MP : Mpsc DiscoveryEvent}.
Context {MT : MacText} {DSL : DeviceStoreLaws S} {MPL : MpscLaws DiscoveryEvent}.
Implicit Types e : engine S.

Lemma fresh_device_mac m t : Device.mac (fresh_device m t) = m.
Proof. unfold fresh_device. by case_match. Qed.

Lemma fresh_device_wf m t : Device.wf (fresh_device m t).
Proof.
  pose proof (DeviceFacts.wf_new m t) as H. unfold fresh_device. case_match; [|done].
  exact H.
Qed.

Lemma known_or_fresh_mac m k t : keyed m -> Device.mac (known_or_fresh m k t) = k.
Proof.
  intros Hk. unfold known_or_fresh. destruct (m !! k) as [d|] eqn:E.
  - by apply Hk in E.
  - apply fresh_device_mac.
Qed.

Lemma touch_src_mac packet p n t : keeps_mac (touch_src packet p n t).
Proof. intros d. unfold touch_src, add_ips. by case_match. Qed.
Lemma touch_dst_mac packet p t : keeps_mac (touch_dst packet p t).
Proof. intros d. unfold touch_dst, add_ips_dst. by case_match. Qed.

(** A block, in terms of the abstract store. *)
Lemma update_one_spec e k t touch changed :
  keyed (ds_map (store e)) -> keeps_mac touch ->
  let (e', r) := update_one e k t touch changed in
  r = Ok tt /\
  ds_map (store e') =
    <[k := touch (known_or_fresh (ds_map (store e)) k t)]> (ds_map (store e)) /\
  event_tx e' = event_tx (offer e (offered (ds_map (store e)) k t touch changed)).
Proof.
  intros Hk Ht. unfold update_one. rewrite ds_get_spec.
  set (before := match ds_map (store e) !! k with Some d => d | None => _ end).
  assert (before = known_or_fresh (ds_map (store e)) k t) as Hb by done.
  assert (Device.mac (touch before) = k) as Hm
    by (rewrite Ht, Hb; by apply known_or_fresh_mac).
  pose proof (ds_upsert_ok (store e) (touch before)) as Hok.
  pose proof (ds_upsert_map (store e) (touch before)) as Hmap. rewrite Hm in Hmap.
  destruct (ds_upsert (store e) (touch before)) as [s' r]. simpl in Hok, Hmap. subst r.
  unfold offered. rewrite <- Hb. destruct (ds_map (store e) !! k) as [d|]; simpl.
  - destruct (changed before (touch before)); simpl; auto.
  - auto.
Qed.

Lemma keyed_update m k t touch :
  keyed m -> keeps_mac touch -> keyed (<[k := touch (known_or_fresh m k t)]> m).
Proof.
  intros Hk Ht. apply map_Forall_insert_2; [|done]. rewrite Ht. by apply known_or_fresh_mac.
Qed.

Lemma event_tx_offer e ev : event_tx (offer e ev) = send_all (event_tx e) (option_list ev).
Proof. by destruct ev. Qed.

Lemma known_or_fresh_ne m k k' t d :
  k <> k' -> known_or_fresh (<[k' := d]> m) k t = known_or_fresh m k t.
Proof. intros H. unfold known_or_fresh. by rewrite lookup_insert_ne. Qed.

Lemma update_devices_spec e packet p n c :
  keyed (ds_map (store e)) ->
  let (e', r) := update_devices e packet p n c in
  r = Ok tt /\
  ds_map (store e') = updated_map (ds_map (store e)) packet p n c /\
  event_tx e' = send_all (event_tx e) (offered_events (ds_map (store e)) packet p n c).
Proof.
  intros Hk. unfold update_devices, updated_map, offered_events. fold (src_of packet) (dst_of packet).
  pose proof (update_one_spec e (src_of packet) (new_src c) (touch_src packet p n (now c))
    changed_src Hk (touch_src_mac _ _ _ _)) as H1.
  destruct (update_one e (src_of packet) _ _ _) as [e1 r1]. destruct H1 as (-> & Hm1 & Ht1).
  pose proof (keyed_update _ (src_of packet) (new_src c) _ Hk (touch_src_mac packet p n (now c))) as Hk1.
  rewrite <- Hm1 in Hk1. rewrite event_tx_offer in Ht1.
  case_bool_decide as Heq; [by rewrite app_nil_r|].
  pose proof (update_one_spec e1 (dst_of packet) (new_dst c) (touch_dst packet p (now c))
    changed_dst Hk1 (touch_dst_mac _ _ _)) as H2.
  destruct (update_one e1 (dst_of packet) _ _ _) as [e2 r2]. destruct H2 as (-> & Hm2 & Ht2).
  rewrite event_tx_offer, Ht1 in Ht2.
  assert (known_or_fresh (ds_map (store e1)) (dst_of packet) (new_dst c) =
          known_or_fresh (ds_map (store e)) (dst_of packet) (new_dst c)) as Hkf
    by (rewrite Hm1; apply known_or_fresh_ne; done).
  split_and!; [done| |].
  - by rewrite Hm2, Hm1, <- Hkf, Hm1.
  - rewrite Ht2. unfold send_all. rewrite foldl_app. f_equal. f_equal.
    unfold offered. rewrite Hkf, Hm1, lookup_insert_ne by done. done.
Qed.
End EngineFacts.

(** ** Records only grow *)

Lemma evolves_refl d : evolves d d.
Proof. unfold evolves, kept. split_and!; auto; lia. Qed.

Lemma kept_trans a b c : kept a b -> kept b c -> kept a c.
Proof. unfold kept. intros [->| ->] [->| ->]; auto. Qed.

Lemma evolves_trans a b c : evolves a b -> evolves b c -> evolves a c.
Proof.
  unfold evolves. intros (? & ? & ? & ? & ? & ? & ? & ? & ? & ?) (? & ? & ? & ? & ? & ? & ? & ? & ? & ?).
  split_and!; try congruence; try lia; eauto using kept_trans; set_solver.
Qed.

Lemma kept_fill new old : kept old (fill new old).
Proof. unfold kept. destruct new, old; auto. Qed.

#[export] Hint Resolve evolves_refl kept_fill : rust.

(** The fields [touch_src] and [touch_dst] leave behind. *)
Lemma touch_src_fields packet p n t d :
  let d' := touch_src packet p n t d in
  let len := Z.of_nat (length (raw (dp_raw packet))) in
  Device.ips d' = packet_ips packet ∪ Device.ips d /\
  Device.protocols d' = {[p]} ∪ Device.protocols d /\
  Device.hostname d' = fill (mdns_name n) (fill (dhcp_hostname n) (Device.hostname d)) /\
  Device.dhcp_vendor_class d' = fill (dhcp_class n) (Device.dhcp_vendor_class d) /\
  Device.packet_count d' = saturating_add_u64 (Device.packet_count d) 1 /\
  Device.bytes_sent d' = saturating_add_u64 (Device.bytes_sent d) len /\
  Device.bytes_received d' = Device.bytes_received d /\
  Device.first_seen d' = Device.first_seen d /\ Device.vendor d' = Device.vendor d /\
  Device.protocol_stats d' = Device.bump (Device.protocol_stats d) p /\ Device.last_seen d' = t.
Proof.
  unfold touch_src, add_ips, packet_ips. destruct (ipv4 packet) as [h|]; simpl; split_and!; auto; set_solver.
Qed.

Lemma touch_dst_fields packet p t d :
  let d' := touch_dst packet p t d in
  let len := Z.of_nat (length (raw (dp_raw packet))) in
  Device.ips d' = packet_ips packet ∪ Device.ips d /\
  Device.protocols d' = {[p]} ∪ Device.protocols d /\
  Device.hostname d' = Device.hostname d /\
  Device.dhcp_vendor_class d' = Device.dhcp_vendor_class d /\
  Device.packet_count d' = saturating_add_u64 (Device.packet_count d) 1 /\
  Device.bytes_sent d' = Device.bytes_sent d /\
  Device.bytes_received d' = saturating_add_u64 (Device.bytes_received d) len /\
  Device.first_seen d' = Device.first_seen d /\ Device.vendor d' = Device.vendor d /\
  Device.protocol_stats d' = Device.bump (Device.protocol_stats d) p /\ Device.last_seen d' = t.
Proof.
  unfold touch_dst, add_ips_dst, packet_ips. destruct (ipv4 packet) as [h|]; simpl; split_and!; auto; set_solver.
Qed.

Lemma touch_src_wf packet p n t d : Device.wf d -> Device.wf (touch_src packet p n t d).
Proof.
  intros Hd. pose proof (DeviceFacts.apply_wf d
    (Device.Sent (Z.of_nat (length (raw (dp_raw packet)))) p t) ltac:(simpl; lia) Hd) as Hw.
  unfold touch_src, add_ips. case_match; exact Hw.
Qed.

Lemma touch_dst_wf packet p t d : Device.wf d -> Device.wf (touch_dst packet p t d).
Proof.
  intros Hd. pose proof (DeviceFacts.apply_wf d
    (Device.Received (Z.of_nat (length (raw (dp_raw packet)))) p t) ltac:(simpl; lia) Hd) as Hw.
  unfold touch_dst, add_ips_dst. case_match; exact Hw.
Qed.

Lemma touch_src_evolves packet p n t d : Device.wf d -> evolves d (touch_src packet p n t d).
Proof.
  intros (H1 & H2 & _). pose proof (touch_src_mac packet p n t d) as Hm.
  unfold evolves. rewrite Hm.
  destruct (touch_src_fields packet p n t d) as (-> & -> & -> & -> & -> & -> & -> & -> & -> & _).
  split_and!; auto with rust; try set_solver; try (apply saturating_add_u64_ge; auto; lia); try lia.
  eapply kept_trans; apply kept_fill.
Qed.

Lemma touch_dst_evolves packet p t d : Device.wf d -> evolves d (touch_dst packet p t d).
Proof.
  intros (H1 & _ & H3 & _). pose proof (touch_dst_mac packet p t d) as Hm.
  unfold evolves, kept. rewrite Hm.
  destruct (touch_dst_fields packet p t d) as (-> & -> & -> & -> & -> & -> & -> & -> & -> & _).
  split_and!; auto; try set_solver; try (apply saturating_add_u64_ge; auto; lia); lia.
Qed.

(** ** The inventory over a packet and over a stream *)

Section InventoryFacts.
Context {S : Type} {PN : Pnet} {OU : Oui} {DS : DeviceStore S} {MP : Mpsc DiscoveryEvent}.
Context {MT : MacText} {DSL : DeviceStoreLaws S} {MPL : MpscLaws DiscoveryEvent}.
Implicit Types e : engine S.

Lemma inventory_step m k t touch :
  inventory_ok m -> keeps_mac touch ->
  (forall d, Device.wf d -> Device.wf (touch d) /\ evolves d (touch d)) ->
  let m' := <[k := touch (known_or_fresh m k t)]> m in
  inventory_ok m' /\ inventory_grows m m'.
Proof.
  intros [Hk Hw] Hm Ht m'. assert (Device.wf (known_or_fresh m k t)) as Hb.
  { unfold known_or_fresh. destruct (m !! k) eqn:E; [by apply Hw in E | apply fresh_device_wf]. }
  split; [split|].
  - by apply keyed_update.
  - apply map_Forall_insert_2; [apply Ht, Hb | done].
  - intros j d Hj. destruct (decide (j = k)) as [->|Hne].
    + eexists. split; [apply lookup_insert_eq|]. unfold known_or_fresh. rewrite Hj.
      apply Ht. by apply Hw in Hj.
    + exists d. subst m'. split; [by rewrite lookup_insert_ne | apply evolves_refl].
Qed.

Lemma inventory_grows_trans a b c :
  inventory_grows a b -> inventory_grows b c -> inventory_grows a c.
Proof.
  intros H1 H2 k d Hd. apply H1 in Hd as (d' & Hd' & He). apply H2 in Hd' as (d'' & Hd'' & He').
  eauto using evolves_trans.
Qed.

Lemma updated_map_ok m packet p n c :
  inventory_ok m ->
  inventory_ok (updated_map m packet p n c) /\ inventory_grows m (updated_map m packet p n c).
Proof.
  intros Hm. unfold updated_map.
  destruct (inventory_step m (src_of packet) (new_src c) (touch_src packet p n (now c)) Hm)
    as [Hm1 Hg1]; [apply touch_src_mac | eauto using touch_src_wf, touch_src_evolves |].
  case_bool_decide as Heq; [done|].
  destruct (inventory_step _ (dst_of packet) (new_dst c) (touch_dst packet p (now c)) Hm1)
    as [Hm2 Hg2]; [apply touch_dst_mac | eauto using touch_dst_wf, touch_dst_evolves |].
  rewrite known_or_fresh_ne in Hm2, Hg2 by done. eauto using inventory_grows_trans.
Qed.

(** What [process_packet] does when it returns. *)
Lemma process_packet_Done e buf c e' :
  keyed (ds_map (store e)) ->
  process_packet e buf c = Done e' ->
  (exists err, decode_packet buf = Done (Err err) /\ e' = e) \/
  (exists decoded p n, decode_packet buf = Done (Ok decoded) /\ classify decoded = Done p /\
     extract_names decoded p = Done n /\
     ds_map (store e') = updated_map (ds_map (store e)) decoded p n c /\
     event_tx e' = send_all (event_tx e) (offered_events (ds_map (store e)) decoded p n c)).
Proof.
  intros Hk. unfold process_packet.
  destruct (decode_packet buf) as [[decoded|err]| |] eqn:Hd; simpl; try done.
  2: { intros [= <-]. left. eauto. }
  destruct (classify_Done decoded) as [p Hp]. rewrite Hp. simpl.
  destruct (extract_names decoded p) as [n| |] eqn:Hn; simpl; try done.
  intros [= <-]. right. exists decoded, p, n.
  pose proof (update_devices_spec e decoded p n c Hk) as H.
  destruct (update_devices e decoded p n c) as [e' r]. naive_solver.
Qed.

Lemma process_packet_inventory e buf c e' :
  inventory_ok (ds_map (store e)) -> process_packet e buf c = Done e' ->
  inventory_ok (ds_map (store e')) /\ inventory_grows (ds_map (store e)) (ds_map (store e')).
Proof.
  intros Hm Hp. apply process_packet_Done in Hp as [(err & _ & ->)|(d & p & n & _ & _ & _ & -> & _)];
    [|by apply updated_map_ok | apply Hm].
  split; [done|]. intros k d Hd. eauto with rust.
Qed.

Lemma process_all_inventory l e e' :
  inventory_ok (ds_map (store e)) -> process_all e l = Done e' ->
  inventory_ok (ds_map (store e')) /\ inventory_grows (ds_map (store e)) (ds_map (store e')).
Proof.
  revert e. induction l as [|[buf c] l IH]; intros e Hm; simpl.
  { intros [= <-]. split; [done|]. intros k d Hd. eauto with rust. }
  destruct (process_packet e buf c) as [e1| |] eqn:E; simpl; try done. intros Hr.
  apply process_packet_inventory in E as [Hm1 Hg1]; [|done].
  apply IH in Hr as [Hm2 Hg2]; [|done]. eauto using inventory_grows_trans.
Qed.

(** ** No event without news *)

Lemma changed_src_false packet p n t t' d :
  changed_src (touch_src packet p n t d) (touch_src packet p n t' (touch_src packet p n t d)) = false.
Proof.
  destruct (touch_src_fields packet p n t' (touch_src packet p n t d))
    as (Hi' & Hp' & Hh' & Hc' & _).
  destruct (touch_src_fields packet p n t d) as (Hi & Hp & Hh & Hc & _).
  unfold changed_src. rewrite Hi', Hp', Hh', Hc', Hi, Hp, Hh, Hc.
  rewrite !orb_false_iff, negb_false_iff, Nat.eqb_eq. split_and!.
  - apply bool_decide_eq_false_2. intros Hne. apply Hne. set_solver.
  - apply bool_decide_eq_false_2. intros Hne. apply Hne.
    by destruct (mdns_name n), (dhcp_hostname n), (Device.hostname d).
  - apply bool_decide_eq_false_2. intros Hne. apply Hne. apply fill_idemp.
  - f_equal. set_solver.
Qed.

Lemma changed_dst_false packet p t t' d :
  changed_dst (touch_dst packet p t d) (touch_dst packet p t' (touch_dst packet p t d)) = false.
Proof.
  destruct (touch_dst_fields packet p t' (touch_dst packet p t d)) as (Hi' & Hp' & _).
  destruct (touch_dst_fields packet p t d) as (Hi & Hp & _).
  unfold changed_dst. rewrite Hi', Hp', Hi, Hp.
  rewrite !orb_false_iff, negb_false_iff, Nat.eqb_eq. split_and!.
  - apply bool_decide_eq_false_2. intros Hne. apply Hne. set_solver.
  - f_equal. set_solver.
Qed.

Lemma offered_known m k t touch changed d :
  m !! k = Some d ->
  offered m k t touch changed =
    if changed d (touch d) then Some (DeviceUpdated (touch d)) else None.
Proof. intros H. unfold offered, known_or_fresh. by rewrite H. Qed.

Lemma updated_map_src m packet p n c :
  updated_map m packet p n c !! src_of packet =
    Some (touch_src packet p n (now c) (known_or_fresh m (src_of packet) (new_src c))).
Proof.
  unfold updated_map. case_bool_decide; [apply lookup_insert_eq|].
  by rewrite lookup_insert_ne, lookup_insert_eq.
Qed.

Lemma updated_map_dst m packet p n c :
  src_of packet <> dst_of packet ->
  updated_map m packet p n c !! dst_of packet =
    Some (touch_dst packet p (now c) (known_or_fresh m (dst_of packet) (new_dst c))).
Proof. intros H. unfold updated_map. rewrite bool_decide_eq_false_2 by done. apply lookup_insert_eq. Qed.

Lemma updated_map_other m packet p n c k :
  k <> src_of packet -> k <> dst_of packet -> updated_map m packet p n c !! k = m !! k.
Proof. intros H1 H2. unfold updated_map. case_bool_decide; by rewrite !lookup_insert_ne. Qed.

Lemma offered_again m packet p n c c' :
  offered_events (updated_map m packet p n c) packet p n c' = [].
Proof.
  unfold offered_events. rewrite (offered_known _ _ _ _ _ _ (updated_map_src m packet p n c)).
  rewrite changed_src_false. case_bool_decide as Heq; [done|].
  rewrite (offered_known _ _ _ _ _ _ (updated_map_dst m packet p n c Heq)).
  by rewrite changed_dst_false.
Qed.

Lemma send_all_room c evs :
  (length (queued c) + length evs <= capacity c)%nat ->
  queued (send_all c evs) = queued c ++ evs.
Proof.
  revert c. induction evs as [|ev evs IH]; intros c Hr; simpl in Hr; [by rewrite app_nil_r|].
  change (send_all c (ev :: evs)) with (send_all (try_send c ev).1 evs).
  pose proof (try_send_spec c ev) as Hs. pose proof (try_send_room c ev ltac:(lia)) as Hq.
  destruct (try_send c ev) as [c' ok]. simpl in *. destruct Hs as (Hc & _ & _).
  rewrite IH by (rewrite Hq, Hc, length_app; simpl; lia).
  by rewrite Hq, <- app_assoc.
Qed.

Lemma offered_cases m k t touch changed ev :
  offered m k t touch changed = Some ev ->
  (m !! k = None /\ ev = DeviceDiscovered (touch (fresh_device k t))) \/
  (exists d, m !! k = Some d /\ changed d (touch d) = true /\ ev = DeviceUpdated (touch d)).
Proof.
  unfold offered, known_or_fresh. destruct (m !! k) as [d|]; [|naive_solver].
  destruct (changed d (touch d)) eqn:E; naive_solver.
Qed.

(** Every offered event is about a device as it is stored afterwards. *)
Lemma offered_events_cases m packet p n c ev :
  keyed m -> ev ∈ offered_events m packet p n c ->
  exists k d', updated_map m packet p n c !! k = Some d' /\ Device.mac d' = k /\
    ((m !! k = None /\ ev = DeviceDiscovered d') \/
     (exists d, m !! k = Some d /\ ev = DeviceUpdated d' /\
        (changed_src d d' = true \/ changed_dst d d' = true))).
Proof.
  intros Hk. unfold offered_events. rewrite elem_of_app, elem_of_option_list. intros [Hev|Hev].
  - exists (src_of packet). eexists. split; [apply updated_map_src|].
    split; [rewrite touch_src_mac; by apply known_or_fresh_mac|].
    unfold known_or_fresh. apply offered_cases in Hev as [[-> ->]|(d & -> & Hc & ->)]; eauto 10.
  - case_bool_decide as Heq; [by apply not_elem_of_nil in Hev|].
    apply elem_of_option_list in Hev.
    exists (dst_of packet). eexists. split; [by apply updated_map_dst|].
    split; [rewrite touch_dst_mac; by apply known_or_fresh_mac|].
    unfold known_or_fresh. apply offered_cases in Hev as [[-> ->]|(d & -> & Hc & ->)]; eauto 10.
Qed.

Lemma offered_discovered m packet p n c k d' :
  keyed m -> m !! k = None -> updated_map m packet p n c !! k = Some d' ->
  DeviceDiscovered d' ∈ offered_events m packet p n c.
Proof.
  intros Hk Hn Hd. unfold offered_events. rewrite elem_of_app, elem_of_option_list.
  destruct (decide (k = src_of packet)) as [->|Hs].
  { left. rewrite updated_map_src in Hd. injection Hd as <-.
    unfold offered, known_or_fresh. by rewrite Hn. }
  destruct (decide (k = dst_of packet)) as [->|Ht].
  { right. rewrite bool_decide_eq_false_2 by done. rewrite elem_of_option_list.
    rewrite updated_map_dst in Hd by done. injection Hd as <-.
    unfold offered, known_or_fresh. by rewrite Hn. }
  rewrite updated_map_other in Hd by done. congruence.
Qed.

Lemma length_offered_events m packet p n c : (length (offered_events m packet p n c) <= 2)%nat.
Proof.
  unfold offered_events. rewrite length_app.
  assert (forall (o : option DiscoveryEvent), length (option_list o) <= 1)%nat as Ho
    by (intros []; simpl; lia).
  pose proof (Ho (offered m (src_of packet) (new_src c) (touch_src packet p n (now c)) changed_src)).
  pose proof (Ho (offered m (dst_of packet) (new_dst c) (touch_dst packet p (now c)) changed_dst)).
  case_bool_decide; simpl; lia.
Qed.

(** ** Panics *)

Lemma decoded_payload_ok `{!PnetLaws} buf p :
  bytes_ok (raw buf) -> decode_packet buf = Done (Ok p) -> bytes_ok (payload p).
Proof.
  intros Hok. rewrite decode_packet_by_verdict. intros Hd.
  destruct (frame_verdict (raw buf)); simplify_eq; simpl; [apply Forall_nil; exact I|].
  by apply bytes_ok_drop.
Qed.

Lemma extract_names_outcome packet p :
  bytes_ok (payload packet) ->
  (extract_names packet p = Panic <-> p = Dhcp /\ parse_dhcp (payload packet) = Panic) /\
  extract_names packet p <> Diverge.
Proof.
  intros Hok. unfold extract_names.
  pose proof (parse_dhcp_not_Diverge (payload packet) Hok) as Hd.
  assert (forall r : exec Names, r <> Panic -> r <> Diverge -> p <> Dhcp \/ parse_dhcp (payload packet) <> Panic ->
    (r = Panic <-> p = Dhcp /\ parse_dhcp (payload packet) = Panic) /\ r <> Diverge) as Hno.
  { intros r H1 H2 H3. split; [|done]. split; [done|]. intros [-> H4]. destruct H3; done. }
  destruct (decide (p = Dhcp)) as [->|H1].
  - rewrite (bool_decide_eq_true_2 (Dhcp = Dhcp)), (bool_decide_eq_false_2 (Dhcp = Mdns)) by done.
    destruct (parse_dhcp (payload packet)) as [o| |]; simpl;
      [apply Hno; [done|done|by right] | by repeat split | congruence].
  - rewrite (bool_decide_eq_false_2 (p = Dhcp)) by done. simpl.
    destruct (parse_mdns_Done (payload packet) Hok) as [r Hr]. rewrite Hr.
    case_bool_decide; simpl; (apply Hno; [done|done|by left]).
Qed.
End InventoryFacts.

(** * Properties *)

(** C6: over any stream of captured frames the inventory stays sound: every
    device is stored under its own address with consistent counters, no
    device is ever lost, and a device record only grows: its address,
    first-seen time and vendor never change, a host name or vendor class once
    learned is never overwritten, addresses and protocols are only added and
    counters never decrease. *)
Theorem discovery_inventory_invariant {S} {PN : Pnet} {OU : Oui} {DS : DeviceStore S}
  {MP : Mpsc DiscoveryEvent} {MT : MacText} {DSL : DeviceStoreLaws S}
  (e e' : engine S) (frames : list (PacketBuf * Clock)) :
  inventory_ok (ds_map (store e)) -> process_all e frames = Done e' ->
  inventory_ok (ds_map (store e')) /\
  forall k d, ds_map (store e) !! k = Some d ->
    exists d', ds_map (store e') !! k = Some d' /\ evolves d d'.
Proof. apply process_all_inventory. Qed.

Lemma discovery_inventory_invariant_witness :
  exists e', @process_all MemoryStore.t wire_pnet demo_oui demo_store (queue_mpsc DiscoveryEvent)
    demo_engine [(demo_packet, mkClock 5 6 7); (demo_arp, mkClock 8 9 9)] = Done e' /\
  inventory_ok (MemoryStore.devices (store e')).
Proof.
  destruct (is_done_Done (@process_all MemoryStore.t wire_pnet demo_oui demo_store
    (queue_mpsc DiscoveryEvent) demo_engine
    [(demo_packet, mkClock 5 6 7); (demo_arp, mkClock 8 9 9)])) as [e' E];
    [vm_compute; reflexivity|].
  exists e'. split; [exact E|].
  apply (@discovery_inventory_invariant MemoryStore.t wire_pnet demo_oui demo_store
    (queue_mpsc DiscoveryEvent) ref_mac_text demo_laws demo_engine e'
    [(demo_packet, mkClock 5 6 7); (demo_arp, mkClock 8 9 9)]); [|exact E].
  split; [apply map_Forall_empty | apply map_Forall_empty].
Defined.

(** C24: one frame touches only its two devices.  A frame that does not decode
    changes nothing; a decoded one counts exactly one packet for the source
    and, when it is a different device, for the destination, adds the class
    of the frame to their protocols, stamps them with the packet's time,
    attributes both IP addresses of the frame to both of them, and leaves
    every other device as it was. *)
Theorem discovery_packet_effect {S} {PN : Pnet} {OU : Oui} {DS : DeviceStore S}
  {MP : Mpsc DiscoveryEvent} {MT : MacText} {DSL : DeviceStoreLaws S}
  (e e' : engine S) (buf : PacketBuf) (c : Clock) :
  inventory_ok (ds_map (store e)) -> process_packet e buf c = Done e' ->
  let count (m : gmap MacAddress Device.t) k :=
    match m !! k with Some d => Device.packet_count d | None => 0 end in
  (forall err, decode_packet buf = Done (Err err) -> e' = e) /\
  (forall packet p, decode_packet buf = Done (Ok packet) -> classify packet = Done p ->
     (forall k, k <> src_of packet -> k <> dst_of packet ->
        ds_map (store e') !! k = ds_map (store e) !! k) /\
     (forall k, k = src_of packet \/ k = dst_of packet ->
        exists d, ds_map (store e') !! k = Some d /\
          Device.packet_count d = saturating_add_u64 (count (ds_map (store e)) k) 1 /\
          p ∈ Device.protocols d /\ Device.last_seen d = now c /\
          packet_ips packet ⊆ Device.ips d)).
Proof.
  intros [Hk Hw] Hp count.
  apply process_packet_Done in Hp as [(err & Hd & ->)|(packet & p & n & Hd & Hc & _ & Hm & _)];
    [split; [done|]; intros; congruence | | done].
  split; [intros; congruence|]. intros packet' p' Hd' Hc'.
  assert (packet' = packet) as -> by congruence. assert (p' = p) as -> by congruence.
  rewrite Hm. split; [intros; by apply updated_map_other|].
  assert (forall k t, Device.packet_count (known_or_fresh (ds_map (store e)) k t) =
                      count (ds_map (store e)) k) as Hcount.
  { intros k t. unfold known_or_fresh, count. case_match; [done|].
    unfold fresh_device. by case_match. }
  intros k Hsd. destruct (decide (k = src_of packet)) as [->|Hne].
  - eexists. split; [apply updated_map_src|].
    destruct (touch_src_fields packet p n (now c)
      (known_or_fresh (ds_map (store e)) (src_of packet) (new_src c)))
      as (-> & -> & _ & _ & -> & _ & _ & _ & _ & _ & ->).
    rewrite Hcount. split_and!; auto; set_solver.
  - destruct Hsd as [?| ->]; [done|]. eexists. split; [by apply updated_map_dst|].
    destruct (touch_dst_fields packet p (now c)
      (known_or_fresh (ds_map (store e)) (dst_of packet) (new_dst c)))
      as (-> & -> & _ & _ & -> & _ & _ & _ & _ & _ & ->).
    rewrite Hcount. split_and!; auto; set_solver.
Qed.

Lemma discovery_packet_effect_witness :
  exists e' d, demo_process demo_engine demo_packet (mkClock 5 6 7) = Done e' /\
    MemoryStore.devices (store e') !! demo_dst = Some d /\ Device.packet_count d = 1 /\
    packet_ips (mkDecodedPacket demo_packet (mkEthernetHeader demo_src demo_dst 2048)
      (Some (mkIpv4Header (V4 3232235786) (V4 1572395042) 6 60 20))
      (Some (TcpHdr (mkPortHeader 54321 80))) [7; 9]) ⊆ Device.ips d.
Proof.
  destruct (is_done_Done (demo_process demo_engine demo_packet (mkClock 5 6 7))) as [e' E];
    [vm_compute; reflexivity|].
  destruct (@discovery_packet_effect MemoryStore.t wire_pnet demo_oui demo_store
    (queue_mpsc DiscoveryEvent) ref_mac_text demo_laws demo_engine e' demo_packet (mkClock 5 6 7))
    as [_ H]; [split; apply map_Forall_empty | exact E |].
  destruct (H (mkDecodedPacket demo_packet (mkEthernetHeader demo_src demo_dst 2048)
      (Some (mkIpv4Header (V4 3232235786) (V4 1572395042) 6 60 20))
      (Some (TcpHdr (mkPortHeader 54321 80))) [7; 9]) Http) as [_ H2];
    [vm_compute; reflexivity | vm_compute; reflexivity |].
  destruct (H2 demo_dst) as (d & H3 & H4 & _ & _ & H5); [right; reflexivity|].
  exists e', d. split; [exact E|]. split; [exact H3|]. split; [exact H4 | exact H5].
Defined.

(** C19: events tell the truth and only report news.  With room on the
    channel, a frame queues at most two events: [DeviceDiscovered d] exactly
    when [d] is the stored record of an address that was unknown before, and
    [DeviceUpdated d] only for the stored record of a known device whose
    protocols, host name, vendor class or number of addresses changed; and
    processing the same frame again queues nothing at all. *)
Theorem discovery_events_exact {S} {PN : Pnet} {OU : Oui} {DS : DeviceStore S}
  {MP : Mpsc DiscoveryEvent} {MT : MacText} {DSL : DeviceStoreLaws S}
  {MPL : MpscLaws DiscoveryEvent}
  (e e1 e2 : engine S) (buf : PacketBuf) (c c2 : Clock) :
  inventory_ok (ds_map (store e)) ->
  (length (queued (event_tx e)) + 2 <= capacity (event_tx e))%nat ->
  process_packet e buf c = Done e1 -> process_packet e1 buf c2 = Done e2 ->
  event_tx e2 = event_tx e1 /\
  exists evs, queued (event_tx e1) = queued (event_tx e) ++ evs /\ (length evs <= 2)%nat /\
    (forall d, DeviceDiscovered d ∈ evs <->
       ds_map (store e) !! Device.mac d = None /\ ds_map (store e1) !! Device.mac d = Some d) /\
    (forall d, DeviceUpdated d ∈ evs ->
       ds_map (store e1) !! Device.mac d = Some d /\
       exists d0, ds_map (store e) !! Device.mac d = Some d0 /\
         (changed_src d0 d = true \/ changed_dst d0 d = true)) /\
    (forall d, DeviceOffline d ∉ evs).
Proof.
  intros Hinv Hroom H1 H2.
  pose proof (process_packet_inventory _ _ _ _ Hinv H1) as [[Hk1 _] _]. destruct Hinv as [Hk Hw].
  apply process_packet_Done in H1 as [(err & Hd & ->)|(packet & p & n & Hd & Hc & Hn & Hm & Ht)];
    [| |done].
  { apply process_packet_Done in H2 as [(err' & Hd' & ->)|(packet & p & n & Hd' & _)];
      [|congruence|done].
    split; [done|]. exists []. rewrite app_nil_r. split_and!; auto; try (simpl; lia);
      intros d; rewrite elem_of_nil; naive_solver congruence. }
  apply process_packet_Done in H2
    as [(err' & Hd' & ->)|(packet' & p' & n' & Hd' & Hc' & Hn' & _ & Ht')]; [congruence| |done].
  assert (packet' = packet) as -> by congruence. assert (p' = p) as -> by congruence.
  assert (n' = n) as -> by congruence. split; [by rewrite Ht', Hm, offered_again|].
  pose proof (length_offered_events (ds_map (store e)) packet p n c) as Hlen.
  exists (offered_events (ds_map (store e)) packet p n c).
  rewrite Ht, Hm, send_all_room by lia. split_and!; auto.
  - intros d. split.
    + intros Hin. apply offered_events_cases in Hin as (k & d' & Hu & Hmac & Hev); [|done].
      destruct Hev as [[Hnone Hev]|(d0 & _ & Hev & _)]; simplify_eq. by subst.
    + intros [Hnone Hu]. by eapply offered_discovered.
  - intros d Hin. apply offered_events_cases in Hin as (k & d' & Hu & Hmac & Hev); [|done].
    destruct Hev as [[_ Hev]|(d0 & Hd0 & Hev & Hch)]; simplify_eq. subst. eauto.
  - intros d Hin. apply offered_events_cases in Hin as (k & d' & _ & _ & Hev); [|done].
    destruct Hev as [[_ Hev]|(d0 & _ & Hev & _)]; simplify_eq.
Qed.

Lemma discovery_events_exact_witness :
  exists e1 e2, demo_process demo_engine demo_packet (mkClock 5 6 7) = Done e1 /\
    demo_process e1 demo_packet (mkClock 8 9 9) = Done e2 /\ event_tx e2 = event_tx e1.
Proof.
  destruct (is_done_Done (run! e1 := demo_process demo_engine demo_packet (mkClock 5 6 7) in
    demo_process e1 demo_packet (mkClock 8 9 9))) as [e2 E2]; [vm_compute; reflexivity|].
  destruct (demo_process demo_engine demo_packet (mkClock 5 6 7)) as [e1| |] eqn:E1;
    [|discriminate E2|discriminate E2].
  exists e1, e2. split; [reflexivity|]. split; [exact E2|].
  apply (@discovery_events_exact MemoryStore.t wire_pnet demo_oui demo_store
    (queue_mpsc DiscoveryEvent) ref_mac_text demo_laws (queue_mpsc_laws DiscoveryEvent)
    demo_engine e1 e2 demo_packet (mkClock 5 6 7) (mkClock 8 9 9)).
  - split; apply map_Forall_empty.
  - simpl. lia.
  - exact E1.
  - exact E2.
Defined.

(** C31: the pipeline never loops, and brings the worker down on exactly two
    kinds of frame: one that makes the decoder panic, and one classified as
    DHCP whose payload makes the option parser panic. *)
Theorem process_packet_panics_iff {S} {PN : Pnet} {PNL : PnetLaws} {OU : Oui} {DS : DeviceStore S}
  {MP : Mpsc DiscoveryEvent} (e : engine S) (buf : PacketBuf) (c : Clock) :
  bytes_ok (raw buf) ->
  process_packet e buf c <> Diverge /\
  (process_packet e buf c = Panic <->
   decode_packet buf = Panic \/
   exists packet, decode_packet buf = Done (Ok packet) /\ classify packet = Done Dhcp /\
     parse_dhcp (payload packet) = Panic).
Proof.
  intros Hok. unfold process_packet.
  destruct (decode_packet buf) as [[packet|err]| |] eqn:Hd; simpl.
  - pose proof (decoded_payload_ok _ _ Hok Hd) as Hp.
    destruct (classify_Done packet) as [p Hc]. rewrite Hc. simpl.
    destruct (extract_names_outcome packet p Hp) as [Hpan Hdiv].
    destruct (extract_names packet p) as [n| |]; simpl; (split; [done|]); try done.
    + split; [done|]. intros [?|(pk & [= <-] & Hc' & Hpd)]; [done|].
      assert (p = Dhcp) as -> by congruence. by pose proof (proj2 Hpan (conj eq_refl Hpd)).
    + split; [|done]. intros _. right. exists packet. destruct Hpan as [Hpan _].
      destruct Hpan as [-> ?]; done.
  - split; [done|]. split; [done|]. intros [?|(pk & ? & _)]; done.
  - split; [done|]. split; [|done]. by left.
  - exfalso. rewrite decode_packet_by_verdict in Hd. by destruct (frame_verdict (raw buf)).
Qed.

Lemma process_packet_panics_iff_witness :
  demo_process demo_engine demo_overrun (mkClock 0 0 0) = Panic.
Proof.
  apply (@process_packet_panics_iff MemoryStore.t wire_pnet wire_pnet_laws demo_oui demo_store
    (queue_mpsc DiscoveryEvent) demo_engine demo_overrun (mkClock 0 0 0)).
  - repeat (apply Forall_cons; split; [unfold in_u8, u8_max; simpl; lia|]). apply Forall_nil. exact I.
  - left. vm_compute. reflexivity.
Defined.

