(* ===== verification/Sqlite.v ===== *)
(** The SQLite device store, [crates/storage/src/sqlite.rs]: the text columns
    of a device row, the write-back cache with its dirty set, [flush], the
    load on open, and the interleaving of [flush] with [upsert].

    The [devices] table is a finite map from its primary key to rows, and
    the statements of the source are the functions on it that their SQL text
    says.  What SQLite itself decides (whether a statement fails, the text
    of its errors) is an argument. *)

From S2P Require Import Prelude Text Types Reference Net Json Stores.

(** * JSON columns *)

Section Columns.
Context {IT : IpText} {SJ : SerdeJson}.

Definition strings_to_json (l : list string) : string := json_to_string (JArr (JStr <$> l)).
Definition strings_from_json (s : string) : list string :=
  default [] (json_from_str s ≫= array_from_json string_from_json).

Definition ips_to_json (ips : gset IpAddr) : string :=
  strings_to_json (ip_to_string <$> sorted_elements ip_le ips).
Definition ips_from_json (s : string) : gset IpAddr :=
  list_to_set (omap ip_parse (strings_from_json s)).

(** The [match] on the names repeats [Protocol::from_str], with [None] for
    its error. *)
Definition protocol_of_text (s : string) : option Protocol := result_ok (protocol_from_str s).

Definition protocols_to_json (ps : gset Protocol) : string :=
  strings_to_json (protocol_display <$> sorted_elements protocol_le ps).
Definition protocols_from_json (s : string) : gset Protocol :=
  list_to_set (omap protocol_of_text (strings_from_json s)).

(** A [Vec<(String, u64)>]: an array of pairs. *)
Definition pair_to_json (e : string * Z) : json := JArr [JStr e.1; JNum e.2].
Definition pair_from_json (j : json) : option (string * Z) :=
  match j with
  | JArr [a; b] => s ← string_from_json a; n ← u64_from_json b; Some (s, n)
  | _ => None
  end.
Definition protocol_stats_to_json (stats : gmap Protocol Z) : string :=
  json_to_string (JArr (pair_to_json <$> serialize_protocol_stats stats)).
Definition protocol_stats_from_json (s : string) : gmap Protocol Z :=
  foldl (fun m e => match protocol_of_text e.1 with Some p => <[p := e.2]> m | None => m end) ∅
    (default [] (json_from_str s ≫= array_from_json pair_from_json)).
End Columns.

(** * Rows *)

(** A row of [devices]; the counters are SQLite integers. *)
Module DeviceRow.
Record t : Type := mk {
  mac : string; ips : string; hostname : option string;
  first_seen : string; last_seen : string;
  packet_count : Z; bytes_sent : Z; bytes_received : Z;
  protocols : string; vendor : option string; dhcp_vendor_class : option string;
  protocol_stats : string
}.
Definition set_first_seen (f : string) (r : t) : t :=
  mk (mac r) (ips r) (hostname r) f (last_seen r) (packet_count r) (bytes_sent r)
     (bytes_received r) (protocols r) (vendor r) (dhcp_vendor_class r) (protocol_stats r).
End DeviceRow.

(** rusqlite binds a [u64] as an [i64] and fails above [i64::MAX]; it reads
    a negative integer as a [u64] with an error. *)
Definition bind_u64 (n : Z) : option Z := if n <=? i64_max then Some n else None.
Definition column_u64 (n : Z) : option Z := if 0 <=? n then Some n else None.

Section Rows.
Context {MT : MacText} {IT : IpText} {CH : Chrono} {SJ : SerdeJson}.

(** The parameters of the [INSERT]. *)
Definition row_of_device (d : Device.t) : option DeviceRow.t :=
  packet_count ← bind_u64 (Device.packet_count d);
  bytes_sent ← bind_u64 (Device.bytes_sent d);
  bytes_received ← bind_u64 (Device.bytes_received d);
  Some (DeviceRow.mk (mac_to_string (Device.mac d)) (ips_to_json (Device.ips d)) (Device.hostname d)
    (timestamp_display (Device.first_seen d)) (timestamp_display (Device.last_seen d))
    packet_count bytes_sent bytes_received (protocols_to_json (Device.protocols d))
    (Device.vendor d) (Device.dhcp_vendor_class d)
    (protocol_stats_to_json (Device.protocol_stats d))).

(** [row_to_device], at the time [now] for the time stamps that do not parse. *)
Definition row_to_device (now : Timestamp) (r : DeviceRow.t) : option Device.t :=
  packet_count ← column_u64 (DeviceRow.packet_count r);
  bytes_sent ← column_u64 (DeviceRow.bytes_sent r);
  bytes_received ← column_u64 (DeviceRow.bytes_received r);
  mac ← mac_parse (DeviceRow.mac r);
  Some (Device.mk mac (ips_from_json (DeviceRow.ips r)) (DeviceRow.hostname r)
    (default now (parse_datetime (DeviceRow.first_seen r)))
    (default now (parse_datetime (DeviceRow.last_seen r)))
    packet_count bytes_sent bytes_received (protocols_from_json (DeviceRow.protocols r))
    (DeviceRow.vendor r) (DeviceRow.dhcp_vendor_class r)
    (protocol_stats_from_json (DeviceRow.protocol_stats r))).
End Rows.

(** * The store *)

Notation devices_table := (gmap string DeviceRow.t).

(** [INSERT ... ON CONFLICT(mac) DO UPDATE]: a row that exists keeps its
    [first_seen]. *)
Definition upsert_row (r : DeviceRow.t) (t : devices_table) : devices_table :=
  match t !! DeviceRow.mac r with
  | Some old => <[DeviceRow.mac r := DeviceRow.set_first_seen (DeviceRow.first_seen old) r]> t
  | None => <[DeviceRow.mac r := r]> t
  end.

(** The outcome of the statements SQLite runs: an error text, or success. *)
Definition sql_io : Type := nat -> option string.

Module SqliteStore.
(** [conn] is the table behind the mutex; [poisoned] says a thread panicked
    while it held the lock. *)
Record t : Type := mk {
  cache : MemoryStore.t;
  dirty : gset MacAddress;
  conn : devices_table;
  poisoned : bool
}.

Section Operations.
Context {MT : MacText} {IT : IpText} {CH : Chrono} {SJ : SerdeJson}.
Variable bind_error : string.  (** rusqlite's text for a [u64] out of range *)
Variable row_error : string.   (** and for a row that does not convert *)

Definition get (s : t) (m : MacAddress) : result (option Device.t) StorageError :=
  MemoryStore.get (cache s) m.
Definition upsert (s : t) (d : Device.t) : t * result unit StorageError :=
  match MemoryStore.upsert (cache s) d with
  | (c, Ok _) => (mk c ({[Device.mac d]} ∪ dirty s) (conn s) (poisoned s), Ok tt)
  | (c, Err e) => (mk c (dirty s) (conn s) (poisoned s), Err e)
  end.
Definition list_devices (s : t) : result (list Device.t) StorageError :=
  MemoryStore.list_devices (cache s).
Definition count (s : t) : result nat StorageError := MemoryStore.count (cache s).

(** The loop of [flush]; [i] counts the statements run. *)
Fixpoint flush_loop (c : MemoryStore.t) (io : sql_io) (macs : list MacAddress)
  (tbl : devices_table) (i written : nat) : devices_table * result nat StorageError :=
  match macs with
  | [] => (tbl, Ok written)
  | m :: macs' =>
      match MemoryStore.get c m with
      | Err e => (tbl, Err e)
      | Ok None => flush_loop c io macs' tbl i written
      | Ok (Some d) =>
          match row_of_device d with
          | None => (tbl, Err (Internal ("flush upsert failed: " +:+ bind_error)))
          | Some row =>
              match io i with
              | Some msg => (tbl, Err (Internal ("flush upsert failed: " +:+ msg)))
              | None => flush_loop c io macs' (upsert_row row tbl) (S i) (S written)
              end
          end
      end
  end.

(** [flush], with no other thread in between; [iter] is the order in which
    the [DashSet] yields its elements. *)
Definition flush (iter : gset MacAddress -> list MacAddress) (io : sql_io) (s : t)
  : t * result nat StorageError :=
  if poisoned s then (s, Err (Internal "mutex poisoned: poisoned lock: another task failed inside"))
  else
    let dirty_macs := iter (dirty s) in
    match dirty_macs with
    | [] => (s, Ok 0%nat)
    | _ =>
        match flush_loop (cache s) io dirty_macs (conn s) 0 0 with
        | (tbl, Ok written) =>
            (mk (cache s) (foldl (fun ds m => ds ∖ {[m]}) (dirty s) dirty_macs) tbl (poisoned s),
             Ok written)
        | (tbl, Err e) => (mk (cache s) (dirty s) tbl (poisoned s), Err e)
        end
    end.

(** [load_all], over the rows in the order the query yields them. *)
Fixpoint load_all (now : Timestamp) (rows : list DeviceRow.t) (c : MemoryStore.t) (n : nat)
  : result (MemoryStore.t * nat) StorageError :=
  match rows with
  | [] => Ok (c, n)
  | r :: rows' =>
      match row_to_device now r with
      | None => Err (Internal ("load row parse failed: " +:+ row_error))
      | Some d =>
          match MemoryStore.upsert c d with
          | (c', Ok _) => load_all now rows' c' (S n)
          | (_, Err e) => Err e
          end
      end
  end.

(** [add_column_if_missing], after SQLite ran the [ALTER TABLE]. *)
Definition add_column_if_missing (column : string) (outcome : result unit string)
  : result unit StorageError :=
  match outcome with
  | Ok _ => Ok tt
  | Err msg =>
      if contains msg "duplicate column name" then Ok tt
      else Err (Internal ("failed to add column " +:+ column +:+ ": " +:+ msg))
  end.
Definition migrate (alter : string -> result unit string) : result unit StorageError :=
  let? _ := add_column_if_missing "dhcp_vendor_class" (alter "dhcp_vendor_class") in
  let? _ := add_column_if_missing "protocol_stats" (alter "protocol_stats") in
  Ok tt.

(** What SQLite answers while the database is opened. *)
Record open_io : Type := mkOpenIo {
  connection : result unit string;  (** [Connection::open] *)
  pragmas : result unit string;
  schema : result unit string;
  alter : string -> result unit string;
  prepared : result unit string;
  rows : result (list DeviceRow.t) string  (** the query and its rows *)
}.
Definition open (path : string) (now : Timestamp) (io : open_io) (tbl : devices_table)
  : result (option t) StorageError :=
  if is_empty path then Ok None
  else
    let wrap (what : string) {A} (r : result A string) :=
      map_err (fun e => Internal (what +:+ e)) r in
    let? _ := wrap "failed to open database: " (connection io) in
    let? _ := wrap "failed to set pragmas: " (pragmas io) in
    let? _ := wrap "failed to create schema: " (schema io) in
    let? _ := migrate (alter io) in
    let? _ := wrap "load prepare failed: " (prepared io) in
    let? rs := wrap "load query failed: " (rows io) in
    let? loaded := load_all now rs MemoryStore.new 0 in
    Ok (Some (mk loaded.1 ∅ tbl false)).
End Operations.
End SqliteStore.

#[global] Instance sqlite_device_store {MT : MacText} : DeviceStore SqliteStore.t := {|
  ds_get := SqliteStore.get;
  ds_upsert := SqliteStore.upsert;
  ds_list := SqliteStore.list_devices;
  ds_count := SqliteStore.count
|}.

(** * Interleaving

    [upsert] writes the cache and then the dirty set; [flush] snapshots the
    dirty set, writes one row at a time and removes the snapshot from the
    dirty set at the end.  Nothing but the connection lock orders them. *)

Inductive flush_phase : Type :=
| Idle
| Writing (todo snapshot : list MacAddress)
| Clearing (todo : list MacAddress).

Record shared : Type := mkShared {
  shared_store : SqliteStore.t;
  half_upsert : option MacAddress;
  phase : flush_phase
}.

Section Interleaving.
Context {MT : MacText} {IT : IpText} {CH : Chrono} {SJ : SerdeJson}.

Definition with_cache (d : Device.t) (s : SqliteStore.t) : SqliteStore.t :=
  SqliteStore.mk (MemoryStore.upsert (SqliteStore.cache s) d).1 (SqliteStore.dirty s)
    (SqliteStore.conn s) (SqliteStore.poisoned s).
Definition with_dirty (ds : gset MacAddress) (s : SqliteStore.t) : SqliteStore.t :=
  SqliteStore.mk (SqliteStore.cache s) ds (SqliteStore.conn s) (SqliteStore.poisoned s).
Definition with_conn (tbl : devices_table) (s : SqliteStore.t) : SqliteStore.t :=
  SqliteStore.mk (SqliteStore.cache s) (SqliteStore.dirty s) tbl (SqliteStore.poisoned s).

Inductive shared_step : shared -> shared -> Prop :=
| StepUpsertCache s p d :
    shared_step (mkShared s None p) (mkShared (with_cache d s) (Some (Device.mac d)) p)
| StepUpsertDirty s p m :
    shared_step (mkShared s (Some m) p) (mkShared (with_dirty ({[m]} ∪ SqliteStore.dirty s) s) None p)
| StepFlushStart s u macs :
    SqliteStore.poisoned s = false -> macs ≡ₚ elements (SqliteStore.dirty s) -> macs <> [] ->
    shared_step (mkShared s u Idle) (mkShared s u (Writing macs macs))
| StepFlushWrite s u m todo snap d row :
    MemoryStore.get (SqliteStore.cache s) m = Ok (Some d) -> row_of_device d = Some row ->
    shared_step (mkShared s u (Writing (m :: todo) snap))
      (mkShared (with_conn (upsert_row row (SqliteStore.conn s)) s) u (Writing todo snap))
| StepFlushSkip s u m todo snap :
    MemoryStore.get (SqliteStore.cache s) m = Ok None ->
    shared_step (mkShared s u (Writing (m :: todo) snap)) (mkShared s u (Writing todo snap))
| StepFlushFail s u m todo snap :
    shared_step (mkShared s u (Writing (m :: todo) snap)) (mkShared s u Idle)
| StepFlushWritten s u snap :
    shared_step (mkShared s u (Writing [] snap)) (mkShared s u (Clearing snap))
| StepFlushClear s u m todo :
    shared_step (mkShared s u (Clearing (m :: todo)))
      (mkShared (with_dirty (SqliteStore.dirty s ∖ {[m]}) s) u (Clearing todo))
| StepFlushEnd s u :
    shared_step (mkShared s u (Clearing [])) (mkShared s u Idle).

(** The row of a cached device is what a flush would write, up to the
    [first_seen] the table keeps. *)
Definition row_current (tbl : devices_table) (d : Device.t) : Prop :=
  exists row old, row_of_device d = Some row /\
    tbl !! mac_to_string (Device.mac d) = Some (DeviceRow.set_first_seen old row).
End Interleaving.

(** * Histories of one thread *)

(** Counters that fit a SQLite integer. *)
Definition counters_fit (d : Device.t) : Prop :=
  Device.packet_count d <= i64_max /\ Device.bytes_sent d <= i64_max /\
  Device.bytes_received d <= i64_max.

Inductive store_op : Type :=
| OpUpsert (d : Device.t)
| OpFlush (io : sql_io).

(** A store opened on an empty database. *)
Definition fresh_store : SqliteStore.t := SqliteStore.mk MemoryStore.new ∅ ∅ false.

Section Histories.
Context {MT : MacText} {IT : IpText} {CH : Chrono} {SJ : SerdeJson}.
Variables (bind_error : string) (iter : gset MacAddress -> list MacAddress).

Definition apply_store_op (s : SqliteStore.t) (o : store_op) : SqliteStore.t :=
  match o with
  | OpUpsert d => (SqliteStore.upsert s d).1
  | OpFlush io => (SqliteStore.flush bind_error iter io s).1
  end.

(** An upsert of the pipeline: a device with a text, that keeps the time its
    address was first seen. *)
Definition store_op_ok (s : SqliteStore.t) (o : store_op) : Prop :=
  match o with
  | OpUpsert d =>
      representable d /\
      forall d0, MemoryStore.devices (SqliteStore.cache s) !! Device.mac d = Some d0 ->
        deserialize_iso8601 (Device.first_seen d0) = deserialize_iso8601 (Device.first_seen d)
  | OpFlush _ => True
  end.
Fixpoint store_ops_ok (s : SqliteStore.t) (os : list store_op) : Prop :=
  match os with
  | [] => True
  | o :: os' => store_op_ok s o /\ store_ops_ok (apply_store_op s o) os'
  end.

(** The database is never ahead of the cache, and a device that is not
    dirty has its current row. *)
Record persistent (s : SqliteStore.t) : Prop := {
  p_cache : map_Forall (fun m d => Device.mac d = m /\ representable d)
              (MemoryStore.devices (SqliteStore.cache s));
  p_rows : map_Forall (fun k row => exists d d', k = mac_to_string (Device.mac d) /\
              MemoryStore.devices (SqliteStore.cache s) !! Device.mac d = Some d /\
              Device.mac d' = Device.mac d /\ representable d' /\ row_of_device d' = Some row /\
              deserialize_iso8601 (Device.first_seen d') = deserialize_iso8601 (Device.first_seen d))
              (SqliteStore.conn s);
  p_clean m d : MemoryStore.devices (SqliteStore.cache s) !! m = Some d ->
              m ∉ SqliteStore.dirty s ->
              exists row, row_of_device d = Some row /\
                SqliteStore.conn s !! mac_to_string m = Some row
}.

(** A row of the table, and a device it is the row of. *)
Definition row_of_some (s : SqliteStore.t) (r : DeviceRow.t) (d' : Device.t) : Prop :=
  representable d' /\ row_of_device d' = Some r /\
  SqliteStore.conn s !! mac_to_string (Device.mac d') = Some r.
End Histories.

(** * Lemmas *)

(** The pipeline and the API see the cache: the store keeps the contract of
    [DeviceStore] whatever the database does. *)
#[global] Program Instance sqlite_device_store_laws {MT : MacText} : DeviceStoreLaws SqliteStore.t := {|
  ds_map s := MemoryStore.devices (SqliteStore.cache s)
|}.
Next Obligation. done. Qed.
Next Obligation. done. Qed.
Next Obligation. done. Qed.
Next Obligation. intros ? s. exact (ds_list_spec (SqliteStore.cache s)). Qed.
Next Obligation. done. Qed.

Section ColumnFacts.
Context {IT : IpText} {SJ : SerdeJson} {SL : SerdeJsonLaws}.

Lemma strings_roundtrip l : strings_from_json (strings_to_json l) = l.
Proof.
  unfold strings_from_json, strings_to_json. rewrite json_from_to_string. cbn [mbind option_bind].
  unfold array_from_json. rewrite (mapM_fmap_Some string_from_json JStr); done.
Qed.

Lemma omap_text_roundtrip {A} (P : A -> Prop) (show : A -> string) (read : string -> option A) l :
  (forall a, P a -> read (show a) = Some a) -> Forall P l -> omap read (show <$> l) = l.
Proof.
  intros Hr Hl. induction Hl as [|a l Ha Hl IH]; [done|]. cbn [fmap list_fmap omap list_omap].
  rewrite Hr by done. by f_equal.
Qed.

Lemma sorted_elements_Forall {A} `{Countable A} (R : relation A) `{!RelDecision R} (P : A -> Prop)
  (s : gset A) : set_Forall P s -> Forall P (sorted_elements R s).
Proof. intros Hs. apply Forall_forall. intros a Ha. apply elem_of_sorted_elements in Ha. by apply Hs. Qed.

Lemma ips_roundtrip {IL : IpTextLaws} ips : set_Forall ip_ok ips -> ips_from_json (ips_to_json ips) = ips.
Proof.
  intros Hi. unfold ips_from_json, ips_to_json. rewrite strings_roundtrip.
  rewrite (omap_text_roundtrip ip_ok); [apply sorted_elements_set | apply ip_parse_to_string |].
  by apply sorted_elements_Forall.
Qed.

Lemma protocol_of_text_display p : protocol_ok p -> protocol_of_text (protocol_display p) = Some p.
Proof. intros Hp. unfold protocol_of_text. by rewrite protocol_from_str_display. Qed.

Lemma protocols_roundtrip ps :
  set_Forall protocol_ok ps -> protocols_from_json (protocols_to_json ps) = ps.
Proof.
  intros Hp. unfold protocols_from_json, protocols_to_json. rewrite strings_roundtrip.
  rewrite (omap_text_roundtrip protocol_ok); [apply sorted_elements_set | apply protocol_of_text_display |].
  by apply sorted_elements_Forall.
Qed.

Lemma protocol_stats_from_json_eq s :
  protocol_stats_from_json s =
    deserialize_protocol_stats (default [] (json_from_str s ≫= array_from_json pair_from_json)).
Proof.
  unfold protocol_stats_from_json, deserialize_protocol_stats, protocol_of_text.
  generalize (∅ : gmap Protocol Z). induction (default [] _) as [|e l IH]; intros m; simpl; [done|].
  rewrite IH. by destruct (protocol_from_str e.1).
Qed.

Lemma protocol_stats_column_roundtrip stats :
  map_Forall (fun p n => protocol_ok p /\ in_u64 n) stats ->
  protocol_stats_from_json (protocol_stats_to_json stats) = stats.
Proof.
  intros Hs. rewrite protocol_stats_from_json_eq. unfold protocol_stats_to_json.
  rewrite json_from_to_string. cbn [mbind option_bind array_from_json].
  assert (mapM pair_from_json (pair_to_json <$> serialize_protocol_stats stats) =
    Some (serialize_protocol_stats stats)) as ->.
  { apply mapM_Some, Forall2_fmap_l. unfold serialize_protocol_stats.
    apply Forall2_fmap_l, Forall2_fmap_r, Forall_Forall2_diag, Forall_forall. intros [p n] Hin.
    rewrite stats_entries_perm in Hin. apply elem_of_map_to_list in Hin. apply Hs in Hin as [_ Hn].
    unfold compose, pair_to_json, pair_from_json. cbn [fst snd string_from_json mbind option_bind].
    by rewrite u64_from_json_num. }
  simpl. apply deserialize_serialize_stats; [|done]. intros p n Hp. by apply Hs in Hp as [? _].
Qed.
End ColumnFacts.

Section RowFacts.
Context {MT : MacText} {IT : IpText} {CH : Chrono} {SJ : SerdeJson}.

Lemma bind_u64_Some n z : bind_u64 n = Some z <-> n <= i64_max /\ z = n.
Proof. unfold bind_u64. destruct (n <=? i64_max) eqn:E; bool_to_prop; naive_solver lia. Qed.

Lemma row_of_device_fits d : is_Some (row_of_device d) <-> counters_fit d.
Proof.
  unfold row_of_device, counters_fit, bind_u64.
  destruct (Device.packet_count d <=? i64_max) eqn:E1; bool_to_prop; simpl;
    [|split; [by intros []|lia]].
  destruct (Device.bytes_sent d <=? i64_max) eqn:E2; bool_to_prop; simpl;
    [|split; [by intros []|lia]].
  destruct (Device.bytes_received d <=? i64_max) eqn:E3; bool_to_prop; simpl;
    split; [done|by eexists|by intros []|lia].
Qed.

Lemma row_of_device_mac d row : row_of_device d = Some row -> DeviceRow.mac row = mac_to_string (Device.mac d).
Proof.
  unfold row_of_device, bind_u64. intros H. by repeat (case_match; simplify_eq/=).
Qed.
Lemma row_of_device_first_seen d row :
  row_of_device d = Some row -> DeviceRow.first_seen row = fmt_iso8601 (Device.first_seen d).
Proof.
  unfold row_of_device, bind_u64. intros H. by repeat (case_match; simplify_eq/=).
Qed.
Lemma row_of_device_packet_count d row :
  row_of_device d = Some row -> DeviceRow.packet_count row = Device.packet_count d.
Proof.
  unfold row_of_device, bind_u64. intros H. by repeat (case_match; simplify_eq/=).
Qed.

(** Reading back the row of a device. *)
Lemma row_roundtrip {ML : MacTextLaws} {IL : IpTextLaws} {CL : ChronoLaws} {SL : SerdeJsonLaws} now d row :
  representable d -> row_of_device d = Some row -> row_to_device now row = Some (to_millis d).
Proof.
  intros (Hm & Hi & Hp & Hst & Hf & Hl & Hc & Hs & Hr) Hrow.
  assert (counters_fit d) as (Hc' & Hs' & Hr') by (apply row_of_device_fits; by eexists).
  unfold row_of_device in Hrow. rewrite !(proj2 (bind_u64_Some _ _)) in Hrow by done.
  cbn [mbind option_bind] in Hrow. injection Hrow as <-.
  unfold row_to_device, column_u64, timestamp_display. cbn [DeviceRow.packet_count DeviceRow.bytes_sent
    DeviceRow.bytes_received DeviceRow.mac DeviceRow.ips DeviceRow.first_seen DeviceRow.last_seen
    DeviceRow.protocols DeviceRow.protocol_stats DeviceRow.hostname DeviceRow.vendor
    DeviceRow.dhcp_vendor_class].
  unfold in_u64 in *. rewrite !(proj2 (Z.leb_le 0 _)) by lia. cbn [mbind option_bind].
  rewrite mac_parse_to_string by done. cbn [mbind option_bind].
  rewrite !parse_fmt_iso8601, ips_roundtrip, protocols_roundtrip, protocol_stats_column_roundtrip by done.
  done.
Qed.

Lemma fmt_iso8601_trunc {CL : ChronoLaws} a b :
  deserialize_iso8601 a = deserialize_iso8601 b -> fmt_iso8601 a = fmt_iso8601 b.
Proof. intros H. rewrite <- (fmt_iso8601_ms a), <- (fmt_iso8601_ms b). by rewrite H. Qed.

Lemma representable_millis d : representable d -> representable (to_millis d).
Proof.
  intros (Hm & Hi & Hp & Hst & Hf & Hl & Hc).
  exact (conj Hm (conj Hi (conj Hp (conj Hst (conj (chrono_range_trunc _ Hf)
    (conj (chrono_range_trunc _ Hl) Hc)))))).
Qed.
Lemma row_of_millis {CL : ChronoLaws} d : row_of_device (to_millis d) = row_of_device d.
Proof. unfold row_of_device, timestamp_display. simpl. by rewrite !fmt_iso8601_ms. Qed.

Lemma set_first_seen_same r : DeviceRow.set_first_seen (DeviceRow.first_seen r) r = r.
Proof. by destruct r. Qed.

Lemma upsert_row_lookup row t k :
  upsert_row row t !! k =
    if decide (k = DeviceRow.mac row)
    then Some (match t !! k with
               | Some old => DeviceRow.set_first_seen (DeviceRow.first_seen old) row
               | None => row
               end)
    else t !! k.
Proof.
  unfold upsert_row. destruct (decide (k = DeviceRow.mac row)) as [->|Hne].
  - destruct (t !! DeviceRow.mac row); by rewrite lookup_insert_eq.
  - destruct (t !! DeviceRow.mac row); by rewrite lookup_insert_ne.
Qed.
End RowFacts.

Section StoreFacts.
Context {MT : MacText} {IT : IpText} {CH : Chrono} {SJ : SerdeJson}.
Context {ML : MacTextLaws} {IL : IpTextLaws} {CL : ChronoLaws} {SL : SerdeJsonLaws}.
Variables (bind_error row_error : string) (iter : gset MacAddress -> list MacAddress).
Hypothesis iter_elements : forall s, iter s ≡ₚ elements s.

Notation devices s := (MemoryStore.devices (SqliteStore.cache s)).

(** One write of the flush: the row of a cached device becomes current, and
    the invariant stays. *)
Lemma persistent_write s m d row :
  persistent s -> devices s !! m = Some d -> row_of_device d = Some row ->
  upsert_row row (SqliteStore.conn s) = <[mac_to_string m := row]> (SqliteStore.conn s) /\
  persistent (SqliteStore.mk (SqliteStore.cache s) (SqliteStore.dirty s)
    (upsert_row row (SqliteStore.conn s)) (SqliteStore.poisoned s)).
Proof.
  intros [Hcache Hrows Hclean] Hd Hrow.
  pose proof (Hcache m d Hd) as [Hm Hrep]. subst m.
  pose proof (row_of_device_mac _ _ Hrow) as Hmac.
  assert (upsert_row row (SqliteStore.conn s) =
    <[mac_to_string (Device.mac d) := row]> (SqliteStore.conn s)) as Heq.
  { unfold upsert_row. rewrite Hmac.
    destruct (SqliteStore.conn s !! mac_to_string (Device.mac d)) as [old|] eqn:Eold; [|done].
    destruct (Hrows _ _ Eold) as (d0 & d' & Hk & Hd0 & Hd' & Hrep' & Hrow' & Hfs).
    pose proof (Hcache _ _ Hd0) as [_ Hrep0].
    apply mac_to_string_inj in Hk; [|apply Hrep | apply Hrep0]. rewrite <- Hk, Hd in Hd0.
    injection Hd0 as <-. f_equal.
    rewrite (row_of_device_first_seen _ _ Hrow'), (fmt_iso8601_trunc _ _ Hfs),
      <- (row_of_device_first_seen _ _ Hrow). apply set_first_seen_same. }
  split; [exact Heq|]. rewrite Heq. split; simpl; [exact Hcache| |].
  - apply map_Forall_insert_2; [|exact Hrows]. exists d, d. by split_and!.
  - intros m' d1 Hd1 Hnd. destruct (decide (m' = Device.mac d)) as [->|Hne].
    + assert (d1 = d) as -> by congruence. exists row. by rewrite lookup_insert_eq.
    + destruct (Hclean m' d1 Hd1 Hnd) as (r & Hr & Hl). exists r. split; [done|].
      rewrite lookup_insert_ne; [done|]. intros Hmm. apply Hne.
      destruct (Hcache _ _ Hd1) as [<- Hrep1]. symmetry in Hmm.
      apply mac_to_string_inj in Hmm; [done | apply Hrep1 | apply Hrep].
Qed.

(** The flush loop keeps the invariant on every path, writes the current row
    of every listed device when it succeeds, and touches nothing else. *)
Lemma flush_loop_spec s io macs i w tbl res :
  persistent s ->
  SqliteStore.flush_loop bind_error (SqliteStore.cache s) io macs (SqliteStore.conn s) i w = (tbl, res) ->
  persistent (SqliteStore.mk (SqliteStore.cache s) (SqliteStore.dirty s) tbl (SqliteStore.poisoned s)) /\
  (forall k, SqliteStore.conn s !! k = tbl !! k \/
     exists m, m ∈ macs /\ is_Some (devices s !! m) /\ k = mac_to_string m) /\
  (forall n, res = Ok n ->
     n = (w + length (List.filter (fun m => bool_decide (is_Some (devices s !! m))) macs))%nat /\
     forall m d, m ∈ macs -> devices s !! m = Some d ->
       exists row, row_of_device d = Some row /\ tbl !! mac_to_string m = Some row).
Proof.
  revert s i w. induction macs as [|m macs IH]; intros s i w Hp; simpl.
  { intros [= <- <-]. split; [by destruct s|]. split; [by left|].
    intros n [= <-]. split; [lia|]. intros m d Hm. by apply not_elem_of_nil in Hm. }
  unfold MemoryStore.get. destruct (devices s !! m) as [d|] eqn:Ed; simpl.
  2: { intros H. apply IH in H as (H1 & H2 & H3); [|done]. split; [done|]. split.
       - intros k. destruct (H2 k) as [?|(m' & ? & ? & ?)]; [by left|]. right. exists m'.
         split; [by right | done].
       - intros n Hn. destruct (H3 n Hn) as [Hlen Hcur]. split; [done|].
         intros m' d' [->|Hin]%elem_of_cons Hd'; [congruence | by apply Hcur]. }
  destruct (row_of_device d) as [row|] eqn:Erow.
  2: { intros [= <- <-]. split; [by destruct s|]. split; [by left | done]. }
  destruct (io i) as [msg|].
  { intros [= <- <-]. split; [by destruct s|]. split; [by left | done]. }
  destruct (persistent_write s m d row Hp Ed Erow) as [Heq Hp'].
  set (s1 := SqliteStore.mk (SqliteStore.cache s) (SqliteStore.dirty s)
    (upsert_row row (SqliteStore.conn s)) (SqliteStore.poisoned s)) in Hp'.
  intros H. apply (IH s1) in H as (H1 & H2 & H3); [|exact Hp']. simpl in H1, H2, H3.
  split; [exact H1|]. split.
  - intros k. destruct (decide (k = mac_to_string m)) as [->|Hne].
    + right. exists m. split; [by left | done].
    + destruct (H2 k) as [<-|(m' & ? & ? & ?)].
      * left. by rewrite Heq, lookup_insert_ne.
      * right. exists m'. split; [by right | done].
  - intros n Hn. destruct (H3 n Hn) as [Hlen Hcur]. split; [lia|].
    intros m' d' Hin Hd'. destruct (decide (m' ∈ macs)) as [Hin'|Hout]; [by apply Hcur|].
    apply elem_of_cons in Hin as [->|Hin]; [|done]. assert (d' = d) as -> by congruence.
    exists row. split; [done|]. destruct (H2 (mac_to_string m)) as [<-|(m' & Hm' & [d' Hd''] & Hk)].
    + by rewrite Heq, lookup_insert_eq.
    + destruct Hout. destruct (p_cache _ Hp _ _ Ed) as [Hmd Hrep].
      destruct (p_cache _ Hp _ _ Hd'') as [Hmd' Hrep']. subst m m'.
      apply mac_to_string_inj in Hk; [by rewrite Hk | apply Hrep | apply Hrep'].
Qed.

Lemma foldl_remove (l : list MacAddress) (ds : gset MacAddress) m :
  m ∈ foldl (fun ds m => ds ∖ {[m]}) ds l <-> m ∈ ds /\ m ∉ l.
Proof. revert ds. induction l as [|x l IH]; intros ds; simpl; [set_solver|]. rewrite IH. set_solver. Qed.

Lemma flush_empties ds : foldl (fun ds m => ds ∖ {[m]}) ds (iter ds) = ∅.
Proof.
  apply set_eq. intros m. rewrite foldl_remove, iter_elements, elem_of_elements. set_solver.
Qed.

(** [flush] keeps the invariant; when it succeeds nothing is dirty. *)
Lemma flush_persistent s io s' res :
  persistent s -> SqliteStore.flush bind_error iter io s = (s', res) ->
  persistent s' /\ SqliteStore.cache s' = SqliteStore.cache s /\
  (is_ok res = false -> SqliteStore.dirty s' = SqliteStore.dirty s) /\
  (forall n, res = Ok n -> SqliteStore.dirty s' = ∅ /\
     n = length (List.filter (fun m => bool_decide (is_Some (devices s !! m))) (iter (SqliteStore.dirty s)))).
Proof.
  intros Hp. unfold SqliteStore.flush. destruct (SqliteStore.poisoned s) eqn:Epo.
  { intros [= <- <-]. by split_and!. }
  destruct (iter (SqliteStore.dirty s)) as [|m0 macs] eqn:Eit.
  { intros [= <- <-]. split_and!; try done. intros n [= <-]. split; [|done].
    pose proof (iter_elements (SqliteStore.dirty s)) as Hit. rewrite Eit in Hit.
    apply Permutation_nil in Hit. by apply elements_empty_inv, leibniz_equiv in Hit. }
  rewrite <- Eit.
  destruct (SqliteStore.flush_loop _ _ _ _ _ _ _) as [tbl [n|e]] eqn:E;
    apply flush_loop_spec in E as (Hp' & _ & Hok); try done; intros [= <- <-]; rewrite ?Epo in Hp'.
  - destruct (Hok n eq_refl) as [Hn Hcur]. simpl. rewrite flush_empties. split.
    + destruct Hp' as [H1 H2 H3]. split; simpl in *; [done|done|]. intros m d Hd _.
      destruct (decide (m ∈ SqliteStore.dirty s)) as [Hin|Hout]; [|by apply H3].
      apply Hcur; [|done]. by rewrite iter_elements, elem_of_elements.
    + split; [done|]. split; [done|]. intros n' [= <-]. split; [done|]. lia.
  - by split_and!.
Qed.

Lemma upsert_persistent s d :
  persistent s -> store_op_ok s (OpUpsert d) -> persistent (SqliteStore.upsert s d).1.
Proof.
  intros [H1 H2 H3] [Hrep Hfs]. split; simpl.
  - apply map_Forall_insert_2; done.
  - intros k row Hk. destruct (H2 k row Hk) as (d0 & d' & -> & Hd0 & Hm & Hr & Hrow & Hf).
    destruct (decide (Device.mac d0 = Device.mac d)) as [Heq|Hne].
    + exists d, d'. rewrite Heq, lookup_insert_eq. rewrite Heq in Hd0.
      split_and!; try done; [congruence|]. rewrite Hf. by apply Hfs.
    + exists d0, d'. rewrite lookup_insert_ne by done. by split_and!.
  - intros m d0 Hd0 Hnd. apply not_elem_of_union in Hnd as [Hne Hnd].
    rewrite not_elem_of_singleton in Hne. rewrite lookup_insert_ne in Hd0 by done. by apply H3.
Qed.

Lemma store_ops_persistent s os :
  persistent s -> store_ops_ok bind_error iter s os ->
  persistent (foldl (apply_store_op bind_error iter) s os).
Proof.
  revert s. induction os as [|o os IH]; intros s Hp; simpl; [done|]. intros [Ho Hos].
  apply IH; [|done]. destruct o as [d|io]; simpl.
  - by apply upsert_persistent.
  - destruct (SqliteStore.flush _ _ io s) as [s' res] eqn:E. by apply flush_persistent in E as [? _].
Qed.

(** * Loading *)

Lemma insert_devices_lookup (ds : list Device.t) (m0 : gmap MacAddress Device.t) :
  NoDup (Device.mac <$> ds) ->
  let m := foldl (fun m d => <[Device.mac d := d]> m) m0 ds in
  (forall d, d ∈ ds -> m !! Device.mac d = Some d) /\
  (forall k, k ∉ Device.mac <$> ds -> m !! k = m0 !! k).
Proof.
  revert m0. induction ds as [|d ds IH]; intros m0 Hnd; simpl.
  { split; [|done]. intros d Hd. by apply not_elem_of_nil in Hd. }
  apply NoDup_cons in Hnd as [Hd Hnd]. destruct (IH (<[Device.mac d := d]> m0) Hnd) as [H1 H2]. split.
  - intros d' [->|Hin]%elem_of_cons; [|by apply H1]. rewrite H2 by done. apply lookup_insert_eq.
  - intros k [Hne Hk]%not_elem_of_cons. rewrite H2 by done. by rewrite lookup_insert_ne.
Qed.

Lemma load_all_spec now rows ds c n :
  Forall2 (fun r d => row_to_device now r = Some d) rows ds ->
  SqliteStore.load_all row_error now rows c n =
    Ok (MemoryStore.mk (foldl (fun m d => <[Device.mac d := d]> m) (MemoryStore.devices c) ds),
        (n + length ds)%nat).
Proof.
  intros H. revert c n. induction H as [|r d rows ds Hr Hrows IH]; intros c n; simpl.
  - rewrite Nat.add_0_r. by destruct c.
  - rewrite Hr. simpl. rewrite IH. simpl. by rewrite <- Nat.add_succ_comm.
Qed.

Lemma rows_source s rows r :
  persistent s -> rows ≡ₚ (map_to_list (SqliteStore.conn s)).*2 ->
  r ∈ rows <-> exists d', row_of_some s r d'.
Proof.
  intros Hp Hperm. rewrite Hperm, list_elem_of_fmap. split.
  - intros ([k row] & -> & Hin). apply elem_of_map_to_list in Hin. simpl.
    destruct (p_rows _ Hp _ _ Hin) as (d & d' & -> & _ & Hm & Hrep & Hrow & _).
    exists d'. split; [done|]. split; [done|]. by rewrite Hm.
  - intros (d' & _ & _ & Hl). exists (mac_to_string (Device.mac d'), r). by rewrite elem_of_map_to_list.
Qed.

Lemma rows_distinct s rows :
  persistent s -> rows ≡ₚ (map_to_list (SqliteStore.conn s)).*2 -> NoDup (DeviceRow.mac <$> rows).
Proof.
  intros Hp ->. assert (DeviceRow.mac <$> (map_to_list (SqliteStore.conn s)).*2 =
    (map_to_list (SqliteStore.conn s)).*1) as ->; [|apply NoDup_fst_map_to_list].
  rewrite <- list_fmap_compose. apply list_fmap_ext. intros i [k row] Hi. simpl.
  apply list_elem_of_lookup_2, elem_of_map_to_list in Hi.
  destruct (p_rows _ Hp _ _ Hi) as (d & d' & -> & _ & Hm & _ & Hrow & _).
  by rewrite (row_of_device_mac _ _ Hrow), Hm.
Qed.

(** The devices behind the rows of a persistent store. *)
Lemma rows_decode s rows now :
  persistent s -> rows ≡ₚ (map_to_list (SqliteStore.conn s)).*2 ->
  exists ds, Forall2 (fun r d => row_to_device now r = Some d) rows ds /\
    NoDup (Device.mac <$> ds) /\
    (forall e, e ∈ ds <-> exists d' row, row_of_some s row d' /\ e = to_millis d').
Proof.
  intros Hp Hperm. pose proof (rows_distinct _ _ Hp Hperm) as Hnd.
  assert (forall r, r ∈ rows <-> exists d', row_of_some s r d') as Hiff
    by (intros r; by apply rows_source).
  assert (exists ds, Forall2 (fun r d => exists d', row_of_some s r d' /\ d = to_millis d') rows ds)
    as [ds Hds].
  { assert (forall r, r ∈ rows -> exists d', row_of_some s r d') as Hdec by (intros r; apply Hiff).
    clear Hiff Hnd Hperm. induction rows as [|r rows IH]; [exists []; constructor|].
    destruct IH as [ds Hds]; [intros r' Hr'; apply Hdec; by right|].
    destruct (Hdec r) as (d' & ?); [left|]. exists (to_millis d' :: ds).
    constructor; [by exists d' | done]. }
  exists ds. split; [|split].
  - eapply Forall2_impl; [exact Hds|]. intros r d (d' & (Hrep & Hrow & _) & ->). by eapply row_roundtrip.
  - clear Hiff Hperm. induction Hds as [|r d rows ds (d' & (Hrep & Hrow & _) & ->) Hds IH]; [constructor|].
    apply NoDup_cons in Hnd as [Hr Hnd]. apply NoDup_cons. split; [|by apply IH].
    intros Hin. apply Hr. rewrite (row_of_device_mac _ _ Hrow). simpl in Hin.
    apply list_elem_of_fmap in Hin as (e & He & Hin). apply list_elem_of_lookup in Hin as [i Hi].
    destruct (Forall2_lookup_r _ _ _ _ _ Hds Hi) as (r1 & Hr1 & d1 & (_ & Hrow1 & _) & ->).
    apply list_elem_of_fmap. exists r1. simpl in He. rewrite He, (row_of_device_mac _ _ Hrow1).
    split; [done | by eapply list_elem_of_lookup_2].
  - intros e. split.
    + intros Hin. apply list_elem_of_lookup in Hin as [i Hi].
      destruct (Forall2_lookup_r _ _ _ _ _ Hds Hi) as (r1 & _ & d1 & ? & ->). by exists d1, r1.
    + intros (d' & row & (Hrep & Hrow & Hl) & ->).
      assert (row ∈ rows) as Hin by (apply Hiff; by exists d').
      apply list_elem_of_lookup in Hin as [i Hi].
      destruct (Forall2_lookup_l _ _ _ _ _ Hds Hi) as (e & He & d1 & (Hrep1 & Hrow1 & _) & ->).
      pose proof (row_roundtrip 0 _ _ Hrep Hrow) as H1. pose proof (row_roundtrip 0 _ _ Hrep1 Hrow1) as H2.
      assert (to_millis d' = to_millis d1) as -> by congruence. by eapply list_elem_of_lookup_2.
Qed.

Lemma get_with_cache d s :
  MemoryStore.get (SqliteStore.cache (with_cache d s)) (Device.mac d) = Ok (Some d).
Proof. unfold MemoryStore.get. simpl. by rewrite lookup_insert_eq. Qed.

Lemma fresh_persistent : persistent fresh_store.
Proof. split; simpl; [apply map_Forall_empty | apply map_Forall_empty | done]. Qed.

(** Loading the table of a persistent store. *)
Lemma load_persistent s rows now :
  persistent s -> rows ≡ₚ (map_to_list (SqliteStore.conn s)).*2 ->
  exists c, SqliteStore.load_all row_error now rows MemoryStore.new 0 = Ok (c, length rows) /\
    (forall m d, MemoryStore.devices c !! m = Some d <->
       exists d' row, row_of_some s row d' /\ d = to_millis d' /\ m = Device.mac d').
Proof.
  intros Hp Hperm. destruct (rows_decode s rows now Hp Hperm) as (ds & Hds & Hnd & Hin).
  eexists. split.
  - rewrite (load_all_spec now rows ds) by done. by rewrite (Forall2_length _ _ _ Hds).
  - destruct (insert_devices_lookup ds ∅ Hnd) as [H1 H2]. simpl. intros m d. split.
    + intros Hl. destruct (decide (m ∈ Device.mac <$> ds)) as [Hm|Hm].
      * apply list_elem_of_fmap in Hm as (d0 & -> & Hd0). rewrite H1 in Hl by done. injection Hl as <-.
        apply Hin in Hd0 as (d' & row & Hr & ->). by exists d', row.
      * rewrite H2 in Hl by done. done.
    + intros (d' & row & Hr & -> & ->). change (Device.mac d') with (Device.mac (to_millis d')).
      apply H1, Hin. by exists d', row.
Qed.

(** The device a row of the table came from, and the cached one. *)
Lemma row_of_some_cached s row d' :
  persistent s -> row_of_some s row d' ->
  exists d, devices s !! Device.mac d' = Some d /\
    deserialize_iso8601 (Device.first_seen d') = deserialize_iso8601 (Device.first_seen d) /\
    (Device.mac d' ∉ SqliteStore.dirty s -> to_millis d' = to_millis d).
Proof.
  intros Hp (Hrep & Hrow & Hl).
  destruct (p_rows _ Hp _ _ Hl) as (d & d1 & Hk & Hd & Hm1 & Hrep1 & Hrow1 & Hfs).
  destruct (p_cache _ Hp _ _ Hd) as [_ Hrepd].
  apply mac_to_string_inj in Hk; [|apply Hrep | apply Hrepd].
  pose proof (row_roundtrip 0 _ _ Hrep Hrow) as E1. pose proof (row_roundtrip 0 _ _ Hrep1 Hrow1) as E2.
  assert (to_millis d' = to_millis d1) as Heq by congruence.
  exists d. rewrite Hk. split; [done|]. split.
  - rewrite <- Hfs. by apply (f_equal Device.first_seen) in Heq.
  - intros Hnd. destruct (p_clean _ Hp _ _ Hd Hnd) as (r & Hr & Hlr).
    rewrite <- Hk, Hl in Hlr. injection Hlr as <-.
    pose proof (row_roundtrip 0 _ _ Hrepd Hr) as E3. congruence.
Qed.

(** A table nothing waits to be written to loads as the cache. *)
Lemma load_clean s rows now :
  persistent s -> SqliteStore.dirty s = ∅ -> rows ≡ₚ (map_to_list (SqliteStore.conn s)).*2 ->
  exists c, SqliteStore.load_all row_error now rows MemoryStore.new 0 = Ok (c, length rows) /\
    MemoryStore.devices c = to_millis <$> devices s.
Proof.
  intros Hp Hempty Hperm. destruct (load_persistent s rows now Hp Hperm) as (c & Hload & Hc).
  exists c. split; [done|]. apply map_eq. intros m. rewrite lookup_fmap.
  destruct (devices s !! m) as [d|] eqn:Ed; simpl.
  - destruct (p_clean _ Hp _ _ Ed) as (row & Hrow & Hl); [rewrite Hempty; apply not_elem_of_empty|].
    destruct (p_cache _ Hp _ _ Ed) as [<- Hrep]. apply Hc. by exists d, row.
  - destruct (MemoryStore.devices c !! m) as [e|] eqn:Ee; [|done].
    apply Hc in Ee as (d' & row & Hr & -> & ->).
    destruct (row_of_some_cached s row d' Hp Hr) as (d & Hd & _). congruence.
Qed.

(** A reopened store keeps the invariant, whatever was dirty when it closed. *)
Lemma reopened_persistent s rows now c n :
  persistent s -> rows ≡ₚ (map_to_list (SqliteStore.conn s)).*2 ->
  SqliteStore.load_all row_error now rows MemoryStore.new 0 = Ok (c, n) ->
  persistent (SqliteStore.mk c ∅ (SqliteStore.conn s) false).
Proof.
  intros Hp Hperm Hload. destruct (load_persistent s rows now Hp Hperm) as (c' & Hload' & Hc).
  assert (c' = c) as -> by congruence. split; simpl.
  - intros m d (d' & row & (Hrep & _) & -> & ->)%Hc. split; [done | by apply representable_millis].
  - intros k row Hk. destruct (p_rows _ Hp _ _ Hk) as (d & d' & -> & _ & Hm & Hrep & Hrow & _).
    exists (to_millis d'), d'. simpl. rewrite Hm, deserialize_iso8601_idemp. split_and!; try done.
    apply Hc. exists d', row. unfold row_of_some. by rewrite Hm.
  - intros m d (d' & row & (_ & Hrow & Hl) & -> & ->)%Hc _. exists row. by rewrite row_of_millis.
Qed.
End StoreFacts.

(** * Properties *)

(** C13: devices survive a restart.  After any history of upserts and flushes
    on a fresh database, failed flushes included, the database opens again,
    whatever order the query yields the rows in: every device loaded is one
    the cache knew, first seen at the same time, and every device that was
    not waiting for a flush comes back complete, its times cut to the
    millisecond; so when nothing is dirty, what is loaded is the cache. *)
Theorem sqlite_restart {MT : MacText} {IT : IpText} {CH : Chrono} {SJ : SerdeJson}
  {ML : MacTextLaws} {IL : IpTextLaws} {CL : ChronoLaws} {SL : SerdeJsonLaws}
  (bind_error row_error : string) (iter : gset MacAddress -> list MacAddress)
  (os : list store_op) (rows : list DeviceRow.t) (now : Timestamp) :
  let s := foldl (apply_store_op bind_error iter) fresh_store os in
  (forall ds, iter ds ≡ₚ elements ds) -> store_ops_ok bind_error iter fresh_store os ->
  rows ≡ₚ (map_to_list (SqliteStore.conn s)).*2 ->
  exists c, SqliteStore.load_all row_error now rows MemoryStore.new 0 = Ok (c, length rows) /\
    (forall m e, MemoryStore.get c m = Ok (Some e) -> exists d,
       SqliteStore.get s m = Ok (Some d) /\ Device.mac e = m /\
       Device.first_seen e = deserialize_iso8601 (Device.first_seen d)) /\
    (forall m d, SqliteStore.get s m = Ok (Some d) -> m ∉ SqliteStore.dirty s ->
       MemoryStore.get c m = Ok (Some (to_millis d))) /\
    (SqliteStore.dirty s = ∅ ->
       MemoryStore.devices c = to_millis <$> MemoryStore.devices (SqliteStore.cache s)).
Proof.
  intros s Hiter Hos Hperm.
  assert (persistent s) as Hp by (apply store_ops_persistent; [done | apply fresh_persistent | done]).
  destruct (load_persistent row_error s rows now Hp Hperm) as (c & Hload & Hc).
  assert (forall m d, MemoryStore.devices (SqliteStore.cache s) !! m = Some d ->
    m ∉ SqliteStore.dirty s -> MemoryStore.devices c !! m = Some (to_millis d)) as Hclean.
  { intros m d Hd Hnd. destruct (p_clean _ Hp _ _ Hd Hnd) as (row & Hrow & Hl).
    destruct (p_cache _ Hp _ _ Hd) as [<- Hrep]. apply Hc. by exists d, row. }
  exists c. unfold SqliteStore.get, MemoryStore.get. split_and!; [done| | |].
  - intros m e [= He]. apply Hc in He as (d' & row & Hr & -> & ->).
    destruct (row_of_some_cached s row d' Hp Hr) as (d & Hd & Hfs & _). exists d. by rewrite Hd, <- Hfs.
  - intros m d [= Hd] Hnd. by rewrite (Hclean m d).
  - intros Hempty. destruct (load_clean row_error s rows now Hp Hempty Hperm) as (c' & Hload' & Hc').
    assert (c' = c) as -> by congruence. exact Hc'.
Qed.

(** C21: what one flush does, from any state an earlier history can leave.
    It never touches the cache.  When it succeeds nothing is dirty any more
    and every device has its current row; when it fails, everything that
    was dirty stays dirty, so nothing is lost.  And one dirty device with a
    counter above [i64::MAX] makes every flush fail. *)
Theorem sqlite_flush_outcome {MT : MacText} {IT : IpText} {CH : Chrono} {SJ : SerdeJson}
  {ML : MacTextLaws} {IL : IpTextLaws} {CL : ChronoLaws} {SL : SerdeJsonLaws}
  (bind_error : string) (iter : gset MacAddress -> list MacAddress) (os : list store_op) (io : sql_io) :
  let s := foldl (apply_store_op bind_error iter) fresh_store os in
  (forall ds, iter ds ≡ₚ elements ds) -> store_ops_ok bind_error iter fresh_store os ->
  let (s', res) := SqliteStore.flush bind_error iter io s in
  SqliteStore.cache s' = SqliteStore.cache s /\
  match res with
  | Ok _ => SqliteStore.dirty s' = ∅ /\
      forall m d, SqliteStore.get s m = Ok (Some d) ->
        exists row, row_of_device d = Some row /\ SqliteStore.conn s' !! mac_to_string m = Some row
  | Err _ => SqliteStore.dirty s' = SqliteStore.dirty s
  end /\
  (forall m d, m ∈ SqliteStore.dirty s -> SqliteStore.get s m = Ok (Some d) -> ~ counters_fit d ->
     is_ok res = false).
Proof.
  intros s Hiter Hos.
  assert (persistent s) as Hp by (apply store_ops_persistent; [done | apply fresh_persistent | done]).
  destruct (SqliteStore.flush bind_error iter io s) as [s' res] eqn:E.
  pose proof (flush_persistent bind_error iter Hiter s io s' res Hp E) as (Hp' & Hc & Herr & Hok).
  assert (forall n, res = Ok n -> forall m d, SqliteStore.get s m = Ok (Some d) ->
    exists row, row_of_device d = Some row /\ SqliteStore.conn s' !! mac_to_string m = Some row) as Hcur.
  { intros n -> m d [= Hd]. destruct (Hok n eq_refl) as [Hempty _].
    rewrite <- Hc in Hd. apply (p_clean _ Hp' m d Hd). rewrite Hempty; apply not_elem_of_empty. }
  split; [done|]. split.
  - destruct res as [n|e]; [|by apply Herr]. split; [by apply (Hok n)|]. by apply (Hcur n).
  - intros m d _ Hd Hfit. destruct res as [n|e]; [|done]. destruct Hfit.
    destruct (Hcur n eq_refl m d Hd) as (row & Hrow & _). apply row_of_device_fits. by eexists.
Qed.

(** C29: a flush can lose an update.  If a device is upserted again after a
    flush wrote its row and before that flush clears its snapshot, then when
    both are finished nothing is dirty, the row is still the old one, and
    every later flush reports success without writing it; the doc comment
    of [flush] says the next flush catches it. *)
Theorem flush_race_loses_update {MT : MacText} {IT : IpText} {CH : Chrono} {SJ : SerdeJson}
  (bind_error : string) (iter : gset MacAddress -> list MacAddress) (d1 d2 : Device.t) :
  (forall ds, iter ds ≡ₚ elements ds) ->
  Device.mac d1 = Device.mac d2 -> counters_fit d1 ->
  Device.packet_count d1 <> Device.packet_count d2 ->
  exists s, rtc shared_step (mkShared fresh_store None Idle) (mkShared s None Idle) /\
    SqliteStore.get s (Device.mac d2) = Ok (Some d2) /\ SqliteStore.dirty s = ∅ /\
    ~ row_current (SqliteStore.conn s) d2 /\
    forall io, SqliteStore.flush bind_error iter io s = (s, Ok 0%nat).
Proof.
  intros Hiter Hm Hfit Hne. apply row_of_device_fits in Hfit as [row Hrow].
  set (m := Device.mac d1). set (s1 := with_cache d1 fresh_store).
  set (s2 := with_dirty ({[m]} ∪ SqliteStore.dirty s1) s1).
  set (s3 := with_conn (upsert_row row (SqliteStore.conn s2)) s2).
  set (s4 := with_cache d2 s3). set (s5 := with_dirty ({[m]} ∪ SqliteStore.dirty s4) s4).
  set (s6 := with_dirty (SqliteStore.dirty s5 ∖ {[m]}) s5).
  assert (SqliteStore.dirty s6 = ∅) as Hempty by (subst s6 s5 s4 s3 s2 s1; simpl; set_solver).
  exists s6. split_and!; [|apply (get_with_cache d2 s3)|done| |].
  - eapply rtc_l; [apply (StepUpsertCache _ _ d1)|]. eapply rtc_l; [apply StepUpsertDirty|].
    eapply (rtc_l _ _ (mkShared s2 None (Writing [m] [m]))).
    { apply StepFlushStart; [done| |done]. subst s2 s1. simpl.
      rewrite union_empty_r_L, elements_singleton. done. }
    eapply rtc_l; [eapply (StepFlushWrite s2 None m [] [m] d1 row); [|exact Hrow];
      apply (get_with_cache d1 fresh_store)|].
    eapply (rtc_l _ _ (mkShared s4 (Some m) (Writing [] [m]))).
    { subst m. rewrite Hm. apply StepUpsertCache. }
    eapply rtc_l; [apply StepUpsertDirty|]. eapply rtc_l; [apply StepFlushWritten|].
    eapply rtc_l; [apply StepFlushClear|]. eapply rtc_l; [apply StepFlushEnd|]. apply rtc_refl.
  - intros (row' & old & Hrow' & Hl). simpl in Hl. unfold upsert_row in Hl. simpl in Hl.
    rewrite lookup_empty in Hl. rewrite (row_of_device_mac _ _ Hrow), <- Hm in Hl. fold m in Hl.
    rewrite lookup_insert_eq in Hl. injection Hl as Hl. apply Hne.
    apply (f_equal DeviceRow.packet_count) in Hl. simpl in Hl.
    by rewrite <- (row_of_device_packet_count _ _ Hrow), Hl, (row_of_device_packet_count _ _ Hrow').
  - intros io. unfold SqliteStore.flush. simpl. fold s6.
    assert (iter (SqliteStore.dirty s6) = []) as Hit.
    { rewrite Hempty. pose proof (Hiter ∅) as Hit. rewrite elements_empty in Hit.
      symmetry in Hit. by apply Permutation_nil in Hit. }
    simpl in Hit. by rewrite Hit.
Qed.

(** * Witnesses *)

#[local] Existing Instances ref_mac_text std_ip_text ref_chrono ref_serde_json.

Definition demo_at (packets : Z) : Device.t :=
  Device.mk (mkMac 2 0 0 0 0 1) {[V4 3232235777]} (Some "printer") 1700000000123456789
    1700000000999999999 packets 100 200 {[Tcp]} None None {[Tcp := packets]}.
Definition demo_history : list store_op :=
  [OpUpsert (demo_at 1); OpFlush (fun _ => Some "disk full"); OpUpsert (demo_at 2);
   OpFlush (fun _ => None)].

Lemma demo_at_representable n : in_u64 n -> representable (demo_at n).
Proof.
  intros Hn. unfold representable, octets_ok, in_u8, u8_max, chrono_range, ns_per_s. simpl.
  split_and!; try lia; try done; unfold in_u64, u64_max; try lia.
  - apply set_Forall_singleton. simpl. unfold u32_max. lia.
  - by apply set_Forall_singleton.
  - by apply map_Forall_singleton.
Qed.
Lemma demo_history_ok : store_ops_ok "out of range" elements fresh_store demo_history.
Proof.
  assert (forall n d0, 0 <= n -> MemoryStore.devices (MemoryStore.upsert MemoryStore.new (demo_at n)).1
      !! Device.mac (demo_at 2) = Some d0 ->
    deserialize_iso8601 (Device.first_seen d0) = deserialize_iso8601 (Device.first_seen (demo_at 2))) as Hfs.
  { intros n d0 _ H. change (Device.mac (demo_at 2)) with (Device.mac (demo_at n)) in H. simpl in H.
    rewrite lookup_insert_eq in H. injection H as <-. reflexivity. }
  split; [split; [apply demo_at_representable; unfold in_u64, u64_max; lia | intros d0 H; discriminate H]|].
  split; [exact I|]. split; [|split; exact I].
  split; [apply demo_at_representable; unfold in_u64, u64_max; lia|].
  intros d0. vm_compute SqliteStore.cache. apply (Hfs 1 d0). lia.
Qed.

Definition demo_final : SqliteStore.t :=
  foldl (apply_store_op "out of range" elements) fresh_store demo_history.
Definition demo_rows : list DeviceRow.t := (map_to_list (SqliteStore.conn demo_final)).*2.

Lemma sqlite_restart_witness :
  exists c, SqliteStore.load_all "bad row" 0 demo_rows MemoryStore.new 0 = Ok (c, 1%nat) /\
    MemoryStore.devices c = to_millis <$> MemoryStore.devices (SqliteStore.cache demo_final) /\
    MemoryStore.get c (mkMac 2 0 0 0 0 1) = Ok (Some (to_millis (demo_at 2))).
Proof.
  destruct (@sqlite_restart ref_mac_text std_ip_text ref_chrono ref_serde_json ref_mac_laws std_ip_laws
    ref_chrono_laws ref_serde_json_laws "out of range" "bad row" elements demo_history demo_rows 0)
    as (c & Hload & _ & Hclean & Hall).
  - reflexivity.
  - exact demo_history_ok.
  - reflexivity.
  - exists c. split; [exact Hload|]. split; [apply Hall; vm_compute; reflexivity|].
    apply Hclean; [vm_compute; reflexivity|].
    apply (bool_decide_unpack _). vm_compute. exact I.
Defined.

Lemma sqlite_flush_outcome_witness :
  let s := foldl (apply_store_op "out of range" elements) fresh_store
             [OpUpsert (demo_at (i64_max + 1))] in
  is_ok (SqliteStore.flush "out of range" elements (fun _ => None) s).2 = false.
Proof.
  intros s.
  assert (representable (demo_at (i64_max + 1))) as Hrep.
  { apply demo_at_representable. unfold in_u64, i64_max, u64_max. lia. }
  assert (store_ops_ok "out of range" elements fresh_store [OpUpsert (demo_at (i64_max + 1))]) as Hops.
  { split; [|exact I]. split; [exact Hrep|]. intros d0 H. discriminate H. }
  pose proof (@sqlite_flush_outcome ref_mac_text std_ip_text ref_chrono ref_serde_json ref_mac_laws
    std_ip_laws ref_chrono_laws ref_serde_json_laws "out of range" elements
    [OpUpsert (demo_at (i64_max + 1))] (fun _ => None) (fun _ => reflexivity _) Hops) as H.
  cbv zeta in H. fold s in H.
  destruct (SqliteStore.flush "out of range" elements (fun _ => None) s) as [s' res].
  destruct H as (_ & _ & H). apply (H (mkMac 2 0 0 0 0 1) (demo_at (i64_max + 1))).
  - apply (bool_decide_unpack _). vm_compute. exact I.
  - vm_compute. reflexivity.
  - intros (H1 & _). simpl in H1. unfold i64_max in H1. lia.
Defined.

Lemma flush_race_loses_update_witness :
  exists s, rtc shared_step (mkShared fresh_store None Idle) (mkShared s None Idle) /\
    SqliteStore.get s (mkMac 2 0 0 0 0 1) = Ok (Some (demo_at 2)) /\
    ~ row_current (SqliteStore.conn s) (demo_at 2).
Proof.
  destruct (flush_race_loses_update "out of range" elements (demo_at 1) (demo_at 2))
    as (s & H1 & H2 & _ & H3 & _).
  - reflexivity.
  - reflexivity.
  - unfold counters_fit, i64_max. simpl. lia.
  - discriminate.
  - exists s. split; [exact H1|]. split; [exact H2 | exact H3].
Defined.
