(* ===== verification/HistorySqlite.v ===== *)
(** The device history store, [crates/storage/src/history_sqlite.rs] (the
    trait [DeviceHistoryStore] of [crates/common/src/history_store.rs]): one
    row per device and day, the last snapshot of the day winning, queries by
    date range and the deletion the retention runs.  The table is a finite
    map from its unique key, and dates compare as SQLite compares text, byte
    by byte.  A [LIMIT] that is not an integer for SQLite fails, and so does a
    counter that is none. *)

From S2P Require Import Prelude Text Types Reference Net Json Stores Sqlite.

(** * The trait *)

Class DeviceHistoryStore (H : Type) : Type := {
  hs_insert : H -> Snapshot.t -> H * result unit StorageError;
  hs_list : H -> MacAddress -> option string -> option string -> option nat ->
            result (list Snapshot.t) StorageError;
  hs_delete_before : H -> string -> H * result nat StorageError;
  hs_vacuum : H -> result unit StorageError
}.

(** * Rows *)

Module HistoryRow.
Record t : Type := mk {
  mac : string; snapshot_date : string; snapshot_timestamp : string; ips : string;
  hostname : option string; vendor : option string; dhcp_vendor_class : option string;
  packet_count : Z; bytes_sent : Z; bytes_received : Z;
  protocols : string; protocol_stats : string; first_seen : string; last_seen : string
}.
Definition set_first_seen (f : string) (r : t) : t :=
  mk (mac r) (snapshot_date r) (snapshot_timestamp r) (ips r) (hostname r) (vendor r)
     (dhcp_vendor_class r) (packet_count r) (bytes_sent r) (bytes_received r) (protocols r)
     (protocol_stats r) f (last_seen r).
Definition key (r : t) : string * string := (mac r, snapshot_date r).
End HistoryRow.

Notation history_table := (gmap (string * string) HistoryRow.t).

(** ** The text columns: the same functions as those of [sqlite.rs], which
    [history_sqlite.rs] repeats. *)

Module SqliteHistoryColumns.
Section Columns.
Context {IT : IpText} {SJ : SerdeJson}.
Definition ips_to_json (ips : gset IpAddr) : string := Sqlite.ips_to_json ips.
Definition ips_from_json (s : string) : gset IpAddr := Sqlite.ips_from_json s.
Definition protocols_to_json (ps : gset Protocol) : string := Sqlite.protocols_to_json ps.
Definition protocols_from_json (s : string) : gset Protocol := Sqlite.protocols_from_json s.
Definition stats_to_json (stats : gmap Protocol Z) : string := protocol_stats_to_json stats.
Definition stats_from_json (s : string) : gmap Protocol Z := protocol_stats_from_json s.
End Columns.
End SqliteHistoryColumns.

Section Rows.
Context {MT : MacText} {IT : IpText} {CH : Chrono} {SJ : SerdeJson}.
Import SqliteHistoryColumns.

Definition row_of_snapshot (x : Snapshot.t) : option HistoryRow.t :=
  packet_count ← bind_u64 (Snapshot.packet_count x);
  bytes_sent ← bind_u64 (Snapshot.bytes_sent x);
  bytes_received ← bind_u64 (Snapshot.bytes_received x);
  Some (HistoryRow.mk (mac_to_string (Snapshot.mac x)) (Snapshot.snapshot_date x)
    (timestamp_display (Snapshot.snapshot_timestamp x)) (ips_to_json (Snapshot.ips x))
    (Snapshot.hostname x) (Snapshot.vendor x) (Snapshot.dhcp_vendor_class x)
    packet_count bytes_sent bytes_received (protocols_to_json (Snapshot.protocols x))
    (stats_to_json (Snapshot.protocol_stats x))
    (timestamp_display (Snapshot.first_seen x)) (timestamp_display (Snapshot.last_seen x))).

(** [parse_timestamp], at the time [now]. *)
Definition parse_timestamp (now : Timestamp) (s : string) : Timestamp := default now (parse_datetime s).

(** [row_to_snapshot]. *)
Definition row_to_snapshot (now : Timestamp) (r : HistoryRow.t) : option Snapshot.t :=
  packet_count ← column_u64 (HistoryRow.packet_count r);
  bytes_sent ← column_u64 (HistoryRow.bytes_sent r);
  bytes_received ← column_u64 (HistoryRow.bytes_received r);
  mac ← mac_parse (HistoryRow.mac r);
  Some (Snapshot.mk mac (HistoryRow.snapshot_date r)
    (parse_timestamp now (HistoryRow.snapshot_timestamp r)) (ips_from_json (HistoryRow.ips r))
    (HistoryRow.hostname r) (HistoryRow.vendor r) (HistoryRow.dhcp_vendor_class r)
    packet_count bytes_sent bytes_received (protocols_from_json (HistoryRow.protocols r))
    (stats_from_json (HistoryRow.protocol_stats r))
    (parse_timestamp now (HistoryRow.first_seen r)) (parse_timestamp now (HistoryRow.last_seen r))).
End Rows.

(** * The store *)

(** [snapshot_date >= from AND snapshot_date <= to], each bound optional. *)
Definition in_date_range (from to : option string) (date : string) : bool :=
  match from with Some f => String.leb f date | None => true end &&
  match to with Some t => String.leb date t | None => true end.

Module SqliteHistoryStore.
Section Operations.
Context {MT : MacText} {IT : IpText} {CH : Chrono} {SJ : SerdeJson}.
Variables (now : Timestamp) (bind_error row_error : string).

(** [open]: an empty path is no store; [existing] is the table of the file,
    empty in a new one. *)
Definition open (path : string) (io : table_io) (existing : history_table)
  : result (option history_table) StorageError :=
  if is_empty path then Ok None
  else open_table "failed to open history database: " "failed to create history schema: " io existing.

(** [INSERT ... ON CONFLICT(mac, snapshot_date) DO UPDATE]: every column but
    [first_seen]. *)
Definition upsert_history (r : HistoryRow.t) (tbl : history_table) : history_table :=
  match tbl !! HistoryRow.key r with
  | Some old => <[HistoryRow.key r := HistoryRow.set_first_seen (HistoryRow.first_seen old) r]> tbl
  | None => <[HistoryRow.key r := r]> tbl
  end.

Definition insert_snapshot (tbl : history_table) (x : Snapshot.t)
  : history_table * result unit StorageError :=
  match row_of_snapshot x with
  | None => (tbl, Err (Internal ("snapshot upsert failed: " +:+ bind_error)))
  | Some r => (upsert_history r tbl, Ok tt)
  end.

(** [ORDER BY snapshot_date ASC]. *)
Definition date_asc (a b : HistoryRow.t) : Prop :=
  String.le (HistoryRow.snapshot_date a) (HistoryRow.snapshot_date b).
#[global] Instance date_asc_dec : RelDecision date_asc.
Proof. intros a b. unfold date_asc. apply _. Defined.

Definition selects (m : MacAddress) (from to : option string) (r : HistoryRow.t) : bool :=
  String.eqb (HistoryRow.mac r) (mac_to_string m) && in_date_range from to (HistoryRow.snapshot_date r).

Definition list_history (tbl : history_table) (m : MacAddress) (from to : option string)
  (limit : option nat) : result (list Snapshot.t) StorageError :=
  let? selected :=
    select_limited limit
      (merge_sort date_asc (List.filter (selects m from to) (map_to_list tbl).*2)) in
  match mapM (row_to_snapshot now) selected with
  | Some l => Ok l
  | None => Err (Internal ("row parse failed: " +:+ row_error))
  end.

(** [DELETE ... WHERE snapshot_date < ?1], and the number of rows deleted. *)
Definition delete_before (tbl : history_table) (before_date : string)
  : history_table * result nat StorageError :=
  let tbl' := filter (fun e => String.ltb e.1.2 before_date = false) tbl in
  (tbl', Ok (size tbl - size tbl')%nat).

(** [PRAGMA incremental_vacuum], which changes no row. *)
Definition vacuum (pragma : result unit string) (tbl : history_table) : result unit StorageError :=
  map_err (fun e => Internal ("vacuum failed: " +:+ e)) pragma.
End Operations.
End SqliteHistoryStore.

Section Instances.
Context {MT : MacText} {IT : IpText} {CH : Chrono} {SJ : SerdeJson}.
Variables (now : Timestamp) (bind_error row_error : string).
Definition sqlite_history_store : DeviceHistoryStore history_table := {|
  hs_insert := SqliteHistoryStore.insert_snapshot bind_error;
  hs_list := SqliteHistoryStore.list_history now row_error;
  hs_delete_before := SqliteHistoryStore.delete_before;
  hs_vacuum := SqliteHistoryStore.vacuum (Ok tt)
|}.
End Instances.

(** * The specification *)

(** Snapshots by device and day. *)
Notation history := (gmap (MacAddress * string) Snapshot.t).

Definition snapshot_key (x : Snapshot.t) : MacAddress * string := (Snapshot.mac x, Snapshot.snapshot_date x).
Definition keep_first_seen (old : option Snapshot.t) (x : Snapshot.t) : Snapshot.t :=
  match old with
  | Some o =>
      Snapshot.mk (Snapshot.mac x) (Snapshot.snapshot_date x) (Snapshot.snapshot_timestamp x)
        (Snapshot.ips x) (Snapshot.hostname x) (Snapshot.vendor x) (Snapshot.dhcp_vendor_class x)
        (Snapshot.packet_count x) (Snapshot.bytes_sent x) (Snapshot.bytes_received x)
        (Snapshot.protocols x) (Snapshot.protocol_stats x) (Snapshot.first_seen o)
        (Snapshot.last_seen x)
  | None => x
  end.

Inductive history_op : Type :=
| OpSnapshot (x : Snapshot.t)
| OpDeleteBefore (date : string).

(** Counters that fit the integers of SQLite; other snapshots are refused. *)
Definition snapshot_fits (x : Snapshot.t) : bool :=
  (Snapshot.packet_count x <=? i64_max) && (Snapshot.bytes_sent x <=? i64_max) &&
  (Snapshot.bytes_received x <=? i64_max).
Definition spec_op (h : history) (o : history_op) : history :=
  match o with
  | OpSnapshot x =>
      if snapshot_fits x then <[snapshot_key x := keep_first_seen (h !! snapshot_key x) x]> h else h
  | OpDeleteBefore d => filter (fun e => String.ltb e.1.2 d = false) h
  end.
Definition table_op {MT : MacText} {IT : IpText} {CH : Chrono} {SJ : SerdeJson} (bind_error : string)
  (tbl : history_table) (o : history_op) : history_table :=
  match o with
  | OpSnapshot x => (SqliteHistoryStore.insert_snapshot bind_error tbl x).1
  | OpDeleteBefore d => (SqliteHistoryStore.delete_before tbl d).1
  end.

(** The snapshots a row can hold, and what is read back. *)
Definition snapshot_ok (x : Snapshot.t) : Prop :=
  octets_ok (Snapshot.mac x) /\ set_Forall ip_ok (Snapshot.ips x) /\
  set_Forall protocol_ok (Snapshot.protocols x) /\
  map_Forall (fun p n => protocol_ok p /\ in_u64 n) (Snapshot.protocol_stats x) /\
  chrono_range (Snapshot.snapshot_timestamp x) /\ chrono_range (Snapshot.first_seen x) /\
  chrono_range (Snapshot.last_seen x) /\
  0 <= Snapshot.packet_count x <= i64_max /\ 0 <= Snapshot.bytes_sent x <= i64_max /\
  0 <= Snapshot.bytes_received x <= i64_max.
Definition snapshot_stored (x : Snapshot.t) : Snapshot.t :=
  Snapshot.mk (Snapshot.mac x) (Snapshot.snapshot_date x)
    (deserialize_iso8601 (Snapshot.snapshot_timestamp x)) (Snapshot.ips x) (Snapshot.hostname x)
    (Snapshot.vendor x) (Snapshot.dhcp_vendor_class x) (Snapshot.packet_count x)
    (Snapshot.bytes_sent x) (Snapshot.bytes_received x) (Snapshot.protocols x)
    (Snapshot.protocol_stats x) (deserialize_iso8601 (Snapshot.first_seen x))
    (deserialize_iso8601 (Snapshot.last_seen x)).
(** The snapshots the daemon can take, whatever their counters. *)
Definition snapshot_any (x : Snapshot.t) : Prop :=
  octets_ok (Snapshot.mac x) /\ set_Forall ip_ok (Snapshot.ips x) /\
  set_Forall protocol_ok (Snapshot.protocols x) /\
  map_Forall (fun p n => protocol_ok p /\ in_u64 n) (Snapshot.protocol_stats x) /\
  chrono_range (Snapshot.snapshot_timestamp x) /\ chrono_range (Snapshot.first_seen x) /\
  chrono_range (Snapshot.last_seen x) /\
  in_u64 (Snapshot.packet_count x) /\ in_u64 (Snapshot.bytes_sent x) /\
  in_u64 (Snapshot.bytes_received x).
Definition history_op_ok (o : history_op) : Prop :=
  match o with OpSnapshot x => snapshot_any x | OpDeleteBefore _ => True end.

(** The table holds exactly the rows of the history. *)
Record represents {MT : MacText} {IT : IpText} {CH : Chrono} {SJ : SerdeJson}
  (tbl : history_table) (h : history) : Prop := {
  r_keys : map_Forall (fun k x => snapshot_key x = k /\ snapshot_ok x) h;
  r_rows k r : tbl !! k = Some r <->
    exists x, h !! snapshot_key x = Some x /\ row_of_snapshot x = Some r /\
      k = (mac_to_string (Snapshot.mac x), Snapshot.snapshot_date x)
}.

Definition date_lt (x y : Snapshot.t) : Prop :=
  String.ltb (Snapshot.snapshot_date x) (Snapshot.snapshot_date y) = true.

(** * Lemmas *)

Lemma ltb_leb a b : String.ltb a b = negb (String.leb b a).
Proof. unfold String.ltb, String.leb. rewrite String.compare_antisym. by destruct (String.compare b a). Qed.

Section Facts.
Context {MT : MacText} {IT : IpText} {CH : Chrono} {SJ : SerdeJson}.
Context {ML : MacTextLaws} {IL : IpTextLaws} {CL : ChronoLaws} {SL : SerdeJsonLaws}.
Import SqliteHistoryStore.

Lemma row_of_snapshot_ok x :
  snapshot_ok x -> exists r, row_of_snapshot x = Some r /\
    HistoryRow.key r = (mac_to_string (Snapshot.mac x), Snapshot.snapshot_date x) /\
    HistoryRow.first_seen r = timestamp_display (Snapshot.first_seen x).
Proof.
  intros (_ & _ & _ & _ & _ & _ & _ & Hp & Hs & Hr). unfold row_of_snapshot, bind_u64.
  rewrite !(proj2 (Z.leb_le _ _)) by lia. cbn [mbind option_bind]. by eexists.
Qed.

Lemma snapshot_row_roundtrip now x r :
  snapshot_ok x -> row_of_snapshot x = Some r -> row_to_snapshot now r = Some (snapshot_stored x).
Proof.
  intros (Hm & Hi & Hps & Hst & Ht & Hf & Hl & Hp & Hs & Hr) Hrow.
  unfold row_of_snapshot, bind_u64 in Hrow. rewrite !(proj2 (Z.leb_le _ _)) in Hrow by lia.
  cbn [mbind option_bind] in Hrow. injection Hrow as <-.
  unfold row_to_snapshot, column_u64, parse_timestamp, timestamp_display.
  cbn [HistoryRow.mac HistoryRow.snapshot_date HistoryRow.snapshot_timestamp HistoryRow.ips
    HistoryRow.hostname HistoryRow.vendor HistoryRow.dhcp_vendor_class HistoryRow.packet_count
    HistoryRow.bytes_sent HistoryRow.bytes_received HistoryRow.protocols HistoryRow.protocol_stats
    HistoryRow.first_seen HistoryRow.last_seen].
  rewrite !(proj2 (Z.leb_le 0 _)) by lia. cbn [mbind option_bind].
  rewrite mac_parse_to_string by done. cbn [mbind option_bind].
  by rewrite !parse_fmt_iso8601, ips_roundtrip, protocols_roundtrip, protocol_stats_column_roundtrip.
Qed.

(** Keys determine snapshots. *)
Lemma key_inj x y :
  snapshot_ok x -> snapshot_ok y ->
  (mac_to_string (Snapshot.mac x), Snapshot.snapshot_date x) =
    (mac_to_string (Snapshot.mac y), Snapshot.snapshot_date y) -> snapshot_key x = snapshot_key y.
Proof.
  intros [Hx _] [Hy _] [= Hm Hd]. unfold snapshot_key. f_equal; [by apply mac_to_string_inj | done].
Qed.

Lemma represents_lookup tbl h x :
  represents tbl h -> snapshot_ok x ->
  tbl !! (mac_to_string (Snapshot.mac x), Snapshot.snapshot_date x) =
    h !! snapshot_key x ≫= row_of_snapshot.
Proof.
  intros Hr Hx. apply option_eq. intros r. rewrite (r_rows _ _ Hr). rewrite bind_Some. split.
  - intros (y & Hy & Hrow & Hk). destruct (r_keys _ _ Hr _ _ Hy) as [_ Hyok].
    apply key_inj in Hk; [|done|done]. exists y. by rewrite Hk.
  - intros (y & Hy & Hrow). destruct (r_keys _ _ Hr _ _ Hy) as [Hky _].
    exists y. rewrite Hky. split_and!; try done. unfold snapshot_key in Hky. by injection Hky as -> ->.
Qed.

Lemma keep_first_seen_facts o x :
  snapshot_ok x -> (forall y, o = Some y -> snapshot_ok y) ->
  snapshot_key (keep_first_seen o x) = snapshot_key x /\ snapshot_ok (keep_first_seen o x) /\
  row_of_snapshot (keep_first_seen o x) =
    (fun r => match o ≫= row_of_snapshot with
              | Some old => HistoryRow.set_first_seen (HistoryRow.first_seen old) r
              | None => r
              end) <$> row_of_snapshot x.
Proof.
  intros Hx Ho. destruct o as [y|]; simpl; [|split; [done|split; [done|by destruct (row_of_snapshot x)]]].
  specialize (Ho y eq_refl). destruct (row_of_snapshot_ok y Ho) as (ry & -> & _ & Hfs).
  split; [done|]. split.
  - destruct Hx as (H1 & H2 & H3 & H4 & H5 & _ & H7). destruct Ho as (_ & _ & _ & _ & _ & Hf & _).
    exact (conj H1 (conj H2 (conj H3 (conj H4 (conj H5 (conj Hf H7)))))).
  - unfold row_of_snapshot. simpl. rewrite Hfs.
    destruct (bind_u64 (Snapshot.packet_count x)); simpl; [|done].
    destruct (bind_u64 (Snapshot.bytes_sent x)); simpl; [|done].
    by destruct (bind_u64 (Snapshot.bytes_received x)).
Qed.

Lemma snapshot_any_ok x : snapshot_any x -> snapshot_fits x = true -> snapshot_ok x.
Proof.
  intros (H1 & H2 & H3 & H4 & H5 & H6 & H7 & H8 & H9 & H10) Hf. unfold snapshot_fits in Hf. bool_to_prop.
  unfold in_u64 in *. refine (conj H1 (conj H2 (conj H3 (conj H4 (conj H5 (conj H6 (conj H7 _))))))). lia.
Qed.
Lemma snapshot_ok_any x : snapshot_ok x -> snapshot_any x /\ snapshot_fits x = true.
Proof.
  intros (H1 & H2 & H3 & H4 & H5 & H6 & H7 & H8 & H9 & H10). split.
  - refine (conj H1 (conj H2 (conj H3 (conj H4 (conj H5 (conj H6 (conj H7 _))))))).
    unfold in_u64, i64_max, u64_max in *. lia.
  - unfold snapshot_fits. by rewrite !(proj2 (Z.leb_le _ _)) by lia.
Qed.

(** An insertion succeeds exactly when the counters fit. *)
Lemma insert_snapshot_fits be tbl x : is_ok (insert_snapshot be tbl x).2 = snapshot_fits x.
Proof.
  unfold insert_snapshot, row_of_snapshot, snapshot_fits, bind_u64.
  destruct (Snapshot.packet_count x <=? i64_max); simpl; [|done].
  destruct (Snapshot.bytes_sent x <=? i64_max); simpl; [|done].
  by destruct (Snapshot.bytes_received x <=? i64_max).
Qed.

Lemma represents_insert be tbl h x :
  represents tbl h -> snapshot_any x ->
  represents (insert_snapshot be tbl x).1 (spec_op h (OpSnapshot x)).
Proof.
  intros Hr Hany. simpl. pose proof (insert_snapshot_fits be tbl x) as Hins.
  destruct (snapshot_fits x) eqn:Hfits.
  2: { unfold insert_snapshot in *. by destruct (row_of_snapshot x). }
  clear Hins. pose proof (snapshot_any_ok x Hany Hfits) as Hx.
  destruct (row_of_snapshot_ok x Hx) as (r & Hrow & Hkey & _).
  set (x' := keep_first_seen (h !! snapshot_key x) x).
  destruct (keep_first_seen_facts (h !! snapshot_key x) x Hx) as (Hk' & Hok' & Hrow').
  { intros y Hy. by apply (r_keys _ _ Hr) in Hy as [_ ?]. }
  fold x' in Hk', Hok', Hrow'. rewrite Hrow, <- (represents_lookup tbl h x Hr Hx), <- Hkey in Hrow'.
  simpl in Hrow'. set (r' := match tbl !! HistoryRow.key r with
                             | Some old => HistoryRow.set_first_seen (HistoryRow.first_seen old) r
                             | None => r end) in Hrow'.
  assert ((insert_snapshot be tbl x).1 = <[HistoryRow.key r := r']> tbl) as ->.
  { unfold insert_snapshot. rewrite Hrow. simpl. unfold upsert_history, r'.
    by destruct (tbl !! HistoryRow.key r). }
  simpl. fold x'. split.
  - apply map_Forall_insert_2; [done | apply (r_keys _ _ Hr)].
  - intros k rk. split.
    + intros Hl. destruct (decide (k = HistoryRow.key r)) as [->|Hne].
      * rewrite lookup_insert_eq in Hl. injection Hl as <-. exists x'. rewrite Hk', lookup_insert_eq.
        split_and!; try done. rewrite Hkey. injection Hk' as -> ->. done.
      * rewrite lookup_insert_ne in Hl by done. apply (r_rows _ _ Hr) in Hl as (y & Hy & Hyr & ->).
        exists y. destruct (decide (snapshot_key x = snapshot_key y)) as [Heq|Hny].
        -- destruct Hne. rewrite Hkey. unfold snapshot_key in Heq. by injection Heq as -> ->.
        -- by rewrite lookup_insert_ne.
    + intros (y & Hy & Hyr & ->). destruct (decide (snapshot_key x = snapshot_key y)) as [Heq|Hny].
      * rewrite Heq, lookup_insert_eq in Hy. injection Hy as <-.
        assert (rk = r') as -> by congruence. rewrite Hkey. injection Hk' as -> ->.
        by rewrite lookup_insert_eq.
      * rewrite lookup_insert_ne in Hy by done. destruct (r_keys _ _ Hr _ _ Hy) as [_ Hyok].
        rewrite lookup_insert_ne; [apply (r_rows _ _ Hr); by exists y|].
        rewrite Hkey. intros Heq. apply Hny. by apply key_inj.
Qed.

Lemma represents_delete tbl h d :
  represents tbl h -> represents (delete_before tbl d).1 (spec_op h (OpDeleteBefore d)).
Proof.
  intros [Hk Hr]. split; simpl.
  - intros k x Hx. apply map_lookup_filter_Some in Hx as [Hx _]. by apply Hk in Hx.
  - intros k r. rewrite map_lookup_filter_Some, Hr. simpl. split.
    + intros [(x & Hx & Hrow & ->) Hd]. exists x. rewrite map_lookup_filter_Some. by split_and!.
    + intros (x & Hx & Hrow & ->). apply map_lookup_filter_Some in Hx as [Hx Hd].
      split; [by exists x | done].
Qed.

Lemma represents_ops be tbl h os :
  Forall history_op_ok os -> represents tbl h ->
  represents (foldl (table_op be) tbl os) (foldl spec_op h os).
Proof.
  intros H. revert tbl h. induction H as [|o os Ho Hos IH]; intros tbl h Hr; simpl; [done|].
  apply IH. destruct o as [x|d]; [by apply represents_insert | by apply represents_delete].
Qed.

Lemma represents_empty : represents ∅ ∅.
Proof. split; [apply map_Forall_empty|]. intros k r. split; [done|]. by intros (x & Hx & _). Qed.

#[global] Instance date_asc_total : Total date_asc.
Proof. intros a b. unfold date_asc. apply total. apply _. Qed.
#[global] Instance date_asc_trans : Transitive date_asc.
Proof. intros a b c. unfold date_asc. apply transitivity. Qed.

(** What a query selects, as snapshots of the history. *)
Lemma selected_rows tbl h m from to r :
  represents tbl h -> octets_ok m ->
  r ∈ List.filter (selects m from to) (map_to_list tbl).*2 <->
  exists x, h !! (m, Snapshot.snapshot_date x) = Some x /\ row_of_snapshot x = Some r /\
    in_date_range from to (Snapshot.snapshot_date x) = true.
Proof.
  intros Hr Hm. rewrite list_elem_of_In, filter_In, <- list_elem_of_In, list_elem_of_fmap.
  unfold selects. split.
  - intros [([k r'] & -> & Hin) Hs]. apply elem_of_map_to_list, (r_rows _ _ Hr) in Hin as (x & Hx & Hrow & _).
    simpl in Hs |- *. destruct (r_keys _ _ Hr _ _ Hx) as [_ Hok].
    destruct (row_of_snapshot_ok x Hok) as (r1 & Hr1 & Hkey & _).
    assert (r1 = r') as -> by congruence. injection Hkey as Hk1 Hk2. rewrite Hk1, Hk2 in Hs.
    apply andb_true_iff in Hs as [Hs Hd]. apply String.eqb_eq, mac_to_string_inj in Hs;
      [|apply Hok | done]. exists x. split_and!; try done. by rewrite <- Hs.
  - intros (x & Hx & Hrow & Hd). destruct (r_keys _ _ Hr _ _ Hx) as [Hk Hok]. injection Hk as Hmx.
    destruct (row_of_snapshot_ok x Hok) as (r1 & Hr1 & Hkey & _).
    assert (r1 = r) as -> by congruence. injection Hkey as Hk1 Hk2. split.
    + exists (HistoryRow.key r, r). split; [done|]. apply elem_of_map_to_list, (r_rows _ _ Hr).
      exists x. unfold snapshot_key, HistoryRow.key. by rewrite Hk1, Hk2, Hmx.
    + by rewrite Hk1, Hk2, Hmx, String.eqb_refl, Hd.
Qed.

Lemma rows_nodup tbl h : represents tbl h -> NoDup (map_to_list tbl).*2.
Proof.
  intros Hr. apply (NoDup_fmap_1 HistoryRow.key).
  assert (HistoryRow.key <$> (map_to_list tbl).*2 = (map_to_list tbl).*1) as ->;
    [|apply NoDup_fst_map_to_list].
  rewrite <- list_fmap_compose. apply list_fmap_ext. intros i [k r] Hi. simpl.
  apply list_elem_of_lookup_2, elem_of_map_to_list, (r_rows _ _ Hr) in Hi as (x & Hx & Hrow & ->).
  destruct (r_keys _ _ Hr _ _ Hx) as [_ Hok].
  destruct (row_of_snapshot_ok x Hok) as (r1 & Hr1 & Hkey & _). congruence.
Qed.

(** Sorted without repetition is strictly sorted. *)
Lemma decoded_dates (l : list HistoryRow.t) (ys : list Snapshot.t) :
  Forall2 (fun r y => Snapshot.snapshot_date y = HistoryRow.snapshot_date r) l ys ->
  StronglySorted date_asc l -> NoDup (HistoryRow.snapshot_date <$> l) -> StronglySorted date_lt ys.
Proof.
  induction 1 as [|r y l ys Hry Hl IH]; intros Hs Hnd; [constructor|].
  apply StronglySorted_inv in Hs as [Hs Hr]. apply NoDup_cons in Hnd as [Hnin Hnd].
  constructor; [by apply IH|]. clear IH Hs Hnd.
  induction Hl as [|r' y' l ys Hry' Hl IH]; [constructor|].
  apply Forall_cons in Hr as [Hr Hr'']. apply not_elem_of_cons in Hnin as [Hne Hnin].
  constructor; [|by apply IH]. unfold date_lt. rewrite Hry, Hry', ltb_leb.
  unfold date_asc, String.le in Hr. apply Is_true_true in Hr.
  destruct (String.leb (HistoryRow.snapshot_date r') (HistoryRow.snapshot_date r)) eqn:E; [|done].
  destruct Hne. by apply String.leb_antisym.
Qed.

Lemma list_history_spec now re tbl h m from to limit :
  represents tbl h -> octets_ok m -> limit_fits limit = true ->
  exists l, list_history now re tbl m from to limit = Ok (apply_limit limit l) /\
    StronglySorted date_lt l /\
    (forall y, y ∈ l <-> exists x, h !! (m, Snapshot.snapshot_date x) = Some x /\
       in_date_range from to (Snapshot.snapshot_date x) = true /\ y = snapshot_stored x).
Proof.
  intros Hr Hm Hfits. unfold list_history, select_limited. rewrite Hfits.
  set (rows := List.filter (selects m from to) (map_to_list tbl).*2).
  pose proof (merge_sort_Permutation date_asc rows) as Hperm.
  assert (forall r, r ∈ merge_sort date_asc rows <-> exists x, h !! (m, Snapshot.snapshot_date x) = Some x /\
    row_of_snapshot x = Some r /\ in_date_range from to (Snapshot.snapshot_date x) = true) as Hin.
  { intros r. rewrite Hperm. by apply selected_rows. }
  assert (exists ys, Forall2 (fun r y => row_to_snapshot now r = Some y /\ exists x,
    h !! (m, Snapshot.snapshot_date x) = Some x /\ row_of_snapshot x = Some r /\
    in_date_range from to (Snapshot.snapshot_date x) = true /\ y = snapshot_stored x /\
    HistoryRow.key r = (mac_to_string m, Snapshot.snapshot_date x))
    (merge_sort date_asc rows) ys) as [ys Hys].
  { assert (forall r, r ∈ merge_sort date_asc rows -> exists x, h !! (m, Snapshot.snapshot_date x) = Some x /\
      row_of_snapshot x = Some r /\ in_date_range from to (Snapshot.snapshot_date x) = true) as Hdec
      by (intros r; apply Hin).
    clear Hin Hperm. induction (merge_sort date_asc rows) as [|r l IH]; [exists []; constructor|].
    destruct IH as [ys Hys]; [intros r' Hr'; apply Hdec; by right|].
    destruct (Hdec r) as (x & Hx & Hrow & Hd); [left|].
    destruct (r_keys _ _ Hr _ _ Hx) as [Hk Hok]. injection Hk as Hk.
    destruct (row_of_snapshot_ok x Hok) as (r1 & Hr1 & Hkey & _). assert (r1 = r) as -> by congruence.
    exists (snapshot_stored x :: ys). constructor; [|done].
    split; [by apply snapshot_row_roundtrip|]. exists x. by rewrite Hkey, Hk. }
  exists ys. split_and!.
  - assert (mapM (row_to_snapshot now) (merge_sort date_asc rows) = Some ys) as Hmap
      by (apply mapM_Some; eapply Forall2_impl; [exact Hys | by intros r y [? _]]).
    unfold apply_limit. destruct limit as [n|]; cbn; [by rewrite (mapM_take _ _ ys)|]. by rewrite Hmap.
  - apply (decoded_dates (merge_sort date_asc rows)).
    + eapply Forall2_impl; [exact Hys|]. intros r y (_ & x & _ & _ & _ & -> & Hkey). by injection Hkey as _ ->.
    + apply StronglySorted_merge_sort; apply _.
    + assert (NoDup (merge_sort date_asc rows)) as Hnd.
      { rewrite Hperm. eapply sublist_NoDup; [by apply (rows_nodup tbl h) | apply filter_sublist]. }
      apply NoDup_fmap_2_strong; [|exact Hnd]. intros r1 r2 H1 H2 Heq.
      apply list_elem_of_lookup in H1 as [i Hi], H2 as [j Hj].
      destruct (Forall2_lookup_l _ _ _ _ _ Hys Hi) as (y1 & _ & _ & x1 & Hx1 & Hr1 & _ & _ & Hk1).
      destruct (Forall2_lookup_l _ _ _ _ _ Hys Hj) as (y2 & _ & _ & x2 & Hx2 & Hr2 & _ & _ & Hk2).
      injection Hk1 as _ Hd1. injection Hk2 as _ Hd2. rewrite Hd1, Hd2 in Heq. rewrite Heq in Hx1.
      congruence.
  - intros y. split.
    + intros Hy. apply list_elem_of_lookup in Hy as [i Hi].
      destruct (Forall2_lookup_r _ _ _ _ _ Hys Hi) as (r & _ & _ & x & ? & _ & ? & -> & _). by exists x.
    + intros (x & Hx & Hd & ->). destruct (r_keys _ _ Hr _ _ Hx) as [_ Hok].
      destruct (row_of_snapshot_ok x Hok) as (r & Hrow & _).
      assert (r ∈ merge_sort date_asc rows) as Hrin by (apply Hin; by exists x).
      apply list_elem_of_lookup in Hrin as [i Hi].
      destruct (Forall2_lookup_l _ _ _ _ _ Hys Hi) as (y & Hy & Hdec & _).
      rewrite (snapshot_row_roundtrip now x r) in Hdec by done. injection Hdec as ->.
      by eapply list_elem_of_lookup_2.
Qed.
End Facts.

(** * Properties *)

(** C30: the history keeps one snapshot per device and day.  After any
    sequence of snapshots and deletions, where a snapshot is refused, and
    changes nothing, exactly when one of its counters is above [i64::MAX], a
    query whose limit is at most [i64::MAX] returns, and never fails to, exactly the snapshots of that device in the date range: for each day
    the last one written, with the time of first sight of the day's first
    one, its times cut to the millisecond, in strictly ascending order of
    their dates; days before a deletion's date are gone; and a limit keeps
    the oldest of them.  With a larger limit the query is an error. *)
Theorem history_store_daily {MT : MacText} {IT : IpText} {CH : Chrono} {SJ : SerdeJson}
  {ML : MacTextLaws} {IL : IpTextLaws} {CL : ChronoLaws} {SL : SerdeJsonLaws}
  (now : Timestamp) (bind_error row_error : string) (os : list history_op) (m : MacAddress)
  (from to : option string) (limit : option nat) :
  let tbl := foldl (table_op bind_error) ∅ os in
  let h := foldl spec_op ∅ os in
  Forall history_op_ok os -> octets_ok m ->
  (forall x, is_ok (SqliteHistoryStore.insert_snapshot bind_error tbl x).2 = snapshot_fits x) /\
  (limit_fits limit = false ->
     SqliteHistoryStore.list_history now row_error tbl m from to limit =
       Err (Internal "row parse failed: datatype mismatch")) /\
  (limit_fits limit = true -> exists l, SqliteHistoryStore.list_history now row_error tbl m from to limit =
      Ok (apply_limit limit l) /\
    StronglySorted date_lt l /\
    forall y, y ∈ l <-> exists x, h !! (m, Snapshot.snapshot_date x) = Some x /\
      in_date_range from to (Snapshot.snapshot_date x) = true /\ y = snapshot_stored x).
Proof.
  intros tbl h Hos Hm. split_and!; [apply insert_snapshot_fits| |].
  { intros Hf. unfold SqliteHistoryStore.list_history, select_limited. by rewrite Hf. }
  intros Hf. apply list_history_spec; [|done|done].
  apply represents_ops; [done | apply represents_empty].
Qed.

#[local] Existing Instances ref_mac_text std_ip_text ref_chrono ref_serde_json.

Definition demo_snapshot (packets : Z) (date : string) : Snapshot.t :=
  Snapshot.from_device (demo_at packets) date (1700000000 * ns_per_s + packets).

Lemma demo_snapshot_ok packets date : 0 <= packets <= 1000 -> snapshot_ok (demo_snapshot packets date).
Proof.
  intros Hp. destruct (demo_at_representable packets) as (H1 & H2 & H3 & H4 & H5 & H6 & _);
    [unfold in_u64, u64_max; lia|].
  refine (conj H1 (conj H2 (conj H3 (conj H4 (conj _ (conj H5 (conj H6 _))))))).
  - unfold chrono_range, ns_per_s. simpl. unfold ns_per_s. lia.
  - unfold i64_max. simpl. lia.
Qed.

Lemma history_store_daily_witness :
  let os := [OpSnapshot (demo_snapshot 1 "2026-07-18"); OpSnapshot (demo_snapshot 2 "2026-07-19");
             OpSnapshot (demo_snapshot 3 "2026-07-19"); OpDeleteBefore "2026-07-19"] in
  exists l, SqliteHistoryStore.list_history 0 "bad row" (foldl (table_op "out of range") ∅ os)
      (mkMac 2 0 0 0 0 1) (Some "2026-07-01") None (Some 5%nat) = Ok (apply_limit (Some 5%nat) l) /\
    snapshot_stored (demo_snapshot 3 "2026-07-19") ∈ l.
Proof.
  intros os.
  destruct (@history_store_daily ref_mac_text std_ip_text ref_chrono ref_serde_json ref_mac_laws
    std_ip_laws ref_chrono_laws ref_serde_json_laws 0 "out of range" "bad row" os
    (mkMac 2 0 0 0 0 1) (Some "2026-07-01") None (Some 5%nat)) as (_ & _ & H).
  - do 3 (apply Forall_cons; split; [apply snapshot_ok_any, demo_snapshot_ok; lia|]).
    apply Forall_cons. split; [exact I | constructor].
  - unfold octets_ok, in_u8, u8_max. simpl. lia.
  - destruct (H eq_refl) as (l & Hl & _ & Hin). exists l. split; [exact Hl|]. apply Hin. exists (demo_snapshot 3 "2026-07-19").
    split; [vm_compute; reflexivity|]. split; reflexivity.
Defined.
