(* ===== verification/Config.v ===== *)
(** The configuration, [crates/config/src/config.rs] and
    [crates/config/src/error.rs]: the structs with their serde defaults, the
    validation of [Config::from_str] and [Config::from_file].

    The TOML parser is not part of the repository.  [toml_from_str] is a
    parameter that yields a [raw] configuration, where a field that carries a
    [#[serde(default)]] may be absent; filling the defaults in is modelled. *)

From S2P Require Import Prelude Text Types.

(** * Defaults *)

Definition default_mqtt_port : Z := 1883.
Definition default_mqtt_topic : string := "edgeshield/devices/new".
Definition default_mqtt_client_id : string := "edgeshield".
Definition default_mqtt_qos : Z := 1.
Definition default_webhook_timeout : Z := 10.
Definition default_email_port : Z := 587.
Definition default_email_starttls : bool := true.
Definition default_email_subject_prefix : string := "[EdgeShield]".
Definition default_history_snapshot_hours : Z := 24.
Definition default_history_retention_days : Z := 90.
Definition default_auth_max_failures : Z := 10.
Definition default_auth_window_seconds : Z := 60.
Definition default_auth_block_seconds : Z := 300.
Definition default_api_bind_address : string := "0.0.0.0".
Definition default_rule_enabled : bool := true.
Definition default_rule_severity : string := "info".
Definition default_scanner_interval : Z := 60.
Definition default_api_port : Z := 8080.
Definition default_log_level : string := "info".
Definition default_capture_buffer : Z := 4096.
Definition default_database_path : string := "".

(** * The structs *)

Module MqttConfig.
Record t : Type := mk {
  host : string; port : Z; topic : string; client_id : string;
  username : option string; password : option string; qos : Z
}.
Record raw : Type := mkRaw {
  r_host : string; r_port : option Z; r_topic : option string; r_client_id : option string;
  r_username : option string; r_password : option string; r_qos : option Z
}.
Definition of_raw (r : raw) : t :=
  mk (r_host r) (default default_mqtt_port (r_port r)) (default default_mqtt_topic (r_topic r))
     (default default_mqtt_client_id (r_client_id r)) (r_username r) (r_password r)
     (default default_mqtt_qos (r_qos r)).
End MqttConfig.

Module NtfyConfig.
Record t : Type := mk {
  base_url : string; topic : string; token : option string;
  priority : option Z; tags : option string
}.
Definition set_base_url (u : string) (n : t) : t :=
  mk u (topic n) (token n) (priority n) (tags n).
End NtfyConfig.

Module WebhookConfig.
Record t : Type := mk {
  url : string; token : option string; headers : gmap string string; timeout_seconds : Z
}.
Record raw : Type := mkRaw {
  r_url : string; r_token : option string; r_headers : option (gmap string string);
  r_timeout_seconds : option Z
}.
Definition of_raw (r : raw) : t :=
  mk (r_url r) (r_token r) (default ∅ (r_headers r))
     (default default_webhook_timeout (r_timeout_seconds r)).
End WebhookConfig.

Module EmailConfig.
Record t : Type := mk {
  host : string; port : Z; username : string; password : string;
  from : string; to : string; starttls : bool; subject_prefix : string
}.
Record raw : Type := mkRaw {
  r_host : string; r_port : option Z; r_username : string; r_password : string;
  r_from : string; r_to : string; r_starttls : option bool; r_subject_prefix : option string
}.
Definition of_raw (r : raw) : t :=
  mk (r_host r) (default default_email_port (r_port r)) (r_username r) (r_password r)
     (r_from r) (r_to r) (default default_email_starttls (r_starttls r))
     (default default_email_subject_prefix (r_subject_prefix r)).
End EmailConfig.

(** [enum RuleConditionConfig]. *)
Inductive RuleConditionConfig : Type :=
| Simple (s : string)
| NewDeviceByVendorCfg (new_device_by_vendor : string)
| NewDeviceByMacPrefixCfg (new_device_by_mac_prefix : string)
| DeviceOfflineCfg (after_seconds : Z).

Module RuleConfig.
Record t : Type := mk {
  name : string; enabled : bool; condition : RuleConditionConfig;
  severity : string; cooldown_seconds : Z
}.
Record raw : Type := mkRaw {
  r_name : string; r_enabled : option bool; r_condition : RuleConditionConfig;
  r_severity : option string; r_cooldown_seconds : option Z
}.
Definition of_raw (r : raw) : t :=
  mk (r_name r) (default default_rule_enabled (r_enabled r)) (r_condition r)
     (default default_rule_severity (r_severity r)) (default 0 (r_cooldown_seconds r)).
End RuleConfig.

Module ScannerConfig.
Record t : Type := mk { interval_seconds : Z }.
Record raw : Type := mkRaw { r_interval_seconds : option Z }.
Definition default_config : t := mk default_scanner_interval.
Definition of_raw (r : raw) : t := mk (default default_scanner_interval (r_interval_seconds r)).
End ScannerConfig.

Module StorageConfig.
Record t : Type := mk { history_snapshot_hours : Z; history_retention_days : Z }.
Record raw : Type := mkRaw {
  r_history_snapshot_hours : option Z; r_history_retention_days : option Z
}.
Definition default_config : t :=
  mk default_history_snapshot_hours default_history_retention_days.
Definition of_raw (r : raw) : t :=
  mk (default default_history_snapshot_hours (r_history_snapshot_hours r))
     (default default_history_retention_days (r_history_retention_days r)).
End StorageConfig.

Module ApiAuthConfig.
Record t : Type := mk {
  read_key_hash : string; admin_key_hash : option string;
  max_failures : Z; window_seconds : Z; block_seconds : Z
}.
Record raw : Type := mkRaw {
  r_read_key_hash : string; r_admin_key_hash : option string;
  r_max_failures : option Z; r_window_seconds : option Z; r_block_seconds : option Z
}.
Definition of_raw (r : raw) : t :=
  mk (r_read_key_hash r) (r_admin_key_hash r)
     (default default_auth_max_failures (r_max_failures r))
     (default default_auth_window_seconds (r_window_seconds r))
     (default default_auth_block_seconds (r_block_seconds r)).
End ApiAuthConfig.

Record ApiTlsConfig : Type := mkApiTlsConfig { cert_path : string; key_path : string }.
Record ApiAuditConfig : Type := mkApiAuditConfig { log_path : string }.

Module ApiConfig.
Record t : Type := mk {
  auth : option ApiAuthConfig.t; tls : option ApiTlsConfig; audit : option ApiAuditConfig
}.
Record raw : Type := mkRaw {
  r_auth : option ApiAuthConfig.raw; r_tls : option ApiTlsConfig; r_audit : option ApiAuditConfig
}.
Definition default_config : t := mk None None None.
Definition of_raw (r : raw) : t := mk (ApiAuthConfig.of_raw <$> r_auth r) (r_tls r) (r_audit r).
End ApiConfig.

Module Config.
Record t : Type := mk {
  interface : string;
  api_port : Z;
  api_bind_address : string;
  api : ApiConfig.t;
  log_level : string;
  capture_buffer : Z;
  database_path : string;
  mqtt : option MqttConfig.t;
  ntfy : option NtfyConfig.t;
  webhook : option WebhookConfig.t;
  email : option EmailConfig.t;
  rules : list RuleConfig.t;
  scanner : ScannerConfig.t;
  storage : StorageConfig.t
}.
Record raw : Type := mkRaw {
  r_interface : string;
  r_api_port : option Z;
  r_api_bind_address : option string;
  r_api : option ApiConfig.raw;
  r_log_level : option string;
  r_capture_buffer : option Z;
  r_database_path : option string;
  r_mqtt : option MqttConfig.raw;
  r_ntfy : option NtfyConfig.t;
  r_webhook : option WebhookConfig.raw;
  r_email : option EmailConfig.raw;
  r_rules : option (list RuleConfig.raw);
  r_scanner : option ScannerConfig.raw;
  r_storage : option StorageConfig.raw
}.

(** [impl Default for Config]. *)
Definition default_config : t :=
  mk "" default_api_port default_api_bind_address ApiConfig.default_config default_log_level
     default_capture_buffer default_database_path None None None None []
     ScannerConfig.default_config StorageConfig.default_config.

(** The derived [Deserialize]: absent fields take their defaults. *)
Definition of_raw (r : raw) : t :=
  mk (r_interface r)
     (default default_api_port (r_api_port r))
     (default default_api_bind_address (r_api_bind_address r))
     (from_option ApiConfig.of_raw ApiConfig.default_config (r_api r))
     (default default_log_level (r_log_level r))
     (default default_capture_buffer (r_capture_buffer r))
     (default default_database_path (r_database_path r))
     (MqttConfig.of_raw <$> r_mqtt r)
     (r_ntfy r)
     (WebhookConfig.of_raw <$> r_webhook r)
     (EmailConfig.of_raw <$> r_email r)
     (RuleConfig.of_raw <$> default [] (r_rules r))
     (from_option ScannerConfig.of_raw ScannerConfig.default_config (r_scanner r))
     (from_option StorageConfig.of_raw StorageConfig.default_config (r_storage r)).

Definition set_ntfy (n : option NtfyConfig.t) (c : t) : t :=
  mk (interface c) (api_port c) (api_bind_address c) (api c) (log_level c) (capture_buffer c)
     (database_path c) (mqtt c) n (webhook c) (email c) (rules c) (scanner c) (storage c).
End Config.

(** * Errors and validation *)

Inductive ConfigError : Type :=
| Read (path source : string)
| Parse (s : string)
| EmptyInterface (s : string)
| EmptyMqttHost
| InvalidMqttQos (qos : Z)
| EmptyNtfyBaseUrl
| EmptyNtfyTopic
| EmptyRuleName
| InvalidSeverity (s : string)
| EmptyAuthKeyHash
| InvalidKeyHashFormat
| EmptyTlsCertPath
| EmptyTlsKeyPath.

Definition config_error_display (e : ConfigError) : string :=
  match e with
  | Read path source => "failed to read config file '" +:+ path +:+ "': " +:+ source
  | Parse s => "failed to parse config: " +:+ s
  | EmptyInterface s => "invalid interface '" +:+ s +:+ "': interface name cannot be empty"
  | EmptyMqttHost => "invalid MQTT config: host cannot be empty"
  | InvalidMqttQos qos => "invalid MQTT QoS " +:+ fmt_uint qos +:+ ": must be 0, 1, or 2"
  | EmptyNtfyBaseUrl => "invalid ntfy config: base_url cannot be empty"
  | EmptyNtfyTopic => "invalid ntfy config: topic cannot be empty"
  | EmptyRuleName => "invalid rule config: name cannot be empty"
  | InvalidSeverity s => "invalid severity: " +:+ s
  | EmptyAuthKeyHash => "invalid API auth config: read_key_hash cannot be empty"
  | InvalidKeyHashFormat =>
      "invalid API auth config: key hash must be 64 hex characters (SHA-256)"
  | EmptyTlsCertPath => "invalid TLS config: cert_path cannot be empty"
  | EmptyTlsKeyPath => "invalid TLS config: key_path cannot be empty"
  end.

Class Toml : Type := { toml_from_str : string -> result Config.raw string }.

(** The format of a key hash: hexadecimal digits, 64 of them. *)
Definition hash_format (s : string) : bool :=
  all_chars is_ascii_hexdigit s && (String.length s =? 64)%nat.
Definition blank (s : string) : bool := is_empty (trim s).

Definition check_interface (c : Config.t) : result unit ConfigError :=
  if blank (Config.interface c) then Err (EmptyInterface (Config.interface c)) else Ok tt.

Definition check_mqtt (c : Config.t) : result unit ConfigError :=
  match Config.mqtt c with
  | None => Ok tt
  | Some mqtt =>
      if blank (MqttConfig.host mqtt) then Err EmptyMqttHost
      else if 2 <? MqttConfig.qos mqtt then Err (InvalidMqttQos (MqttConfig.qos mqtt))
      else Ok tt
  end.

(** Checks, then strips one trailing slash from the base URL. *)
Definition check_ntfy (c : Config.t) : result Config.t ConfigError :=
  match Config.ntfy c with
  | None => Ok c
  | Some ntfy =>
      if blank (NtfyConfig.base_url ntfy) then Err EmptyNtfyBaseUrl
      else if blank (NtfyConfig.topic ntfy) then Err EmptyNtfyTopic
      else
        match strip_suffix "/" (NtfyConfig.base_url ntfy) with
        | Some stripped => Ok (Config.set_ntfy (Some (NtfyConfig.set_base_url stripped ntfy)) c)
        | None => Ok c
        end
  end.

Fixpoint check_rules (rules : list RuleConfig.t) : result unit ConfigError :=
  match rules with
  | [] => Ok tt
  | rule :: rules' =>
      if blank (RuleConfig.name rule) then Err EmptyRuleName
      else
        let? _ := map_err InvalidSeverity (severity_from_str (RuleConfig.severity rule)) in
        check_rules rules'
  end.

Definition check_auth (c : Config.t) : result unit ConfigError :=
  match ApiConfig.auth (Config.api c) with
  | None => Ok tt
  | Some auth =>
      if blank (ApiAuthConfig.read_key_hash auth) then Err EmptyAuthKeyHash
      else if negb (hash_format (ApiAuthConfig.read_key_hash auth)) then Err InvalidKeyHashFormat
      else match ApiAuthConfig.admin_key_hash auth with
           | Some h => if negb (hash_format h) then Err InvalidKeyHashFormat else Ok tt
           | None => Ok tt
           end
  end.

Definition check_tls (c : Config.t) : result unit ConfigError :=
  match ApiConfig.tls (Config.api c) with
  | None => Ok tt
  | Some tls =>
      if blank (cert_path tls) then Err EmptyTlsCertPath
      else if blank (key_path tls) then Err EmptyTlsKeyPath
      else Ok tt
  end.

(** [Config::from_str] behind the parser: the checks in their order. *)
Definition validate (config : Config.t) : result Config.t ConfigError :=
  let? _ := check_interface config in
  let? _ := check_mqtt config in
  let? config := check_ntfy config in
  let? _ := check_rules (Config.rules config) in
  let? _ := check_auth config in
  let? _ := check_tls config in
  Ok config.

Definition config_from_str `{!Toml} (content : string) : result Config.t ConfigError :=
  let? r := map_err Parse (toml_from_str content) in
  validate (Config.of_raw r).

(** [Config::from_file], on what reading the file gave. *)
Definition config_from_file `{!Toml} (path : string) (read : result string string)
  : result Config.t ConfigError :=
  let? content := map_err (Read path) read in
  config_from_str content.

(** ** What a valid configuration is, independently of the order of checks *)

Definition mqtt_valid (m : MqttConfig.t) : Prop :=
  blank (MqttConfig.host m) = false /\ MqttConfig.qos m <= 2.
Definition ntfy_valid (n : NtfyConfig.t) : Prop :=
  blank (NtfyConfig.base_url n) = false /\ blank (NtfyConfig.topic n) = false.
Definition rule_valid (r : RuleConfig.t) : Prop :=
  blank (RuleConfig.name r) = false /\ is_ok (severity_from_str (RuleConfig.severity r)) = true.
Definition auth_valid (a : ApiAuthConfig.t) : Prop :=
  hash_format (ApiAuthConfig.read_key_hash a) = true /\
  from_option (fun h => hash_format h = true) True (ApiAuthConfig.admin_key_hash a).
Definition tls_valid (t : ApiTlsConfig) : Prop :=
  blank (cert_path t) = false /\ blank (key_path t) = false.
Definition config_valid (c : Config.t) : Prop :=
  blank (Config.interface c) = false /\
  from_option mqtt_valid True (Config.mqtt c) /\
  from_option ntfy_valid True (Config.ntfy c) /\
  Forall rule_valid (Config.rules c) /\
  from_option auth_valid True (ApiConfig.auth (Config.api c)) /\
  from_option tls_valid True (ApiConfig.tls (Config.api c)).
(** The only thing validation changes. *)
Definition normalized (c : Config.t) : Config.t :=
  Config.set_ntfy
    ((fun n => NtfyConfig.set_base_url
        (default (NtfyConfig.base_url n) (strip_suffix "/" (NtfyConfig.base_url n))) n)
     <$> Config.ntfy c) c.

(** * Lemmas *)

(** A hash in the right format is not blank. *)
Lemma strip_any_prefix_None l c s :
  (forall w, w ∈ l -> exists d w', w = String d w' /\ d <> c) ->
  strip_any strip_prefix l (String c s) = None.
Proof.
  induction l as [|w l IH]; intros H; simpl; [done|].
  destruct (H w) as (d & w' & -> & Hne); [left|]. simpl.
  rewrite (proj2 (Ascii.eqb_neq d c) Hne). apply IH. intros w'' Hw. apply H. by right.
Qed.

Lemma hexdigit_not_space c w : is_ascii_hexdigit c = true -> w ∈ white_space ->
  exists d w', w = String d w' /\ d <> c.
Proof.
  intros Hc Hw. unfold white_space in Hw. simpl in Hw.
  repeat (apply elem_of_cons in Hw as [->|Hw];
    [eexists _, _; split; [reflexivity|]; intros <-; vm_compute in Hc; discriminate Hc|]).
  by apply not_elem_of_nil in Hw.
Qed.

Lemma trim_start_hex c s :
  is_ascii_hexdigit c = true -> trim_start (String c s) = String c s.
Proof.
  intros Hc. unfold trim_start. cbn [String.length trim_with].
  rewrite strip_any_prefix_None; [done|]. intros w Hw. by apply hexdigit_not_space.
Qed.

Lemma strip_any_suffix_Some l s r :
  strip_any strip_suffix l s = Some r -> exists w, w ∈ l /\ s = r +:+ w.
Proof.
  induction l as [|w l IH]; simpl; [done|].
  destruct (strip_suffix w s) as [r'|] eqn:E.
  - intros [= <-]. apply strip_suffix_Some in E. exists w. split; [left | done].
  - intros H. destruct (IH H) as (w' & Hw & ->). exists w'. split; [by right | done].
Qed.

(** Trimming the end keeps a leading hexadecimal digit. *)
Lemma trim_with_suffix_hex fuel c s :
  is_ascii_hexdigit c = true -> exists s', trim_with strip_suffix fuel (String c s) = String c s'.
Proof.
  intros Hc. revert s. induction fuel as [|fuel IH]; intros s; cbn [trim_with]; [eauto|].
  destruct (strip_any strip_suffix white_space (String c s)) as [r|] eqn:E; [|eauto].
  apply strip_any_suffix_Some in E as (w & Hw & Hs).
  destruct r as [|d r].
  - destruct (hexdigit_not_space c w Hc Hw) as (d & w' & -> & Hne). cbn in Hs. congruence.
  - cbn in Hs. injection Hs as <- ->. apply IH.
Qed.

Lemma hex_not_blank s : all_chars is_ascii_hexdigit s = true -> s <> "" -> blank s = false.
Proof.
  destruct s as [|c s]; [done|]. cbn [all_chars]. rewrite andb_true_iff. intros [Hc _] _.
  unfold blank, trim, trim_end. rewrite trim_start_hex by done.
  by destruct (trim_with_suffix_hex (String.length (String c s)) c s Hc) as [s' ->].
Qed.

Lemma hash_format_not_blank s : hash_format s = true -> blank s = false.
Proof.
  unfold hash_format. rewrite andb_true_iff, Nat.eqb_eq. intros [Hs Hl].
  apply hex_not_blank; [done|]. by intros ->.
Qed.

Lemma check_rules_Ok rules : check_rules rules = Ok tt <-> Forall rule_valid rules.
Proof.
  induction rules as [|r rules IH]; simpl; [by split|]. rewrite Forall_cons, <- IH.
  unfold rule_valid. destruct (blank (RuleConfig.name r)); [naive_solver|].
  destruct (severity_from_str (RuleConfig.severity r)); simpl; naive_solver.
Qed.

Lemma check_mqtt_Ok c : check_mqtt c = Ok tt <-> from_option mqtt_valid True (Config.mqtt c).
Proof.
  unfold check_mqtt. destruct (Config.mqtt c) as [m|]; simpl; [|done]. unfold mqtt_valid.
  destruct (blank (MqttConfig.host m)); [naive_solver|].
  destruct (2 <? MqttConfig.qos m) eqn:E; bool_to_prop; split; intros H; try done; lia.
Qed.

Lemma check_ntfy_Ok c c' :
  check_ntfy c = Ok c' <-> from_option ntfy_valid True (Config.ntfy c) /\ c' = normalized c.
Proof.
  unfold check_ntfy, normalized. destruct (Config.ntfy c) as [n|] eqn:En; simpl.
  2: { assert (Config.set_ntfy None c = c) as -> by (unfold Config.set_ntfy; destruct c; simpl in *; congruence). naive_solver. }
  unfold ntfy_valid.
  destruct (blank (NtfyConfig.base_url n)); [naive_solver|].
  destruct (blank (NtfyConfig.topic n)); [naive_solver|].
  destruct (strip_suffix "/" (NtfyConfig.base_url n)) as [u|]; simpl; [naive_solver|].
  assert (Config.set_ntfy (Some (NtfyConfig.set_base_url (NtfyConfig.base_url n) n)) c = c) as ->
    by (unfold Config.set_ntfy, NtfyConfig.set_base_url; destruct c, n; simpl in *; congruence).
  naive_solver.
Qed.

Lemma check_auth_Ok c :
  check_auth c = Ok tt <-> from_option auth_valid True (ApiConfig.auth (Config.api c)).
Proof.
  unfold check_auth, auth_valid. destruct (ApiConfig.auth (Config.api c)) as [a|]; simpl; [|done].
  destruct (hash_format (ApiAuthConfig.read_key_hash a)) eqn:E.
  - rewrite hash_format_not_blank by done. simpl.
    destruct (ApiAuthConfig.admin_key_hash a) as [h|]; simpl; [|naive_solver].
    destruct (hash_format h); simpl; naive_solver.
  - destruct (blank _); simpl; naive_solver.
Qed.

Lemma check_tls_Ok c :
  check_tls c = Ok tt <-> from_option tls_valid True (ApiConfig.tls (Config.api c)).
Proof.
  unfold check_tls, tls_valid. destruct (ApiConfig.tls (Config.api c)) as [t|]; simpl; [|done].
  destruct (blank (cert_path t)); [naive_solver|]. destruct (blank (key_path t)); naive_solver.
Qed.

Lemma result_bind_Ok {A B E} (m : result A E) (f : A -> result B E) b :
  result_bind m f = Ok b <-> exists a, m = Ok a /\ f a = Ok b.
Proof. destruct m; simpl; naive_solver. Qed.

Lemma validate_Ok c c' : validate c = Ok c' <-> config_valid c /\ c' = normalized c.
Proof.
  assert (forall (m : result unit ConfigError) (P : Prop) (k : unit -> result Config.t ConfigError),
    (m = Ok tt <-> P) -> result_bind m k = Ok c' <-> P /\ k tt = Ok c') as Hstep.
  { intros m P k Hm. rewrite result_bind_Ok, <- Hm. split; [intros ([] & ? & ?)|intros [? ?]]; eauto. }
  unfold validate, config_valid.
  rewrite (Hstep _ (blank (Config.interface c) = false)).
  2: { unfold check_interface. destruct (blank _); naive_solver. }
  rewrite (Hstep _ _ _ (check_mqtt_Ok c)), result_bind_Ok. split.
  - intros (Hi & Hm & c1 & Hn & Hr). apply check_ntfy_Ok in Hn as [Hn ->].
    rewrite (Hstep _ _ _ (check_rules_Ok _)), (Hstep _ _ _ (check_auth_Ok _)),
      (Hstep _ _ _ (check_tls_Ok _)) in Hr.
    destruct Hr as (Hr & Ha & Ht & [= <-]). auto 10.
  - intros [(Hi & Hm & Hn & Hr & Ha & Ht) ->]. split_and!; auto.
    exists (normalized c). split; [by apply check_ntfy_Ok|].
    rewrite (Hstep _ _ _ (check_rules_Ok _)), (Hstep _ _ _ (check_auth_Ok _)),
      (Hstep _ _ _ (check_tls_Ok _)). auto 10.
Qed.

(** * Properties *)

(** A configuration text is accepted exactly when it parses and the
    configuration with its defaults filled in is valid (interface, MQTT,
    ntfy, every rule, authentication and TLS); what comes back is that
    configuration unchanged, except that one trailing slash of the ntfy base
    URL is gone. *)
Theorem config_from_str_accepts `{!Toml} (content : string) (c : Config.t) :
  config_from_str content = Ok c <->
  exists r, toml_from_str content = Ok r /\ config_valid (Config.of_raw r) /\
    c = normalized (Config.of_raw r).
Proof.
  unfold config_from_str. rewrite result_bind_Ok. split.
  - intros (r & Hr & Hv). apply validate_Ok in Hv as [Hv ->].
    destruct (toml_from_str content); simplify_eq/=. eauto.
  - intros (r & Hr & Hv & ->). exists r. rewrite Hr. split; [done|]. by apply validate_Ok.
Qed.

(** Validation reports the first defect in the order interface, MQTT,
    ntfy, rules, authentication, TLS, and a rule with an unknown severity
    makes the whole configuration fail with the parser's message, never pass
    silently. *)
Theorem config_rejects_bad_severity `{!Toml} (content : string) (r : Config.raw)
  (before after : list RuleConfig.raw) (bad : RuleConfig.raw) (msg : string) :
  toml_from_str content = Ok r ->
  Config.r_rules r = Some (before ++ bad :: after) ->
  blank (Config.r_interface r) = false ->
  from_option mqtt_valid True (MqttConfig.of_raw <$> Config.r_mqtt r) ->
  from_option ntfy_valid True (Config.r_ntfy r) ->
  Forall rule_valid (RuleConfig.of_raw <$> before) ->
  blank (RuleConfig.r_name bad) = false ->
  severity_from_str (default default_rule_severity (RuleConfig.r_severity bad)) = Err msg ->
  config_from_str content = Err (InvalidSeverity msg).
Proof.
  intros Ht Hr Hi Hm Hn Hb Hname Hs. unfold config_from_str. rewrite Ht. simpl.
  unfold validate. unfold check_interface. simpl. rewrite Hi. simpl.
  rewrite (proj2 (check_mqtt_Ok (Config.of_raw r)) Hm). simpl.
  rewrite (proj2 (check_ntfy_Ok (Config.of_raw r) _) (conj Hn eq_refl)). simpl.
  assert (check_rules (RuleConfig.of_raw <$> (before ++ bad :: after)) = Err (InvalidSeverity msg))
    as Hc.
  { rewrite fmap_app. induction (RuleConfig.of_raw <$> before) as [|b bs IH]; simpl.
    - rewrite Hname, Hs. done.
    - apply Forall_cons in Hb as [[Hb1 Hb2] Hbs]. rewrite Hb1.
      destruct (severity_from_str (RuleConfig.severity b)); [|done]. simpl. by apply IH. }
  unfold normalized, Config.set_ntfy. simpl. rewrite Hr. simpl. by rewrite Hc.
Qed.

Definition demo_rule (sev : string) : RuleConfig.raw :=
  RuleConfig.mkRaw "new devices" None (Simple "new_device") (Some sev) None.
Definition demo_raw (sev : string) : Config.raw :=
  Config.mkRaw "eth0" None None None None None None None
    (Some (NtfyConfig.mk "https://ntfy.sh/" "edgeshield" None None None)) None None
    (Some [demo_rule "info"; demo_rule sev]) None None.
Definition demo_toml (sev : string) : Toml := {| toml_from_str := fun _ => Ok (demo_raw sev) |}.

Lemma config_rejects_bad_severity_witness :
  @config_from_str (demo_toml "fatal") "" =
    Err (InvalidSeverity "invalid severity 'fatal': expected info, warning, or critical").
Proof.
  apply (@config_rejects_bad_severity (demo_toml "fatal") "" (demo_raw "fatal")
    [demo_rule "info"] [] (demo_rule "fatal")).
  - reflexivity.
  - reflexivity.
  - vm_compute. reflexivity.
  - exact I.
  - split; vm_compute; reflexivity.
  - repeat constructor; vm_compute; reflexivity.
  - vm_compute. reflexivity.
  - vm_compute. reflexivity.
Defined.
