(* ===== verification/Alerts.v ===== *)
(** The contract of an alert store ([trait AlertStore] of
    [crates/common/src/alert_store.rs]) and its in-memory implementation,
    [crates/rules/src/store.rs]. *)

From S2P Require Import Prelude Text Types Reference Stores.

(** Most recent first. *)
Definition newer (a b : Alert.t) : Prop := Alert.timestamp b <= Alert.timestamp a.
#[global] Instance newer_dec : RelDecision newer.
Proof. intros a b. unfold newer. apply _. Defined.

Definition values (m : gmap AlertId Alert.t) : list Alert.t := (map_to_list m).*2.

(** * The contract

    A store is a finite map from identifiers to alerts.  [as_stored] is what
    persisting keeps of an alert (a database may keep fewer digits of a time
  stamp) and [as_ok] the alerts it can persist; [as_inv] is the store's own
    invariant; [as_can_insert] says it has an identifier left; [as_newer] is
    the order of its lists. *)
Class AlertStoreLaws (A : Type) `{!AlertStore A} : Type := {
  as_map : A -> gmap AlertId Alert.t;
  as_inv : A -> Prop;
  as_can_insert : A -> Prop;
  as_ok : Alert.t -> Prop;
  as_stored : Alert.t -> Alert.t;
  as_newer : relation Alert.t;
  as_stored_fields x :
    Alert.rule_name (as_stored x) = Alert.rule_name x /\ Alert.mac (as_stored x) = Alert.mac x /\
    Alert.acknowledged (as_stored x) = Alert.acknowledged x /\ Alert.id (as_stored x) = Alert.id x;
  as_insert_spec a x : as_inv a -> as_can_insert a -> as_ok x ->
    exists i, (as_insert a x).2 = Ok i /\ as_map a !! i = None /\ i <> 0 /\ in_u64 i /\
      as_map (as_insert a x).1 = <[i := as_stored (Alert.set_id i x)]> (as_map a) /\
      as_inv (as_insert a x).1;
  as_get_spec a i : as_inv a -> in_u64 i -> as_get a i = Ok (as_map a !! i);
  as_acknowledge_spec a i : as_inv a -> in_u64 i ->
    as_inv (as_acknowledge a i).1 /\
    match as_map a !! i with
    | Some x => (as_acknowledge a i).2 = Ok tt /\
        as_map (as_acknowledge a i).1 = <[i := Alert.set_acknowledged true x]> (as_map a)
    | None => is_ok (as_acknowledge a i).2 = false /\ as_map (as_acknowledge a i).1 = as_map a
    end;
  as_delete_spec a i : as_inv a -> in_u64 i ->
    as_inv (as_delete a i).1 /\ (as_delete a i).2 = Ok tt /\
    as_map (as_delete a i).1 = delete i (as_map a);
  as_is_acknowledged_spec a n m : as_inv a -> octets_ok m ->
    exists b, as_is_acknowledged a n m = Ok b /\
      (b = true <-> exists i x, as_map a !! i = Some x /\ acknowledged_for n m x = true);
  as_count_spec a : as_inv a -> as_count a = Ok (size (as_map a));
  as_list_spec a f : as_inv a -> limit_fits (AlertFilter.limit f) = true ->
    exists l, as_list a f = Ok (apply_limit (AlertFilter.limit f) l) /\
      l ≡ₚ List.filter (filter_keeps f) (values (as_map a)) /\ StronglySorted as_newer l
}.

(** * [InMemoryAlertStore] *)

Module InMemoryAlertStore.
Record t : Type := mk { alerts : gmap AlertId Alert.t; next_id : Z }.

Definition new : t := mk ∅ 1.

(** [AtomicU64::fetch_add] wraps. *)
Definition insert_alert (s : t) (a : Alert.t) : t * result AlertId StorageError :=
  let i := next_id s in
  (mk (<[i := Alert.set_id i a]> (alerts s)) ((next_id s + 1) mod (u64_max + 1)), Ok i).

Definition list_alerts (s : t) (f : AlertFilter.t) : result (list Alert.t) StorageError :=
  Ok (apply_limit (AlertFilter.limit f)
        (merge_sort newer (List.filter (filter_keeps f) (values (alerts s))))).

Definition get_alert (s : t) (i : AlertId) : result (option Alert.t) StorageError :=
  Ok (alerts s !! i).

Definition acknowledge_alert (s : t) (i : AlertId) : t * result unit StorageError :=
  match alerts s !! i with
  | Some a => (mk (<[i := Alert.set_acknowledged true a]> (alerts s)) (next_id s), Ok tt)
  | None => (s, Err (Internal ("alert " +:+ fmt_uint i +:+ " not found")))
  end.

Definition delete_alert (s : t) (i : AlertId) : t * result unit StorageError :=
  (mk (delete i (alerts s)) (next_id s), Ok tt).

Definition is_acknowledged (s : t) (rule_name : string) (m : MacAddress)
  : result bool StorageError :=
  Ok (existsb (acknowledged_for rule_name m) (values (alerts s))).

Definition count_alerts (s : t) : result nat StorageError := Ok (size (alerts s)).

(** Identifiers handed out so far are below the next one. *)
Definition inv (s : t) : Prop :=
  1 <= next_id s <= u64_max /\ map_Forall (fun i _ => 1 <= i < next_id s) (alerts s).
Definition can_insert (s : t) : Prop := next_id s < u64_max.
End InMemoryAlertStore.

#[global] Instance in_memory_alert_store : AlertStore InMemoryAlertStore.t := {|
  as_insert := InMemoryAlertStore.insert_alert;
  as_list := InMemoryAlertStore.list_alerts;
  as_get := InMemoryAlertStore.get_alert;
  as_acknowledge := InMemoryAlertStore.acknowledge_alert;
  as_delete := InMemoryAlertStore.delete_alert;
  as_is_acknowledged := InMemoryAlertStore.is_acknowledged;
  as_count := InMemoryAlertStore.count_alerts
|}.

(** The life of a store: the calls the rule engine and the API make. *)
Inductive alert_op : Type :=
| OpInsert (a : Alert.t)
| OpAcknowledge (i : AlertId)
| OpDelete (i : AlertId).
Definition apply_alert_op {A} `{!AlertStore A} (s : A) (o : alert_op) : A :=
  match o with
  | OpInsert a => (as_insert s a).1
  | OpAcknowledge i => (as_acknowledge s i).1
  | OpDelete i => (as_delete s i).1
  end.

(** What the lemmas below allow between an acknowledgment and a lookup:
    insertions the store can take, and acknowledgments. *)
Definition alert_op_ok {A} `{!AlertStore A, !AlertStoreLaws A} (s : A) (o : alert_op) : Prop :=
  match o with
  | OpInsert x => as_can_insert s /\ as_ok x
  | OpAcknowledge i => in_u64 i
  | OpDelete _ => False
  end.

(** * Lemmas *)

#[global] Instance newer_total : Total newer.
Proof. intros a b. unfold newer. lia. Qed.
#[global] Instance newer_trans : Transitive newer.
Proof. intros a b c. unfold newer. lia. Qed.

Lemma elem_of_values m x : x ∈ values m <-> exists i, m !! i = Some x.
Proof.
  unfold values. rewrite list_elem_of_fmap. split.
  - intros ([i y] & -> & H). exists i. by apply elem_of_map_to_list in H.
  - intros [i Hi]. exists (i, x). by rewrite elem_of_map_to_list.
Qed.

#[global] Program Instance in_memory_alert_store_laws : AlertStoreLaws InMemoryAlertStore.t := {|
  as_map := InMemoryAlertStore.alerts;
  as_inv := InMemoryAlertStore.inv;
  as_can_insert := InMemoryAlertStore.can_insert;
  as_ok _ := True;
  as_stored x := x;
  as_newer := newer
|}.
Next Obligation. done. Qed.
Next Obligation.
  intros s x [Hn Hf] Hc _. unfold InMemoryAlertStore.can_insert in Hc. simpl.
  exists (InMemoryAlertStore.next_id s). split_and!; auto; [|lia|unfold in_u64; lia|].
  - destruct (_ !! _) eqn:E; [|done]. apply Hf in E. lia.
  - split; cbn -[u64_max]; rewrite Z.mod_small by (unfold u64_max in *; lia); [lia|].
    apply map_Forall_insert_2; [lia|]. intros i y Hi. apply Hf in Hi. lia.
Qed.
Next Obligation. done. Qed.
Next Obligation.
  intros s i Hinv _. simpl. unfold InMemoryAlertStore.acknowledge_alert.
  destruct (InMemoryAlertStore.alerts s !! i) as [x|] eqn:E; simpl; [|by split].
  destruct Hinv as [Hn Hf]. split; [|done]. split; [done|]. simpl.
  apply map_Forall_insert_2; [by apply Hf in E | done].
Qed.
Next Obligation.
  intros s i [Hn Hf] _. simpl. split; [|done]. split; [done|]. by apply map_Forall_delete.
Qed.
Next Obligation.
  intros s n m Hi _. eexists. split; [reflexivity|].
  rewrite existsb_exists. setoid_rewrite <- list_elem_of_In. setoid_rewrite elem_of_values.
  naive_solver.
Qed.
Next Obligation. done. Qed.
Next Obligation.
  intros s f Hi. eexists. split; [reflexivity|]. split; [apply merge_sort_Permutation|].
  apply StronglySorted_merge_sort; apply _.
Qed.

Section StoreFacts.
Context {A : Type} {AS : AlertStore A} {ASL : AlertStoreLaws A}.

(** An acknowledged alert, once in the store, stays until it is deleted. *)
Lemma acknowledged_stays s o n m :
  as_inv s -> alert_op_ok s o -> octets_ok m ->
  as_is_acknowledged s n m = Ok true ->
  as_inv (apply_alert_op s o) /\ as_is_acknowledged (apply_alert_op s o) n m = Ok true.
Proof.
  intros Hinv Hop Hm8 Hack.
  destruct (as_is_acknowledged_spec s n m Hinv Hm8) as (b & Hb & Hiff).
  rewrite Hack in Hb. injection Hb as <-. destruct Hiff as [Hiff _].
  destruct (Hiff eq_refl) as (i & x & Hi & Hx).
  assert (forall s', as_inv s' -> (exists i x, as_map s' !! i = Some x /\ acknowledged_for n m x = true) ->
    as_is_acknowledged s' n m = Ok true) as Hyes.
  { intros s' Hs' He. destruct (as_is_acknowledged_spec s' n m Hs' Hm8) as (b & -> & Hb).
    f_equal. by apply Hb. }
  destruct o as [y|j|j]; [| |done]; simpl.
  - destruct Hop as [Hcan Hy].
    destruct (as_insert_spec s y Hinv Hcan Hy) as (k & _ & Hk & _ & _ & Hm & Hi').
    split; [done|]. apply Hyes; [done|]. exists i, x. rewrite Hm, lookup_insert_ne by congruence. done.
  - destruct (as_acknowledge_spec s j Hinv Hop) as [Hi' Hm]. split; [done|]. apply Hyes; [done|].
    destruct (as_map s !! j) as [z|] eqn:Ej.
    + destruct Hm as [_ Hm]. rewrite Hm. destruct (decide (i = j)) as [->|Hne].
      * exists j, (Alert.set_acknowledged true z). rewrite lookup_insert_eq. split; [done|].
        assert (z = x) as -> by congruence. unfold acknowledged_for in *. simpl.
        apply andb_true_iff in Hx as [Hx Hmac]. apply andb_true_iff in Hx as [_ Hname].
        by apply andb_true_iff.
      * exists i, x. by rewrite lookup_insert_ne.
    + destruct Hm as [_ ->]. eauto.
Qed.
End StoreFacts.

(** * Properties *)

(** An alert store keeps its promises over a whole life cycle, for any
    implementation of the contract: an inserted alert gets a fresh non-zero
    identifier and reads back under it with its rule, device and status;
    acknowledging it makes [is_acknowledged] true for its rule and device,
    no other insertion or acknowledgment can undo that, and acknowledging an
    identifier that is not stored is an error that changes nothing. *)
Theorem alert_store_lifecycle {A} {AS : AlertStore A} {ASL : AlertStoreLaws A}
  (s : A) (a : Alert.t) (o : alert_op) :
  as_inv s -> as_can_insert s -> as_ok a -> octets_ok (Alert.mac a) ->
  (forall i, alert_op_ok (as_acknowledge (as_insert s a).1 i).1 o) ->
  exists i s1 x, (s1, Ok i) = as_insert s a /\ i <> 0 /\ as_get s i = Ok None /\
    as_get s1 i = Ok (Some x) /\ Alert.id x = i /\ Alert.rule_name x = Alert.rule_name a /\
    Alert.mac x = Alert.mac a /\ Alert.acknowledged x = Alert.acknowledged a /\
    (let s2 := (as_acknowledge s1 i).1 in
     as_is_acknowledged s2 (Alert.rule_name a) (Alert.mac a) = Ok true /\
     as_is_acknowledged (apply_alert_op s2 o) (Alert.rule_name a) (Alert.mac a) = Ok true) /\
    (forall j, in_u64 j -> as_get s j = Ok None ->
       is_ok (as_acknowledge s j).2 = false /\ as_map (as_acknowledge s j).1 = as_map s).
Proof.
  intros Hinv Hins Hok Hm8 Hop.
  destruct (as_insert_spec s a Hinv Hins Hok) as (i & Hi & Hnone & Hi0 & Hi64 & Hmap & Hinv1).
  destruct (as_insert s a) as [s1 r] eqn:E. simpl in Hi, Hmap, Hinv1, Hop. subst r.
  destruct (as_stored_fields (Alert.set_id i a)) as (Hf1 & Hf2 & Hf3 & Hf4).
  exists i, s1, (as_stored (Alert.set_id i a)).
  rewrite !as_get_spec by done. rewrite Hmap, lookup_insert_eq, Hnone.
  assert (as_map s1 !! i = Some (as_stored (Alert.set_id i a))) as Hs1i
    by (rewrite Hmap; apply lookup_insert_eq).
  destruct (as_acknowledge_spec s1 i Hinv1 Hi64) as [Hinv2 Hack]. rewrite Hs1i in Hack.
  destruct Hack as [_ Hmap2].
  assert (as_is_acknowledged (as_acknowledge s1 i).1 (Alert.rule_name a) (Alert.mac a) = Ok true) as Hy.
  { destruct (as_is_acknowledged_spec (as_acknowledge s1 i).1 (Alert.rule_name a) (Alert.mac a) Hinv2 Hm8)
      as (b & -> & Hb). f_equal. apply Hb. exists i. eexists. rewrite Hmap2, lookup_insert_eq.
    split; [reflexivity|]. unfold acknowledged_for. simpl. rewrite Hf1, Hf2. simpl.
    rewrite String.eqb_refl. by apply bool_decide_eq_true_2. }
  split_and!; auto.
  - split; [done|]. by apply (acknowledged_stays _ o).
  - intros j Hj64 Hj. rewrite as_get_spec in Hj by done. injection Hj as Hj.
    destruct (as_acknowledge_spec s j Hinv Hj64) as [_ Hm]. by rewrite Hj in Hm.
Qed.

Definition demo_device : Device.t := Device.new (mkMac 2 0 0 0 0 1) 5.
Definition demo_alert : Alert.t := Alert.new "new_device" Info NewDevice demo_device "hello" 9.

Lemma alert_store_lifecycle_witness :
  exists i, as_is_acknowledged
    (as_acknowledge (as_insert InMemoryAlertStore.new demo_alert).1 i).1
    "new_device" (mkMac 2 0 0 0 0 1) = Ok true.
Proof.
  destruct (alert_store_lifecycle InMemoryAlertStore.new demo_alert (OpAcknowledge 7))
    as (i & s1 & x & Hs1 & _ & _ & _ & _ & _ & _ & _ & [H _] & _).
  - split; [unfold u64_max; simpl; lia | apply map_Forall_empty].
  - unfold as_can_insert, u64_max. simpl. unfold InMemoryAlertStore.can_insert, u64_max. simpl. lia.
  - exact I.
  - unfold octets_ok, in_u8, u8_max. simpl. lia.
  - intros j. unfold alert_op_ok, in_u64, u64_max. lia.
  - exists i. rewrite <- Hs1. exact H.
Defined.
