(* ===== verification/AlertSqlite.v ===== *)
(** The SQLite alert store, [crates/storage/src/alert_sqlite.rs], and that it
    keeps the contract of [AlertStore]: a reader of the rule engine cannot
    tell it from the in-memory store, apart from what the text columns cut
    off.  The table is a finite map from row identifiers to rows with the
    counter of [AUTOINCREMENT]; statements are assumed to run (a failing
    statement returns its error and changes nothing), except for a [LIMIT]
    that is not an integer for SQLite. *)

From S2P Require Import Prelude Text Types Reference Net Json Stores Alerts.

(** * Rows *)

Module AlertRow.
Record t : Type := mk {
  rule_name : string; severity : string; event_type : string; mac : string; message : string;
  device_snapshot : string; timestamp : string; acknowledged : Z
}.
Definition set_acknowledged (n : Z) (r : t) : t :=
  mk (rule_name r) (severity r) (event_type r) (mac r) (message r) (device_snapshot r)
     (timestamp r) n.
End AlertRow.

(** [parse_event_type]. *)
Definition parse_event_type (s : string) : AlertEventType :=
  if String.eqb s "new_device" then NewDevice
  else if String.eqb s "device_offline" then DeviceOffline
  else if String.eqb s "protocol_change" then ProtocolChange
  else Custom s.

(** [id as i64] and [id as u64]. *)
Definition as_i64 (n : Z) : Z := if n <=? i64_max then n else n - (u64_max + 1).
Definition as_u64 (n : Z) : Z := n mod (u64_max + 1).

Section Rows.
Context {MT : MacText} {IT : IpText} {CH : Chrono} {SJ : SerdeJson}.

(** The parameters of the [INSERT]. *)
Definition row_of_alert (a : Alert.t) : AlertRow.t :=
  AlertRow.mk (Alert.rule_name a) (severity_display (Alert.severity a))
    (event_type_display (Alert.event_type a)) (mac_to_string (Alert.mac a)) (Alert.message a)
    (json_to_string (device_to_json (Alert.device_snapshot a)))
    (timestamp_display (Alert.timestamp a)) (if Alert.acknowledged a then 1 else 0).

(** [row_to_alert], at the time [now] for a time stamp that does not parse. *)
Definition row_to_alert (now : Timestamp) (id : Z) (r : AlertRow.t) : option Alert.t :=
  mac ← mac_parse (AlertRow.mac r);
  severity ← result_ok (severity_from_str (AlertRow.severity r));
  device ← json_from_str (AlertRow.device_snapshot r) ≫= device_from_json;
  Some (Alert.mk (as_u64 id) (AlertRow.rule_name r) severity (parse_event_type (AlertRow.event_type r))
    mac (AlertRow.message r) device (default now (parse_datetime (AlertRow.timestamp r)))
    (negb (AlertRow.acknowledged r =? 0))).
End Rows.

(** * The store *)

Module SqliteAlertStore.
(** [rows] behind the mutex, and the row in [sqlite_sequence]. *)
Record t : Type := mk { rows : gmap Z AlertRow.t; sequence : Z }.

(** [open]: an empty path is no store; [existing] is the table of the file,
    empty in a new one. *)
Definition open (path : string) (io : table_io) (existing : t) : result (option t) StorageError :=
  if is_empty path then Ok None
  else open_table "failed to open alert database: " "failed to create alerts schema: " io existing.
Definition empty : t := mk ∅ 0.

Section Operations.
Context {MT : MacText} {IT : IpText} {CH : Chrono} {SJ : SerdeJson}.
Variables (now : Timestamp) (row_error full_error : string).

(** [AUTOINCREMENT]: one more than any identifier ever used, or an error at
    the largest one. *)
Definition insert_alert (s : t) (a : Alert.t) : t * result AlertId StorageError :=
  if sequence s <? i64_max then
    let id := sequence s + 1 in
    (mk (<[id := row_of_alert a]> (rows s)) id, Ok (as_u64 id))
  else (s, Err (Internal ("alert insert failed: " +:+ full_error))).

(** [build_filter] and the [WHERE] clause it builds. *)
Definition row_matches (f : AlertFilter.t) (r : AlertRow.t) : bool :=
  match AlertFilter.severity f with
  | Some sev => String.eqb (AlertRow.severity r) (severity_display sev)
  | None => true
  end &&
  match AlertFilter.acknowledged f with
  | Some ack => AlertRow.acknowledged r =? (if ack : bool then 1 else 0)
  | None => true
  end &&
  match AlertFilter.rule_name f with
  | Some n => String.eqb (AlertRow.rule_name r) n
  | None => true
  end.

(** [ORDER BY id DESC]. *)
Definition id_desc (a b : Z * AlertRow.t) : Prop := b.1 <= a.1.
#[global] Instance id_desc_dec : RelDecision id_desc.
Proof. intros a b. unfold id_desc. apply _. Defined.

Definition list_alerts (s : t) (f : AlertFilter.t) : result (list Alert.t) StorageError :=
  let? selected :=
    select_limited (AlertFilter.limit f)
      (merge_sort id_desc (List.filter (fun e => row_matches f e.2) (map_to_list (rows s)))) in
  match mapM (fun e => row_to_alert now e.1 e.2) selected with
  | Some alerts => Ok alerts
  | None => Err (Internal ("row parse failed: " +:+ row_error))
  end.

Definition get_alert (s : t) (id : AlertId) : result (option Alert.t) StorageError :=
  match rows s !! as_i64 id with
  | Some r =>
      match row_to_alert now (as_i64 id) r with
      | Some a => Ok (Some a)
      | None => Err (Internal ("row parse failed: " +:+ row_error))
      end
  | None => Ok None
  end.

(** [UPDATE] reports how many rows it changed. *)
Definition acknowledge_alert (s : t) (id : AlertId) : t * result unit StorageError :=
  match rows s !! as_i64 id with
  | Some r => (mk (<[as_i64 id := AlertRow.set_acknowledged 1 r]> (rows s)) (sequence s), Ok tt)
  | None => (s, Err (Internal ("alert " +:+ fmt_uint id +:+ " not found")))
  end.

Definition delete_alert (s : t) (id : AlertId) : t * result unit StorageError :=
  (mk (delete (as_i64 id) (rows s)) (sequence s), Ok tt).

Definition is_acknowledged (s : t) (rule_name : string) (m : MacAddress) : result bool StorageError :=
  let counted := List.filter (fun e =>
    String.eqb (AlertRow.rule_name e.2) rule_name &&
    String.eqb (AlertRow.mac e.2) (mac_to_string m) &&
    (AlertRow.acknowledged e.2 =? 1)) (map_to_list (rows s)) in
  Ok (0 <? Z.of_nat (length counted)).

Definition count_alerts (s : t) : result nat StorageError := Ok (size (rows s)).

(** What an alert is after its row was read back. *)
Definition stored (a : Alert.t) : Alert.t :=
  Alert.mk (Alert.id a) (Alert.rule_name a) (Alert.severity a)
    (parse_event_type (event_type_display (Alert.event_type a))) (Alert.mac a) (Alert.message a)
    (to_millis (Alert.device_snapshot a)) (deserialize_iso8601 (Alert.timestamp a))
    (Alert.acknowledged a).
(** The alerts a row can hold. *)
Definition storable (a : Alert.t) : Prop :=
  octets_ok (Alert.mac a) /\ representable (Alert.device_snapshot a) /\ chrono_range (Alert.timestamp a).

(** Every row is the row of some alert, under an identifier already used. *)
Definition inv (s : t) : Prop :=
  0 <= sequence s <= i64_max /\
  map_Forall (fun i r => 1 <= i <= sequence s /\
    exists a, storable a /\ r = row_of_alert a) (rows s).
Definition can_insert (s : t) : Prop := sequence s < i64_max.

(** The alerts of the table. *)
Definition alerts (s : t) : gmap AlertId Alert.t :=
  map_imap (fun i r => row_to_alert now i r) (rows s).
End Operations.

(** The order of the lists: higher identifiers first. *)
Definition id_newer (a b : Alert.t) : Prop := Alert.id b <= Alert.id a.
End SqliteAlertStore.

Section Instances.
Context {MT : MacText} {IT : IpText} {CH : Chrono} {SJ : SerdeJson}.
Variables (now : Timestamp) (row_error full_error : string).

Definition sqlite_alert_store : AlertStore SqliteAlertStore.t := {|
  as_insert := SqliteAlertStore.insert_alert full_error;
  as_list := SqliteAlertStore.list_alerts now row_error;
  as_get := SqliteAlertStore.get_alert now row_error;
  as_acknowledge := SqliteAlertStore.acknowledge_alert;
  as_delete := SqliteAlertStore.delete_alert;
  as_is_acknowledged := SqliteAlertStore.is_acknowledged;
  as_count := SqliteAlertStore.count_alerts
|}.
End Instances.

(** The alerts and identifiers the operations of a history are about. *)
Definition op_storable (o : alert_op) : Prop :=
  match o with
  | OpInsert a => SqliteAlertStore.storable a
  | OpAcknowledge i | OpDelete i => in_u64 i
  end.

(** * Lemmas *)

Lemma as_i64_small i : 1 <= i <= i64_max -> as_i64 i = i.
Proof. intros Hi. unfold as_i64. by rewrite (proj2 (Z.leb_le _ _)) by lia. Qed.
Lemma as_u64_small i : 1 <= i <= i64_max -> as_u64 i = i.
Proof. intros Hi. unfold as_u64, i64_max, u64_max in *. rewrite Z.mod_small; lia. Qed.
Lemma as_i64_neg i : in_u64 i -> ~ 1 <= i <= i64_max -> as_i64 i <= 0.
Proof.
  unfold in_u64, as_i64, u64_max, i64_max. intros Hi Hn.
  destruct (i <=? 9223372036854775807) eqn:E; bool_to_prop; lia.
Qed.

Lemma severity_display_inj a b : severity_display a = severity_display b -> a = b.
Proof. by destruct a, b. Qed.

Section RowFacts.
Context {MT : MacText} {IT : IpText} {CH : Chrono} {SJ : SerdeJson}.
Context {ML : MacTextLaws} {IL : IpTextLaws} {CL : ChronoLaws} {SL : SerdeJsonLaws}.
Import SqliteAlertStore.

Lemma alert_row_roundtrip now i a :
  1 <= i <= i64_max -> storable a ->
  row_to_alert now i (row_of_alert a) = Some (stored (Alert.set_id i a)).
Proof.
  intros Hi (Hm & Hd & Ht). unfold row_to_alert, row_of_alert, timestamp_display. cbn [AlertRow.mac
    AlertRow.severity AlertRow.device_snapshot AlertRow.timestamp AlertRow.acknowledged
    AlertRow.event_type AlertRow.rule_name AlertRow.message].
  rewrite mac_parse_to_string by done. cbn [mbind option_bind].
  rewrite severity_from_str_display. cbn [result_ok mbind option_bind].
  rewrite json_from_to_string. cbn [mbind option_bind]. rewrite device_json_inverse by done.
  cbn [mbind option_bind]. rewrite as_u64_small by done. rewrite parse_fmt_iso8601 by done.
  unfold stored. simpl. by destruct (Alert.acknowledged a).
Qed.

Lemma row_set_acknowledged a :
  AlertRow.set_acknowledged 1 (row_of_alert a) = row_of_alert (Alert.set_acknowledged true a).
Proof. done. Qed.

Lemma alerts_lookup now s i :
  inv s -> alerts now s !! i = rows s !! i ≫= row_to_alert now i.
Proof. intros _. unfold alerts. by rewrite map_lookup_imap. Qed.

(** A row of the table and its alert. *)
Lemma inv_row now s i r :
  inv s -> rows s !! i = Some r ->
  1 <= i <= i64_max /\ exists a, storable a /\ r = row_of_alert a /\
    row_to_alert now i r = Some (stored (Alert.set_id i a)) /\
    alerts now s !! i = Some (stored (Alert.set_id i a)).
Proof.
  intros Hinv Hi. pose proof Hinv as [Hseq Hrows]. destruct (Hrows i r Hi) as [Hb (a & Ha & ->)].
  assert (1 <= i <= i64_max) as Hi' by lia. split; [done|]. exists a.
  rewrite alerts_lookup, Hi by done. simpl. by rewrite !alert_row_roundtrip.
Qed.

Lemma inv_lookup_None now s i : inv s -> rows s !! i = None <-> alerts now s !! i = None.
Proof.
  intros Hinv. split; intros H.
  - by rewrite alerts_lookup, H.
  - destruct (rows s !! i) as [r|] eqn:E; [|done].
    destruct (inv_row now s i r Hinv E) as (_ & a & _ & _ & _ & Ha). congruence.
Qed.

(** The identifiers SQLite sees for a [u64]. *)
Lemma rows_as_i64 s i : inv s -> in_u64 i ->
  rows s !! as_i64 i = rows s !! i /\ (is_Some (rows s !! i) -> as_i64 i = i).
Proof.
  intros [Hseq Hrows] Hi. destruct (decide (1 <= i <= i64_max)) as [Hs|Hn].
  - by rewrite as_i64_small.
  - assert (rows s !! i = None) as Hnone.
    { destruct (rows s !! i) as [r|] eqn:E; [|done]. destruct (Hrows i r E). lia. }
    rewrite Hnone. split; [|by intros []].
    destruct (rows s !! as_i64 i) as [r|] eqn:E; [|done]. destruct (Hrows _ r E).
    pose proof (as_i64_neg i Hi Hn). lia.
Qed.

Lemma inv_insert s a :
  inv s -> can_insert s -> storable a ->
  inv (mk (<[sequence s + 1 := row_of_alert a]> (rows s)) (sequence s + 1)).
Proof.
  intros [Hseq Hrows] Hc Ha. unfold can_insert in Hc. split; simpl; [lia|].
  apply map_Forall_insert_2.
  - split; [lia|]. by exists a.
  - intros i r Hi. destruct (Hrows i r Hi) as [? ?]. split; [lia | done].
Qed.

Lemma alerts_insert now s i r a :
  inv s -> row_to_alert now i r = Some a ->
  forall seq, alerts now (mk (<[i := r]> (rows s)) seq) = <[i := a]> (alerts now s).
Proof.
  intros Hinv Hr seq. unfold alerts. simpl. apply map_eq. intros j. rewrite map_lookup_imap.
  destruct (decide (i = j)) as [<-|Hne].
  - by rewrite !lookup_insert_eq.
  - by rewrite !lookup_insert_ne, map_lookup_imap.
Qed.

Lemma row_matches_keeps f i a :
  row_matches f (row_of_alert a) = filter_keeps f (stored (Alert.set_id i a)).
Proof.
  unfold row_matches, filter_keeps. simpl. f_equal; f_equal.
  - destruct (AlertFilter.severity f) as [sev|]; [|done].
    destruct (String.eqb_spec (severity_display (Alert.severity a)) (severity_display sev)) as [H|H];
      symmetry.
    + apply bool_decide_eq_true_2. by apply severity_display_inj.
    + apply bool_decide_eq_false_2. intros Heq; apply H; by rewrite Heq.
  - destruct (AlertFilter.acknowledged f) as [[]|]; [| |done]; by destruct (Alert.acknowledged a).
Qed.

Lemma row_keeps now s f i r y :
  inv s -> rows s !! i = Some r -> alerts now s !! i = Some y -> row_matches f r = filter_keeps f y.
Proof.
  intros Hinv Hr Hy. destruct (inv_row now s i r Hinv Hr) as (_ & a & _ & -> & _ & Ha).
  assert (y = stored (Alert.set_id i a)) as -> by congruence. apply row_matches_keeps.
Qed.

(** Alerts of one table differ by their identifiers. *)
Lemma alerts_id now s i y : inv s -> alerts now s !! i = Some y -> Alert.id y = i.
Proof.
  intros Hinv Hy. destruct (rows s !! i) as [r|] eqn:Hr.
  - destruct (inv_row now s i r Hinv Hr) as (_ & a & _ & _ & _ & Ha).
    assert (y = stored (Alert.set_id i a)) as -> by congruence. done.
  - apply (inv_lookup_None now s i Hinv) in Hr. congruence.
Qed.
Lemma values_nodup now s f : inv s -> NoDup (List.filter (filter_keeps f) (values (alerts now s))).
Proof.
  intros Hinv. eapply sublist_NoDup; [|apply filter_sublist].
  apply (NoDup_fmap_1 Alert.id). unfold values.
  assert (Alert.id <$> (map_to_list (alerts now s)).*2 = (map_to_list (alerts now s)).*1) as ->;
    [|apply NoDup_fst_map_to_list].
  rewrite <- list_fmap_compose. apply list_fmap_ext. intros k [i y] Hk. simpl.
  apply list_elem_of_lookup_2, elem_of_map_to_list in Hk. by eapply alerts_id.
Qed.

(** The selected rows, each decoded. *)
Lemma entries_decode now s l :
  inv s -> (forall e, e ∈ l -> rows s !! e.1 = Some e.2) ->
  exists ys, mapM (fun e => row_to_alert now e.1 e.2) l = Some ys /\
    Forall2 (fun e y => alerts now s !! e.1 = Some y /\ Alert.id y = e.1) l ys.
Proof.
  intros Hinv. induction l as [|[i r] l IH]; intros Hl; [by exists []|].
  destruct IH as (ys & Hys & Hall); [intros e He; apply Hl; by right|].
  destruct (inv_row now s i r Hinv) as (_ & a & _ & _ & Hr & Ha); [apply (Hl (i, r)); left|].
  exists (stored (Alert.set_id i a) :: ys). simpl. rewrite Hr. simpl. rewrite Hys.
  split; [done|]. by constructor.
Qed.

#[global] Instance id_desc_total : Total id_desc.
Proof. intros a b. unfold id_desc. lia. Qed.
#[global] Instance id_desc_trans : Transitive id_desc.
Proof. intros a b c. unfold id_desc. lia. Qed.

Lemma decoded_sorted (R : Z * AlertRow.t -> Alert.t -> Prop) l ys :
  Forall2 R l ys -> (forall e y, R e y -> Alert.id y = e.1) ->
  StronglySorted id_desc l -> StronglySorted id_newer ys.
Proof.
  intros H Hid. induction H as [|e y l ys Hey Hl IH]; intros Hs; [constructor|].
  apply StronglySorted_inv in Hs as [Hs He]. constructor; [by apply IH|].
  clear IH Hs. induction Hl as [|e' y' l ys Hey' Hl IH]; [constructor|].
  apply Forall_cons in He as [He1 He2]. constructor; [|by apply IH].
  unfold id_newer, id_desc in *. by rewrite (Hid _ _ Hey), (Hid _ _ Hey').
Qed.

Lemma list_alerts_spec now row_error s f :
  inv s -> limit_fits (AlertFilter.limit f) = true ->
  exists l, list_alerts now row_error s f = Ok (apply_limit (AlertFilter.limit f) l) /\
    l ≡ₚ List.filter (filter_keeps f) (values (alerts now s)) /\ StronglySorted id_newer l.
Proof.
  intros Hinv Hfits. unfold list_alerts, select_limited. rewrite Hfits.
  set (es := List.filter (fun e => row_matches f e.2) (map_to_list (rows s))).
  pose proof (merge_sort_Permutation id_desc es) as Hperm.
  assert (forall e, e ∈ merge_sort id_desc es <-> rows s !! e.1 = Some e.2 /\ row_matches f e.2 = true) as Hin.
  { intros [i r]. rewrite Hperm. unfold es. rewrite list_elem_of_In, filter_In, <- list_elem_of_In.
    by rewrite elem_of_map_to_list. }
  destruct (entries_decode now s (merge_sort id_desc es) Hinv) as (ys & Hys & Hall);
    [intros e He; by apply Hin|].
  exists ys. split_and!.
  - unfold apply_limit. destruct (AlertFilter.limit f) as [n|]; cbn; [by rewrite (mapM_take _ _ ys)|].
    by rewrite Hys.
  - apply NoDup_Permutation.
    + assert (Alert.id <$> ys = (merge_sort id_desc es).*1) as Hids.
      { symmetry. apply list_eq_Forall2, Forall2_fmap. eapply Forall2_impl; [exact Hall|].
        intros e y [_ Hy]. done. }
      apply (NoDup_fmap_1 Alert.id). rewrite Hids, Hperm. unfold es.
      apply (sublist_NoDup _ (map_to_list (rows s)).*1); [apply NoDup_fst_map_to_list|]. apply fmap_sublist, filter_sublist.
    + by apply values_nodup.
    + intros y. rewrite (list_elem_of_In (List.filter _ _)), filter_In, <- (list_elem_of_In (values _)), elem_of_values.
      split.
      * intros Hy. apply list_elem_of_lookup in Hy as [k Hk].
        destruct (Forall2_lookup_r _ _ _ _ _ Hall Hk) as ([i r] & He & Ha & _). simpl in Ha.
        apply list_elem_of_lookup_2, Hin in He as [He Hm]. simpl in He, Hm.
        split; [by exists i|]. by rewrite <- (row_keeps now s f i r y).
      * intros [[i Hi] Hk]. pose proof Hi as Hi'. rewrite alerts_lookup in Hi' by done.
        apply bind_Some in Hi' as (r & Hr & _).
        assert ((i, r) ∈ merge_sort id_desc es) as He.
        { apply Hin. simpl. by rewrite (row_keeps now s f i r y). }
        apply list_elem_of_lookup in He as [k He].
        destruct (Forall2_lookup_l _ _ _ _ _ Hall He) as (y' & Hy' & Ha & _). simpl in Ha.
        assert (y' = y) as -> by congruence. by eapply list_elem_of_lookup_2.
  - eapply decoded_sorted; [exact Hall | by intros e y [_ ?] |]. apply StronglySorted_merge_sort; apply _.
Qed.

(** Acknowledging a row acknowledges its alert. *)
Lemma acknowledge_spec now s i :
  inv s -> in_u64 i ->
  inv (acknowledge_alert s i).1 /\
  match alerts now s !! i with
  | Some x => (acknowledge_alert s i).2 = Ok tt /\
      alerts now (acknowledge_alert s i).1 = <[i := Alert.set_acknowledged true x]> (alerts now s)
  | None => is_ok (acknowledge_alert s i).2 = false /\ alerts now (acknowledge_alert s i).1 = alerts now s
  end.
Proof.
  intros Hinv Hi. unfold acknowledge_alert. destruct (rows_as_i64 s i Hinv Hi) as [-> Has].
  destruct (rows s !! i) as [r|] eqn:Hr.
  - rewrite Has by done. destruct (inv_row now s i r Hinv Hr) as (Hb & a & Ha & -> & Hrow & ->). simpl.
    rewrite row_set_acknowledged. split.
    + destruct Hinv as [Hseq Hrows]. split; [done|]. simpl. apply map_Forall_insert_2; [|done].
      split; [apply (Hrows i _ Hr)|]. by exists (Alert.set_acknowledged true a).
    + split; [done|]. apply alerts_insert; [done|]. by rewrite alert_row_roundtrip.
  - rewrite (proj1 (inv_lookup_None now s i Hinv) Hr). by split.
Qed.

Lemma delete_spec now s i :
  inv s -> in_u64 i ->
  inv (delete_alert s i).1 /\ alerts now (delete_alert s i).1 = delete i (alerts now s).
Proof.
  intros Hinv Hi. unfold delete_alert. simpl.
  assert (delete (as_i64 i) (rows s) = delete i (rows s)) as ->.
  { destruct (rows_as_i64 s i Hinv Hi) as [Heq Has]. destruct (rows s !! i) as [r|] eqn:Hr.
    - by rewrite Has.
    - by rewrite !delete_id. }
  split.
  - destruct Hinv as [Hseq Hrows]. split; [done|]. by apply map_Forall_delete.
  - unfold alerts. simpl. apply map_eq. intros j. rewrite map_lookup_imap.
    destruct (decide (i = j)) as [<-|Hne]; [by rewrite !lookup_delete_eq|].
    by rewrite !lookup_delete_ne, map_lookup_imap.
Qed.

Lemma is_acknowledged_spec now s n m :
  inv s -> octets_ok m ->
  exists b, is_acknowledged s n m = Ok b /\
    (b = true <-> exists i x, alerts now s !! i = Some x /\ acknowledged_for n m x = true).
Proof.
  intros Hinv Hm. eexists. split; [reflexivity|].
  assert (forall l : list (Z * AlertRow.t), 0 <? Z.of_nat (length l) = true <-> exists e, e ∈ l) as Hlen.
  { intros [|e l]; simpl; [split; [done | by intros [e He%not_elem_of_nil]]|].
    split; [exists e; left | intros _; by apply Z.ltb_lt]. }
  rewrite Hlen. setoid_rewrite list_elem_of_In. setoid_rewrite filter_In.
  setoid_rewrite <- list_elem_of_In.
  assert (forall i a, storable a ->
    String.eqb (AlertRow.rule_name (row_of_alert a)) n &&
    String.eqb (AlertRow.mac (row_of_alert a)) (mac_to_string m) &&
    (AlertRow.acknowledged (row_of_alert a) =? 1) =
      acknowledged_for n m (stored (Alert.set_id i a))) as Hrow.
  { intros i a [Ha _]. unfold acknowledged_for. simpl.
    assert (String.eqb (mac_to_string (Alert.mac a)) (mac_to_string m) = bool_decide (Alert.mac a = m)) as ->.
    { destruct (String.eqb_spec (mac_to_string (Alert.mac a)) (mac_to_string m)) as [H|H]; symmetry.
      - apply bool_decide_eq_true_2. by apply mac_to_string_inj.
      - apply bool_decide_eq_false_2. intros Heq. apply H. by rewrite Heq. }
    by destruct (Alert.acknowledged a), (String.eqb (Alert.rule_name a) n), (bool_decide _). }
  split.
  - intros ([i r] & Hin & Hc). apply elem_of_map_to_list in Hin. simpl in Hc.
    destruct (inv_row now s i r Hinv Hin) as (_ & a & Ha & -> & _ & Hl).
    exists i, (stored (Alert.set_id i a)). split; [done|]. rewrite <- (Hrow i a Ha). exact Hc.
  - intros (i & x & Hx & Hack). pose proof Hx as Hx'. rewrite alerts_lookup in Hx' by done.
    apply bind_Some in Hx' as (r & Hr & _). exists (i, r). split; [by apply elem_of_map_to_list|].
    destruct (inv_row now s i r Hinv Hr) as (_ & a & Ha & -> & _ & Hl).
    assert (x = stored (Alert.set_id i a)) as -> by congruence.
    rewrite <- (Hrow i a Ha) in Hack. exact Hack.
Qed.

Lemma size_alerts now s : inv s -> size (alerts now s) = size (rows s).
Proof.
  intros Hinv. rewrite <- !size_dom. f_equal. apply set_eq. intros i. rewrite !elem_of_dom.
  rewrite <- !not_eq_None_Some. by rewrite (inv_lookup_None now s i Hinv).
Qed.
End RowFacts.

(** * The contract *)

Section Laws.
Context {MT : MacText} {IT : IpText} {CH : Chrono} {SJ : SerdeJson}.
Context {ML : MacTextLaws} {IL : IpTextLaws} {CL : ChronoLaws} {SL : SerdeJsonLaws}.
Variables (now : Timestamp) (row_error full_error : string).

#[local] Existing Instance sqlite_alert_store.

#[program] Definition sqlite_alert_store_laws :
  @AlertStoreLaws SqliteAlertStore.t (sqlite_alert_store now row_error full_error) := {|
  as_map := SqliteAlertStore.alerts now;
  as_inv := SqliteAlertStore.inv;
  as_can_insert := SqliteAlertStore.can_insert;
  as_ok := SqliteAlertStore.storable;
  as_stored := SqliteAlertStore.stored;
  as_newer := SqliteAlertStore.id_newer
|}.
Next Obligation. done. Qed.
Next Obligation.
  intros s a Hinv Hc Ha. simpl. unfold SqliteAlertStore.insert_alert.
  pose proof Hc as Hc'. unfold SqliteAlertStore.can_insert in Hc'.
  rewrite (proj2 (Z.ltb_lt _ _)) by done. pose proof Hinv as [Hseq _].
  assert (1 <= SqliteAlertStore.sequence s + 1 <= i64_max) as Hb by lia.
  exists (SqliteAlertStore.sequence s + 1). cbn [fst snd]. rewrite as_u64_small by done.
  split; [done|]. split.
  { apply (inv_lookup_None now s _ Hinv).
    destruct (SqliteAlertStore.rows s !! _) as [r|] eqn:E; [|done].
    destruct Hinv as [_ Hrows]. apply Hrows in E. lia. }
  split; [lia|]. split; [unfold in_u64, i64_max, u64_max in *; lia|].
  split; [|by apply inv_insert]. apply alerts_insert; [done|]. by apply alert_row_roundtrip.
Qed.
Next Obligation.
  intros s i Hinv Hi. simpl. unfold SqliteAlertStore.get_alert.
  destruct (rows_as_i64 s i Hinv Hi) as [-> Has].
  destruct (SqliteAlertStore.rows s !! i) as [r|] eqn:Hr.
  - rewrite Has by done. destruct (inv_row now s i r Hinv Hr) as (_ & a & _ & _ & -> & ->). done.
  - by rewrite (proj1 (inv_lookup_None now s i Hinv) Hr).
Qed.
Next Obligation. intros s i Hinv Hi. by apply acknowledge_spec. Qed.
Next Obligation.
  intros s i Hinv Hi. simpl. destruct (delete_spec now s i Hinv Hi) as [H1 H2]. by split.
Qed.
Next Obligation. intros s n m Hinv Hm. by apply is_acknowledged_spec. Qed.
Next Obligation. intros s Hinv. simpl. unfold SqliteAlertStore.count_alerts. by rewrite size_alerts. Qed.
Next Obligation. intros s f Hinv Hfits. by apply list_alerts_spec. Qed.
End Laws.

(** * Two implementations *)

Section Agreement.
Context {MT : MacText} {IT : IpText} {CH : Chrono} {SJ : SerdeJson}.
Context {ML : MacTextLaws} {IL : IpTextLaws} {CL : ChronoLaws} {SL : SerdeJsonLaws}.
Variables (now : Timestamp) (row_error full_error : string).

Notation run_sqlite := (foldl (@apply_alert_op _ (sqlite_alert_store now row_error full_error))).
Notation run_memory := (foldl (@apply_alert_op _ in_memory_alert_store)).

(** The two stores after the same operations. *)
Definition agree (k : Z) (s : SqliteAlertStore.t) (t : InMemoryAlertStore.t) : Prop :=
  SqliteAlertStore.inv s /\ InMemoryAlertStore.inv t /\
  0 <= SqliteAlertStore.sequence s <= k /\
  InMemoryAlertStore.next_id t = SqliteAlertStore.sequence s + 1 /\
  SqliteAlertStore.alerts now s = SqliteAlertStore.stored <$> InMemoryAlertStore.alerts t.

Lemma acknowledge_sequence s i :
  SqliteAlertStore.sequence (SqliteAlertStore.acknowledge_alert s i).1 = SqliteAlertStore.sequence s.
Proof. unfold SqliteAlertStore.acknowledge_alert. by case_match. Qed.
Lemma acknowledge_next_id t i :
  InMemoryAlertStore.next_id (InMemoryAlertStore.acknowledge_alert t i).1 = InMemoryAlertStore.next_id t.
Proof. unfold InMemoryAlertStore.acknowledge_alert. by case_match. Qed.

Lemma agree_step k s t o :
  k < i64_max -> op_storable o -> agree k s t ->
  agree (k + 1) (@apply_alert_op _ (sqlite_alert_store now row_error full_error) s o)
    (@apply_alert_op _ in_memory_alert_store t o).
Proof.
  intros Hk Ho (Hs & Ht & Hseq & Hid & Heq). destruct o as [a|i|i]; simpl in Ho |- *.
  - assert (SqliteAlertStore.can_insert s) as Hcan by (unfold SqliteAlertStore.can_insert; lia).
    assert (as_can_insert t) as Hcan' by
      (change (InMemoryAlertStore.next_id t < u64_max); unfold i64_max, u64_max in *; lia).
    destruct (@as_insert_spec _ _ (in_memory_alert_store_laws) t a Ht Hcan' I)
      as (j & _ & _ & _ & _ & _ & Ht').
    unfold agree, SqliteAlertStore.insert_alert, InMemoryAlertStore.insert_alert.
    rewrite (proj2 (Z.ltb_lt _ _)) by done. simpl. split; [by apply inv_insert|].
    split; [exact Ht'|]. split; [lia|]. split.
    + rewrite Hid. apply Z.mod_small. unfold i64_max, u64_max in *. lia.
    + rewrite fmap_insert, <- Heq, Hid. apply alerts_insert; [done|].
      apply alert_row_roundtrip; [lia | done].
  - destruct (acknowledge_spec now s i Hs Ho) as [Hs' Hm].
    destruct (@as_acknowledge_spec _ _ in_memory_alert_store_laws t i Ht Ho) as [Ht' Hm'].
    simpl in Ht', Hm'. unfold agree. split; [done|]. split; [done|].
    rewrite Heq, lookup_fmap in Hm.
    rewrite acknowledge_sequence, acknowledge_next_id.
    split; [lia|]. split; [done|].
    destruct (InMemoryAlertStore.alerts t !! i) as [x|]; simpl in Hm.
    + destruct Hm as [_ ->]. destruct Hm' as [_ ->]. by rewrite fmap_insert.
    + destruct Hm as [_ ->]. by destruct Hm' as [_ ->].
  - destruct (delete_spec now s i Hs Ho) as [Hs' Hm].
    destruct (@as_delete_spec _ _ in_memory_alert_store_laws t i Ht Ho) as [Ht' _].
    simpl in Ht'. unfold agree. split; [done|]. split; [done|]. simpl. split; [lia|]. split; [done|].
    etransitivity; [exact Hm|]. by rewrite Heq, fmap_delete.
Qed.

Lemma agree_run os k s t :
  Forall op_storable os -> k + Z.of_nat (length os) <= i64_max -> agree k s t ->
  exists k', agree k' (run_sqlite s os) (run_memory t os).
Proof.
  intros H. revert k s t. induction H as [|o os Ho Hos IH]; intros k s t Hk Hst; simpl in *.
  - by exists k.
  - apply (IH (k + 1)); [lia|]. apply agree_step; [lia|done|done].
Qed.

Lemma agree_empty : agree 0 SqliteAlertStore.empty InMemoryAlertStore.new.
Proof.
  split_and!; simpl; try (unfold i64_max, u64_max; lia); try apply map_Forall_empty; try done.
Qed.
End Agreement.

(** * Properties *)

(** C18: the two alert stores are the same store.  After any history of
    insertions, acknowledgments and deletions, shorter than the identifiers
    SQLite has, both answer every lookup alike, identifiers included, up to
    what the columns cut off; they count the same and suppress the same
    rule and device pairs.  The list of the database is the filter of the same
    alerts, higher identifiers first, for every limit that is an integer of
    SQLite; above [i64::MAX] it is an error, where the store in memory answers. *)
Theorem alert_stores_agree {MT : MacText} {IT : IpText} {CH : Chrono} {SJ : SerdeJson}
  {ML : MacTextLaws} {IL : IpTextLaws} {CL : ChronoLaws} {SL : SerdeJsonLaws}
  (now : Timestamp) (row_error full_error : string) (os : list alert_op) :
  let AS := sqlite_alert_store now row_error full_error in
  let s := foldl (@apply_alert_op _ AS) SqliteAlertStore.empty os in
  let t := foldl (@apply_alert_op _ in_memory_alert_store) InMemoryAlertStore.new os in
  Forall op_storable os -> Z.of_nat (length os) <= i64_max ->
  (forall i, in_u64 i -> exists o, InMemoryAlertStore.get_alert t i = Ok o /\
     SqliteAlertStore.get_alert now row_error s i = Ok (SqliteAlertStore.stored <$> o)) /\
  SqliteAlertStore.count_alerts s = InMemoryAlertStore.count_alerts t /\
  (forall n m, octets_ok m ->
     SqliteAlertStore.is_acknowledged s n m = InMemoryAlertStore.is_acknowledged t n m) /\
  (forall f, limit_fits (AlertFilter.limit f) = true -> exists l,
     SqliteAlertStore.list_alerts now row_error s f =
       Ok (apply_limit (AlertFilter.limit f) l) /\ StronglySorted SqliteAlertStore.id_newer l /\
     l ≡ₚ List.filter (filter_keeps f)
            (values (SqliteAlertStore.stored <$> InMemoryAlertStore.alerts t))) /\
  (forall f, limit_fits (AlertFilter.limit f) = false ->
     SqliteAlertStore.list_alerts now row_error s f =
       Err (Internal "row parse failed: datatype mismatch") /\
     is_ok (InMemoryAlertStore.list_alerts t f) = true).
Proof.
  intros AS s t Hos Hlen.
  destruct (agree_run now row_error full_error os 0 _ _ Hos ltac:(lia) (agree_empty now))
    as (k & Hs & Ht & _ & _ & Heq). fold AS s in Hs, Heq. fold t in Ht, Heq. split_and!.
  - intros i Hi. eexists. split; [reflexivity|].
    pose proof (@as_get_spec _ AS (sqlite_alert_store_laws now row_error full_error) s i Hs Hi) as Hg.
    simpl in Hg. rewrite Hg, Heq, lookup_fmap. reflexivity.
  - unfold SqliteAlertStore.count_alerts, InMemoryAlertStore.count_alerts.
    by rewrite <- (size_alerts now s Hs), Heq, map_size_fmap.
  - intros n m Hm. destruct (is_acknowledged_spec now s n m Hs Hm) as (b & -> & Hb).
    destruct (@as_is_acknowledged_spec _ _ in_memory_alert_store_laws t n m Ht Hm) as (b' & Hb1 & Hb').
    simpl in Hb1, Hb'. rewrite Hb1. f_equal. rewrite Heq in Hb.
    assert (b = true <-> b' = true) as Hbb; [|destruct b, b'; naive_solver].
    rewrite Hb, Hb'. split.
    + intros (i & x & Hx & Ha). rewrite lookup_fmap in Hx. apply fmap_Some in Hx as (y & Hy & ->).
      by exists i, y.
    + intros (i & x & Hx & Ha). exists i, (SqliteAlertStore.stored x). by rewrite lookup_fmap, Hx.
  - intros f Hf. destruct (list_alerts_spec now row_error s f Hs Hf) as (l & Hl & Hp & Hst).
    exists l. rewrite <- Heq. by split_and!.
  - intros f Hf. unfold SqliteAlertStore.list_alerts, select_limited. by rewrite Hf.
Qed.

#[local] Existing Instances ref_mac_text std_ip_text ref_chrono ref_serde_json.

Lemma alert_stores_agree_witness :
  let os := [OpInsert demo_alert; OpAcknowledge 1; OpDelete 9] in
  SqliteAlertStore.is_acknowledged
    (foldl (@apply_alert_op _ (sqlite_alert_store 0 "bad row" "full")) SqliteAlertStore.empty os)
    "new_device" (mkMac 2 0 0 0 0 1) =
  InMemoryAlertStore.is_acknowledged (foldl apply_alert_op InMemoryAlertStore.new os)
    "new_device" (mkMac 2 0 0 0 0 1).
Proof.
  intros os.
  apply (@alert_stores_agree ref_mac_text std_ip_text ref_chrono ref_serde_json ref_mac_laws
    std_ip_laws ref_chrono_laws ref_serde_json_laws 0 "bad row" "full" os).
  - repeat constructor; unfold in_u8, in_u64, u8_max, u64_max, ns_per_s; simpl; try lia; try done.
  - unfold i64_max. simpl. lia.
  - unfold octets_ok, in_u8, u8_max. simpl. lia.
Defined.
