(* ===== verification/Auth.v ===== *)
(** API authentication, [crates/api/src/auth.rs]: key hashes, permissions,
    the per-address rate limiter and the middleware.

    SHA-256 ([sha2]) and hexadecimal decoding ([hex]) are parameters with
    their documented behaviour; [subtle]'s constant-time comparison is
    equality.  [Instant] is a number of nanoseconds, read once per
    [Instant::now()]; adding a duration to it panics past its range. *)

From S2P Require Import Prelude Text Types Reference Net Config.

(** * The crates *)

Class Crypto : Type := {
  sha256 : list Z -> list Z;
  hex_decode : string -> option (list Z)
}.
Class CryptoLaws `{!Crypto} : Prop := {
  sha256_length l : length (sha256 l) = 32%nat;
  hex_decode_even s :
    all_chars is_ascii_hexdigit s = true -> Nat.even (String.length s) = true ->
    exists v, hex_decode s = Some v /\ length v = Nat.div2 (String.length s)
}.

(** * Permissions and errors *)

Inductive Permission : Type := PermRead | PermAdmin.
#[global] Instance Permission_eq_dec : EqDecision Permission.
Proof. solve_decision. Defined.

Inductive AuthError : Type :=
| MissingHeader | MalformedHeader | InvalidKey | InsufficientPermission | NoKeyConfigured
| RateLimited.
#[global] Instance AuthError_eq_dec : EqDecision AuthError.
Proof. solve_decision. Defined.

Definition status_code (e : AuthError) : Z :=
  match e with
  | MissingHeader | MalformedHeader | InvalidKey => 401
  | InsufficientPermission => 403
  | RateLimited => 429
  | NoKeyConfigured => 500
  end.
Definition error_body (e : AuthError) : string :=
  match e with
  | RateLimited => "rate limit exceeded — too many failed attempts"
  | InsufficientPermission => "insufficient permission — admin key required"
  | _ => "unauthorized"
  end.

Definition required_permission (method : string) : Permission :=
  if String.eqb method "POST" || String.eqb method "DELETE" || String.eqb method "PUT"
     || String.eqb method "PATCH"
  then PermAdmin else PermRead.

Definition extract_bearer_token (auth_header : option string) : result string AuthError :=
  let? header := ok_or auth_header MissingHeader in
  let? token := ok_or (match strip_prefix "Bearer " header with
                       | Some t => Some t
                       | None => strip_prefix "bearer " header
                       end) MalformedHeader in
  if is_empty token then Err MalformedHeader else Ok token.

(** * The rate limiter *)

Record FailureEntry : Type := mkFailureEntry {
  timestamps : list Instant;
  blocked_until : option Instant
}.

Record RateLimiter : Type := mkRateLimiter {
  max_failures : Z;
  window_seconds : Z;
  block_seconds : Z;
  failures : gmap IpAddr FailureEntry
}.
Definition new_limiter (max window block : Z) : RateLimiter := mkRateLimiter max window block ∅.

Definition still_blocked (e : FailureEntry) (now : Instant) : bool :=
  match blocked_until e with Some until => now <? until | None => false end.

Definition is_blocked (r : RateLimiter) (ip : IpAddr) (now : Instant) : bool :=
  if max_failures r =? 0 then false
  else match failures r !! ip with
       | None => false
       | Some entry => still_blocked entry now
       end.

(** [Instant + Duration] panics when the seconds of the sum exceed an [i64],
    as they do on Linux. *)
Definition instant_max : Instant := (i64_max + 1) * ns_per_s - 1.
Definition instant_add (now d : Z) : exec Instant :=
  if now + d <=? instant_max then Done (now + d) else Panic.

(** What one failure makes of the entry of its address; a panic unwinds with
    the failure noted, and no lock is poisoned. *)
Definition note_failure (r : RateLimiter) (entry : FailureEntry) (now : Instant)
  : FailureEntry * exec unit :=
  if still_blocked entry now then (entry, Done tt)
  else
    let kept := filter (fun t => duration_since now t < from_secs (window_seconds r))
                  (timestamps entry) ++ [now] in
    if max_failures r <=? Z.of_nat (length kept) mod (u32_max + 1)
    then match instant_add now (from_secs (block_seconds r)) with
         | Done until => (mkFailureEntry [] (Some until), Done tt)
         | _ => (mkFailureEntry kept None, Panic)
         end
    else (mkFailureEntry kept None, Done tt).

Definition record_failure (r : RateLimiter) (ip : IpAddr) (now : Instant)
  : RateLimiter * exec unit :=
  if max_failures r =? 0 then (r, Done tt)
  else
    let entry := default (mkFailureEntry [] None) (failures r !! ip) in
    let (entry', res) := note_failure r entry now in
    (mkRateLimiter (max_failures r) (window_seconds r) (block_seconds r)
       (<[ip := entry']> (failures r)), res).

(** * The state and its checks *)

Record AuthState : Type := mkAuthState {
  read_key_hash : option (list Z);
  admin_key_hash : option (list Z);
  rate_limiter : RateLimiter
}.
Definition set_limiter (r : RateLimiter) (a : AuthState) : AuthState :=
  mkAuthState (read_key_hash a) (admin_key_hash a) r.

Definition is_enabled (a : AuthState) : bool :=
  match read_key_hash a with Some _ => true | None => false end.

(** The readings of the clock while one request is checked. *)
Record AuthClock : Type := mkAuthClock { at_check : Instant; at_failure : Instant }.

(** What the middleware reads of a request. *)
Record Request : Type := mkRequest {
  method : string;
  path : string;
  authorization : option string;
  x_forwarded_for : option string;
  connect_info : option IpAddr
}.
Inductive MiddlewareResult : Type :=
| Next
| Rejected (status : Z) (body : string)
| Panicked.  (** the task of the connection unwinds *)

Section Checks.
Context {C : Crypto} {IT : IpText}.

(** [<[u8; 32]>::try_from]. *)
Definition as_32 (v : list Z) : option (list Z) :=
  if (length v =? 32)%nat then Some v else None.
Definition decode_hash (s : string) : option (list Z) := hex_decode s ≫= as_32.

Definition auth_new (cfg : option ApiAuthConfig.t) : AuthState :=
  match cfg with
  | Some cfg =>
      mkAuthState (decode_hash (ApiAuthConfig.read_key_hash cfg))
        (ApiAuthConfig.admin_key_hash cfg ≫= decode_hash)
        (new_limiter (ApiAuthConfig.max_failures cfg) (ApiAuthConfig.window_seconds cfg)
           (ApiAuthConfig.block_seconds cfg))
  | None => mkAuthState None None (new_limiter 0 0 0)
  end.

Definition verify_token (a : AuthState) (token : string) : result Permission AuthError :=
  let provided_hash := sha256 (as_bytes token) in
  let? read_hash := ok_or (read_key_hash a) NoKeyConfigured in
  if bool_decide (provided_hash = read_hash)
  then Ok (match admin_key_hash a with None => PermAdmin | Some _ => PermRead end)
  else match admin_key_hash a with
       | Some admin_hash =>
           if bool_decide (provided_hash = admin_hash) then Ok PermAdmin else Err InvalidKey
       | None => Err InvalidKey
       end.

Definition check (a : AuthState) (method : string) (auth_header : option string)
  (client_ip : option IpAddr) (c : AuthClock) : AuthState * exec (result Permission AuthError) :=
  if negb (is_enabled a) then (a, Done (Ok PermAdmin))
  else if match client_ip with
          | Some ip => is_blocked (rate_limiter a) ip (at_check c)
          | None => false
          end then (a, Done (Err RateLimited))
  else
    let required := required_permission method in
    match extract_bearer_token auth_header with
    | Err e => (a, Done (Err e))
    | Ok token =>
        match verify_token a token with
        | Err e =>
            match client_ip with
            | Some ip =>
                let (limiter, res) := record_failure (rate_limiter a) ip (at_failure c) in
                (set_limiter limiter a, run! _ := res in Done (Err e))
            | None => (a, Done (Err e))
            end
        | Ok granted =>
            if bool_decide (required = PermAdmin) && bool_decide (granted = PermRead)
            then (a, Done (Err InsufficientPermission))
            else (a, Done (Ok granted))
        end
    end.

(** The first address of [X-Forwarded-For], or else the peer address. *)
Definition client_ip (r : Request) : option IpAddr :=
  match x_forwarded_for r ≫= (fun s => ip_parse (trim (split_first "," s))) with
  | Some ip => Some ip
  | None => connect_info r
  end.

Definition auth_middleware (a : AuthState) (r : Request) (c : AuthClock)
  : AuthState * MiddlewareResult :=
  if String.eqb (path r) "/health" then (a, Next)
  else match check a (method r) (authorization r) (client_ip r) c with
       | (a', Done (Ok _)) => (a', Next)
       | (a', Done (Err e)) => (a', Rejected (status_code e) (error_body e))
       | (a', _) => (a', Panicked)
       end.

(** The keys that open a method: the read key for reads, the admin key for
    everything, the read key for everything in single-key mode. *)
Definition key_opens (a : AuthState) (method : string) (token : string) : Prop :=
  let h := sha256 (as_bytes token) in
  (read_key_hash a = Some h /\
     (admin_key_hash a = None \/ required_permission method = PermRead)) \/
  (admin_key_hash a = Some h /\ read_key_hash a <> Some h).
End Checks.

(** ** The limiter, as a specification *)

(** Failures of any addresses, at their times. *)
Definition note_all (r : RateLimiter) (evs : list (IpAddr * Instant)) : RateLimiter :=
  foldl (fun r ev => (record_failure r ev.1 ev.2).1) r evs.
Definition times_of (ip : IpAddr) (evs : list (IpAddr * Instant)) : list Instant :=
  omap (fun ev => if bool_decide (ev.1 = ip) then Some ev.2 else None) evs.

(** What the failures of one address amount to, nothing ever forgotten: the
    failures that count (those outside of a block, since the last one began)
    and the end of that block. *)
Record Conduct : Type := mkConduct { counting : list Instant; blocked_to : option Instant }.
Definition blocked_by (h : Conduct) (now : Instant) : bool :=
  match blocked_to h with Some u => now <? u | None => false end.
(** This failure and the counting ones less than a window before it. *)
Definition failures_in_window (window : Z) (h : Conduct) (t : Instant) : Z :=
  Z.of_nat (S (length (filter (fun x => t - x < from_secs window) (counting h)))).
Definition starts_block (max window : Z) (h : Conduct) (t : Instant) : bool :=
  negb (blocked_by h t) && (max <=? failures_in_window window h t).
Definition fails (max window block : Z) (h : Conduct) (t : Instant) : Conduct :=
  if blocked_by h t then h
  else if starts_block max window h t && (t + from_secs block <=? instant_max)
  then mkConduct [] (Some (t + from_secs block))
  else mkConduct (counting h ++ [t]) None.
Definition conduct (max window block : Z) (times : list Instant) : Conduct :=
  foldl (fails max window block) (mkConduct [] None) times.

(** [l] holds enough failures for a block at the time [tb] of the last. *)
Definition burst (max window : Z) (l : list Instant) (tb : Instant) : Prop :=
  max <= Z.of_nat (length l) /\ last l = Some tb /\
  Forall (fun t => tb - t < from_secs window \/ t = tb) l.

(** * Lemmas *)

Section CheckFacts.
Context {C : Crypto} {IT : IpText}.

Lemma verify_token_Ok a token p :
  verify_token a token = Ok p <->
  let h := sha256 (as_bytes token) in
  (read_key_hash a = Some h /\
     p = match admin_key_hash a with None => PermAdmin | Some _ => PermRead end) \/
  (exists rh, read_key_hash a = Some rh /\ rh <> h /\ admin_key_hash a = Some h /\ p = PermAdmin).
Proof.
  unfold verify_token. cbn zeta. destruct (read_key_hash a) as [rh|]; simpl; [|naive_solver].
  case_bool_decide as H1; [naive_solver|].
  destruct (admin_key_hash a) as [ah|]; simpl; [|naive_solver].
  case_bool_decide as H2; naive_solver.
Qed.

Lemma verify_token_Err a token e :
  is_enabled a = true -> verify_token a token = Err e -> e = InvalidKey.
Proof.
  unfold is_enabled, verify_token. destruct (read_key_hash a); simpl; [|done].
  case_bool_decide; [done|]. destruct (admin_key_hash a); [case_bool_decide|]; naive_solver.
Qed.

Lemma extract_bearer_token_Err h e :
  extract_bearer_token h = Err e -> e = MissingHeader \/ e = MalformedHeader.
Proof.
  unfold extract_bearer_token. destruct h as [header|]; cbn [ok_or result_bind]; [|naive_solver].
  destruct (match strip_prefix "Bearer " header with Some t => _ | None => _ end) as [t|];
    cbn [ok_or result_bind]; [|naive_solver]. destruct (is_empty t); naive_solver.
Qed.

(** A failure that panics had to start a block that would end too late. *)
Lemma record_failure_panics r ip now :
  (record_failure r ip now).2 <> Done tt ->
  (record_failure r ip now).2 = Panic /\ instant_max < now + from_secs (block_seconds r).
Proof.
  unfold record_failure, note_failure, instant_add. destruct (_ =? 0); [done|].
  destruct (still_blocked _ _); [done|]. destruct (_ <=? _ mod _); [|done].
  destruct (_ <=? instant_max) eqn:E; simpl; [done|]. bool_to_prop. by split.
Qed.

(** A request is let through exactly with a key for its method. *)
Lemma check_Ok a m h ip c :
  is_enabled a = true ->
  (exists p, (check a m h ip c).2 = Done (Ok p)) <->
  (forall i, ip = Some i -> is_blocked (rate_limiter a) i (at_check c) = false) /\
  exists token, extract_bearer_token h = Ok token /\ key_opens a m token.
Proof.
  intros He. unfold check. rewrite He. cbn [negb].
  destruct (match ip with Some i => _ | None => false end) eqn:Hb.
  { split; [by intros [? ?]|]. intros [Hn _]. destruct ip as [i|]; [|done].
    rewrite (Hn i eq_refl) in Hb. done. }
  assert (forall i, ip = Some i -> is_blocked (rate_limiter a) i (at_check c) = false) as Hnb
    by (intros i ->; done).
  destruct (extract_bearer_token h) as [token|e] eqn:Ht; [|naive_solver].
  destruct (verify_token a token) as [p|e] eqn:Hv; cbn [snd].
  - apply verify_token_Ok in Hv. unfold key_opens.
    destruct Hv as [[Hr ->]|(rh & Hr & Hne & Ha & ->)].
    + destruct (admin_key_hash a) as [ah|] eqn:Ha; simpl.
      * destruct (decide (required_permission m = PermRead)) as [Hm|Hm].
        { rewrite (bool_decide_eq_false_2 (required_permission m = PermAdmin)) by congruence.
          split; [|eauto]. intros _. split; [done|]. exists token. auto. }
        assert (required_permission m = PermAdmin) as Hm' by (by destruct (required_permission m)).
        rewrite (bool_decide_eq_true_2 (required_permission m = PermAdmin)) by done. simpl.
        split; [by intros [? ?]|]. intros (_ & t & [= <-] & [[_ [?|?]]|[? ?]]); congruence.
      * rewrite andb_false_r. split; [|eauto]. intros _. split; [done|]. exists token. auto.
    + simpl. rewrite andb_false_r. split; [|eauto]. intros _. split; [done|].
      exists token. split; [done|]. right. split; [done|]. congruence.
  - split.
    { intros [p Hp]. destruct ip as [i|]; [|done].
      by destruct (record_failure (rate_limiter a) i (at_failure c)) as [? [[]| |]]. }
    intros (_ & t & [= <-] & Hk). exfalso.
    assert (exists p, verify_token a token = Ok p) as [p Hp]; [|congruence].
    unfold is_enabled in He. destruct (read_key_hash a) as [rh|] eqn:Hr; [|done].
    destruct Hk as [[Hk _]|[Hk Hne]]; eexists; apply verify_token_Ok; cbn zeta; [by left|].
    right. exists rh. split_and!; try done. congruence.
Qed.

(** A request that is let through leaves no trace. *)
Lemma check_Ok_state a m h ip c p : (check a m h ip c).2 = Done (Ok p) -> (check a m h ip c).1 = a.
Proof.
  unfold check. intros Hp. repeat case_match; simplify_eq/=; try done.
  by match goal with res : exec unit |- _ => destruct res as [[]| |] end.
Qed.

Lemma check_limited a m h ip c i :
  is_enabled a = true -> ip = Some i -> is_blocked (rate_limiter a) i (at_check c) = true ->
  check a m h ip c = (a, Done (Err RateLimited)).
Proof. intros He -> Hb. unfold check. by rewrite He, Hb. Qed.

(** What else a check can come to. *)
Lemma check_rejects a m h ip c :
  is_enabled a = true ->
  match (check a m h ip c).2 with
  | Done (Ok _) => True
  | Done (Err e) => e <> NoKeyConfigured
  | res => res = Panic /\ instant_max < at_failure c + from_secs (block_seconds (rate_limiter a))
  end.
Proof.
  intros He. unfold check. rewrite He. cbn [negb].
  destruct (match ip with Some i => is_blocked _ i _ | None => false end); [done|].
  destruct (extract_bearer_token h) as [token|e] eqn:Et;
    [|by apply extract_bearer_token_Err in Et as [-> | ->]].
  destruct (verify_token a token) as [p|e] eqn:Ev; [by destruct (_ && _)|].
  apply verify_token_Err in Ev as ->; [|done]. destruct ip as [i|]; [|done].
  pose proof (record_failure_panics (rate_limiter a) i (at_failure c)) as Hp.
  destruct (record_failure (rate_limiter a) i (at_failure c)) as [l [[]| |]]; simpl in *; [done | |].
  - by destruct Hp.
  - by destruct Hp.
Qed.

Lemma status_code_rejects e : e <> NoKeyConfigured -> status_code e ∈ [401; 403; 429].
Proof. intros He. destruct e; try done; set_solver. Qed.

Lemma decode_hash_Some `{!CryptoLaws} s :
  hash_format s = true -> exists v, decode_hash s = Some v /\ length v = 32%nat.
Proof.
  unfold hash_format. rewrite andb_true_iff, Nat.eqb_eq. intros [Hs Hl].
  destruct (hex_decode_even s Hs) as (v & Hv & Hlen); [by rewrite Hl|]. rewrite Hl in Hlen.
  exists v. unfold decode_hash. rewrite Hv. simpl. unfold as_32. by rewrite Hlen.
Qed.

Lemma auth_new_valid `{!CryptoLaws} cfg :
  auth_valid cfg ->
  is_enabled (auth_new (Some cfg)) = true /\
  (admin_key_hash (auth_new (Some cfg)) = None <-> ApiAuthConfig.admin_key_hash cfg = None).
Proof.
  intros [Hr Ha]. unfold is_enabled. simpl.
  destruct (decode_hash_Some _ Hr) as (v & -> & _). split; [done|].
  destruct (ApiAuthConfig.admin_key_hash cfg) as [h|]; simpl in *; [|done].
  destruct (decode_hash_Some h Ha) as (w & -> & _). done.
Qed.
End CheckFacts.

(** ** The limiter *)

Lemma note_failure_params r r' e t :
  max_failures r = max_failures r' -> window_seconds r = window_seconds r' ->
  block_seconds r = block_seconds r' -> note_failure r e t = note_failure r' e t.
Proof. unfold note_failure. by intros -> -> ->. Qed.

Definition entry_of (r : RateLimiter) (ip : IpAddr) : FailureEntry :=
  default (mkFailureEntry [] None) (failures r !! ip).

Lemma is_blocked_entry r ip now :
  max_failures r <> 0 -> is_blocked r ip now = still_blocked (entry_of r ip) now.
Proof.
  intros Hm. unfold is_blocked, entry_of. rewrite (proj2 (Z.eqb_neq _ _) Hm).
  by destruct (failures r !! ip).
Qed.

Lemma record_failure_entry r ip ip' t :
  max_failures r <> 0 ->
  entry_of (record_failure r ip t).1 ip' =
    (if bool_decide (ip = ip') then (note_failure r (entry_of r ip) t).1 else entry_of r ip') /\
  (record_failure r ip t).2 = (note_failure r (entry_of r ip) t).2.
Proof.
  intros Hm. unfold record_failure. rewrite (proj2 (Z.eqb_neq _ _) Hm).
  fold (entry_of r ip). destruct (note_failure r (entry_of r ip) t) as [e res].
  unfold entry_of. simpl. split; [|done].
  case_bool_decide as E; [by subst; rewrite lookup_insert_eq | by rewrite lookup_insert_ne].
Qed.

Lemma record_failure_params r ip t :
  max_failures (record_failure r ip t).1 = max_failures r /\
  window_seconds (record_failure r ip t).1 = window_seconds r /\
  block_seconds (record_failure r ip t).1 = block_seconds r.
Proof. unfold record_failure. case_match; [done|]. by destruct (note_failure _ _ _). Qed.

Lemma note_all_params r evs :
  max_failures (note_all r evs) = max_failures r /\ window_seconds (note_all r evs) = window_seconds r /\
  block_seconds (note_all r evs) = block_seconds r.
Proof.
  unfold note_all. induction evs as [|ev evs IH] using rev_ind; [done|]. rewrite foldl_app. simpl.
  destruct (record_failure_params (foldl (fun r ev => (record_failure r ev.1 ev.2).1) r evs) ev.1 ev.2)
    as (-> & -> & ->). exact IH.
Qed.

(** ** The limiter refines its specification *)

(** Forgetting what has left the window is never noticed later. *)
Definition refines (window : Z) (seen : list Instant) (e : FailureEntry) (h : Conduct) : Prop :=
  blocked_until e = blocked_to h /\ (length (timestamps e) <= length (counting h))%nat /\
  forall t, Forall (fun x => x <= t) seen ->
    filter (fun x => duration_since t x < from_secs window) (timestamps e) =
    filter (fun x => t - x < from_secs window) (counting h).

Lemma filter_later window t0 t (l : list Instant) :
  t0 <= t ->
  filter (fun x => duration_since t x < from_secs window)
    (filter (fun x => duration_since t0 x < from_secs window) l) =
  filter (fun x => duration_since t x < from_secs window) l.
Proof.
  intros Ht. induction l as [|x l IH]; [done|]. rewrite !filter_cons.
  destruct (decide (duration_since t0 x < from_secs window)) as [H0|H0].
  - rewrite filter_cons, IH. done.
  - rewrite IH, decide_False; [done|]. unfold duration_since in *. lia.
Qed.

Lemma refines_step max window block r seen t e h :
  max_failures r = max -> window_seconds r = window -> block_seconds r = block ->
  0 <= window -> Forall (fun x => x <= t) seen ->
  (length (counting h) < Z.to_nat u32_max)%nat -> refines window seen e h ->
  refines window (seen ++ [t]) (note_failure r e t).1 (fails max window block h t) /\
  ((note_failure r e t).2 = Panic <->
     starts_block max window h t = true /\ instant_max < t + from_secs block).
Proof.
  intros Hm Hw Hb Hpos Ht Hlen (Hu & Hl & Hf). unfold note_failure, fails, starts_block.
  assert (still_blocked e t = blocked_by h t) as -> by (unfold still_blocked, blocked_by; by rewrite Hu).
  destruct (blocked_by h t); simpl.
  { split; [|naive_solver]. split_and!; [done..|]. intros u Hut. apply Hf.
    by apply Forall_app in Hut as [Hut _]. }
  rewrite Hm, Hw, Hb, (Hf t Ht). unfold failures_in_window.
  set (recent := filter (fun x => t - x < from_secs window) (counting h)).
  assert (length (recent ++ [t]) = S (length recent)) as -> by (rewrite length_app; simpl; lia).
  pose proof (length_filter (fun x => t - x < from_secs window) (counting h)) as Hrec. fold recent in Hrec.
  rewrite Z.mod_small by (unfold u32_max in *; lia).
  assert (refines window (seen ++ [t]) (mkFailureEntry (recent ++ [t]) None)
    (mkConduct (counting h ++ [t]) None)) as Hkeep.
  { split_and!; simpl; [done | rewrite !length_app; simpl; lia |]. intros u Hut.
    apply Forall_app in Hut as [Hsu Htu]. rewrite Forall_singleton in Htu.
    rewrite !filter_app. f_equal.
    - unfold recent. rewrite <- (Hf t Ht), filter_later; [by apply Hf | exact Htu].
    - rewrite !filter_cons, !filter_nil. unfold duration_since.
      repeat case_decide; try done; exfalso; lia. }
  destruct (max <=? _) eqn:Emax; simpl; [|split; [done | naive_solver]].
  unfold instant_add. destruct (t + from_secs block <=? instant_max) eqn:E; bool_to_prop; simpl.
  - split; [|split; [done | intros [_ ?]; lia]]. split_and!; [done..|]. by intros.
  - split; [done|]. split; [intros _; by split | done].
Qed.

Lemma fails_blocked_by max window block h t now :
  match blocked_to (fails max window block h t) with Some u => now <? u | None => false end =
  if blocked_by h t then blocked_by h now
  else (max <=? failures_in_window window h t) && (t + from_secs block <=? instant_max)
       && (now <? t + from_secs block).
Proof.
  unfold fails, starts_block. destruct (blocked_by h t); [done|]. simpl.
  by destruct (_ && _).
Qed.

Lemma times_of_snoc ip evs ev :
  times_of ip (evs ++ [ev]) = times_of ip evs ++ (if bool_decide (ev.1 = ip) then [ev.2] else []).
Proof. unfold times_of. rewrite omap_app. f_equal. simpl. by case_bool_decide. Qed.

Lemma times_of_length ip evs : (length (times_of ip evs) <= length evs)%nat.
Proof.
  induction evs as [|ev evs IH] using rev_ind; [done|]. rewrite times_of_snoc, !length_app.
  case_bool_decide; simpl; lia.
Qed.

Lemma note_all_snoc r evs ev : note_all r (evs ++ [ev]) = (record_failure (note_all r evs) ev.1 ev.2).1.
Proof. unfold note_all. by rewrite foldl_app. Qed.

(** The conduct of an address counts failures of its own, and a block has its
    burst of them. *)
Lemma conduct_of_times max window block times :
  let h := conduct max window block times in
  counting h `sublist_of` times /\
  match blocked_to h with
  | Some u => exists l tb, l `sublist_of` times /\ burst max window l tb /\ u = tb + from_secs block
  | None => True
  end.
Proof.
  cbn zeta. induction times as [|t times IH] using rev_ind; [done|].
  unfold conduct in *. rewrite foldl_app. simpl.
  destruct IH as [Hsub Hb]. revert Hsub Hb.
  generalize (foldl (fails max window block) (mkConduct [] None) times). intros h Hsub Hb.
  unfold fails. destruct (blocked_by h t).
  { split; [by apply sublist_weaken|]. destruct (blocked_to h) as [u|]; [|done].
    destruct Hb as (l & tb & ? & ? & ?). exists l, tb. split; [by apply sublist_weaken | done]. }
  destruct (starts_block max window h t && _) eqn:E; simpl; [|split; [by apply sublist_snoc | done]].
  split; [apply sublist_nil_l|]. unfold starts_block, failures_in_window in E. bool_to_prop.
  exists (filter (fun x => t - x < from_secs window) (counting h) ++ [t]), t.
  split_and!; [| split_and!; [| apply last_snoc |] | done].
  - apply sublist_snoc. etrans; [apply sublist_filter | done].
  - rewrite length_app. simpl. lia.
  - apply Forall_app. split; [|rewrite Forall_singleton; by right].
    apply Forall_forall. intros x Hx. apply list_elem_of_filter in Hx as [Hx _]. by left.
Qed.

Lemma Sorted_snoc_Z (l : list Z) t : Sorted Z.le (l ++ [t]) -> Sorted Z.le l /\ Forall (fun x => x <= t) l.
Proof.
  intros Hs. apply Sorted_StronglySorted in Hs; [|intros ???; lia].
  apply StronglySorted_app in Hs as (Hx & Hs & _). split; [by apply StronglySorted_Sorted|].
  apply Forall_forall. intros x Hin. apply Hx; set_solver.
Qed.

Lemma note_all_refines max window block ip evs :
  0 < max -> 0 <= window -> Sorted Z.le evs.*2 -> Z.of_nat (length evs) < u32_max ->
  refines window evs.*2 (entry_of (note_all (new_limiter max window block) evs) ip)
    (conduct max window block (times_of ip evs)).
Proof.
  intros Hm Hw. induction evs as [|[i t] evs IH] using rev_ind; intros Hs Hl; [done|].
  rewrite fmap_app in *. simpl in *. apply Sorted_snoc_Z in Hs as [Hs Ht].
  rewrite length_app in Hl. simpl in Hl.
  specialize (IH Hs ltac:(lia)). rewrite note_all_snoc, times_of_snoc. simpl.
  destruct (note_all_params (new_limiter max window block) evs) as (Hr1 & Hr2 & Hr3).
  destruct (record_failure_entry (note_all (new_limiter max window block) evs) i ip t) as [-> _];
    [rewrite Hr1; simpl; lia|].
  pose proof (times_of_length ip evs) as Hlen.
  destruct (conduct_of_times max window block (times_of ip evs)) as [Hsub _].
  apply sublist_length in Hsub. case_bool_decide as E; simpl.
  - subst i. unfold conduct. rewrite foldl_app. simpl.
    apply (refines_step max window block); try done. fold (conduct max window block (times_of ip evs)). lia.
  - rewrite app_nil_r. destruct IH as (Hu & Hle & Hf). split_and!; [done..|].
    intros u Hut. apply Forall_app in Hut as [Hut _]. by apply Hf.
Qed.

(** * Properties *)

(** C12: no key, no entry.  With authentication enabled, a request other than
    [/health] reaches its handler exactly when its client address is not
    blocked and its bearer token hashes to a configured key that opens its
    method: writes need the admin key, unless only one key is configured;
    every other request is never forwarded: it is answered 401, 403 or 429,
    unless the failure it is starts a block that would end beyond the last
    [Instant], which panics instead. *)
Theorem auth_middleware_gate {C : Crypto} {IT : IpText} (a : AuthState) (r : Request)
  (c : AuthClock) :
  is_enabled a = true -> path r <> "/health" ->
  ((auth_middleware a r c).2 = Next <->
   (forall i, client_ip r = Some i -> is_blocked (rate_limiter a) i (at_check c) = false) /\
   exists token, extract_bearer_token (authorization r) = Ok token /\
     key_opens a (method r) token) /\
  ((auth_middleware a r c).2 <> Next ->
   (exists status body, (auth_middleware a r c).2 = Rejected status body /\
     status ∈ [401; 403; 429]) \/
   ((auth_middleware a r c).2 = Panicked /\
    instant_max < at_failure c + from_secs (block_seconds (rate_limiter a)))).
Proof.
  intros He Hp. pose proof (check_Ok a (method r) (authorization r) (client_ip r) c He) as Hck.
  pose proof (check_rejects a (method r) (authorization r) (client_ip r) c He) as Hrej.
  unfold auth_middleware. rewrite (proj2 (String.eqb_neq _ _) Hp).
  destruct (check a (method r) (authorization r) (client_ip r) c) as [a' res].
  cbn [snd] in Hck, Hrej. rewrite <- Hck. destruct res as [[p|e]| |]; cbn [snd].
  - split; [split; eauto | done].
  - split; [split; [done | by intros [? ?]]|]. intros _. left.
    exists (status_code e), (error_body e). split; [done | by apply status_code_rejects].
  - split; [split; [done | by intros [? ?]]|]. intros _. right. by destruct Hrej.
  - by destruct Hrej.
Qed.

(** A stand-in digest and decoder, for closed examples. *)
Definition demo_hash (l : list Z) : list Z := take 32 (l ++ replicate 32 0).
Fixpoint demo_decode (s : string) : option (list Z) :=
  match s with
  | "" => Some []
  | String a (String b s') => x ← hex_pair a b; l ← demo_decode s'; Some (x :: l)
  | _ => None
  end.
Definition demo_crypto : Crypto := {| sha256 := demo_hash; hex_decode := demo_decode |}.
Definition demo_state : AuthState :=
  mkAuthState (Some (demo_hash (as_bytes "reader"))) (Some (demo_hash (as_bytes "root")))
    (new_limiter 3 60 300).
Definition demo_request (m h : string) : Request :=
  mkRequest m "/alerts/1" (Some h) None (Some (V4 7)).

Lemma auth_middleware_gate_witness :
  (@auth_middleware demo_crypto std_ip_text demo_state (demo_request "DELETE" "Bearer root")
     (mkAuthClock 5 6)).2 = Next /\
  (@auth_middleware demo_crypto std_ip_text demo_state (demo_request "DELETE" "Bearer reader")
     (mkAuthClock 5 6)).2 <> Next.
Proof.
  split.
  - apply (@auth_middleware_gate demo_crypto std_ip_text demo_state); [reflexivity | discriminate |].
    split; [intros i [= <-]; vm_compute; reflexivity|]. exists "root".
    split; [vm_compute; reflexivity|]. right. split; [vm_compute; reflexivity|].
    vm_compute. discriminate.
  - intros H. vm_compute in H. discriminate H.
Defined.

(** Authentication fails closed: an [[api.auth]] section that passed
    validation always enables authentication, and the read key alone is
    promoted to admin only when no admin key was configured. *)
Theorem auth_fails_closed {C : Crypto} {CL : CryptoLaws} {IT : IpText} (c : Config.t)
  (cfg : ApiAuthConfig.t) (r : Request) (clk : AuthClock) :
  config_valid c -> ApiConfig.auth (Config.api c) = Some cfg ->
  let a := auth_new (ApiConfig.auth (Config.api c)) in
  is_enabled a = true /\
  (admin_key_hash a = None <-> ApiAuthConfig.admin_key_hash cfg = None) /\
  (path r <> "/health" -> authorization r = None -> (auth_middleware a r clk).2 <> Next).
Proof.
  intros (_ & _ & _ & _ & Hv & _) Hc a. rewrite Hc in Hv. simpl in Hv.
  destruct (auth_new_valid cfg Hv) as [He Ha]. subst a. rewrite Hc. split_and!; try done.
  intros Hp Hn. unfold auth_middleware. rewrite (proj2 (String.eqb_neq _ _) Hp).
  unfold check. rewrite He, Hn. cbn [negb extract_bearer_token ok_or result_bind].
  by destruct (match client_ip r with Some i => _ | None => false end).
Qed.

Lemma demo_decode_even s :
  all_chars is_ascii_hexdigit s = true -> Nat.even (String.length s) = true ->
  exists v, demo_decode s = Some v /\ length v = Nat.div2 (String.length s).
Proof.
  assert (forall c, is_ascii_hexdigit c = true -> exists z, hex_value c = Some z) as Hx.
  { intros c. unfold is_ascii_hexdigit, hex_value. cbn zeta.
    destruct (in_range 48 57 (ord c)); [eauto|]. destruct (in_range 65 70 (ord c)); [eauto|].
    destruct (in_range 97 102 (ord c)); [eauto | done]. }
  remember (String.length s) as n eqn:Hn. revert s Hn.
  induction n as [n IH] using lt_wf_ind. intros s -> Hs He.
  destruct s as [|a [|b s]]; [by exists [] | done |]. cbn [all_chars] in Hs.
  apply andb_true_iff in Hs as [Ha Hs]. apply andb_true_iff in Hs as [Hb Hs].
  destruct (Hx a Ha) as [x Hxa], (Hx b Hb) as [y Hyb].
  destruct (IH (String.length s)) with (s := s) as (v & Hv & Hl); simpl; auto.
  exists (16 * x + y :: v). cbn [demo_decode]. unfold hex_pair. rewrite Hxa, Hyb. simpl.
  rewrite Hv. simpl. by rewrite Hl.
Qed.

Definition demo_crypto_laws : @CryptoLaws demo_crypto.
Proof.
  split; [|apply demo_decode_even]. intros l. unfold sha256, demo_crypto, demo_hash.
  rewrite length_take, length_app, length_replicate. lia.
Defined.

Definition demo_auth_config : Config.t :=
  Config.mk "eth0" 8080 "0.0.0.0"
    (ApiConfig.mk (Some (ApiAuthConfig.mk
       "0123456789abcdefABCDEF00112233440123456789abcdefABCDEF0011223344" None 3 60 300)) None None)
    "info" 4096 "" None None None None [] ScannerConfig.default_config StorageConfig.default_config.

Lemma auth_fails_closed_witness :
  (@auth_middleware demo_crypto std_ip_text
     (@auth_new demo_crypto (ApiConfig.auth (Config.api demo_auth_config)))
     (mkRequest "GET" "/devices" None None None) (mkAuthClock 0 0)).2 <> Next.
Proof.
  apply (@auth_fails_closed demo_crypto demo_crypto_laws std_ip_text demo_auth_config
    (ApiAuthConfig.mk "0123456789abcdefABCDEF00112233440123456789abcdefABCDEF0011223344" None 3 60 300)).
  - unfold config_valid. split; [vm_compute; reflexivity|].
    repeat split; try (vm_compute; reflexivity). apply Forall_nil. exact I.
  - reflexivity.
  - discriminate.
  - reflexivity.
Defined.

(** C26: the rate limiter blocks exactly what it should.  After any failures
    of any addresses at non-decreasing times, an address is blocked exactly
    as the specification of its own failures says, which forgets nothing and
    knows no other address; one more failure changes nothing during a block,
    and otherwise begins a block of [block_seconds], the first one or a later
    one, exactly when with it [max_failures] failures since the last block
    began lie within one window, and panics exactly when the end of that
    block is beyond the last [Instant]; and an address is only ever blocked
    because of that many failures within a window, the last at most
    [block_seconds] ago. *)
Theorem rate_limiter_exact (max window block : Z) (ip : IpAddr)
  (evs : list (IpAddr * Instant)) :
  0 < max -> 0 <= window -> Sorted Z.le evs.*2 -> Z.of_nat (length evs) < u32_max ->
  let r := note_all (new_limiter max window block) evs in
  let h := conduct max window block (times_of ip evs) in
  (forall now, is_blocked r ip now = blocked_by h now) /\
  (forall t, Forall (fun x => x <= t) evs.*2 ->
     ((record_failure r ip t).2 = Panic <->
        starts_block max window h t = true /\ instant_max < t + from_secs block) /\
     forall now, is_blocked (record_failure r ip t).1 ip now =
       if blocked_by h t then blocked_by h now
       else (max <=? failures_in_window window h t) && (t + from_secs block <=? instant_max)
            && (now <? t + from_secs block)) /\
  (forall now, is_blocked r ip now = true ->
     exists l tb, l `sublist_of` times_of ip evs /\ burst max window l tb /\
       now < tb + from_secs block).
Proof.
  intros Hm Hw Hs Hl r h.
  destruct (note_all_params (new_limiter max window block) evs) as (Hr1 & Hr2 & Hr3).
  fold r in Hr1, Hr2, Hr3. simpl in Hr1, Hr2, Hr3.
  assert (max_failures r <> 0) as Hr by lia.
  destruct (conduct_of_times max window block (times_of ip evs)) as [Hsub Hbu]. fold h in Hsub, Hbu.
  assert (forall now, is_blocked r ip now = blocked_by h now) as Hb.
  { intros now. rewrite is_blocked_entry by done.
    destruct (note_all_refines max window block ip evs) as (Hu & _); [done..|].
    unfold still_blocked, blocked_by. fold r h in Hu. by rewrite Hu. }
  split_and!; [done | |].
  - intros t Ht. pose proof (note_all_refines max window block ip evs Hm Hw Hs Hl) as Href. fold r h in Href.
    destruct (refines_step max window block r evs.*2 t (entry_of r ip) h) as [(Hu & _) Hp]; try done.
    { apply sublist_length in Hsub. pose proof (times_of_length ip evs). lia. }
    destruct (record_failure_entry r ip ip t Hr) as [He ->].
    rewrite bool_decide_eq_true_2 in He by done. split; [exact Hp|]. intros now.
    rewrite is_blocked_entry, He
      by (destruct (record_failure_params r ip t) as (-> & _ & _); done).
    unfold still_blocked. rewrite Hu. apply fails_blocked_by.
  - intros now. rewrite Hb. unfold blocked_by. destruct (blocked_to h) as [u|]; [|done].
    intros Hn. destruct Hbu as (l & tb & ? & ? & ->). exists l, tb. split_and!; try done. by bool_to_prop.
Qed.

(** The second block of an address, after the first one expired; and a block
    that cannot be represented. *)
Lemma rate_limiter_exact_witness :
  let evs := [(V4 7, 0); (V4 9, 5); (V4 7, 10); (V4 7, 20 * ns_per_s); (V4 7, 21 * ns_per_s)] in
  is_blocked (note_all (new_limiter 2 60 15) evs) (V4 7) (30 * ns_per_s) = true /\
  is_blocked (note_all (new_limiter 2 60 15) evs) (V4 9) (30 * ns_per_s) = false /\
  (record_failure (note_all (new_limiter 2 60 u64_max) [(V4 7, 0)]) (V4 7) 10).2 = Panic.
Proof.
  intros evs.
  assert (Sorted Z.le evs.*2) as Hs
    by (subst evs; simpl; repeat first [apply Sorted_cons | apply Sorted_nil | apply HdRel_cons
          | apply HdRel_nil | done]).
  split_and!.
  - rewrite (proj1 (rate_limiter_exact 2 60 15 (V4 7) evs ltac:(done) ltac:(done) Hs ltac:(done))).
    vm_compute. reflexivity.
  - rewrite (proj1 (rate_limiter_exact 2 60 15 (V4 9) evs ltac:(done) ltac:(done) Hs ltac:(done))).
    vm_compute. reflexivity.
  - apply (rate_limiter_exact 2 60 u64_max (V4 7) [(V4 7, 0)]);
      [done | done | repeat constructor | done | repeat constructor; done |].
    split; vm_compute; reflexivity.
Defined.
