(* ===== verification/Rules.v ===== *)
(** The rule engine: [crates/rules/src/engine.rs] and
    [crates/rules/src/config_bridge.rs].  Rules keep per-device cooldowns,
    read and extend an alert store, and turn discovery events into alerts;
    the engine is verified against the contract of the store, for any
    implementation of it. *)

From S2P Require Import Prelude Text Types Reference Stores Alerts Config Packet Classify Dhcp.
From S2P Require Import Mdns Oui Discovery.

(** * Rules *)

Inductive RuleCondition : Type :=
| CondNewDevice
| CondNewDeviceByVendor (vendor : string)
| CondNewDeviceByMacPrefix (prefix : string)
| CondDeviceOffline (after_seconds : Z)
| CondProtocolChange.

Module Rule.
Record t : Type := mk {
  name : string;
  enabled : bool;
  condition : RuleCondition;
  severity : Severity;
  cooldown_seconds : Z;
  last_fired : gmap MacAddress Z
}.
Definition new (name : string) (enabled : bool) (condition : RuleCondition)
  (severity : Severity) (cooldown_seconds : Z) : t :=
  mk name enabled condition severity cooldown_seconds ∅.
Definition set_last_fired (l : gmap MacAddress Z) (r : t) : t :=
  mk (name r) (enabled r) (condition r) (severity r) (cooldown_seconds r) l.

(** [check_and_record_cooldown] at the instant [now]. *)
Definition check_and_record_cooldown (r : t) (m : MacAddress) (now : Z) : t * bool :=
  if cooldown_seconds r =? 0 then (r, true)
  else if match last_fired r !! m with
          | Some last => duration_since now last <? from_secs (cooldown_seconds r)
          | None => false
          end then (r, false)
  else (set_last_fired (<[m := now]> (last_fired r)) r, true).
End Rule.

(** * From the configuration, [config_bridge.rs] *)

Definition convert_condition (c : RuleConditionConfig) : result RuleCondition string :=
  match c with
  | Simple s =>
      if String.eqb s "new_device" then Ok CondNewDevice
      else if String.eqb s "protocol_change" then Ok CondProtocolChange
      else Err ("unknown simple condition '" +:+ s +:+ "': expected new_device or protocol_change")
  | NewDeviceByVendorCfg v => Ok (CondNewDeviceByVendor v)
  | NewDeviceByMacPrefixCfg p => Ok (CondNewDeviceByMacPrefix p)
  | DeviceOfflineCfg s => Ok (CondDeviceOffline s)
  end.

Definition rule_try_from (c : RuleConfig.t) : result Rule.t string :=
  let? severity := severity_from_str (RuleConfig.severity c) in
  let? condition := convert_condition (RuleConfig.condition c) in
  Ok (Rule.new (RuleConfig.name c) (RuleConfig.enabled c) condition severity
        (RuleConfig.cooldown_seconds c)).

(** * Evaluation *)

Definition event_device (e : DiscoveryEvent) : Device.t :=
  match e with DeviceDiscovered d | DeviceUpdated d | DeviceOffline d => d end.
Definition event_alert_type (e : DiscoveryEvent) : AlertEventType :=
  match e with
  | DeviceDiscovered _ => NewDevice
  | DeviceUpdated _ => ProtocolChange
  | DeviceOffline _ => Types.DeviceOffline
  end.
Definition is_discovered (e : DiscoveryEvent) : bool :=
  match e with DeviceDiscovered _ => true | _ => false end.
Definition is_updated (e : DiscoveryEvent) : bool :=
  match e with DeviceUpdated _ => true | _ => false end.
Definition is_offline (e : DiscoveryEvent) : bool :=
  match e with DeviceOffline _ => true | _ => false end.

(** The readings while one rule is evaluated: the instant of the cooldown
    check and the time stamp of the alert. *)
Record RuleClock : Type := mkRuleClock { instant : Z; wall : Timestamp }.

Section Engine.
Context {MT : MacText} {A : Type} {AS : AlertStore A}.

Definition mac_matches_prefix (m : MacAddress) (prefix : string) : bool :=
  starts_with (to_ascii_lowercase (mac_to_string m)) (to_ascii_lowercase prefix).

Definition display_name (d : Device.t) : string :=
  match Device.hostname d, Device.vendor d with
  | Some h, _ => h
  | None, Some v => v
  | None, None => mac_to_string (Device.mac d)
  end.
Definition build_message (rule_name : string) (d : Device.t) (ty : AlertEventType) : string :=
  let name := display_name d in
  let mac := mac_to_string (Device.mac d) in
  match ty with
  | NewDevice => "New device discovered: " +:+ name +:+ " (" +:+ mac +:+ ")"
  | Types.DeviceOffline => "Device offline: " +:+ name +:+ " (" +:+ mac +:+ ")"
  | ProtocolChange => "Protocol change for " +:+ name +:+ " (" +:+ mac +:+ ")"
  | Custom s => s +:+ ": " +:+ name +:+ " (" +:+ mac +:+ ")"
  end.

(** The [match] on the condition. *)
Definition condition_matches (c : RuleCondition) (e : DiscoveryEvent) : bool :=
  let d := event_device e in
  match c with
  | CondNewDevice => is_discovered e
  | CondNewDeviceByVendor filter =>
      is_discovered e &&
      match Device.vendor d with
      | Some v => contains (to_ascii_lowercase v) (to_ascii_lowercase filter)
      | None => false
      end
  | CondNewDeviceByMacPrefix prefix => is_discovered e && mac_matches_prefix (Device.mac d) prefix
  | CondDeviceOffline _ => is_offline e
  | CondProtocolChange => is_updated e
  end.

(** [evaluate_rule]: the rule and the store it leaves, and the alert. *)
Definition evaluate_rule (r : Rule.t) (e : DiscoveryEvent) (s : A) (c : RuleClock)
  : Rule.t * A * result (option Alert.t) StorageError :=
  let d := event_device e in
  if negb (condition_matches (Rule.condition r) e) then (r, s, Ok None)
  else
    let (r', ok) := Rule.check_and_record_cooldown r (Device.mac d) (instant c) in
    if negb ok then (r', s, Ok None)
    else match as_is_acknowledged s (Rule.name r') (Device.mac d) with
         | Err err => (r', s, Err err)
         | Ok true => (r', s, Ok None)
         | Ok false =>
             let ty := event_alert_type e in
             let alert := Alert.new (Rule.name r') (Rule.severity r') ty d
                            (build_message (Rule.name r') d ty) (wall c) in
             match as_insert s alert with
             | (s', Ok i) => (r', s', Ok (Some (Alert.set_id i alert)))
             | (s', Err _) => (r', s', Ok (Some alert))
             end
         end.

(** The loop of [process_event] over the rules; [?] leaves the rest of them
    untouched and drops the alerts collected so far. *)
Fixpoint evaluate_rules (rules : list Rule.t) (e : DiscoveryEvent) (s : A)
  (clk : nat -> RuleClock) (i : nat) (alerts : list Alert.t)
  : list Rule.t * A * result (list Alert.t) StorageError :=
  match rules with
  | [] => ([], s, Ok alerts)
  | r :: rules' =>
      if negb (Rule.enabled r) then
        let '(rs, s', res) := evaluate_rules rules' e s clk (S i) alerts in (r :: rs, s', res)
      else
        match evaluate_rule r e s (clk i) with
        | (r', s', Err err) => (r' :: rules', s', Err err)
        | (r', s', Ok o) =>
            let '(rs, s'', res) :=
              evaluate_rules rules' e s' clk (S i) (alerts ++ option_list o) in
            (r' :: rs, s'', res)
        end
  end.

(** [RuleEngine]: its rules and the shared store; [process_event] also says
    what it handed to the alert channel. *)
Record rule_engine : Type := mkRuleEngine { rules : list Rule.t; alert_store : A }.

Definition process_event (en : rule_engine) (e : DiscoveryEvent) (clk : nat -> RuleClock)
  : rule_engine * list Alert.t * result unit StorageError :=
  match evaluate_rules (rules en) e (alert_store en) clk 0 [] with
  | (rs, s, Ok alerts) => (mkRuleEngine rs s, alerts, Ok tt)
  | (rs, s, Err err) => (mkRuleEngine rs s, [], Err err)
  end.

(** The loop of [run] over the events received: what it hands to the alert
    channel at each of them; an error is logged and the loop goes on. *)
Fixpoint run_engine (en : rule_engine) (es : list (DiscoveryEvent * (nat -> RuleClock)))
  : rule_engine * list (list Alert.t) :=
  match es with
  | [] => (en, [])
  | (e, clk) :: es' =>
      let '(en', sent, _) := process_event en e clk in
      let (en'', sent') := run_engine en' es' in
      (en'', sent :: sent')
  end.
End Engine.
Arguments rule_engine A : clear implicits.

(** A rule may raise an alert for an address at an instant. *)
Definition cooldown_over (r : Rule.t) (m : MacAddress) (now : Z) : Prop :=
  Rule.cooldown_seconds r = 0 \/
  forall t0, Rule.last_fired r !! m = Some t0 -> from_secs (Rule.cooldown_seconds r) <= now - t0.

(** The part of a rule that evaluation never changes. *)
Definition same_rule (r r' : Rule.t) : Prop :=
  Rule.name r' = Rule.name r /\ Rule.enabled r' = Rule.enabled r /\
  Rule.condition r' = Rule.condition r /\ Rule.severity r' = Rule.severity r /\
  Rule.cooldown_seconds r' = Rule.cooldown_seconds r.

Section EngineSpecs.
Context {MT : MacText}.

(** The rules an event concerns. *)
Definition considered (e : DiscoveryEvent) (r : Rule.t) : bool :=
  Rule.enabled r && condition_matches (Rule.condition r) e.

(** The step of one rule inside [process_event]: it fires, with an alert of
    its own, or it leaves no trace in what is sent. *)
Definition rule_step (e : DiscoveryEvent) (c : RuleClock) (r r' : Rule.t) : Prop :=
  same_rule r r' /\
  (r' = r \/ considered e r = true /\
     Rule.check_and_record_cooldown r (Device.mac (event_device e)) (instant c) = (r', true)).
(** What a condition asks of an event. *)
Inductive meets : RuleCondition -> DiscoveryEvent -> Prop :=
| MeetsNew d : meets CondNewDevice (DeviceDiscovered d)
| MeetsVendor filter d vendor :
    Device.vendor d = Some vendor ->
    contains (to_ascii_lowercase vendor) (to_ascii_lowercase filter) = true ->
    meets (CondNewDeviceByVendor filter) (DeviceDiscovered d)
| MeetsPrefix prefix d :
    starts_with (to_ascii_lowercase (mac_to_string (Device.mac d))) (to_ascii_lowercase prefix) = true ->
    meets (CondNewDeviceByMacPrefix prefix) (DeviceDiscovered d)
| MeetsOffline seconds d : meets (CondDeviceOffline seconds) (DeviceOffline d)
| MeetsChange d : meets CondProtocolChange (DeviceUpdated d).

(** The type of the alert for an event, and how its message begins. *)
Inductive tells : DiscoveryEvent -> AlertEventType -> string -> Prop :=
| TellsNew d : tells (DeviceDiscovered d) NewDevice "New device discovered: "
| TellsChange d : tells (DeviceUpdated d) ProtocolChange "Protocol change for "
| TellsOffline d : tells (DeviceOffline d) Types.DeviceOffline "Device offline: ".
(** The host name, else the vendor, else the address. *)
Definition known_as (d : Device.t) (who : string) : Prop :=
  Device.hostname d = Some who \/
  Device.hostname d = None /\ Device.vendor d = Some who \/
  Device.hostname d = None /\ Device.vendor d = None /\ who = mac_to_string (Device.mac d).
(** The alert a rule raises at an event. *)
Definition reports (r : Rule.t) (e : DiscoveryEvent) (t : Timestamp) (a : Alert.t) : Prop :=
  Alert.rule_name a = Rule.name r /\ Alert.severity a = Rule.severity r /\
  Alert.mac a = Device.mac (event_device e) /\ Alert.device_snapshot a = event_device e /\
  Alert.timestamp a = t /\ Alert.acknowledged a = false /\
  exists words who, tells e (Alert.event_type a) words /\ known_as (event_device e) who /\
    Alert.message a = words +:+ who +:+ " (" +:+ mac_to_string (Device.mac (event_device e)) +:+ ")".
(** Only the rule at position [k] has the name [n]. *)
Definition only_rule_named (n : string) (k : nat) (rs : list Rule.t) : Prop :=
  forall k' r', rs !! k' = Some r' -> Rule.name r' = n -> k' = k.
End EngineSpecs.

(** * Lemmas *)

Section RuleFacts.
Context {MT : MacText} {A : Type} {AS : AlertStore A}.

Lemma same_rule_refl r : same_rule r r.
Proof. done. Qed.

Lemma cooldown_keeps r m t r' ok :
  Rule.check_and_record_cooldown r m t = (r', ok) -> same_rule r r'.
Proof. unfold Rule.check_and_record_cooldown, same_rule. repeat case_match; naive_solver. Qed.

(** Passing the cooldown records the instant; failing it changes nothing. *)
Lemma cooldown_spec r m t :
  0 <= Rule.cooldown_seconds r ->
  exists r' ok, Rule.check_and_record_cooldown r m t = (r', ok) /\
    (ok = true <-> cooldown_over r m t) /\
    r' = if ok && negb (Rule.cooldown_seconds r =? 0)
         then Rule.set_last_fired (<[m := t]> (Rule.last_fired r)) r else r.
Proof.
  intros Hc. unfold Rule.check_and_record_cooldown, cooldown_over.
  destruct (Rule.cooldown_seconds r =? 0) eqn:E0; bool_to_prop.
  { eexists _, _. split; [reflexivity|]. split; [|done]. split; [by left | done]. }
  destruct (Rule.last_fired r !! m) as [t0|].
  2: { eexists _, _. split; [reflexivity|]. split; [|done]. split; [|done]. intros _. by right. }
  destruct (duration_since t t0 <? from_secs (Rule.cooldown_seconds r)) eqn:E; bool_to_prop;
    eexists _, _; (split; [reflexivity|]); (split; [|done]);
    unfold duration_since, from_secs, ns_per_s in *.
  - split; [done|]. intros [H|H]; [lia|]. specialize (H t0 eq_refl). lia.
  - split; [|done]. intros _. right. intros t1 [= <-]. lia.
Qed.

(** The specification's conditions and messages are the code's. *)
Lemma meets_iff cd e : meets cd e <-> condition_matches cd e = true.
Proof.
  split.
  - intros []; simpl; try done. by rewrite H.
  - unfold condition_matches. destruct cd, e; simpl; try done; try by constructor.
    intros H. destruct (Device.vendor d) as [v|] eqn:E; [|done]. by eapply MeetsVendor.
Qed.
Lemma build_alert_reports r e t :
  reports r e t (Alert.new (Rule.name r) (Rule.severity r) (event_alert_type e) (event_device e)
    (build_message (Rule.name r) (event_device e) (event_alert_type e)) t).
Proof.
  unfold reports. split_and!; try done. simpl.
  assert (known_as (event_device e) (display_name (event_device e))) as Hwho.
  { unfold known_as, display_name. destruct (Device.hostname _); [by left|].
    destruct (Device.vendor _); right; [by left | by right]. }
  destruct e; eexists _, (display_name _); (split; [constructor|]); by split.
Qed.
(** What a passed cooldown check leaves of the rule. *)
Lemma evaluated_rule r m t r1 :
  0 <= Rule.cooldown_seconds r ->
  r1 = (if true && negb (Rule.cooldown_seconds r =? 0)
        then Rule.set_last_fired (<[m := t]> (Rule.last_fired r)) r else r) ->
  (0 < Rule.cooldown_seconds r -> Rule.last_fired r1 = <[m := t]> (Rule.last_fired r)) /\
  (~ 0 < Rule.cooldown_seconds r -> r1 = r).
Proof.
  intros Hc ->. destruct (Z.eqb_spec (Rule.cooldown_seconds r) 0) as [E|E]; simpl; split; intros; try done; lia.
Qed.

Lemma evaluate_rule_keeps r e (s : A) c : same_rule r (evaluate_rule r e s c).1.1.
Proof.
  unfold evaluate_rule. destruct (negb _); [done|].
  destruct (Rule.check_and_record_cooldown r _ (instant c)) as [r1 ok] eqn:E.
  apply cooldown_keeps in E. destruct (negb ok); [done|].
  destruct (as_is_acknowledged s _ _) as [[]|]; try done.
  by destruct (as_insert s _) as [s1 []].
Qed.

(** What one rule does to itself: nothing, or one passed cooldown check. *)
Lemma evaluate_rule_state r e (s : A) c :
  let chk := Rule.check_and_record_cooldown r (Device.mac (event_device e)) (instant c) in
  (evaluate_rule r e s c).1.1 = if condition_matches (Rule.condition r) e then chk.1 else r.
Proof.
  unfold evaluate_rule. destruct (condition_matches (Rule.condition r) e); simpl; [|done].
  destruct (Rule.check_and_record_cooldown r _ (instant c)) as [r1 []]; simpl; [|done].
  destruct (as_is_acknowledged s _ _) as [[]|]; try done.
  by destruct (as_insert s _) as [s1 []].
Qed.

(** A rule raises an alert only when it matches and has cooled down. *)
Lemma evaluate_rule_fires r e (s : A) c r' s' a :
  evaluate_rule r e s c = (r', s', Ok (Some a)) ->
  condition_matches (Rule.condition r) e = true /\
  Rule.check_and_record_cooldown r (Device.mac (event_device e)) (instant c) = (r', true) /\
  Alert.mac a = Device.mac (event_device e) /\ Alert.rule_name a = Rule.name r /\
  Alert.event_type a = event_alert_type e /\ Alert.device_snapshot a = event_device e.
Proof.
  unfold evaluate_rule. destruct (condition_matches (Rule.condition r) e); simpl; [|done].
  destruct (Rule.check_and_record_cooldown r _ (instant c)) as [r1 ok] eqn:E.
  pose proof (cooldown_keeps _ _ _ _ _ E) as (Hn & _).
  destruct ok; simpl; [|done]. rewrite Hn.
  destruct (as_is_acknowledged s _ _) as [[]|]; [done| |done].
  destruct (as_insert s _) as [s1 [i|err]]; intros [= <- <- <-]; done.
Qed.

Lemma evaluate_rule_step r e (s : A) c r' s' res :
  Rule.enabled r = true -> evaluate_rule r e s c = (r', s', res) -> rule_step e c r r'.
Proof.
  intros En E. pose proof (evaluate_rule_keeps r e s c) as Hk.
  pose proof (evaluate_rule_state r e s c) as Hs. rewrite E in Hk, Hs. simpl in Hk, Hs.
  split; [done|]. unfold considered. rewrite En. simpl.
  destruct (condition_matches (Rule.condition r) e); [|by left].
  destruct (Rule.check_and_record_cooldown r _ _) as [r1 ok] eqn:Ec. simpl in Hs. subst r1.
  destruct ok; [by right | left]. revert Ec. unfold Rule.check_and_record_cooldown.
  repeat case_match; intros [= <-]; done.
Qed.

(** The alerts of one event: each from a rule that fired, in rule order. *)
Lemma evaluate_rules_spec rs e (s : A) clk i acc rs' s' res :
  evaluate_rules rs e s clk i acc = (rs', s', res) ->
  length rs' = length rs /\
  (forall k r r', rs !! k = Some r -> rs' !! k = Some r' -> rule_step e (clk (i + k)%nat) r r') /\
  (forall alerts, res = Ok alerts -> exists new, alerts = acc ++ new /\
     (Alert.rule_name <$> new) `sublist_of` (Rule.name <$> List.filter (considered e) rs) /\
     (forall a, a ∈ new ->
        Alert.mac a = Device.mac (event_device e) /\
        (Alert.event_type a = event_alert_type e /\ Alert.device_snapshot a = event_device e) /\
        exists k r r', rs !! k = Some r /\ rs' !! k = Some r' /\ Alert.rule_name a = Rule.name r /\
          considered e r = true /\
          Rule.check_and_record_cooldown r (Alert.mac a) (instant (clk (i + k)%nat)) = (r', true))).
Proof.
  revert s i acc rs' s' res. induction rs as [|r rs IH]; intros s i acc rs' s' res; simpl.
  { intros [= <- <- <-]. split; [done|]. split; [done|]. intros alerts [= <-]. exists [].
    rewrite app_nil_r. split; [done|]. split; [done|]. intros a Ha. by apply not_elem_of_nil in Ha. }
  destruct (Rule.enabled r) eqn:En; simpl.
  2: { destruct (evaluate_rules rs e s clk (S i) acc) as [[rs1 s2] res2] eqn:E2.
       intros [= <- <- <-]. apply IH in E2 as (Hl & Hf & Hr). simpl. rewrite Hl. split; [done|].
       split.
       { intros [|k] r0 r0' H1 H2; simpl in H1, H2.
         - injection H1 as <-. injection H2 as <-. split; [done | by left].
         - rewrite <- Nat.add_succ_comm. by apply Hf. }
       intros alerts Ha. destruct (Hr alerts Ha) as (new & Hnew & Hsub & Hall).
       exists new. split; [done|]. unfold considered at 1. rewrite En. simpl. split; [done|].
       intros a Hin. destruct (Hall a Hin) as (Hm & Hty & k & r0 & r0' & Hk & Hk' & Hrest).
       split; [done|]. split; [done|]. exists (S k), r0, r0'. by rewrite <- Nat.add_succ_comm. }
  destruct (evaluate_rule r e s (clk i)) as [[r' s1] [o|err]] eqn:E.
  2: { intros [= <- <- <-]. simpl. split; [done|]. split; [|done].
       intros [|k] r0 r0' H1 H2; simpl in H1, H2.
       - injection H1 as <-. injection H2 as <-. rewrite Nat.add_0_r. by eapply evaluate_rule_step.
       - assert (r0' = r0) as -> by congruence. split; [done | by left]. }
  destruct (evaluate_rules rs e s1 clk (S i) _) as [[rs1 s2] res2] eqn:E2.
  intros [= <- <- <-]. apply IH in E2 as (Hl & Hf & Hr). simpl. rewrite Hl. split; [done|]. split.
  { intros [|k] r0 r0' H1 H2; simpl in H1, H2.
    - injection H1 as <-. injection H2 as <-. rewrite Nat.add_0_r. by eapply evaluate_rule_step.
    - rewrite <- Nat.add_succ_comm. by apply Hf. }
  intros alerts Ha. destruct (Hr alerts Ha) as (new & Hnew & Hsub & Hall).
  exists (option_list o ++ new). rewrite Hnew, (assoc_L (++)). split; [done|]. split.
  - destruct o as [a|]; simpl.
    + apply evaluate_rule_fires in E as (Hc & _ & _ & Hn & _). unfold considered at 1.
      rewrite En, Hc, Hn. simpl. by constructor.
    + destruct (considered e r); simpl; [by constructor | done].
  - intros a [Hin|Hin]%elem_of_app.
    + destruct o as [a'|]; simpl in Hin; [|by apply not_elem_of_nil in Hin].
      apply list_elem_of_singleton in Hin as ->.
      apply evaluate_rule_fires in E as (Hc & Hcd & Hm & Hn & Hty).
      split; [done|]. split; [done|]. exists 0%nat, r, r'. rewrite Nat.add_0_r, Hm.
      unfold considered. by rewrite En, Hc.
    + destruct (Hall a Hin) as (Hm & Hty & k & r0 & r0' & Hk & Hk' & Hrest).
      split; [done|]. split; [done|]. exists (S k), r0, r0'. by rewrite <- Nat.add_succ_comm.
Qed.

Lemma process_event_spec (en : rule_engine A) e clk en' sent res :
  process_event en e clk = (en', sent, res) ->
  length (rules en') = length (rules en) /\
  (forall k r r', rules en !! k = Some r -> rules en' !! k = Some r' -> rule_step e (clk k) r r') /\
  (Alert.rule_name <$> sent) `sublist_of` (Rule.name <$> List.filter (considered e) (rules en)) /\
  (forall a, a ∈ sent ->
     Alert.mac a = Device.mac (event_device e) /\
     (Alert.event_type a = event_alert_type e /\ Alert.device_snapshot a = event_device e) /\
     exists k r r', rules en !! k = Some r /\ rules en' !! k = Some r' /\
       Alert.rule_name a = Rule.name r /\ considered e r = true /\
       Rule.check_and_record_cooldown r (Alert.mac a) (instant (clk k)) = (r', true)) /\
  (is_ok res = false -> sent = []).
Proof.
  unfold process_event.
  destruct (evaluate_rules (rules en) e (alert_store en) clk 0 []) as [[rs s] [alerts|err]] eqn:E;
    intros [= <- <- <-]; apply evaluate_rules_spec in E as (Hl & Hf & Hr); simpl.
  - split; [done|]. split; [exact Hf|]. destruct (Hr alerts eq_refl) as (new & -> & Hsub & Hall).
    split; [done|]. by split.
  - split; [done|]. split; [exact Hf|]. split; [apply sublist_nil_l|].
    split; [|done]. intros a Ha. by apply not_elem_of_nil in Ha.
Qed.

(** The rule at one position after an event. *)
Lemma process_event_rule (en : rule_engine A) e clk en' sent res k r :
  process_event en e clk = (en', sent, res) -> rules en !! k = Some r ->
  exists r', rules en' !! k = Some r' /\ rule_step e (clk k) r r'.
Proof.
  intros H Hk. apply process_event_spec in H as (Hl & Hf & _).
  destruct (rules en' !! k) as [r'|] eqn:E'.
  - exists r'. split; [done | by eapply Hf].
  - apply lookup_ge_None in E'. apply lookup_lt_Some in Hk. lia.
Qed.

Lemma process_event_only (en : rule_engine A) e clk en' sent res n k :
  process_event en e clk = (en', sent, res) ->
  only_rule_named n k (rules en) -> only_rule_named n k (rules en').
Proof.
  intros H Ho k' r' Hk' Hn. apply process_event_spec in H as (Hl & Hf & _).
  destruct (rules en !! k') as [r0|] eqn:E0.
  - destruct (Hf _ _ _ E0 Hk') as [[Hn0 _] _]. apply (Ho k' r0 E0). congruence.
  - apply lookup_ge_None in E0. apply lookup_lt_Some in Hk'. lia.
Qed.

(** After passing its cooldown for an address, a rule remembers it. *)
Lemma cooldown_recorded r m t r' :
  0 < Rule.cooldown_seconds r -> Rule.check_and_record_cooldown r m t = (r', true) ->
  Rule.last_fired r' = <[m := t]> (Rule.last_fired r) /\
  forall t0, Rule.last_fired r !! m = Some t0 -> from_secs (Rule.cooldown_seconds r) <= t - t0.
Proof.
  intros Hc H. destruct (cooldown_spec r m t) as (r1 & ok & Hr & Hok & Hst); [lia|].
  rewrite H in Hr. injection Hr as <- <-. rewrite (proj2 (Z.eqb_neq _ _)) in Hst by lia. simpl in Hst.
  subst r'. split; [done|]. destruct (proj1 Hok eq_refl) as [H0|H0]; [lia | exact H0].
Qed.

(** The alert of a uniquely named rule tells what that rule did. *)
Lemma process_event_alert (en : rule_engine A) e clk en' sent res k r a :
  process_event en e clk = (en', sent, res) -> rules en !! k = Some r ->
  only_rule_named (Rule.name r) k (rules en) -> a ∈ sent -> Alert.rule_name a = Rule.name r ->
  exists r', rules en' !! k = Some r' /\ same_rule r r' /\
    Rule.check_and_record_cooldown r (Alert.mac a) (instant (clk k)) = (r', true).
Proof.
  intros H Hk Ho Ha Hn.
  pose proof (process_event_spec _ _ _ _ _ _ H) as (_ & Hf & _ & Hall & _).
  destruct (Hall a Ha) as (_ & _ & k0 & r0 & r' & Hk0 & Hk' & Hn0 & _ & Hc).
  assert (k0 = k) as -> by (apply (Ho k0 r0 Hk0); congruence).
  assert (r0 = r) as -> by congruence. exists r'. split; [done|]. split; [|done].
  by apply (Hf k).
Qed.

(** An alert of a rule comes a cooldown after what the rule remembers. *)
Lemma run_engine_after (en : rule_engine A) es k r :
  rules en !! k = Some r -> 0 < Rule.cooldown_seconds r ->
  only_rule_named (Rule.name r) k (rules en) ->
  forall j e clk sent a t0, es !! j = Some (e, clk) -> (run_engine en es).2 !! j = Some sent ->
  a ∈ sent -> Alert.rule_name a = Rule.name r -> Rule.last_fired r !! Alert.mac a = Some t0 ->
  from_secs (Rule.cooldown_seconds r) <= instant (clk k) - t0.
Proof.
  revert en r. induction es as [|[e0 clk0] es IH]; intros en r Hk Hc Ho j e clk sent a t0; [done|].
  simpl. destruct (process_event en e0 clk0) as [[en' sent0] res] eqn:E.
  pose proof (process_event_rule _ _ _ _ _ _ _ _ E Hk) as (r' & Hk' & Hsame & Hstep).
  pose proof (process_event_only _ _ _ _ _ _ _ _ E Ho) as Ho'.
  destruct Hsame as (Hn & _ & _ & _ & Hcd).
  destruct (run_engine en' es) as [en'' sent'] eqn:E2. simpl.
  intros Hj Hs Ha Hna Ht0. destruct j as [|j]; simpl in Hj, Hs.
  - injection Hj as <- <-. injection Hs as <-.
    destruct (process_event_alert _ _ _ _ _ _ _ _ _ E Hk Ho Ha Hna) as (r1 & _ & _ & Hck).
    by apply (cooldown_recorded _ _ _ _ Hc Hck).
  - rewrite <- Hn in Ho'. rewrite <- Hcd in Hc |- *.
    assert (forall t1, Rule.last_fired r' !! Alert.mac a = Some t1 ->
      from_secs (Rule.cooldown_seconds r') <= instant (clk k) - t1) as Hrec.
    { intros t1. apply (IH en' r' Hk' Hc Ho' j e clk sent a t1 Hj); [by rewrite E2|done|congruence]. }
    destruct Hstep as [->|[_ Hck]]; [by apply Hrec|]. rewrite Hcd in Hc.
    apply cooldown_recorded in Hck as [Hl Hgo]; [|done]. rewrite Hl in Hrec.
    destruct (decide (Alert.mac a = Device.mac (event_device e0))) as [Heq|Hne].
    + rewrite Heq in Hrec, Ht0. specialize (Hrec (instant (clk0 k))).
      rewrite lookup_insert_eq in Hrec. specialize (Hrec eq_refl). specialize (Hgo _ Ht0).
      rewrite Hcd in Hrec |- *. unfold from_secs, ns_per_s in *. lia.
    + apply Hrec. by rewrite lookup_insert_ne.
Qed.
End RuleFacts.

(** A rule that is not concerned: nothing happens. *)
Ltac not_concerned Hno :=
  split_and!; try done; try (by intros; destruct Hno);
  intros; split; [done|]; split; [by left | done].

(** * Properties *)

(** C11: a rule never nags.  Over any stream of discovery events, with any
    alert store and with errors anywhere, two alerts that the engine sends
    at different events for one uniquely named rule and one device are at
    least the cooldown of the rule apart on the clock the rule reads. *)
Theorem rule_cooldown_spacing {MT : MacText} {A} {AS : AlertStore A} (en : rule_engine A) es k r :
  rules en !! k = Some r -> 0 < Rule.cooldown_seconds r ->
  only_rule_named (Rule.name r) k (rules en) ->
  forall i j e clk e' clk' sent sent' a b, (i < j)%nat ->
  es !! i = Some (e, clk) -> es !! j = Some (e', clk') ->
  (run_engine en es).2 !! i = Some sent -> (run_engine en es).2 !! j = Some sent' ->
  a ∈ sent -> b ∈ sent' -> Alert.rule_name a = Rule.name r -> Alert.rule_name b = Rule.name r ->
  Alert.mac a = Alert.mac b ->
  from_secs (Rule.cooldown_seconds r) <= instant (clk' k) - instant (clk k).
Proof.
  revert en r. induction es as [|[e0 clk0] es IH];
    intros en r Hk Hc Ho i j e clk e' clk' sent sent' a b Hij; [done|].
  simpl. destruct (process_event en e0 clk0) as [[en' sent0] res] eqn:E.
  pose proof (process_event_rule _ _ _ _ _ _ _ _ E Hk) as (r' & Hk' & Hsame & _).
  pose proof (process_event_only _ _ _ _ _ _ _ _ E Ho) as Ho'.
  destruct Hsame as (Hn & _ & _ & _ & Hcd).
  destruct (run_engine en' es) as [en'' sents] eqn:E2. simpl. rewrite <- Hn in Ho'.
  rewrite <- Hcd in Hc. intros Hi Hj Hs Hs' Ha Hb Hna Hnb Hm.
  destruct j as [|j]; [lia|]. destruct i as [|i]; simpl in Hi, Hj, Hs, Hs'; rewrite <- Hcd.
  - injection Hi as <- <-. injection Hs as <-.
    destruct (process_event_alert _ _ _ _ _ _ _ _ _ E Hk Ho Ha Hna) as (r1 & Hk1 & _ & Hck).
    assert (r1 = r') as -> by congruence. rewrite Hcd in Hc.
    apply cooldown_recorded in Hck as [Hl _]; [|done]. rewrite <- Hcd in Hc.
    apply (run_engine_after en' es k r' Hk' Hc Ho' j e' clk' sent' b); try done.
    + by rewrite E2.
    + congruence.
    + by rewrite Hl, <- Hm, lookup_insert_eq.
  - apply (IH en' r' Hk' Hc Ho' i j e clk e' clk' sent sent' a b); try done; try lia; try congruence;
      by rewrite E2.
Qed.

(** C15: the outcome of one rule on one event, on every branch.  It concerns
    the event when its condition asks for it and its cooldown for the device is
    over; then, and only then, the cooldown starts again, whatever the store
    answers.  A rule not concerned leaves the store alone.  When the lookup of
    acknowledgments fails, the error is returned and nothing stored; when the
    insertion fails, the alert is raised all the same, unnumbered.  On a store
    that keeps its contract there is no error, and an alert is raised exactly
    when the rule is concerned and nobody acknowledged an alert of its name for
    the device; it is stored under a fresh identifier.  An alert carries the
    rule's name and severity, the type and the device of the event, and a
    message that says what happened to whom. *)
Theorem evaluate_rule_exact {MT : MacText} {A} {AS : AlertStore A} {ASL : AlertStoreLaws A}
  (r : Rule.t) (e : DiscoveryEvent) (s : A) (c : RuleClock) :
  let m := Device.mac (event_device e) in
  let concerned := meets (Rule.condition r) e /\ cooldown_over r m (instant c) in
  let silenced := exists i x, as_map s !! i = Some x /\ acknowledged_for (Rule.name r) m x = true in
  0 <= Rule.cooldown_seconds r ->
  let '(r', s', res) := evaluate_rule r e s c in
  same_rule r r' /\
  (concerned -> 0 < Rule.cooldown_seconds r -> Rule.last_fired r' = <[m := instant c]> (Rule.last_fired r)) /\
  (~ (concerned /\ 0 < Rule.cooldown_seconds r) -> r' = r) /\
  (~ concerned -> s' = s /\ res = Ok None) /\
  (forall err, concerned -> as_is_acknowledged s (Rule.name r) m = Err err -> s' = s /\ res = Err err) /\
  (concerned -> as_is_acknowledged s (Rule.name r) m = Ok true -> s' = s /\ res = Ok None) /\
  (concerned -> as_is_acknowledged s (Rule.name r) m = Ok false -> exists a,
     reports r e (wall c) a /\ Alert.id a = 0 /\ s' = (as_insert s a).1 /\
     match (as_insert s a).2 with
     | Ok i => res = Ok (Some (Alert.set_id i a))
     | Err _ => res = Ok (Some a)
     end) /\
  (as_inv s -> as_can_insert s -> octets_ok m -> (forall a, reports r e (wall c) a -> as_ok a) ->
     as_inv s' /\
     match res with
     | Err _ => False
     | Ok None => (~ concerned \/ silenced) /\ as_map s' = as_map s
     | Ok (Some a) => concerned /\ ~ silenced /\ reports r e (wall c) a /\
         as_map s !! Alert.id a = None /\ Alert.id a <> 0 /\
         as_map s' = <[Alert.id a := as_stored a]> (as_map s)
     end).
Proof.
  intros m concerned silenced Hcd.
  destruct (cooldown_spec r m (instant c) Hcd) as (r1 & ok & Hchk & Hok & Hr1).
  pose proof (cooldown_keeps _ _ _ _ _ Hchk) as Hk. pose proof (same_rule_refl r) as Hk0.
  unfold evaluate_rule. fold m. rewrite Hchk.
  pose proof (meets_iff (Rule.condition r) e) as Hmeets.
  destruct (condition_matches (Rule.condition r) e); simpl.
  2: { assert (~ concerned) as Hno by (by intros [?%Hmeets _]). not_concerned Hno. }
  assert (meets (Rule.condition r) e) as Hmeet by (by apply Hmeets). clear Hmeets.
  destruct ok; simpl.
  2: { simpl in Hr1. subst r1. assert (~ concerned) as Hno by (by intros [_ Hov%Hok]). not_concerned Hno. }
  assert (cooldown_over r m (instant c)) as Hover by (by apply Hok).
  pose proof (evaluated_rule r m (instant c) r1 Hcd Hr1) as [Hlf Hsame].
  assert (Rule.name r1 = Rule.name r /\ Rule.severity r1 = Rule.severity r) as [-> ->].
  { subst r1. by destruct (negb _). }
  set (a := Alert.new _ _ _ _ _ _).
  assert (reports r e (wall c) a) as Ha by apply build_alert_reports.
  assert (~ (concerned /\ 0 < Rule.cooldown_seconds r) -> r1 = r) as Hsame'
    by (intros Hn; apply Hsame; intros ?; by apply Hn).
  assert (forall P : Prop, ~ concerned -> P) as Hcon by (intros P Hn; by destruct Hn).
  fold concerned.
  destruct (as_is_acknowledged s (Rule.name r) m) as [b|err] eqn:Eack.
  2: { split_and!; [done|by intros _|done|apply Hcon|by intros err' _ [= ->]|done|done|].
       intros Hi _ Ho _. destruct (as_is_acknowledged_spec s (Rule.name r) m Hi Ho) as (b & E & _). congruence. }
  assert (as_inv s -> octets_ok m -> b = true <-> silenced) as Hsil.
  { intros Hi Ho. destruct (as_is_acknowledged_spec s (Rule.name r) m Hi Ho) as (b' & E & Hb).
    assert (b' = b) as -> by congruence. exact Hb. }
  destruct b; simpl.
  { split_and!; [done|by intros _|done|apply Hcon|done|done|done|]. intros Hi _ Ho _.
    split; [done|]. split; [|done]. right. by apply Hsil. }
  destruct (as_insert s a) as [s1 ins] eqn:Eins.
  assert (as_inv s -> as_can_insert s -> as_ok a -> exists i, ins = Ok i /\ as_map s !! i = None /\ i <> 0 /\
    as_map s1 = <[i := as_stored (Alert.set_id i a)]> (as_map s) /\ as_inv s1) as Hins.
  { intros Hi Hc Hoka. destruct (as_insert_spec s a Hi Hc Hoka) as (i & H1 & H2 & H3 & _ & H4 & H5).
    rewrite Eins in H1, H4, H5. by exists i. }
  assert (forall i, reports r e (wall c) (Alert.set_id i a)) as Hai by (intros; exact Ha).
  destruct ins as [i|err]; simpl;
    (split_and!; [done|by intros _|done|apply Hcon|done|done|intros _ _; exists a; by rewrite Eins|]);
    intros Hi Hc Ho Hall; destruct (Hins Hi Hc (Hall a Ha)) as (i' & Hi' & H1 & H2 & H3 & H4); [|done].
  injection Hi' as ->. split_and!; try done. intros Hs. by apply Hsil in Hs.
Qed.

(** One event through the whole engine.  The rules keep their settings
    and their order, and a rule that is disabled or does not match keeps
    its cooldowns too; the alerts handed on are of enabled matching rules,
    at most one each, in the order of the rules, and are about the device
    of the event; and an error of the store hands on nothing at all, even
    the alerts that were already persisted. *)
Theorem process_event_in_order {MT : MacText} {A} {AS : AlertStore A} (en : rule_engine A)
  (e : DiscoveryEvent) (clk : nat -> RuleClock) :
  let '(en', sent, res) := process_event en e clk in
  Forall2 same_rule (rules en) (rules en') /\
  (forall k r, rules en !! k = Some r -> considered e r = false -> rules en' !! k = Some r) /\
  (Alert.rule_name <$> sent) `sublist_of` (Rule.name <$> List.filter (considered e) (rules en)) /\
  (forall a, a ∈ sent ->
     Alert.mac a = Device.mac (event_device e) /\ Alert.event_type a = event_alert_type e) /\
  (is_ok res = false -> sent = []).
Proof.
  destruct (process_event en e clk) as [[en' sent] res] eqn:E.
  pose proof (process_event_spec _ _ _ _ _ _ E) as (Hl & Hf & Hsub & Hall & Herr).
  split_and!; try done.
  - apply Forall2_same_length_lookup_2; [done|]. intros k r r' Hk Hk'. by apply (Hf k).
  - intros k r Hk Hc. destruct (process_event_rule _ _ _ _ _ _ _ _ E Hk) as (r' & Hk' & _ & [->|[Hc' _]]);
      [done | congruence].
  - intros a Ha. destruct (Hall a Ha) as (? & [? _] & _). done.
Qed.

(** * Witnesses *)

#[local] Existing Instance ref_mac_text.

Definition demo_rule : Rule.t := Rule.new "new_device" true CondNewDevice Info 60.
Definition demo_rule_engine : rule_engine InMemoryAlertStore.t :=
  mkRuleEngine [demo_rule; Rule.new "offline" true (CondDeviceOffline 5) Warning 0]
    InMemoryAlertStore.new.
Definition demo_clock (secs : Z) (k : nat) : RuleClock := mkRuleClock (from_secs secs) (from_secs secs).
Definition demo_stream : list (DiscoveryEvent * (nat -> RuleClock)) :=
  [(DeviceDiscovered demo_device, demo_clock 1); (DeviceDiscovered demo_device, demo_clock 60);
   (DeviceOffline demo_device, demo_clock 60); (DeviceDiscovered demo_device, demo_clock 61)].

Lemma rule_cooldown_spacing_witness :
  length <$> (run_engine demo_rule_engine demo_stream).2 = [1%nat; 0%nat; 1%nat; 1%nat] /\
  from_secs 60 <= from_secs 61 - from_secs 1.
Proof.
  split; [vm_compute; reflexivity|].
  apply (rule_cooldown_spacing demo_rule_engine demo_stream 0 demo_rule eq_refl) with
    (i := 0%nat) (j := 3%nat) (e := DeviceDiscovered demo_device) (clk := demo_clock 1)
    (e' := DeviceDiscovered demo_device) (clk' := demo_clock 61)
    (sent := [Alert.set_id 1 (Alert.new "new_device" Info NewDevice demo_device
       (build_message "new_device" demo_device NewDevice) (from_secs 1))])
    (sent' := [Alert.set_id 3 (Alert.new "new_device" Info NewDevice demo_device
       (build_message "new_device" demo_device NewDevice) (from_secs 61))])
    (a := Alert.set_id 1 (Alert.new "new_device" Info NewDevice demo_device
       (build_message "new_device" demo_device NewDevice) (from_secs 1)))
    (b := Alert.set_id 3 (Alert.new "new_device" Info NewDevice demo_device
       (build_message "new_device" demo_device NewDevice) (from_secs 61)));
    try reflexivity; try (vm_compute; reflexivity); try left; try lia.
  intros [|[|k]] r' Hk Hn; [reflexivity | injection Hk as <-; discriminate Hn | discriminate Hk].
Defined.

Lemma evaluate_rule_exact_witness :
  let '(r', s', res) := evaluate_rule demo_rule (DeviceDiscovered demo_device) InMemoryAlertStore.new
    (mkRuleClock 5 6) in
  exists a, res = Ok (Some a) /\ Alert.id a <> 0 /\
    reports demo_rule (DeviceDiscovered demo_device) 6 a.
Proof.
  pose proof (evaluate_rule_exact demo_rule (DeviceDiscovered demo_device) InMemoryAlertStore.new
    (mkRuleClock 5 6)) as H. cbv zeta in H.
  destruct (evaluate_rule demo_rule (DeviceDiscovered demo_device) InMemoryAlertStore.new
    (mkRuleClock 5 6)) as [[r' s'] res].
  destruct H as (_ & _ & _ & _ & _ & _ & _ & H); [simpl; lia|]. destruct H as [_ H].
  - split; [unfold u64_max; simpl; lia | apply map_Forall_empty].
  - unfold as_can_insert, u64_max. simpl. unfold InMemoryAlertStore.can_insert, u64_max. simpl. lia.
  - unfold octets_ok, in_u8, u8_max. simpl. lia.
  - intros; exact I.
  - destruct res as [[a|]|]; [| |destruct H].
    + exists a. destruct H as (_ & _ & Hr & _ & Hid & _). split; [reflexivity|]. split; [exact Hid | exact Hr].
    + destruct H as [[H|(i & x & Hx & _)] _]; [|discriminate Hx]. destruct H.
      split; [apply MeetsNew | right; intros t0 Ht; discriminate Ht].
Defined.

(** An alert store whose acknowledgment lookups fail for one rule. *)
Record flaky_store : Type := mkFlaky { inner : InMemoryAlertStore.t; broken_rule : string }.
#[local] Instance flaky_alert_store : AlertStore flaky_store := {|
  as_insert s a := let (i, r) := InMemoryAlertStore.insert_alert (inner s) a in
                   (mkFlaky i (broken_rule s), r);
  as_list s := InMemoryAlertStore.list_alerts (inner s);
  as_get s := InMemoryAlertStore.get_alert (inner s);
  as_acknowledge s i := let (t, r) := InMemoryAlertStore.acknowledge_alert (inner s) i in
                        (mkFlaky t (broken_rule s), r);
  as_delete s i := let (t, r) := InMemoryAlertStore.delete_alert (inner s) i in
                   (mkFlaky t (broken_rule s), r);
  as_is_acknowledged s n m :=
    if String.eqb n (broken_rule s) then Err (Internal "disk I/O error")
    else InMemoryAlertStore.is_acknowledged (inner s) n m;
  as_count s := InMemoryAlertStore.count_alerts (inner s)
|}.

(** A failing lookup of the second rule loses the alert of the first one:
    it is stored, and never handed on. *)
Lemma persisted_alert_not_sent :
  let en := mkRuleEngine [demo_rule; Rule.new "second" true CondNewDevice Info 0]
              (mkFlaky InMemoryAlertStore.new "second") in
  let '(en', sent, res) := process_event en (DeviceDiscovered demo_device) (demo_clock 1) in
  sent = [] /\ is_ok res = false /\ as_count (alert_store en') = Ok 1%nat.
Proof. vm_compute. repeat split. Qed.
