(* ===== verification/Daemon.v ===== *)
(** The daemon, [crates/daemon/src/daemon.rs]: the rules it builds from the
    configuration, the background tasks (offline scanner, history snapshots
    with their retention) and what decoding puts into a device.  The pipeline
    next to the flush task is [Writeback], the tasks over shared stores
    [System].  Task spawning, channels between tasks and signals are the
    runtime's. *)

From S2P Require Import Prelude Text Types Reference Net Packet Classify Dhcp Mdns Json Oui Stores.
From S2P Require Import Discovery Sqlite HistorySqlite Config Alerts Rules.

(** * The rules, step 5 of [run] *)

Definition default_rule : Rule.t := Rule.new "new_device" true CondNewDevice Info 0.

(** [filter_map]: a rule that does not convert is logged and skipped. *)
Definition convert_rules (rules : list RuleConfig.t) : list Rule.t :=
  omap (fun rc => result_ok (rule_try_from rc)) rules.
Definition build_rules (c : Config.t) : list Rule.t :=
  match convert_rules (Config.rules c) with
  | [] => [default_rule]
  | rules => rules
  end.

(** * Which stores are opened, steps 2, 6 and 6b *)

Definition uses_sqlite (c : Config.t) : bool := negb (is_empty (Config.database_path c)).
Definition history_enabled (c : Config.t) : bool :=
  uses_sqlite c && (0 <? StorageConfig.history_snapshot_hours (Config.storage c)).
Definition scanner_enabled (c : Config.t) : bool :=
  0 <? ScannerConfig.interval_seconds (Config.scanner c).

(** * The offline scanner *)

(** [TimeDelta::num_seconds] cuts towards zero. *)
Definition num_seconds (delta : Z) : Z := Z.quot delta ns_per_s.
Definition silent_too_long (now : Timestamp) (d : Device.t) : bool :=
  60 <? num_seconds (now - Device.last_seen d).

Section Tasks.
Context {S : Type} {DS : DeviceStore S} {MP : Mpsc DiscoveryEvent}.

(** One turn of the loop of [offline_scanner]. *)
Definition scan_turn (e : engine S) (now : Timestamp) : engine S :=
  match ds_list (store e) with
  | Err _ => e
  | Ok devices => foldl emit_offline_event e (List.filter (silent_too_long now) devices)
  end.

(** * History snapshots *)

(** [chrono::Utc::now() - chrono::Duration::days(n)]; [None] is a panic on a
    date out of range. *)
Class ChronoDays : Type := { sub_days : Timestamp -> Z -> option Timestamp }.

Section History.
Context {CH : Chrono} {CD : ChronoDays} {H : Type} {HS : DeviceHistoryStore H}.

(** The inner loop: a failed insertion is logged and the loop goes on.
    [at_time i] is the time stamp of the [i]-th snapshot. *)
Fixpoint take_snapshots (h : H) (today : string) (at_time : nat -> Timestamp) (i : nat)
  (devices : list Device.t) : H :=
  match devices with
  | [] => h
  | d :: devices' =>
      take_snapshots (hs_insert h (Snapshot.from_device d today (at_time i))).1 today at_time
        (Datatypes.S i) devices'
  end.

(** One turn of the loop of [history_snapshot_task]; [retention_days as i64]
    wraps. *)
Definition history_turn (s : S) (h : H) (retention_days : Z) (now now' : Timestamp)
  (at_time : nat -> Timestamp) : exec H :=
  match ds_list s with
  | Err _ => Done h
  | Ok devices =>
      let h1 := take_snapshots h (fmt_date now) at_time 0 devices in
      if 0 <? retention_days then
        let days := if retention_days <=? i64_max then retention_days
                    else retention_days - (u64_max + 1) in
        match sub_days now' days with
        | None => Panic
        | Some cutoff => Done (hs_delete_before h1 (fmt_date cutoff)).1
        end
      else Done h1
  end.
End History.
End Tasks.

(** The engine over another state of its store. *)
Definition with_store {MP : Mpsc DiscoveryEvent} (e : engine SqliteStore.t) (s : SqliteStore.t)
  : engine SqliteStore.t := mkEngine s (event_tx e).

(** The readings of the clock are dates the formatter prints. *)
Definition clock_ok (c : Clock) : Prop :=
  chrono_range (now c) /\ chrono_range (new_src c) /\ chrono_range (new_dst c).
(** The operations of one turn of the history task, on the specification. *)
Definition snapshots_of (today : string) (at_time : nat -> Timestamp) (i : nat)
  (devices : list Device.t) : list history_op :=
  imap (fun j d => OpSnapshot (Snapshot.from_device d today (at_time (i + j)%nat))) devices.

(** * Lemmas *)

(** ** From bytes to representable devices *)

Lemma byte_at_u8 l i : bytes_ok l -> in_u8 (byte_at l i).
Proof.
  intros Hl. unfold byte_at. destruct (l !! i) as [z|] eqn:E; simpl; [by eapply bytes_ok_lookup|].
  unfold in_u8, u8_max. lia.
Qed.
Lemma mac_at_ok l i : bytes_ok l -> octets_ok (mac_at l i).
Proof. intros Hl. unfold octets_ok, mac_at. simpl. split_and!; by apply byte_at_u8. Qed.

Lemma u32_at_ok l i : bytes_ok l -> 0 <= u32_at l i <= u32_max.
Proof.
  intros Hl. unfold u32_at. pose proof (byte_at_u8 l i Hl) as H0. pose proof (byte_at_u8 l (i + 1) Hl) as H1.
  pose proof (byte_at_u8 l (i + 2) Hl) as H2. pose proof (byte_at_u8 l (i + 3) Hl) as H3.
  rewrite u32_from_be_bytes_add by (done || apply H0). unfold in_u8, u8_max, u32_max in *. lia.
Qed.

Lemma classify_ok packet p : classify packet = Done p -> protocol_ok p.
Proof.
  unfold classify, classify_tcp, classify_udp. intros H.
  destruct (is_http_banner_Done (payload packet)) as [b Hb].
  rewrite Hb in H. repeat (case_match; simplify_eq/=; try exact I; try (unfold in_u8, u8_max; lia)).
Qed.

(** What decoding a byte string can put into a device. *)
Lemma decoded_ok {PN : Pnet} {PL : PnetLaws} buf packet :
  bytes_ok (raw buf) -> decode_packet buf = Done (Ok packet) ->
  octets_ok (src_of packet) /\ octets_ok (dst_of packet) /\ set_Forall ip_ok (packet_ips packet).
Proof.
  intros Hb. rewrite decode_packet_by_verdict. intros Hd.
  destruct (frame_verdict (raw buf)); simplify_eq; unfold src_of, dst_of, packet_ips; simpl;
    (split; [by apply mac_at_ok|]); (split; [by apply mac_at_ok|]); [done|].
  apply set_Forall_union; apply set_Forall_singleton; simpl; apply u32_at_ok; by apply bytes_ok_drop.
Qed.

Lemma bump_representable stats p :
  protocol_ok p -> map_Forall (fun p n => protocol_ok p /\ in_u64 n) stats ->
  map_Forall (fun p n => protocol_ok p /\ in_u64 n) (Device.bump stats p).
Proof.
  intros Hp Hs. unfold Device.bump. apply map_Forall_insert_2; [|done]. split; [done|].
  apply saturating_add_u64_bound; [|lia]. destruct (stats !! p) as [n|] eqn:E; simpl.
  - by apply Hs in E as [_ ?].
  - unfold in_u64, u64_max. lia.
Qed.

(** The two blocks of [update_devices] keep a device representable. *)
Lemma touch_src_representable packet p n t d :
  protocol_ok p -> set_Forall ip_ok (packet_ips packet) -> chrono_range t ->
  representable d -> representable (touch_src packet p n t d).
Proof.
  intros Hp Hips Ht (Hm & Hi & Hps & Hst & Hf & Hl & Hc & Hs & Hr).
  pose proof (touch_src_mac packet p n t d) as Hmac. unfold representable. rewrite Hmac.
  destruct (touch_src_fields packet p n t d) as (-> & -> & _ & _ & -> & -> & -> & -> & _ & -> & ->).
  refine (conj Hm (conj _ (conj _ (conj (bump_representable _ _ Hp Hst) (conj Hf (conj Ht
    (conj (saturating_add_u64_bound _ _ Hc _)
    (conj (saturating_add_u64_bound _ _ Hs _) Hr)))))))); try lia.
  - by apply set_Forall_union.
  - apply set_Forall_union; [by apply set_Forall_singleton | done].
Qed.
Lemma touch_dst_representable packet p t d :
  protocol_ok p -> set_Forall ip_ok (packet_ips packet) -> chrono_range t ->
  representable d -> representable (touch_dst packet p t d).
Proof.
  intros Hp Hips Ht (Hm & Hi & Hps & Hst & Hf & Hl & Hc & Hs & Hr).
  pose proof (touch_dst_mac packet p t d) as Hmac. unfold representable. rewrite Hmac.
  destruct (touch_dst_fields packet p t d) as (-> & -> & _ & _ & -> & -> & -> & -> & _ & -> & ->).
  refine (conj Hm (conj _ (conj _ (conj (bump_representable _ _ Hp Hst) (conj Hf (conj Ht
    (conj (saturating_add_u64_bound _ _ Hc _)
    (conj Hs (saturating_add_u64_bound _ _ Hr _))))))))); try lia.
  - by apply set_Forall_union.
  - apply set_Forall_union; [by apply set_Forall_singleton | done].
Qed.

Lemma fresh_representable {OU : Oui} m t :
  octets_ok m -> chrono_range t -> representable (fresh_device m t).
Proof.
  intros Hm Ht. unfold fresh_device. destruct (lookup_vendor m); unfold representable; simpl;
    (refine (conj Hm (conj (set_Forall_empty _) (conj (set_Forall_empty _) (conj (map_Forall_empty _)
      (conj Ht (conj Ht _))))))); unfold in_u64, u64_max; lia.
Qed.

(** ** The SQLite-backed engine *)

Section PipelineFacts.
Context {MT : MacText} {IT : IpText} {CH : Chrono} {SJ : SerdeJson}.
Context {ML : MacTextLaws} {IL : IpTextLaws} {CL : ChronoLaws} {SL : SerdeJsonLaws}.
Context {PN : Pnet} {PL : PnetLaws} {OU : Oui} {MP : Mpsc DiscoveryEvent}.

Notation cached e := (MemoryStore.devices (SqliteStore.cache (store e))).

(** One block writes one representable device, first seen when it was. *)
Lemma update_one_persistent (e : engine SqliteStore.t) k t touch changed :
  persistent (store e) -> octets_ok k -> chrono_range t -> keeps_mac touch ->
  (forall d, representable d -> representable (touch d) /\
     Device.first_seen (touch d) = Device.first_seen d) ->
  persistent (store (update_one e k t touch changed).1).
Proof.
  intros Hp Hk Ht Hmac Htouch.
  set (before := known_or_fresh (cached e) k t).
  assert (store (update_one e k t touch changed).1 = (SqliteStore.upsert (store e) (touch before)).1) as ->.
  { unfold update_one, before, known_or_fresh. simpl. unfold SqliteStore.get, MemoryStore.get.
    destruct (cached e !! k) as [d|]; simpl; [|done]. by destruct (changed d (touch d)). }
  apply upsert_persistent; [done|]. simpl.
  assert (representable before /\ Device.mac before = k) as [Hrep Hbk].
  { unfold before, known_or_fresh. destruct (cached e !! k) as [d|] eqn:E.
    - destruct (p_cache _ Hp _ _ E) as [? ?]. done.
    - split; [by apply fresh_representable | apply fresh_device_mac]. }
  destruct (Htouch before Hrep) as [Hrep' Hfs]. split; [done|].
  intros d0. rewrite Hmac, Hbk, Hfs. unfold before, known_or_fresh. by intros ->.
Qed.

Lemma process_packet_persistent (e e' : engine SqliteStore.t) buf c :
  persistent (store e) -> bytes_ok (raw buf) -> clock_ok c ->
  process_packet e buf c = Done e' -> persistent (store e').
Proof.
  intros Hp Hb (Hnow & Hsrc & Hdst). unfold process_packet.
  destruct (decode_packet buf) as [[packet|err]| |] eqn:Hd; simpl; try done; [|by intros [= <-]].
  destruct (classify packet) as [p| |] eqn:Hcl; simpl; try done.
  destruct (extract_names packet p) as [n| |] eqn:Hn; simpl; try done. intros [= <-].
  destruct (decoded_ok buf packet Hb Hd) as (Hs & Ht & Hips). apply classify_ok in Hcl.
  unfold update_devices. fold (src_of packet) (dst_of packet).
  pose proof (update_one_persistent e (src_of packet) (new_src c) (touch_src packet p n (now c)) changed_src
    Hp Hs Hsrc (touch_src_mac _ _ _ _)) as H1.
  destruct (update_one e (src_of packet) _ _ _) as [e1 [u|err]]; simpl in H1.
  2: { apply H1. intros d Hrep. split; [by apply touch_src_representable|].
       by destruct (touch_src_fields packet p n (now c) d) as (_ & _ & _ & _ & _ & _ & _ & ? & _). }
  assert (persistent (store e1)) as Hp1.
  { apply H1. intros d Hrep. split; [by apply touch_src_representable|].
    by destruct (touch_src_fields packet p n (now c) d) as (_ & _ & _ & _ & _ & _ & _ & ? & _). }
  case_bool_decide; [done|]. apply update_one_persistent; try done; [apply touch_dst_mac|].
  intros d Hrep. split; [by apply touch_dst_representable|].
  by destruct (touch_dst_fields packet p (now c) d) as (_ & _ & _ & _ & _ & _ & _ & ? & _).
Qed.

End PipelineFacts.

Section TaskFacts.
Context {S : Type} {DS : DeviceStore S} {MP : Mpsc DiscoveryEvent} {MPL : MpscLaws DiscoveryEvent}.

Lemma emit_all (e : engine S) devices :
  store (foldl emit_offline_event e devices) = store e /\
  event_tx (foldl emit_offline_event e devices) = send_all (event_tx e) (DeviceOffline <$> devices).
Proof.
  revert e. induction devices as [|d devices IH]; intros e; simpl; [done|].
  destruct (IH (emit_offline_event e d)) as [-> ->]. done.
Qed.

Lemma scan_keeps_store (e : engine S) t : store (scan_turn e t) = store e.
Proof.
  unfold scan_turn. destruct (ds_list (store e)) as [l|]; [|done].
  by destruct (emit_all e (List.filter (silent_too_long t) l)) as [-> _].
Qed.
End TaskFacts.

Lemma silent_too_long_iff now d :
  silent_too_long now d = true <-> from_secs 61 <= now - Device.last_seen d.
Proof.
  unfold silent_too_long, num_seconds, from_secs, ns_per_s. rewrite Z.ltb_lt.
  set (x := now - Device.last_seen d). clearbody x. split; intros H.
  - pose proof (Z.quot_rem' x 1000000000) as Hq.
    assert (0 <= x).
    { destruct (Z.le_gt_cases 0 x) as [|Hneg]; [done|].
      pose proof (Z.quot_opp_l x 1000000000 ltac:(lia)) as Ho.
      pose proof (Z.quot_pos (- x) 1000000000 ltac:(lia) ltac:(lia)). lia. }
    pose proof (Z.rem_bound_pos x 1000000000 ltac:(lia) ltac:(lia)). lia.
  - assert (61 <= Z.quot x 1000000000); [|lia]. apply Z.quot_le_lower_bound; lia.
Qed.

Lemma take_snapshots_ops {MT : MacText} {IT : IpText} {CH : Chrono} {SJ : SerdeJson}
  (clock : Timestamp) (bind_error row_error : string) (tbl : history_table) today at_time i devices :
  @take_snapshots history_table (sqlite_history_store clock bind_error row_error) tbl today at_time i
    devices = foldl (table_op bind_error) tbl (snapshots_of today at_time i devices).
Proof.
  revert tbl i. unfold snapshots_of. induction devices as [|d devices IH]; intros tbl i; simpl; [done|].
  rewrite IH, Nat.add_0_r. f_equal. apply imap_ext. intros j d' _. simpl. by rewrite Nat.add_succ_r.
Qed.

(** A rule of a validated configuration converts when its condition does. *)
Lemma rule_try_from_valid rc :
  rule_valid rc ->
  match convert_condition (RuleConfig.condition rc) with
  | Ok c => exists sev, severity_from_str (RuleConfig.severity rc) = Ok sev /\
      rule_try_from rc = Ok (Rule.new (RuleConfig.name rc) (RuleConfig.enabled rc) c sev
                               (RuleConfig.cooldown_seconds rc))
  | Err _ => is_ok (rule_try_from rc) = false
  end.
Proof.
  intros [_ Hsev]. unfold rule_try_from.
  destruct (severity_from_str (RuleConfig.severity rc)) as [sev|]; [|done]. simpl.
  destruct (convert_condition (RuleConfig.condition rc)); simpl; [by exists sev | done].
Qed.

(** * Properties *)

(** One turn of the offline scanner, for any device store and with room
    in the channel: it changes no device and offers one [DeviceOffline] for
    exactly the devices last seen at least 61 seconds ago (the cut of
    [num_seconds] makes "more than 60 seconds" a full second more), in the
    order of the listing. *)
Theorem scan_turn_exact {S : Type} {DS : DeviceStore S} {MT : MacText} {DSL : DeviceStoreLaws S}
  {MP : Mpsc DiscoveryEvent} {MPL : MpscLaws DiscoveryEvent} (e : engine S) (now : Timestamp) :
  (length (queued (event_tx e)) + size (ds_map (store e)) <= capacity (event_tx e))%nat ->
  exists l, l ≡ₚ (map_to_list (ds_map (store e))).*2 /\ StronglySorted mac_text_le l /\
    store (scan_turn e now) = store e /\
    queued (event_tx (scan_turn e now)) =
      queued (event_tx e) ++ (DeviceOffline <$> List.filter (silent_too_long now) l) /\
    forall d, silent_too_long now d = true <-> from_secs 61 <= now - Device.last_seen d.
Proof.
  intros Hroom. unfold scan_turn. destruct (ds_list_spec (store e)) as (l & -> & Hp & Hs).
  exists l. destruct (emit_all e (List.filter (silent_too_long now) l)) as [-> ->].
  split_and!; [done|done|done| |apply silent_too_long_iff]. apply send_all_room.
  rewrite length_fmap. pose proof (sublist_length _ _ (filter_sublist (silent_too_long now) l)) as Hl.
  rewrite (Permutation_length Hp), length_fmap, length_map_to_list in Hl. lia.
Qed.

(** The rules the daemon runs, for a configuration that validation
    accepted: the configured rules whose condition is known, in their order,
    with their settings and no cooldown running; when there is none of
    them, the single rule that reports every new device. *)
Theorem build_rules_exact `{!Toml} (content : string) (c : Config.t) :
  config_from_str content = Ok c ->
  let known := List.filter (fun rc => is_ok (convert_condition (RuleConfig.condition rc))) (Config.rules c) in
  (known = [] -> build_rules c = [default_rule]) /\
  (known <> [] ->
     Forall2 (fun rc r => Rule.name r = RuleConfig.name rc /\ Rule.enabled r = RuleConfig.enabled rc /\
         convert_condition (RuleConfig.condition rc) = Ok (Rule.condition r) /\
         severity_from_str (RuleConfig.severity rc) = Ok (Rule.severity r) /\
         Rule.cooldown_seconds r = RuleConfig.cooldown_seconds rc /\ Rule.last_fired r = ∅)
       known (build_rules c)).
Proof.
  intros Hc known. unfold config_from_str in Hc. apply result_bind_Ok in Hc as (raw & _ & Hv).
  apply validate_Ok in Hv as [(_ & _ & _ & Hrules & _) Hc].
  assert (Forall rule_valid (Config.rules c)) as Hall by (by rewrite Hc). clear raw Hrules Hc.
  assert (Forall2 (fun rc r => Rule.name r = RuleConfig.name rc /\ Rule.enabled r = RuleConfig.enabled rc /\
    convert_condition (RuleConfig.condition rc) = Ok (Rule.condition r) /\
    severity_from_str (RuleConfig.severity rc) = Ok (Rule.severity r) /\
    Rule.cooldown_seconds r = RuleConfig.cooldown_seconds rc /\ Rule.last_fired r = ∅)
    known (convert_rules (Config.rules c))) as Hconv.
  { subst known. unfold convert_rules.
    induction Hall as [|rc rules Hrc Hrules IH]; simpl; [constructor|].
    apply rule_try_from_valid in Hrc.
    destruct (convert_condition (RuleConfig.condition rc)) as [cd|e] eqn:E; simpl.
    - destruct Hrc as (sev & Hsev & ->). simpl. constructor; [|done]. simpl. by rewrite E, Hsev.
    - destruct (rule_try_from rc); [done | exact IH]. }
  unfold build_rules. split.
  - intros Hk. rewrite Hk in Hconv. by inversion Hconv.
  - intros Hk. destruct (convert_rules (Config.rules c)); [by inversion Hconv; subst|]. exact Hconv.
Qed.

(** One turn of the history task on the SQLite store: it writes, for
    every listed device, its snapshot of today, and then, when a retention
    is set, deletes the days before the cutoff; so the table stands for the
    history after exactly these operations. *)
Theorem history_turn_exact {S : Type} {DS : DeviceStore S} {MT : MacText} {DSL : DeviceStoreLaws S}
  {IT : IpText} {CH : Chrono} {SJ : SerdeJson} {CD : ChronoDays}
  {ML : MacTextLaws} {IL : IpTextLaws} {CL : ChronoLaws} {SL : SerdeJsonLaws}
  (clock : Timestamp) (bind_error row_error : string) (s : S) (tbl : history_table) (h : history)
  (retention_days : Z) (now now' : Timestamp) (at_time : nat -> Timestamp) :
  0 <= retention_days <= i64_max -> represents tbl h ->
  (forall k d i, ds_map s !! k = Some d -> snapshot_ok (Snapshot.from_device d (fmt_date now) (at_time i))) ->
  exists devices, devices ≡ₚ (map_to_list (ds_map s)).*2 /\
    let HS := sqlite_history_store clock bind_error row_error in
    let taken := snapshots_of (fmt_date now) at_time 0 devices in
    match history_turn s tbl retention_days now now' at_time with
    | Done tbl' => represents tbl' (foldl spec_op h
        (taken ++ if 0 <? retention_days
                  then option_list (OpDeleteBefore ∘ fmt_date <$> sub_days now' retention_days)
                  else []))
    | Panic => 0 < retention_days /\ sub_days now' retention_days = None
    | Diverge => False
    end.
Proof.
  intros Hret Hrep Hok. destruct (ds_list_spec s) as (devices & Hl & Hp & _).
  exists devices. split; [done|]. intros HS taken. unfold history_turn. rewrite Hl.
  assert (Forall history_op_ok taken) as Htaken.
  { apply Forall_lookup. intros i o Hi. unfold taken, snapshots_of in Hi.
    rewrite list_lookup_imap in Hi. apply fmap_Some in Hi as (d & Hd & ->). simpl.
    apply list_elem_of_lookup_2 in Hd. rewrite Hp in Hd.
    apply list_elem_of_fmap in Hd as ([k d'] & -> & Hd). apply elem_of_map_to_list in Hd. by eapply snapshot_ok_any, Hok. }
  pose proof (represents_ops bind_error tbl h taken Htaken Hrep) as H1.
  assert (take_snapshots tbl (fmt_date now) at_time 0 devices = foldl (table_op bind_error) tbl taken) as ->
    by apply take_snapshots_ops.
  destruct (0 <? retention_days) eqn:E; bool_to_prop.
  - rewrite (proj2 (Z.leb_le _ _)) by lia. destruct (sub_days now' retention_days) as [cutoff|]; [|done].
    simpl. rewrite foldl_app. simpl. by apply represents_delete.
  - by rewrite app_nil_r.
Qed.

(** * Witnesses *)

#[local] Existing Instances ref_mac_text std_ip_text ref_chrono ref_serde_json wire_pnet demo_oui.
#[local] Existing Instance queue_mpsc.

Definition demo_clock_at (secs : Z) : Clock :=
  mkClock (from_secs secs) (from_secs secs) (from_secs secs).
Definition demo_tx : chan DiscoveryEvent := ([], 8%nat).
Lemma scan_turn_exact_witness :
  let e := mkEngine (MemoryStore.upsert MemoryStore.new demo_device).1 demo_tx in
  queued (MpscLaws:=queue_mpsc_laws DiscoveryEvent) (event_tx (scan_turn e (5 + from_secs 60))) = [] /\
  queued (MpscLaws:=queue_mpsc_laws DiscoveryEvent) (event_tx (scan_turn e (5 + from_secs 61))) =
    [DeviceOffline demo_device].
Proof.
  intros e. split; [vm_compute; reflexivity|].
  destruct (scan_turn_exact (DSL:=memory_device_store_laws) (MPL:=queue_mpsc_laws DiscoveryEvent) e
    (5 + from_secs 61)) as (l & Hl & _ & _ & Hq & _).
  - vm_compute. lia.
  - rewrite Hq. assert (l = [demo_device]) as ->; [|vm_compute; reflexivity].
    apply Permutation_singleton_r. rewrite Hl. reflexivity.
Defined.

Definition demo_config : Config.t := normalized (Config.of_raw (demo_raw "critical")).

Lemma build_rules_exact_witness :
  @config_from_str (demo_toml "critical") "" = Ok demo_config /\
  Forall2 (fun rc r => severity_from_str (RuleConfig.severity rc) = Ok (Rule.severity r))
    (Config.rules demo_config) (build_rules demo_config).
Proof.
  assert (@config_from_str (demo_toml "critical") "" = Ok demo_config) as Hc by (vm_compute; reflexivity).
  split; [exact Hc|].
  destruct (@build_rules_exact (demo_toml "critical") "" demo_config Hc) as [_ H].
  eapply Forall2_impl; [apply H; discriminate|]. intros rc r (_ & _ & _ & Hs & _). exact Hs.
Defined.

Definition demo_days : ChronoDays := {| sub_days t n := Some (t - n * 86400 * ns_per_s) |}.

Lemma history_turn_exact_witness :
  exists tbl', @history_turn MemoryStore.t memory_device_store ref_chrono demo_days history_table
      (sqlite_history_store 0 "out of range" "bad row")
      (MemoryStore.upsert MemoryStore.new (demo_at 3)).1 ∅ 30 (from_secs 1700000000)
      (from_secs 1700000000) (fun _ => from_secs 1700000000) = Done tbl' /\
    represents tbl' (foldl spec_op ∅
      [OpSnapshot (Snapshot.from_device (demo_at 3) (fmt_date (from_secs 1700000000)) (from_secs 1700000000));
       OpDeleteBefore (fmt_date (from_secs 1700000000 - 30 * 86400 * ns_per_s))]).
Proof.
  set (s := (MemoryStore.upsert MemoryStore.new (demo_at 3)).1).
  destruct (@history_turn_exact MemoryStore.t memory_device_store ref_mac_text memory_device_store_laws
    std_ip_text ref_chrono ref_serde_json demo_days ref_mac_laws std_ip_laws ref_chrono_laws
    ref_serde_json_laws 0 "out of range" "bad row" s ∅ ∅ 30 (from_secs 1700000000)
    (from_secs 1700000000) (fun _ => from_secs 1700000000)) as (devices & Hd & H).
  - unfold i64_max. lia.
  - apply represents_empty.
  - intros k d i Hd. simpl in Hd. destruct (decide (k = Device.mac (demo_at 3))) as [->|Hne].
    + rewrite lookup_insert_eq in Hd. injection Hd as <-.
      destruct (demo_snapshot_ok 3 (fmt_date (from_secs 1700000000))) as
        (Q1 & Q2 & Q3 & Q4 & _ & Q6); [lia|]. refine (conj Q1 (conj Q2 (conj Q3 (conj Q4 (conj _ Q6))))).
      unfold chrono_range, from_secs, ns_per_s. simpl. unfold from_secs, ns_per_s. lia.
    + rewrite lookup_insert_ne in Hd by done. discriminate Hd.
  - assert (devices = [demo_at 3]) as -> by (apply Permutation_singleton_r; rewrite Hd; reflexivity).
    eexists. split; [reflexivity|]. exact H.
Defined.

(** The threshold of a [device_offline] rule is not read: a device silent
    for 61 seconds raises the alert of a rule that asks for an hour. *)
Lemma offline_threshold_ignored :
  let rule := Rule.new "offline" true (CondDeviceOffline 3600) Warning 0 in
  let now := 5 + from_secs 61 in
  silent_too_long now demo_device = true /\
  exists a, (evaluate_rule rule (DeviceOffline demo_device) InMemoryAlertStore.new
    (mkRuleClock now now)).2 = Ok (Some a).
Proof. split; [reflexivity | by eexists]. Qed.
