(* ===== verification/Writeback.v ===== *)
(** The pipeline next to the flush task, over the SQLite store
    ([process_packet], [flush_task] and the end of [run] in
    [crates/daemon/src/daemon.rs]; [upsert] and [flush] in
    [crates/storage/src/sqlite.rs]).  Nothing but the connection lock orders
    them, so a move is one access to the shared state: a write to the cache, a
    dirty mark, one row of a flush, one cleared mark.  Any list of moves that
    can be made is a run. *)

From S2P Require Import Prelude Text Types Reference Net Packet Classify Dhcp Mdns Json Oui Stores.
From S2P Require Import Discovery Sqlite HistorySqlite Config Alerts Rules Daemon.

(** * A frame as blocks *)

(** One of the two blocks of [update_devices]: the device it reads or
    creates, what it does to it, and when it tells. *)
Record Block : Type := mkBlock {
  block_mac : MacAddress;
  block_new : Timestamp;
  block_touch : Device.t -> Device.t;
  block_changed : Device.t -> Device.t -> bool
}.

Section Blocks.
Context {PN : Pnet}.

Definition update_blocks (packet : DecodedPacket) (p : Protocol) (n : Names) (c : Clock) : list Block :=
  mkBlock (src_of packet) (new_src c) (touch_src packet p n (now c)) changed_src ::
  if bool_decide (src_of packet = dst_of packet) then []
  else [mkBlock (dst_of packet) (new_dst c) (touch_dst packet p (now c)) changed_dst].

(** [process_packet] up to its first access to the store. *)
Definition frame_blocks (buf : PacketBuf) (c : Clock) : exec (list Block) :=
  run! r := decode_packet buf in
  match r with
  | Err _ => Done []
  | Ok decoded =>
      run! p := classify decoded in
      run! n := extract_names decoded p in
      Done (update_blocks decoded p n c)
  end.
End Blocks.

(** * Moves *)

(** The shared store and the sender of events, and where the two tasks are:
    the blocks the pipeline has still to do and the upsert it is in the
    middle of (the address and the event that follows), and the phase of the
    flush.  [overtaken] is not state of the program: the addresses updated
    after the flush that is or was the last to write their row wrote it, and
    before it cleared their mark. *)
Record running `{!Mpsc DiscoveryEvent} : Type := mkRunning {
  memory : SqliteStore.t;
  events : chan DiscoveryEvent;
  work : list Block;
  half : option (MacAddress * option DiscoveryEvent);
  flushing : flush_phase;
  overtaken : gset MacAddress
}.
Arguments running {_}.
Arguments mkRunning {_}.

Inductive move : Type :=
| TakeFrame (buf : PacketBuf) (c : Clock)        (** the pipeline receives a frame *)
| WriteCache                                     (** reads a device and writes it back *)
| MarkDirty                                      (** marks it, and emits its event *)
| TakeSnapshot (macs : list MacAddress)          (** [flush] has iterated the dirty set *)
| FlushStep (answer : option string).            (** its next statement or mark *)

(** Written by the running flush, and not yet cleared. *)
Definition in_window (ph : flush_phase) (m : MacAddress) : bool :=
  match ph with
  | Idle => false
  | Writing todo snapshot => bool_decide (m ∈ snapshot) && bool_decide (m ∉ todo)
  | Clearing todo => bool_decide (m ∈ todo)
  end.

Section Moves.
Context {MT : MacText} {IT : IpText} {CH : Chrono} {SJ : SerdeJson}.
Context {PN : Pnet} {OU : Oui} {MP : Mpsc DiscoveryEvent}.

Notation devices s := (MemoryStore.devices (SqliteStore.cache s)).

Definition flush_step (r : running) (answer : option string) : option running :=
  let s := memory r in
  let to (ph : flush_phase) := Some (mkRunning s (events r) (work r) (half r) ph (overtaken r)) in
  match flushing r with
  | Idle => None
  | Writing [] snapshot => to (Clearing snapshot)
  | Writing (m :: todo) snapshot =>
      match MemoryStore.get (SqliteStore.cache s) m with
      | Err _ => to Idle
      | Ok None => to (Writing todo snapshot)
      | Ok (Some d) =>
          match row_of_device d, answer with
          | Some row, None =>
              Some (mkRunning (with_conn (upsert_row row (SqliteStore.conn s)) s) (events r) (work r)
                (half r) (Writing todo snapshot) (overtaken r ∖ {[m]}))
          | _, _ => to Idle
          end
      end
  | Clearing (m :: todo) =>
      Some (mkRunning (with_dirty (SqliteStore.dirty s ∖ {[m]}) s) (events r) (work r) (half r)
        (Clearing todo) (overtaken r))
  | Clearing [] => to Idle
  end.

(** The iteration of a [DashSet] goes shard by shard: an address marked
    meanwhile may or may not be among [macs]. *)
Definition make_move (r : running) (m : move) : option running :=
  let s := memory r in
  match m, half r, work r, flushing r with
  | TakeFrame buf c, None, [], ph =>
      match frame_blocks buf c with
      | Done blocks => Some (mkRunning s (events r) blocks None ph (overtaken r))
      | _ => None
      end
  | WriteCache, None, b :: blocks, ph =>
      let before := known_or_fresh (devices s) (block_mac b) (block_new b) in
      let after := block_touch b before in
      let news := offered (devices s) (block_mac b) (block_new b) (block_touch b) (block_changed b) in
      Some (mkRunning (with_cache after s) (events r) blocks (Some (Device.mac after, news)) ph
        (if in_window ph (Device.mac after) then {[Device.mac after]} ∪ overtaken r else overtaken r))
  | MarkDirty, Some (mac, news), blocks, ph =>
      Some (mkRunning (with_dirty ({[mac]} ∪ SqliteStore.dirty s) s)
        (send_all (events r) (option_list news)) blocks None ph (overtaken r))
  | TakeSnapshot macs, h, blocks, Idle =>
      if negb (SqliteStore.poisoned s) && bool_decide (macs <> []) && bool_decide (NoDup macs) &&
         forallb (fun mac => bool_decide (mac ∈ SqliteStore.dirty s)) macs
      then Some (mkRunning s (events r) blocks h (Writing macs macs) (overtaken r))
      else None
  | FlushStep answer, _, _, _ => flush_step r answer
  | _, _, _, _ => None
  end.
Fixpoint make_moves (r : running) (ms : list move) : option running :=
  match ms with [] => Some r | m :: ms' => r' ← make_move r m; make_moves r' ms' end.

(** The daemon on a store, before anything arrives. *)
Definition quiet (s : SqliteStore.t) (tx : chan DiscoveryEvent) (ph : flush_phase) (o : gset MacAddress)
  : running := mkRunning s tx [] None ph o.
End Moves.

(** * Specification *)

(** The captured frames are byte strings and the clock is in the range of
    [chrono]. *)
Definition move_ok (m : move) : Prop :=
  match m with TakeFrame buf c => bytes_ok (raw buf) /\ clock_ok c | _ => True end.

(** The pipeline is at rest and no flush is running, as when [run] makes its
    final flush: it has waited for the pipeline, and for the lock. *)
Definition at_rest `{!Mpsc DiscoveryEvent} (r : running) : Prop :=
  work r = [] /\ half r = None /\ flushing r = Idle.

(** SQLite opens the database at [path] and yields these rows. *)
Definition opens (path : string) (io : SqliteStore.open_io) (rows : list DeviceRow.t) : Prop :=
  is_empty path = false /\ SqliteStore.connection io = Ok tt /\ SqliteStore.pragmas io = Ok tt /\
  SqliteStore.schema io = Ok tt /\ SqliteStore.migrate (SqliteStore.alter io) = Ok tt /\
  SqliteStore.prepared io = Ok tt /\ SqliteStore.rows io = Ok rows.

Definition block_ok (b : Block) : Prop :=
  octets_ok (block_mac b) /\ chrono_range (block_new b) /\ keeps_mac (block_touch b) /\
  forall d, representable d -> Device.wf d ->
    representable (block_touch b d) /\ Device.wf (block_touch b d) /\ evolves d (block_touch b d).

Section Specs.
Context {MT : MacText} {IT : IpText} {CH : Chrono} {SJ : SerdeJson} {MP : Mpsc DiscoveryEvent}.

Notation devices s := (MemoryStore.devices (SqliteStore.cache s)).

(** The table has a row for a cached device, and unless the flush that wrote
    it was overtaken, the current one. *)
Definition written (r : running) (m : MacAddress) (d : Device.t) : Prop :=
  exists row, SqliteStore.conn (memory r) !! mac_to_string m = Some row /\
    (m ∉ overtaken r -> row_of_device d = Some row).

Record steady (r : running) : Prop := {
  st_cache : map_Forall (fun m d => Device.mac d = m /\ representable d /\ Device.wf d) (devices (memory r));
  st_rows : map_Forall (fun k row => exists d d', k = mac_to_string (Device.mac d) /\
      devices (memory r) !! Device.mac d = Some d /\ representable d' /\
      row_of_device d' = Some row /\ evolves d' d) (SqliteStore.conn (memory r));
  st_marked m : m ∈ SqliteStore.dirty (memory r) -> is_Some (devices (memory r) !! m);
  st_half m ev : half r = Some (m, ev) -> is_Some (devices (memory r) !! m);
  st_todo todo snapshot m : flushing r = Writing todo snapshot -> m ∈ todo ->
    is_Some (devices (memory r) !! m);
  st_clean m d : devices (memory r) !! m = Some d -> m ∉ SqliteStore.dirty (memory r) ->
    fst <$> half r <> Some m -> written r m d;
  st_window m : in_window (flushing r) m = true ->
    exists d, devices (memory r) !! m = Some d /\ written r m d;
  st_work : Forall block_ok (work r)
}.
End Specs.

(** * Lemmas *)

Section WritebackFacts.
Context {MT : MacText} {IT : IpText} {CH : Chrono} {SJ : SerdeJson}.
Context {ML : MacTextLaws} {IL : IpTextLaws} {CL : ChronoLaws} {SL : SerdeJsonLaws}.
Context {PN : Pnet} {PNL : PnetLaws} {OU : Oui} {MP : Mpsc DiscoveryEvent}.

Notation devices s := (MemoryStore.devices (SqliteStore.cache s)).

(** ** Blocks *)

Lemma frame_blocks_ok buf c blocks :
  bytes_ok (raw buf) -> clock_ok c -> frame_blocks buf c = Done blocks -> Forall block_ok blocks.
Proof.
  intros Hb (Hnow & Hsrc & Hdst). unfold frame_blocks.
  destruct (decode_packet buf) as [[packet|err]| |] eqn:Hd; simpl; try done; [|by intros [= <-]].
  destruct (classify packet) as [p| |] eqn:Hcl; simpl; try done.
  destruct (extract_names packet p) as [n| |]; simpl; try done. intros [= <-].
  destruct (decoded_ok buf packet Hb Hd) as (Hs & Ht & Hips). apply classify_ok in Hcl.
  unfold update_blocks. constructor.
  - refine (conj Hs (conj Hsrc (conj (touch_src_mac _ _ _ _) _))). intros d Hr Hw.
    refine (conj (touch_src_representable _ _ _ _ _ Hcl Hips Hnow Hr) (conj _ _));
      [by apply touch_src_wf | by apply touch_src_evolves].
  - case_bool_decide; [constructor|]. apply Forall_singleton.
    refine (conj Ht (conj Hdst (conj (touch_dst_mac _ _ _) _))). intros d Hr Hw.
    refine (conj (touch_dst_representable _ _ _ _ Hcl Hips Hnow Hr) (conj _ _));
      [by apply touch_dst_wf | by apply touch_dst_evolves].
Qed.

(** What a block writes, from a cache of representable devices. *)
Lemma block_writes (m : gmap MacAddress Device.t) b :
  map_Forall (fun k d => Device.mac d = k /\ representable d /\ Device.wf d) m -> block_ok b ->
  let d := block_touch b (known_or_fresh m (block_mac b) (block_new b)) in
  Device.mac d = block_mac b /\ representable d /\ Device.wf d /\
  forall d0, m !! block_mac b = Some d0 -> evolves d0 d.
Proof.
  intros Hm (Ho & Hn & Hk & Ht). cbv zeta. rewrite Hk. unfold known_or_fresh.
  destruct (m !! block_mac b) as [d0|] eqn:E.
  - destruct (Hm _ _ E) as (Hmac & Hr & Hw). destruct (Ht d0 Hr Hw) as (Hr' & Hw' & He).
    split_and!; try done. by intros d1 [= <-].
  - destruct (Ht (fresh_device (block_mac b) (block_new b))) as (Hr' & Hw' & _);
      [by apply fresh_representable | apply fresh_device_wf |].
    split_and!; try done. by rewrite fresh_device_mac.
Qed.

(** ** Moves of the pipeline *)

Lemma steady_quiet tx : steady (quiet fresh_store tx Idle ∅).
Proof. by split. Qed.

Lemma steady_frame r blocks :
  steady r -> Forall block_ok blocks -> half r = None ->
  steady (mkRunning (memory r) (events r) blocks None (flushing r) (overtaken r)).
Proof. intros [H1 H2 H3 H4 H5 H6 H7 H8] Hb Hh. rewrite Hh in H6. by split. Qed.

Lemma steady_cache r b blocks d news :
  let m := block_mac b in
  steady r -> half r = None -> work r = b :: blocks ->
  Device.mac d = m -> representable d -> Device.wf d ->
  (forall d0, devices (memory r) !! m = Some d0 -> evolves d0 d) ->
  steady (mkRunning (with_cache d (memory r)) (events r) blocks (Some (m, news)) (flushing r)
    (if in_window (flushing r) m then {[m]} ∪ overtaken r else overtaken r)).
Proof.
  intros m [H1 H2 H3 H4 H5 H6 H7 H8] Hh Hw Hm Hr Hwf Hev. rewrite Hh in H6. rewrite Hw in H8.
  set (o := if in_window (flushing r) m then {[m]} ∪ overtaken r else overtaken r).
  assert (forall k, is_Some (devices (memory r) !! k) ->
    is_Some (devices (with_cache d (memory r)) !! k)) as Hgrow.
  { intros k Hk. simpl. rewrite Hm. destruct (decide (k = m)) as [->|Hne];
      [by rewrite lookup_insert_eq | by rewrite lookup_insert_ne]. }
  assert (forall k e, k <> m -> written r k e ->
    written (mkRunning (with_cache d (memory r)) (events r) blocks (Some (m, news)) (flushing r) o) k e) as Hold.
  { intros k e Hne (row & Hl & Hrow). exists row. split; [done|]. simpl. intros Ho. apply Hrow.
    unfold o in Ho. destruct (in_window _ _); set_solver. }
  split; simpl; rewrite ?Hm.
  - by apply map_Forall_insert_2.
  - intros k row Hk. destruct (H2 k row Hk) as (d0 & d' & -> & Hd0 & Hr' & Hrow & He).
    destruct (decide (Device.mac d0 = m)) as [E|Hne].
    + exists d, d'. rewrite Hm, E, lookup_insert_eq. rewrite E in Hd0.
      split_and!; try done. eapply evolves_trans; [exact He | by apply Hev].
    + exists d0, d'. rewrite lookup_insert_ne by done. by split_and!.
  - intros k Hk. apply H3, Hgrow in Hk. simpl in Hk. by rewrite Hm in Hk.
  - intros k ev [= <- _]. rewrite lookup_insert_eq. by eexists.
  - intros todo snap k Hph Hk. eapply H5, Hgrow in Hk; [|exact Hph]. simpl in Hk. by rewrite Hm in Hk.
  - intros k e Hk Hnd Hne. rewrite lookup_insert_ne in Hk by naive_solver.
    apply Hold; [naive_solver|]. by apply H6.
  - intros k Hwin. destruct (H7 k Hwin) as (e & He & Hwr). destruct (decide (k = m)) as [->|Hne].
    + exists d. rewrite lookup_insert_eq. split; [done|]. destruct Hwr as (row & Hl & _).
      exists row. split; [done|]. unfold o. rewrite Hwin. simpl. set_solver.
    + exists e. rewrite lookup_insert_ne by done. split; [done|]. by apply Hold.
  - by apply Forall_cons in H8 as [_ ?].
Qed.

Lemma steady_mark r m news :
  steady r -> half r = Some (m, news) ->
  steady (mkRunning (with_dirty ({[m]} ∪ SqliteStore.dirty (memory r)) (memory r))
    (send_all (events r) (option_list news)) (work r) None (flushing r) (overtaken r)).
Proof.
  intros [H1 H2 H3 H4 H5 H6 H7 H8] Hh. rewrite Hh in H6. split; simpl; try done.
  - intros k [->%elem_of_singleton|Hk]%elem_of_union; [by eapply H4 | by apply H3].
  - intros k d Hd Hnd _. apply (H6 k d Hd); [set_solver|]. intros [= <-]. set_solver.
Qed.

(** ** Moves of the flush *)

(** The row a flush writes replaces one of the same time of first sight. *)
Lemma steady_row r m d row :
  steady r -> devices (memory r) !! m = Some d -> row_of_device d = Some row ->
  upsert_row row (SqliteStore.conn (memory r)) = <[mac_to_string m := row]> (SqliteStore.conn (memory r)).
Proof.
  intros Hst Hd Hrow. destruct (st_cache _ Hst _ _ Hd) as (Hm & Hrep & _). unfold upsert_row.
  rewrite (row_of_device_mac _ _ Hrow), Hm.
  destruct (SqliteStore.conn (memory r) !! mac_to_string m) as [old|] eqn:Eold; [|done].
  destruct (st_rows _ Hst _ _ Eold) as (d0 & d' & Hk & Hd0 & Hrep' & Hrow' & He).
  destruct (st_cache _ Hst _ _ Hd0) as (_ & Hrep0 & _). rewrite <- Hm in Hk.
  apply mac_to_string_inj in Hk; [|apply Hrep | apply Hrep0]. rewrite <- Hk, Hm, Hd in Hd0.
  injection Hd0 as <-. destruct He as (_ & Hfs & _). f_equal.
  rewrite (row_of_device_first_seen _ _ Hrow'), <- Hfs, <- (row_of_device_first_seen _ _ Hrow).
  apply set_first_seen_same.
Qed.

Lemma mac_text_ne r m m' d d' :
  steady r -> devices (memory r) !! m = Some d -> devices (memory r) !! m' = Some d' -> m <> m' ->
  mac_to_string m <> mac_to_string m'.
Proof.
  intros Hst Hd Hd' Hne Heq. destruct (st_cache _ Hst _ _ Hd) as (<- & Hr & _).
  destruct (st_cache _ Hst _ _ Hd') as (<- & Hr' & _). apply Hne.
  apply mac_to_string_inj in Heq; [done | apply Hr | apply Hr'].
Qed.

Lemma steady_write r m todo snapshot d row :
  steady r -> flushing r = Writing (m :: todo) snapshot ->
  devices (memory r) !! m = Some d -> row_of_device d = Some row ->
  steady (mkRunning (with_conn (upsert_row row (SqliteStore.conn (memory r))) (memory r)) (events r)
    (work r) (half r) (Writing todo snapshot) (overtaken r ∖ {[m]})).
Proof.
  intros Hst Hph Hd Hrow. rewrite (steady_row r m d row Hst Hd Hrow).
  set (r' := mkRunning _ _ _ _ _ _).
  assert (written r' m d) as Hm.
  { exists row. simpl. rewrite lookup_insert_eq. done. }
  assert (forall k e, devices (memory r) !! k = Some e -> written r k e -> written r' k e) as Hkeep.
  { intros k e He (row0 & Hl & Hcur). destruct (decide (k = m)) as [->|Hne].
    - assert (e = d) as -> by congruence. exact Hm.
    - exists row0. simpl. rewrite lookup_insert_ne by (by eapply not_eq_sym, mac_text_ne).
      split; [done|]. intros Ho. apply Hcur. set_solver. }
  destruct Hst as [H1 H2 H3 H4 H5 H6 H7 H8]. split; simpl; try done.
  - apply map_Forall_insert_2; [|done]. destruct (H1 _ _ Hd) as (<- & Hr & _). exists d, d.
    split_and!; try done. apply evolves_refl.
  - intros todo' snapshot' k [= <- <-] Hk. eapply H5; [exact Hph | by right].
  - intros k e He Hnd Hne. apply Hkeep; [done|]. by apply H6.
  - intros k [Hs Ht]%andb_true_iff. apply bool_decide_eq_true in Hs, Ht.
    destruct (decide (k = m)) as [->|Hne]; [by exists d|].
    destruct (H7 k) as (e & He & Hw); [|exists e; split; [done | by apply Hkeep]].
    rewrite Hph. simpl. apply andb_true_iff. split; apply bool_decide_eq_true; [done|].
    by intros [?|?]%elem_of_cons.
Qed.

(** The flush goes on without writing. *)
Lemma steady_phase r ph :
  steady r -> (forall m, in_window ph m = true -> in_window (flushing r) m = true) ->
  (forall todo snapshot m, ph = Writing todo snapshot -> m ∈ todo -> is_Some (devices (memory r) !! m)) ->
  steady (mkRunning (memory r) (events r) (work r) (half r) ph (overtaken r)).
Proof.
  intros [H1 H2 H3 H4 H5 H6 H7 H8] Hwin Htodo. split; simpl; try done. intros m Hm. by apply H7, Hwin.
Qed.

Lemma steady_clear r m todo :
  steady r -> flushing r = Clearing (m :: todo) ->
  steady (mkRunning (with_dirty (SqliteStore.dirty (memory r) ∖ {[m]}) (memory r)) (events r) (work r)
    (half r) (Clearing todo) (overtaken r)).
Proof.
  intros [H1 H2 H3 H4 H5 H6 H7 H8] Hph. rewrite Hph in H7. split; simpl; try done.
  - intros k Hk. apply H3. set_solver.
  - intros k d Hd Hnd Hne. destruct (decide (k = m)) as [->|Hkm]; [|apply H6; [done| set_solver | done]].
    destruct (H7 m) as (e & He & Hw); [simpl; apply bool_decide_eq_true; by left|].
    assert (e = d) as -> by congruence. exact Hw.
  - intros k Hk%bool_decide_eq_true. destruct (H7 k) as (e & He & Hw); [|by exists e].
    simpl. apply bool_decide_eq_true. by right.
Qed.

Lemma steady_flush_step r answer r' :
  steady r -> flush_step r answer = Some r' -> steady r'.
Proof.
  intros Hst. unfold flush_step. destruct (flushing r) as [|[|m todo] snapshot|[|m todo]] eqn:Hph; try done.
  - intros [= <-]. apply steady_phase; [done | | by intros]. intros m. rewrite Hph. simpl.
    intros Hm%bool_decide_eq_true. apply andb_true_iff.
    split; [by apply bool_decide_eq_true | done].
  - destruct (st_todo _ Hst _ _ m Hph) as [d Hd]; [by left|].
    unfold MemoryStore.get. rewrite Hd.
    destruct (row_of_device d) as [row|] eqn:Hrow; [destruct answer as [msg|]|].
    2: { intros [= <-]. by eapply steady_write. }
    all: intros [= <-]; by apply steady_phase.
  - intros [= <-]. by apply steady_phase.
  - intros [= <-]. by apply steady_clear.
Qed.

Lemma steady_move r m r' : steady r -> move_ok m -> make_move r m = Some r' -> steady r'.
Proof.
  intros Hst Hok. unfold make_move.
  destruct m as [buf c| | |macs|answer]; [| | | |by destruct (half r), (work r); apply steady_flush_step].
  - destruct (half r) eqn:Hh; [done|]. destruct (work r); [|done]. destruct Hok as [Hb Hc].
    destruct (frame_blocks buf c) as [blocks| |] eqn:E; try done. intros [= <-].
    apply steady_frame; [done | by eapply frame_blocks_ok | done].
  - destruct (half r) eqn:Hh; [done|]. destruct (work r) as [|b blocks] eqn:Hw; [done|]. intros [= <-].
    pose proof (st_work _ Hst) as Hb. rewrite Hw in Hb. apply Forall_cons in Hb as [Hb _].
    destruct (block_writes _ b (st_cache _ Hst) Hb) as (Hm & Hr & Hwf & Hev). rewrite Hm.
    by eapply steady_cache.
  - destruct (half r) as [[m news]|] eqn:Hh; [|done]. destruct (flushing r) eqn:Hph.
    all: intros [= <-]; rewrite <- Hph; by apply steady_mark.
  - destruct (flushing r) eqn:Hph; try by destruct (half r) as [[]|], (work r).
    destruct (negb _ && _ && _ && forallb _ macs) eqn:E; [|by destruct (half r) as [[]|], (work r)].
    assert (steady (mkRunning (memory r) (events r) (work r) (half r) (Writing macs macs) (overtaken r))) as H.
    { apply andb_true_iff in E as [_ E]. apply steady_phase; [done | |].
      - intros m. simpl. intros [Hi Ho]%andb_true_iff. apply bool_decide_eq_true in Hi, Ho. done.
      - intros todo snapshot m [= <- <-] Hm. apply (st_marked _ Hst). rewrite forallb_forall in E.
        by apply list_elem_of_In, E, bool_decide_eq_true in Hm. }
    destruct (half r) as [[]|], (work r); intros [= <-]; exact H.
Qed.

Lemma steady_moves r ms r' :
  steady r -> Forall move_ok ms -> make_moves r ms = Some r' -> steady r'.
Proof.
  intros Hst Hms. revert r Hst. induction Hms as [|m ms Hm Hms IH]; intros r Hst; simpl; [by intros [= <-]|].
  destruct (make_move r m) as [r1|] eqn:E; [|done]. apply IH. by eapply steady_move.
Qed.

(** ** The final flush *)

(** The store with every device marked satisfies the invariant of [Sqlite],
    which the flush loop keeps. *)
Definition all_marked (s : SqliteStore.t) (tbl : devices_table) : SqliteStore.t :=
  SqliteStore.mk (SqliteStore.cache s) (dom (devices s)) tbl (SqliteStore.poisoned s).

Lemma steady_persistent r : steady r -> persistent (all_marked (memory r) (SqliteStore.conn (memory r))).
Proof.
  intros Hst. split; simpl.
  - intros m d Hd. by destruct (st_cache _ Hst m d Hd) as (? & ? & _).
  - intros k row Hk. destruct (st_rows _ Hst k row Hk) as (d & d' & -> & Hd & Hr & Hrow & Hm & Hfs & _).
    exists d, d'. split_and!; try done. by rewrite Hfs.
  - intros m d Hd Hn. destruct Hn. by eapply elem_of_dom_2.
Qed.

Lemma final_flush_table bind_error iter io r s n :
  (forall ds, iter ds ≡ₚ elements ds) -> steady r ->
  SqliteStore.flush bind_error iter io (memory r) = (s, Ok n) ->
  SqliteStore.cache s = SqliteStore.cache (memory r) /\
  persistent (all_marked (memory r) (SqliteStore.conn s)) /\
  (forall k, SqliteStore.conn (memory r) !! k = SqliteStore.conn s !! k \/
     exists m, m ∈ SqliteStore.dirty (memory r) /\ is_Some (devices (memory r) !! m) /\ k = mac_to_string m) /\
  (forall m d, m ∈ SqliteStore.dirty (memory r) -> devices (memory r) !! m = Some d ->
     exists row, row_of_device d = Some row /\ SqliteStore.conn s !! mac_to_string m = Some row).
Proof.
  intros Hiter Hst. pose proof (steady_persistent r Hst) as Hp. unfold SqliteStore.flush.
  destruct (SqliteStore.poisoned (memory r)) eqn:Epo; [done|].
  destruct (iter (SqliteStore.dirty (memory r))) as [|m0 macs] eqn:Eit.
  - intros [= <- <-]. split_and!; [done..| by left |]. intros m d Hm.
    rewrite <- elem_of_elements, <- Hiter, Eit in Hm. by apply not_elem_of_nil in Hm.
  - rewrite <- Eit. destruct (SqliteStore.flush_loop _ _ _ _ _ _ _) as [tbl [w|e]] eqn:E; [|done].
    intros [= <- <-]. simpl.
    apply (flush_loop_spec bind_error (all_marked (memory r) (SqliteStore.conn (memory r)))) in E
      as (Hp' & Hk & Hok); [|done]. destruct (Hok w eq_refl) as [_ Hcur]. split_and!; [done..| |].
    + intros k. destruct (Hk k) as [?|(m & Hm & ? & ?)]; [by left|]. right. exists m.
      rewrite Hiter, elem_of_elements in Hm. done.
    + intros m d Hm. apply Hcur. by rewrite Hiter, elem_of_elements.
Qed.

Lemma final_flush_rows bind_error iter io r s n m d :
  (forall ds, iter ds ≡ₚ elements ds) -> steady r -> half r = None ->
  SqliteStore.flush bind_error iter io (memory r) = (s, Ok n) -> devices (memory r) !! m = Some d ->
  exists d' row, row_of_some (all_marked (memory r) (SqliteStore.conn s)) row d' /\
    Device.mac d' = m /\ evolves d' d /\
    (m ∉ overtaken r \/ m ∈ SqliteStore.dirty (memory r) -> d' = d).
Proof.
  intros Hiter Hst Hh Hfl Hd. unfold row_of_some. simpl.
  destruct (final_flush_table bind_error iter io r s n Hiter Hst Hfl) as (_ & _ & Hk & Hcur).
  destruct (st_cache _ Hst m d Hd) as (Hm & Hrep & _).
  destruct (decide (m ∈ SqliteStore.dirty (memory r))) as [Hin|Hout].
  { destruct (Hcur m d Hin Hd) as (row & Hrow & Hl). exists d, row. rewrite Hm.
    split_and!; [done..|apply evolves_refl|done]. }
  destruct (st_clean _ Hst m d Hd Hout) as (row & Hl & Hrow); [by rewrite Hh|].
  assert (SqliteStore.conn s !! mac_to_string m = Some row) as Hl'.
  { destruct (Hk (mac_to_string m)) as [<-|(m' & Hm' & [d1 Hd1] & Heq)]; [done|].
    destruct (decide (m = m')) as [<-|Hne]; [done|]. by destruct (mac_text_ne r m m' d d1). }
  destruct (decide (m ∈ overtaken r)) as [Hov|Hov].
  - destruct (st_rows _ Hst _ _ Hl) as (d1 & d' & Heq & Hd1 & Hrep' & Hrow' & He).
    assert (d1 = d) as ->.
    { destruct (decide (m = Device.mac d1)) as [E|Hne]; [congruence|].
      by destruct (mac_text_ne r m (Device.mac d1) d d1). }
    exists d', row. pose proof He as [Hmac _]. rewrite <- Hmac, Hm. split_and!; [done..|]. naive_solver.
  - exists d, row. rewrite Hm. split_and!; [done|by apply Hrow|done|done|apply evolves_refl|done].
Qed.

Lemma opens_loads row_error path t io rows tbl c n :
  opens path io rows -> SqliteStore.load_all row_error t rows MemoryStore.new 0 = Ok (c, n) ->
  SqliteStore.open row_error path t io tbl = Ok (Some (SqliteStore.mk c ∅ tbl false)).
Proof.
  intros (Hpath & H1 & H2 & H3 & H4 & H5 & H6) Hload. unfold SqliteStore.open.
  by rewrite Hpath, H1, H2, H3, H4, H5, H6; cbn; rewrite Hload.
Qed.

(** ** One task alone *)

(** Without a flush in between, the moves of a frame are [process_packet];
    without the pipeline in between, those of a flush are [flush]. *)
Definition run_block (e : engine SqliteStore.t) (b : Block) : engine SqliteStore.t :=
  (update_one e (block_mac b) (block_new b) (block_touch b) (block_changed b)).1.

Lemma process_packet_blocks (e : engine SqliteStore.t) buf c :
  process_packet e buf c = run! blocks := frame_blocks buf c in Done (foldl run_block e blocks).
Proof.
  unfold process_packet, frame_blocks. destruct (decode_packet buf) as [[packet|err]| |]; simpl; try done.
  destruct (classify packet) as [p| |]; simpl; try done.
  destruct (extract_names packet p) as [n| |]; simpl; try done. f_equal.
  assert (forall (e : engine SqliteStore.t) k t touch changed, (update_one e k t touch changed).2 = Ok tt) as Hok.
  { intros e0 k t touch changed. unfold update_one. simpl. unfold SqliteStore.get, MemoryStore.get.
    by destruct (devices (store e0) !! k). }
  unfold update_devices, run_block. fold (src_of packet) (dst_of packet). simpl.
  pose proof (Hok e (src_of packet) (new_src c) (touch_src packet p n (now c)) changed_src) as H1.
  destruct (update_one e (src_of packet) _ _ _) as [e1 r1]. simpl in H1. subst r1. simpl.
  by case_bool_decide.
Qed.

Lemma blocks_alone (e : engine SqliteStore.t) blocks ph o :
  exists ms o', Forall (fun m => m = WriteCache \/ m = MarkDirty) ms /\
    make_moves (mkRunning (store e) (event_tx e) blocks None ph o) ms =
      Some (quiet (store (foldl run_block e blocks)) (event_tx (foldl run_block e blocks)) ph o').
Proof.
  revert e o. induction blocks as [|b blocks IH]; intros e o.
  { exists [], o. split; [constructor | done]. }
  set (before := known_or_fresh (devices (store e)) (block_mac b) (block_new b)).
  set (o1 := if in_window ph (Device.mac (block_touch b before))
             then {[Device.mac (block_touch b before)]} ∪ o else o).
  destruct (IH (run_block e b) o1) as (ms & o' & Hms & Hrun).
  exists (WriteCache :: MarkDirty :: ms), o'. split; [by repeat (constructor; [tauto|])|].
  cbn [make_moves make_move mbind option_bind half work flushing memory events foldl]. rewrite <- Hrun.
  fold before o1. assert (store (run_block e b) = (SqliteStore.upsert (store e) (block_touch b before)).1 /\
    event_tx (run_block e b) = send_all (event_tx e) (option_list
      (offered (devices (store e)) (block_mac b) (block_new b) (block_touch b) (block_changed b)))) as [-> ->]; [|done].
  unfold run_block, update_one, offered, before, known_or_fresh. simpl. unfold SqliteStore.get, MemoryStore.get.
  destruct (devices (store e) !! block_mac b) as [d|]; simpl; [|done].
  by destruct (block_changed b d (block_touch b d)).
Qed.

Lemma frame_alone (e e' : engine SqliteStore.t) buf c ph o :
  process_packet e buf c = Done e' ->
  exists ms o', Forall (fun m => m = WriteCache \/ m = MarkDirty) ms /\
    make_moves (quiet (store e) (event_tx e) ph o) (TakeFrame buf c :: ms) =
      Some (quiet (store e') (event_tx e') ph o').
Proof.
  rewrite process_packet_blocks. destruct (frame_blocks buf c) as [blocks| |] eqn:E; try done.
  intros [= <-]. destruct (blocks_alone e blocks ph o) as (ms & o' & Hms & Hrun). exists ms, o'.
  split; [done|]. cbn [make_moves make_move quiet half work flushing memory events overtaken]. by rewrite E.
Qed.

Lemma make_moves_app r ms ms' :
  make_moves r (ms ++ ms') = r' ← make_moves r ms; make_moves r' ms'.
Proof.
  revert r. induction ms as [|m ms IH]; intros r; simpl; [done|].
  destruct (make_move r m) as [r1|]; simpl; [apply IH | done].
Qed.

Lemma clear_alone s tx todo o :
  make_moves (quiet s tx (Clearing todo) o) (replicate (S (length todo)) (FlushStep None)) =
    Some (quiet (with_dirty (foldl (fun ds m => ds ∖ {[m]}) (SqliteStore.dirty s) todo) s) tx Idle o).
Proof.
  revert s. induction todo as [|m todo IH]; intros s; [by destruct s|].
  change (replicate (S (length (m :: todo))) (FlushStep None))
    with (FlushStep None :: replicate (S (length todo)) (FlushStep None)).
  cbn [make_moves make_move quiet half work flushing memory events overtaken flush_step mbind option_bind].
  exact (IH (with_dirty (SqliteStore.dirty s ∖ {[m]}) s)).
Qed.

Lemma writing_alone bind_error io s tx todo snapshot i w tbl res o :
  SqliteStore.flush_loop bind_error (SqliteStore.cache s) io todo (SqliteStore.conn s) i w = (tbl, res) ->
  exists answers o', make_moves (quiet s tx (Writing todo snapshot) o) (FlushStep <$> answers) =
    Some (quiet (with_conn tbl s) tx (if is_ok res then Writing [] snapshot else Idle) o').
Proof.
  revert s i w o. induction todo as [|m todo IH]; intros s i w o; simpl.
  { intros [= <- <-]. exists [], o. by destruct s. }
  unfold MemoryStore.get. destruct (devices s !! m) as [d|] eqn:Ed; simpl.
  2: { intros H. apply (IH s _ _ o) in H as (answers & o' & Hrun). exists (None :: answers), o'.
       cbn. unfold MemoryStore.get. by rewrite Ed. }
  destruct (row_of_device d) as [row|] eqn:Erow.
  2: { intros [= <- <-]. exists [None], o. cbn. unfold MemoryStore.get. rewrite Ed, Erow.
       by destruct s. }
  destruct (io i) as [msg|].
  { intros [= <- <-]. exists [Some msg], o. cbn. unfold MemoryStore.get. rewrite Ed, Erow.
       by destruct s. }
  intros H. apply (IH (with_conn (upsert_row row (SqliteStore.conn s)) s) _ _ (o ∖ {[m]})) in H
    as (answers & o' & Hrun).
  exists (None :: answers), o'. cbn. unfold MemoryStore.get. by rewrite Ed, Erow.
Qed.

Lemma flush_alone bind_error iter io s tx o s' res :
  (forall ds, iter ds ≡ₚ elements ds) -> SqliteStore.poisoned s = false -> iter (SqliteStore.dirty s) <> [] ->
  SqliteStore.flush bind_error iter io s = (s', res) ->
  exists answers o', make_moves (quiet s tx Idle o)
      (TakeSnapshot (iter (SqliteStore.dirty s)) :: (FlushStep <$> answers)) = Some (quiet s' tx Idle o').
Proof.
  intros Hiter Hpo Hne. unfold SqliteStore.flush. rewrite Hpo.
  assert (NoDup (iter (SqliteStore.dirty s))) as Hnd by (rewrite Hiter; apply NoDup_elements).
  assert (forallb (fun m => bool_decide (m ∈ SqliteStore.dirty s)) (iter (SqliteStore.dirty s)) = true) as Hall.
  { apply forallb_forall. intros m Hm%list_elem_of_In. apply bool_decide_eq_true.
    by rewrite Hiter, elem_of_elements in Hm. }
  destruct (iter (SqliteStore.dirty s)) as [|m0 macs] eqn:Eit; [done|]. rewrite <- Eit in *.
  destruct (SqliteStore.flush_loop _ _ _ _ _ _ _) as [tbl r] eqn:E.
  destruct (writing_alone bind_error io s tx _ (iter (SqliteStore.dirty s)) _ _ tbl r o E) as (answers & o' & Hrun).
  assert (forall ms, make_moves (quiet s tx Idle o) (TakeSnapshot (iter (SqliteStore.dirty s)) :: ms) =
    make_moves (quiet s tx (Writing (iter (SqliteStore.dirty s)) (iter (SqliteStore.dirty s))) o) ms) as Hstart.
  { intros ms. cbn [make_moves make_move quiet half work flushing memory events overtaken].
    rewrite Hpo, Hall, !bool_decide_eq_true_2 by done. done. }
  destruct r as [n|e]; simpl in Hrun; intros [= <- <-].
  - exists (answers ++ replicate (S (S (length (iter (SqliteStore.dirty s))))) None), o'.
    rewrite Hstart, fmap_app, make_moves_app, Hrun, fmap_replicate.
    cbn [mbind option_bind replicate make_moves make_move flush_step flushing quiet memory events work half overtaken].
    pose proof (clear_alone (with_conn tbl s) tx (iter (SqliteStore.dirty s)) o') as Hclear.
    cbn [replicate make_moves] in Hclear. rewrite <- Hpo. exact Hclear.
  - exists answers, o'. rewrite Hstart, Hrun. by rewrite <- Hpo.
Qed.
End WritebackFacts.

(** * Properties *)

(** C1: the promise of the daemon.  From an empty database, over any frames
    of bytes, with the flush task running next to the pipeline, its reads,
    writes and marks interleaved with the pipeline's in any order and its
    statements failing as they may: when the pipeline has drained and the
    final flush succeeds, SQLite opens the database again, whatever order the
    rows come in, with every device of the cache and no other.  A device comes
    back as it was, times cut to the millisecond, unless its last update
    overtook a flush that had written its row and not yet cleared its mark:
    then it may come back as it was earlier, with nothing it had not, and with
    the same address, vendor and time of first sight. *)
Theorem daemon_inventory_survives_restart {MT : MacText} {IT : IpText} {CH : Chrono} {SJ : SerdeJson}
  {ML : MacTextLaws} {IL : IpTextLaws} {CL : ChronoLaws} {SL : SerdeJsonLaws}
  {PN : Pnet} {PL : PnetLaws} {OU : Oui} {MP : Mpsc DiscoveryEvent}
  (bind_error row_error : string) (iter : gset MacAddress -> list MacAddress)
  (tx : chan DiscoveryEvent) (ms : list move) (r : running) (io : sql_io) (s : SqliteStore.t) (n : nat)
  (path : string) (t : Timestamp) (oio : SqliteStore.open_io) (rows : list DeviceRow.t) :
  (forall ds, iter ds ≡ₚ elements ds) -> Forall move_ok ms ->
  make_moves (quiet fresh_store tx Idle ∅) ms = Some r -> at_rest r ->
  SqliteStore.flush bind_error iter io (memory r) = (s, Ok n) ->
  opens path oio rows -> rows ≡ₚ (map_to_list (SqliteStore.conn s)).*2 ->
  let cached := MemoryStore.devices (SqliteStore.cache (memory r)) in
  exists c, SqliteStore.open row_error path t oio (SqliteStore.conn s) =
      Ok (Some (SqliteStore.mk c ∅ (SqliteStore.conn s) false)) /\
    dom (MemoryStore.devices c) = dom cached /\
    forall m d, cached !! m = Some d -> exists d',
      MemoryStore.devices c !! m = Some (to_millis d') /\ evolves d' d /\
      (m ∉ overtaken r \/ m ∈ SqliteStore.dirty (memory r) -> d' = d).
Proof.
  intros Hiter Hms Hrun (_ & Hh & _) Hfl Hopen Hperm cached.
  assert (steady r) as Hst by (eapply steady_moves; [apply steady_quiet | done | exact Hrun]).
  destruct (final_flush_table bind_error iter io r s n Hiter Hst Hfl) as (_ & Hp & _ & _).
  destruct (load_persistent row_error _ rows t Hp Hperm) as (c & Hload & Hc).
  assert (forall m d, cached !! m = Some d -> exists d',
    MemoryStore.devices c !! m = Some (to_millis d') /\ evolves d' d /\
    (m ∉ overtaken r \/ m ∈ SqliteStore.dirty (memory r) -> d' = d)) as Hall.
  { intros m d Hd.
    destruct (final_flush_rows bind_error iter io r s n m d Hiter Hst Hh Hfl Hd) as (d' & row & Hr & Hm & He & Hcur).
    exists d'. split; [|done]. apply Hc. by exists d', row. }
  exists c. split; [by eapply opens_loads|]. split; [|exact Hall].
  apply set_eq. intros m. rewrite !elem_of_dom. split.
  - intros [e (d' & row & Hr & _ & ->)%Hc].
    destruct (row_of_some_cached _ _ _ Hp Hr) as (d & Hd & _). by exists d.
  - intros [d Hd]. destruct (Hall m d Hd) as (d' & Hd' & _). by eexists.
Qed.

(** * Witnesses *)

#[local] Existing Instances ref_mac_text ref_mac_laws std_ip_text std_ip_laws ref_chrono ref_chrono_laws
  ref_serde_json ref_serde_json_laws wire_pnet wire_pnet_laws demo_oui queue_mpsc.

(** A frame from two unknown addresses, of which the first is upserted while
    a flush is between its row and its mark; then the final flush. *)
Definition demo_frame_moves (secs : Z) : list move :=
  [TakeFrame demo_packet (demo_clock_at secs); WriteCache; MarkDirty; WriteCache; MarkDirty].
Definition demo_race : list move :=
  demo_frame_moves 1 ++
  [TakeSnapshot [demo_src]; TakeFrame demo_packet (demo_clock_at 2); FlushStep None; WriteCache;
   MarkDirty; FlushStep None; FlushStep None; WriteCache; MarkDirty; FlushStep None].
Definition demo_plain : list move :=
  demo_frame_moves 1 ++ [TakeSnapshot [demo_src]; FlushStep (Some "disk full")] ++ demo_frame_moves 2.
Definition demo_ran (ms : list move) : running :=
  match make_moves (quiet fresh_store demo_tx Idle ∅) ms with
  | Some r => r
  | None => quiet fresh_store demo_tx Idle ∅
  end.
Definition demo_saved (ms : list move) : SqliteStore.t :=
  (SqliteStore.flush "out of range" elements (fun _ => None) (memory (demo_ran ms))).1.
Definition demo_open_rows (rows : list DeviceRow.t) : SqliteStore.open_io :=
  SqliteStore.mkOpenIo (Ok tt) (Ok tt) (Ok tt) (fun _ => Ok tt) (Ok tt) (Ok rows).

Lemma demo_moves_ok secs : 0 <= secs <= 10 -> Forall move_ok (demo_frame_moves secs).
Proof.
  intros Hs. apply Forall_cons. split; [|repeat (apply Forall_cons; split; [exact I|]); apply Forall_nil; exact I].
  split.
  - repeat (apply Forall_cons; split; [unfold in_u8, u8_max; lia|]); apply Forall_nil; exact I.
  - unfold clock_ok, chrono_range, demo_clock_at, from_secs, ns_per_s. simpl.
    unfold from_secs, ns_per_s. lia.
Qed.

Lemma daemon_inventory_survives_restart_witness :
  let rows := (map_to_list (SqliteStore.conn (demo_saved demo_plain))).*2 in
  exists c, SqliteStore.open "bad row" "edgeshield.db" 0 (demo_open_rows rows)
      (SqliteStore.conn (demo_saved demo_plain)) =
      Ok (Some (SqliteStore.mk c ∅ (SqliteStore.conn (demo_saved demo_plain)) false)) /\
    dom (MemoryStore.devices c) =
      dom (MemoryStore.devices (SqliteStore.cache (memory (demo_ran demo_plain)))) /\
    overtaken (demo_ran demo_plain) = ∅.
Proof.
  intros rows.
  destruct (daemon_inventory_survives_restart "out of range" "bad row" elements demo_tx demo_plain
    (demo_ran demo_plain) (fun _ => None) (demo_saved demo_plain) 2 "edgeshield.db" 0
    (demo_open_rows rows) rows) as (c & Hopen & Hdom & _).
  - reflexivity.
  - apply Forall_app. split; [apply demo_moves_ok; lia|].
    do 2 (apply Forall_cons; split; [exact I|]). apply demo_moves_ok. lia.
  - vm_compute. reflexivity.
  - vm_compute. split_and!; reflexivity.
  - vm_compute. reflexivity.
  - split_and!; reflexivity.
  - reflexivity.
  - exists c. split; [exact Hopen|]. split; [exact Hdom | vm_compute; reflexivity].
Defined.

(** The exception is real: after [demo_race] and a final flush that succeeds,
    the row of the source counts one packet of its two. *)
Lemma overtaken_update_lost :
  bool_decide (demo_src ∈ overtaken (demo_ran demo_race)) = true /\
  bool_decide (demo_src ∈ SqliteStore.dirty (memory (demo_ran demo_race))) = false /\
  Device.packet_count <$> MemoryStore.devices (SqliteStore.cache (demo_saved demo_race)) !! demo_src = Some 2 /\
  DeviceRow.packet_count <$> SqliteStore.conn (demo_saved demo_race) !! mac_to_string demo_src = Some 1.
Proof. split_and!; vm_compute; reflexivity. Qed.
