(* ===== verification/System.v ===== *)
(** The tasks of the daemon together: the pipeline, the offline scanner, the
    rule engine and the API's acknowledgments, over the shared device and
    alert stores and the bounded event channel of [run]
    ([crates/daemon/src/daemon.rs]).  A turn is one iteration of one task;
    any interleaving of turns is a run. *)

From S2P Require Import Prelude Text Types Reference Packet Classify Dhcp Mdns Oui Stores Discovery.
From S2P Require Import Json Sqlite HistorySqlite Config Alerts Rules Daemon.

(** The receiving end of a channel: first in, first out. *)
Class MpscRecv (A : Type) `{!Mpsc A} : Type := {
  try_recv : chan A -> option (A * chan A)
}.
Class MpscRecvLaws (A : Type) `{!Mpsc A, !MpscLaws A, !MpscRecv A} : Prop := {
  try_recv_spec c :
    match try_recv c with
    | None => queued c = []
    | Some (a, c') => queued c = a :: queued c' /\ capacity c' = capacity c
    end
}.

Section System.
Context {S A : Type} {PN : Pnet} {OU : Oui} {DS : DeviceStore S} {MP : Mpsc DiscoveryEvent}.
Context {MR : MpscRecv DiscoveryEvent} {AS : AlertStore A} {MT : MacText}.

(** The engine (its store and the channel), the rule engine (its rules and the
    alert store), and the alerts handed to the notifiers so far. *)
Record system : Type := mkSystem {
  pipeline : engine S;
  ruling : rule_engine A;
  handed_on : list Alert.t
}.

Inductive turn : Type :=
| Frame (buf : PacketBuf) (c : Clock)          (** the pipeline task *)
| Scan (now : Timestamp)                       (** the offline scanner *)
| Evaluate (clk : nat -> RuleClock)            (** the rule engine *)
| Acknowledge (i : AlertId).                   (** a request of the API *)

Definition system_turn (s : system) (t : turn) : exec system :=
  match t with
  | Frame buf c =>
      run! e := process_packet (pipeline s) buf c in Done (mkSystem e (ruling s) (handed_on s))
  | Scan now => Done (mkSystem (scan_turn (pipeline s) now) (ruling s) (handed_on s))
  | Evaluate clk =>
      match try_recv (event_tx (pipeline s)) with
      | None => Done s
      | Some (ev, c) =>
          let '(en, sent, _) := process_event (ruling s) ev clk in
          Done (mkSystem (mkEngine (store (pipeline s)) c) en (handed_on s ++ sent))
      end
  | Acknowledge i =>
      Done (mkSystem (pipeline s)
              (mkRuleEngine (rules (ruling s)) (as_acknowledge (alert_store (ruling s)) i).1)
              (handed_on s))
  end.

Fixpoint system_turns (s : system) (ts : list turn) : exec system :=
  match ts with
  | [] => Done s
  | t :: ts' => run! s' := system_turn s t in system_turns s' ts'
  end.
End System.
Arguments system S A {_}.

(** * Specification *)

Section Specification.
Context {S A : Type} {PN : Pnet} {OU : Oui} {DS : DeviceStore S} {MP : Mpsc DiscoveryEvent}.
Context {MR : MpscRecv DiscoveryEvent} {AS : AlertStore A} {MT : MacText}.
Context {DSL : DeviceStoreLaws S} {MPL : MpscLaws DiscoveryEvent} {ASL : AlertStoreLaws A}.

(** The addresses of the discoveries among these events. *)
Definition discovered_mac (ev : DiscoveryEvent) : option MacAddress :=
  match ev with DeviceDiscovered d => Some (Device.mac d) | _ => None end.
Definition discovered (evs : list DiscoveryEvent) : list MacAddress := omap discovered_mac evs.

Definition inventory (s : system S A) : gmap MacAddress Device.t := ds_map (store (pipeline s)).
Definition events_of (s : system S A) : list DiscoveryEvent := queued (event_tx (pipeline s)).
Definition alerts_of (s : system S A) : gmap AlertId Alert.t := as_map (alert_store (ruling s)).

(** The alert the default rule raises. *)
Definition discovery_alert (d : Device.t) (clk : nat -> RuleClock) : Alert.t :=
  Alert.new "new_device" Info NewDevice d (build_message "new_device" d NewDevice) (wall (clk 0%nat)).

(** Nothing goes wrong at a turn: the frame is a byte string and the channel
    has room for its events; the alert store can take another alert; the
    acknowledged identifier is a [u64]. *)
Definition smooth (s : system S A) (t : turn) : Prop :=
  match t with
  | Frame buf _ =>
      bytes_ok (raw buf) /\
      (length (events_of s) + 2 <= capacity (event_tx (pipeline s)))%nat
  | Scan _ => True
  | Evaluate clk =>
      as_can_insert (alert_store (ruling s)) /\
      forall d, DeviceDiscovered d ∈ events_of s -> as_ok (discovery_alert d clk)
  | Acknowledge i => in_u64 i
  end.
Fixpoint smooth_run (s : system S A) (ts : list turn) : Prop :=
  match ts with
  | [] => True
  | t :: ts' => smooth s t /\ forall s', system_turn s t = Done s' -> smooth_run s' ts'
  end.

(** A daemon that just started, without rules of its own: the inventory may
    come from a database, and so may alerts, about devices of it. *)
Definition starting (s : system S A) : Prop :=
  keyed (inventory s) /\ events_of s = [] /\ handed_on s = [] /\ rules (ruling s) = [default_rule] /\
  as_inv (alert_store (ruling s)) /\
  forall i x, alerts_of s !! i = Some x -> Alert.rule_name x = "new_device" ->
    Alert.mac x ∈ dom (inventory s).

(** An event of a run from [s0] is about a device of the inventory; a
    discovery is about an address unknown at the start, and a device said to
    be offline had been silent for more than a minute at some scan. *)
Definition event_sound (s0 : system S A) (ts : list turn) (m : gmap MacAddress Device.t)
  (ev : DiscoveryEvent) : Prop :=
  Device.mac (event_device ev) ∈ dom m /\
  match ev with
  | DeviceDiscovered d => Device.mac d ∉ dom (inventory s0)
  | DeviceUpdated _ => True
  | DeviceOffline d => exists now, Scan now ∈ ts /\ from_secs 61 <= now - Device.last_seen d
  end.
(** An alert is of an enabled rule whose condition the event meets, and shows
    the device of the event. *)
Definition alert_sound (s0 : system S A) (ts : list turn) (m : gmap MacAddress Device.t)
  (a : Alert.t) : Prop :=
  exists ev r, event_sound s0 ts m ev /\ r ∈ rules (ruling s0) /\ considered ev r = true /\
    Alert.rule_name a = Rule.name r /\ Alert.event_type a = event_alert_type ev /\
    Alert.mac a = Device.mac (event_device ev) /\ Alert.device_snapshot a = event_device ev.
Definition sound_so_far (s0 : system S A) (ts : list turn) (s : system S A) : Prop :=
  keyed (inventory s) /\ dom (inventory s0) ⊆ dom (inventory s) /\
  Forall (event_sound s0 ts (inventory s)) (events_of s) /\
  Forall2 same_rule (rules (ruling s0)) (rules (ruling s)) /\
  exists since, handed_on s = handed_on s0 ++ since /\ Forall (alert_sound s0 ts (inventory s)) since.

(** What every run from [s0] keeps. *)
Definition on_track (s0 s : system S A) : Prop :=
  keyed (inventory s) /\ dom (inventory s0) ⊆ dom (inventory s) /\
  Forall octets_ok (discovered (events_of s)) /\
  discovered (events_of s) ++ (Alert.mac <$> handed_on s) ≡ₚ
    elements (dom (inventory s) ∖ dom (inventory s0)) /\
  rules (ruling s) = [default_rule] /\ as_inv (alert_store (ruling s)) /\
  (forall i x, alerts_of s !! i = Some x -> Alert.rule_name x = "new_device" ->
     Alert.mac x ∈ dom (inventory s0) \/ Alert.mac x ∈ Alert.mac <$> handed_on s) /\
  Forall (fun a => exists x, alerts_of s !! Alert.id a = Some x /\ Alert.rule_name x = "new_device" /\
                     Alert.mac x = Alert.mac a) (handed_on s).
End Specification.

(** * Lemmas *)

Section SystemFacts.
Context {S A : Type} {PN : Pnet} {PNL : PnetLaws} {OU : Oui} {DS : DeviceStore S}.
Context {MP : Mpsc DiscoveryEvent} {MR : MpscRecv DiscoveryEvent} {AS : AlertStore A} {MT : MacText}.
Context {DSL : DeviceStoreLaws S} {MPL : MpscLaws DiscoveryEvent} {MRL : MpscRecvLaws DiscoveryEvent}.
Context {ASL : AlertStoreLaws A}.

Lemma discovered_app l k : discovered (l ++ k) = discovered l ++ discovered k.
Proof. apply omap_app. Qed.

(** ** Frames *)

Lemma dom_updated m packet p n c :
  dom (updated_map m packet p n c) = {[src_of packet; dst_of packet]} ∪ dom m.
Proof.
  unfold updated_map. case_bool_decide as E; rewrite ?dom_insert_L; [|set_solver].
  rewrite E. set_solver.
Qed.

Lemma discovered_offered m k t touch changed :
  keyed m -> keeps_mac touch ->
  discovered (option_list (offered m k t touch changed)) = if decide (k ∈ dom m) then [] else [k].
Proof.
  intros Hk Ht. unfold offered, known_or_fresh. destruct (m !! k) as [d|] eqn:E.
  - rewrite decide_True by by apply elem_of_dom. by destruct (changed d (touch d)).
  - rewrite decide_False by by apply not_elem_of_dom. cbn. by rewrite Ht, fresh_device_mac.
Qed.

(** The discoveries of a frame are the addresses it adds. *)
Lemma discovered_frame m packet p n c (known : gset MacAddress) :
  keyed m -> known ⊆ dom m ->
  elements (dom (updated_map m packet p n c) ∖ known) ≡ₚ
    discovered (offered_events m packet p n c) ++ elements (dom m ∖ known).
Proof.
  intros Hk Hs. rewrite dom_updated. unfold offered_events. rewrite discovered_app.
  rewrite (discovered_offered m (src_of packet)) by (done || apply touch_src_mac).
  assert (forall k (X : gset MacAddress), k ∉ X -> elements ({[k]} ∪ X) ≡ₚ k :: elements X) as Hadd
    by (intros; by apply elements_union_singleton).
  case_bool_decide as E.
  - rewrite E. cbn. rewrite app_nil_r. destruct (decide (dst_of packet ∈ dom m)) as [Hd|Hd]; cbn.
    + f_equiv. set_solver.
    + rewrite <- Hadd by set_solver. f_equiv. set_solver.
  - rewrite (discovered_offered m (dst_of packet)) by (done || apply touch_dst_mac).
    destruct (decide (src_of packet ∈ dom m)), (decide (dst_of packet ∈ dom m)); cbn.
    + f_equiv. set_solver.
    + rewrite <- Hadd by set_solver. f_equiv. set_solver.
    + rewrite <- Hadd by set_solver. f_equiv. set_solver.
    + rewrite <- !Hadd by set_solver. f_equiv. set_solver.
Qed.

Lemma updated_map_keyed m packet p n c : keyed m -> keyed (updated_map m packet p n c).
Proof.
  intros Hk. unfold updated_map.
  pose proof (keyed_update m (src_of packet) (new_src c) _ Hk (touch_src_mac packet p n (now c))) as H1.
  case_bool_decide as E; [done|].
  pose proof (keyed_update _ (dst_of packet) (new_dst c) _ H1 (touch_dst_mac packet p (now c))) as H2.
  by rewrite known_or_fresh_ne in H2.
Qed.

Lemma on_track_frame s0 s s' buf c :
  on_track s0 s -> smooth s (Frame buf c) -> system_turn s (Frame buf c) = Done s' -> on_track s0 s'.
Proof.
  intros (Hk & Hd & Ho & Hp & Hr & Hi & Ha & Hs) [Hb Hroom]. cbn [system_turn].
  destruct (process_packet (pipeline s) buf c) as [e'| |] eqn:E; try done. intros [= <-].
  apply process_packet_Done in E as [(err & _ & ->)|(packet & p & n & Hdec & _ & _ & Hm & Htx)]; [done| |done].
  destruct (decoded_ok buf packet Hb Hdec) as (Hos & Hod & _).
  pose proof (length_offered_events (inventory s) packet p n c) as Hlen.
  assert (events_of (mkSystem e' (ruling s) (handed_on s)) =
    events_of s ++ offered_events (inventory s) packet p n c) as Hev.
  { unfold events_of. cbn [pipeline]. rewrite Htx. apply send_all_room. unfold events_of in Hroom. lia. }
  assert (inventory (mkSystem e' (ruling s) (handed_on s)) = updated_map (inventory s) packet p n c)
    as Hinv by exact Hm.
  assert (dom (inventory s) ⊆ dom (updated_map (inventory s) packet p n c)) as Hgrow
    by (rewrite dom_updated; set_solver).
  unfold on_track. rewrite Hev, Hinv, discovered_app. split_and!; try done.
  - apply updated_map_keyed; done.
  - set_solver.
  - apply Forall_app. split; [done|]. unfold offered_events. rewrite discovered_app.
    apply Forall_app. split.
    + rewrite discovered_offered by (done || apply touch_src_mac). case_decide; [apply Forall_nil_2 | by apply Forall_singleton].
    + case_bool_decide; [constructor|].
      rewrite discovered_offered by (done || apply touch_dst_mac). case_decide; [apply Forall_nil_2 | by apply Forall_singleton].
  - rewrite discovered_frame, <- Hp by done. rewrite !app_assoc. f_equiv; [apply Permutation_app_comm | done].
Qed.

(** ** The scanner *)

Lemma discovered_offline (c : chan DiscoveryEvent) (l : list Device.t) :
  discovered (queued (send_all c (DeviceOffline <$> l))) = discovered (queued c).
Proof.
  revert c. induction l as [|d l IH]; intros c; [done|].
  change (send_all c (DeviceOffline <$> d :: l)) with
    (send_all (try_send c (DeviceOffline d)).1 (DeviceOffline <$> l)). rewrite IH.
  destruct (try_send_queued c (DeviceOffline d)) as [->| ->]; [done|].
  rewrite discovered_app. cbn. by rewrite app_nil_r.
Qed.

Lemma on_track_scan s0 s t : on_track s0 s -> on_track s0 (mkSystem (scan_turn (pipeline s) t) (ruling s) (handed_on s)).
Proof.
  unfold on_track, inventory, events_of, alerts_of, scan_turn. cbn [pipeline ruling handed_on].
  destruct (ds_list (store (pipeline s))) as [l|]; [|done].
  destruct (emit_all (pipeline s) (List.filter (silent_too_long t) l)) as [-> ->].
  by rewrite discovered_offline.
Qed.

(** ** The rule engine *)

(** The default rule on an event: nothing but for a discovery; there an alert,
    unless one of its kind was acknowledged for the address. *)
Lemma default_other ev (s : A) clk :
  discovered_mac ev = None ->
  process_event (mkRuleEngine [default_rule] s) ev clk = (mkRuleEngine [default_rule] s, [], Ok tt).
Proof. by destruct ev. Qed.

Lemma default_discovery d (s : A) clk :
  as_inv s -> as_can_insert s -> octets_ok (Device.mac d) -> as_ok (discovery_alert d clk) ->
  (forall i x, as_map s !! i = Some x -> Alert.rule_name x = "new_device" -> Alert.mac x <> Device.mac d) ->
  exists s' i, process_event (mkRuleEngine [default_rule] s) (DeviceDiscovered d) clk =
      (mkRuleEngine [default_rule] s', [Alert.set_id i (discovery_alert d clk)], Ok tt) /\
    as_map s !! i = None /\ as_inv s' /\
    as_map s' = <[i := as_stored (Alert.set_id i (discovery_alert d clk))]> (as_map s).
Proof.
  intros Hi Hc Hm Ho Hnone. unfold process_event, evaluate_rules, evaluate_rule. cbn.
  destruct (as_is_acknowledged_spec s "new_device" (Device.mac d) Hi Hm) as (b & -> & Hb).
  destruct b.
  { exfalso. destruct (proj1 Hb eq_refl) as (i & x & Hx & Hack). unfold acknowledged_for in Hack.
    apply andb_true_iff in Hack as [[_ Hn%String.eqb_eq]%andb_true_iff Hmac%bool_decide_eq_true].
    by eapply Hnone. }
  destruct (as_insert_spec s (discovery_alert d clk) Hi Hc Ho) as (i & Hr & Hf & _ & _ & Hmap & Hinv).
  unfold discovery_alert in *. destruct (as_insert s _) as [s' r]. cbn in Hr, Hmap, Hinv. subst r.
  exists s', i. done.
Qed.

Lemma on_track_evaluate s0 s s' clk :
  on_track s0 s -> smooth s (Evaluate clk) -> system_turn s (Evaluate clk) = Done s' -> on_track s0 s'.
Proof.
  intros H [Hins Hok]. cbn [system_turn]. pose proof (try_recv_spec (event_tx (pipeline s))) as Hrecv.
  destruct (try_recv (event_tx (pipeline s))) as [[ev c]|]; [|by intros [= <-]].
  destruct Hrecv as [Hq _]. destruct H as (Hk & Hd & Ho & Hp & Hr & Hi & Ha & Hs).
  assert (events_of s = ev :: queued c) as Hev by exact Hq. rewrite Hev in Ho, Hp, Hok.
  destruct s as [e [rs al] sent]. cbn [ruling rules alert_store pipeline handed_on] in *. subst rs.
  destruct (discovered_mac ev) as [m|] eqn:Em.
  - destruct ev as [d| |]; try done. injection Em as Em.
    cbn [discovered omap list_omap discovered_mac] in Ho, Hp.
    apply Forall_cons in Ho as [Hod Ho]. cbn in Hp.
    assert (NoDup (Device.mac d :: discovered (queued c) ++ (Alert.mac <$> sent))) as Hnd.
    { unfold discovered. rewrite Hp. apply NoDup_elements. }
    assert (Device.mac d ∈ dom (inventory (mkSystem e (mkRuleEngine [default_rule] al) sent)) ∖
              dom (inventory s0)) as Hnew.
    { apply elem_of_elements. rewrite <- Hp. by left. }
    apply NoDup_cons in Hnd as [Hfresh _].
    destruct (default_discovery d al clk Hi Hins Hod) as (s1 & i & Hproc & Hnone & Hi1 & Hmap).
    { apply Hok. by left. }
    { intros j x Hx Hn Hm. destruct (Ha j x Hx Hn) as [Hin|Hin]; rewrite Hm in Hin; [set_solver|].
      apply Hfresh, elem_of_app. by right. }
    rewrite Hproc. intros [= <-]. destruct (as_stored_fields (Alert.set_id i (discovery_alert d clk)))
      as (Fn & Fm & _ & _).
    unfold on_track, inventory, events_of, alerts_of. cbn [pipeline store event_tx ruling rules alert_store handed_on].
    split_and!; try done.
    + rewrite fmap_app. cbn. unfold inventory in Hp. cbn in Hp. rewrite <- Hp.
      rewrite app_assoc. symmetry. apply Permutation_cons_append.
    + intros j x. rewrite Hmap, fmap_app. destruct (decide (i = j)) as [<-|Hne].
      * rewrite lookup_insert_eq. intros [= <-] _. right. apply elem_of_app. right. cbn.
        rewrite Fm. by left.
      * rewrite lookup_insert_ne by done. intros Hx Hn. destruct (Ha j x Hx Hn); [by left|].
        right. apply elem_of_app. by left.
    + apply Forall_app. split.
      * eapply Forall_impl; [exact Hs|]. intros a (x & Hx & Hn & Hm). exists x. rewrite Hmap.
        rewrite lookup_insert_ne; [done|]. intros ->. unfold alerts_of in Hx. cbn in Hx. congruence.
      * apply Forall_singleton. exists (as_stored (Alert.set_id i (discovery_alert d clk))).
        rewrite Hmap. cbn. rewrite lookup_insert_eq. by rewrite Fn, Fm.
  - rewrite default_other by done. intros [= <-]. unfold on_track, inventory, events_of, alerts_of in *.
    cbn [pipeline store event_tx ruling rules alert_store handed_on] in *.
    rewrite app_nil_r. unfold discovered in Ho, Hp |- *. cbn in Ho, Hp. rewrite Em in Ho, Hp. done.
Qed.

(** ** Acknowledgments *)

Lemma on_track_acknowledge s0 s i :
  on_track s0 s -> in_u64 i ->
  on_track s0 (mkSystem (pipeline s)
    (mkRuleEngine (rules (ruling s)) (as_acknowledge (alert_store (ruling s)) i).1) (handed_on s)).
Proof.
  intros (Hk & Hd & Ho & Hp & Hr & Hi & Ha & Hs) Hb.
  destruct (as_acknowledge_spec (alert_store (ruling s)) i Hi Hb) as [Hi' Hm].
  unfold on_track, inventory, events_of, alerts_of in *. cbn [pipeline ruling rules alert_store handed_on].
  assert (forall j x, as_map (as_acknowledge (alert_store (ruling s)) i).1 !! j = Some x ->
    exists y, as_map (alert_store (ruling s)) !! j = Some y /\ Alert.rule_name x = Alert.rule_name y /\
      Alert.mac x = Alert.mac y) as Hback.
  { intros j x. destruct (as_map (alert_store (ruling s)) !! i) as [y|] eqn:E; destruct Hm as [_ ->]; [|eauto].
    destruct (decide (i = j)) as [<-|]; [|rewrite lookup_insert_ne by done; eauto].
    rewrite lookup_insert_eq. intros [= <-]. eauto. }
  assert (forall j x, as_map (alert_store (ruling s)) !! j = Some x ->
    exists y, as_map (as_acknowledge (alert_store (ruling s)) i).1 !! j = Some y /\
      Alert.rule_name y = Alert.rule_name x /\ Alert.mac y = Alert.mac x) as Hforth.
  { intros j x Hx. destruct (as_map (alert_store (ruling s)) !! i) as [y|] eqn:E; destruct Hm as [_ ->]; [|eauto].
    destruct (decide (i = j)) as [<-|]; [|rewrite lookup_insert_ne by done; eauto].
    rewrite lookup_insert_eq. rewrite E in Hx. injection Hx as <-. eauto. }
  split_and!; try done.
  - intros j x (y & Hy & Hn & Hmac)%Hback Hx. rewrite Hn in Hx. rewrite Hmac. by eapply Ha.
  - eapply Forall_impl; [exact Hs|]. intros a (x & Hx & Hn & Hmac). cbn in Hx.
    destruct (Hforth _ _ Hx) as (y & Hy & Hn' & Hm'). exists y. by rewrite Hn', Hm'.
Qed.

(** ** Runs *)

Lemma system_turns_cons (s s1 : system S A) t ts :
  system_turn s t = Done s1 -> system_turns s (t :: ts) = system_turns s1 ts.
Proof. intros H. cbn [system_turns]. by rewrite H. Qed.

Lemma system_turns_snoc (s s1 : system S A) ts t :
  system_turns s ts = Done s1 -> system_turns s (ts ++ [t]) = system_turn s1 t.
Proof.
  revert s. induction ts as [|t' ts IH]; intros s; cbn [system_turns app].
  - intros [= ->]. by destruct (system_turn s1 t).
  - destruct (system_turn s t') as [s2| |]; try done. apply IH.
Qed.

Lemma system_turns_stuck (s : system S A) ts t :
  (forall s1, system_turns s ts <> Done s1) -> forall s2, system_turns s (ts ++ [t]) <> Done s2.
Proof.
  revert s. induction ts as [|t' ts IH]; intros s H s2; cbn [system_turns app] in *.
  - by destruct (H s).
  - destruct (system_turn s t') as [s1| |]; try done. by apply IH.
Qed.

Lemma on_track_start s : starting s -> on_track s s.
Proof.
  intros (Hk & He & Hh & Hr & Hi & Ha). unfold on_track. rewrite He, Hh.
  assert (elements (dom (inventory s) ∖ dom (inventory s)) = []) as Hd
    by (rewrite difference_diag_L; apply elements_empty).
  split_and!; try done; [by rewrite Hd|]. intros i x Hx Hn. left. by eapply Ha.
Qed.

(** Evaluations empty the channel, one event each, and leave the inventory. *)
Lemma evaluations_drain (s : system S A) clks :
  length clks = length (events_of s) ->
  exists s', system_turns s (Evaluate <$> clks) = Done s' /\ events_of s' = [] /\
    inventory s' = inventory s.
Proof.
  revert s. induction clks as [|clk clks IH]; intros s Hl.
  { exists s. split_and!; try done. by destruct (events_of s). }
  cbn [fmap list_fmap]. unfold events_of in Hl. pose proof (try_recv_spec (event_tx (pipeline s))) as Hrecv.
  destruct (try_recv (event_tx (pipeline s))) as [[ev c]|] eqn:Er; [|by rewrite Hrecv in Hl].
  destruct Hrecv as [Hq _]. destruct (process_event (ruling s) ev clk) as [[en sent] res] eqn:Ep.
  rewrite (system_turns_cons s (mkSystem (mkEngine (store (pipeline s)) c) en (handed_on s ++ sent)))
    by (cbn [system_turn]; by rewrite Er, Ep).
  destruct (IH (mkSystem (mkEngine (store (pipeline s)) c) en (handed_on s ++ sent))) as (s' & ? & ? & ?).
  { unfold events_of. cbn. rewrite Hq in Hl. by injection Hl. }
  by exists s'.
Qed.

Lemma on_track_run s0 s s' ts :
  on_track s0 s -> smooth_run s ts -> system_turns s ts = Done s' -> on_track s0 s'.
Proof.
  revert s. induction ts as [|t ts IH]; intros s H; cbn [smooth_run system_turns]; [by intros _ [= <-]|].
  intros [Ht Hts]. destruct (system_turn s t) as [s1| |] eqn:E; try done. cbn. apply IH; [|by apply Hts].
  destruct t as [buf c|t|clk|i].
  - by eapply on_track_frame.
  - injection E as <-. by apply on_track_scan.
  - by eapply on_track_evaluate.
  - injection E as <-. by apply on_track_acknowledge.
Qed.

(** ** What is queued and handed on is true *)

Lemma send_all_app (c : chan DiscoveryEvent) l k : send_all c (l ++ k) = send_all (send_all c l) k.
Proof. apply foldl_app. Qed.

Lemma send_all_from (c : chan DiscoveryEvent) evs ev :
  ev ∈ queued (send_all c evs) -> ev ∈ queued c \/ ev ∈ evs.
Proof.
  revert c. induction evs as [|e evs IH]; intros c; [by left|].
  change (send_all c (e :: evs)) with (send_all (try_send c e).1 evs). intros [H|H]%IH; [|right; by right].
  destruct (try_send_queued c e) as [Hq|Hq]; rewrite Hq in H; [by left|].
  apply elem_of_app in H as [H|H]; [by left|]. apply list_elem_of_singleton in H as ->. right. by left.
Qed.

Lemma event_sound_mono (s0 : system S A) ts ts' m m' ev :
  ts ⊆ ts' -> dom m ⊆ dom m' -> event_sound s0 ts m ev -> event_sound s0 ts' m' ev.
Proof.
  intros Ht Hm [Hd He]. split; [set_solver|]. destruct ev as [d|d|d]; try done.
  destruct He as (now & Hn & Hs). exists now. split; [by apply Ht | done].
Qed.

Lemma sound_mono (s0 : system S A) ts ts' m m' (P := alert_sound s0) evs alerts :
  ts ⊆ ts' -> dom m ⊆ dom m' ->
  Forall (event_sound s0 ts m) evs /\ Forall (P ts m) alerts ->
  Forall (event_sound s0 ts' m') evs /\ Forall (P ts' m') alerts.
Proof.
  intros Ht Hm [He Ha]. split; eapply Forall_impl; try done.
  - intros ev. by apply event_sound_mono.
  - intros a (ev & r & Hev & Hr). exists ev, r. split; [by eapply event_sound_mono | done].
Qed.

Lemma frame_events_sound (s0 s : system S A) ts e' buf c :
  keyed (inventory s) -> dom (inventory s0) ⊆ dom (inventory s) ->
  process_packet (pipeline s) buf c = Done e' ->
  keyed (ds_map (store e')) /\ dom (inventory s) ⊆ dom (ds_map (store e')) /\
  forall ev, ev ∈ queued (event_tx e') -> ev ∈ events_of s \/ event_sound s0 ts (ds_map (store e')) ev.
Proof.
  intros Hk Hd E. apply process_packet_Done in E as [(err & _ & ->)|(packet & p & n & _ & _ & _ & Hm & Htx)];
    [split_and!; [done..|by left] | |done].
  rewrite Hm, Htx. split; [by apply updated_map_keyed|]. split; [rewrite dom_updated; set_solver|].
  intros ev [H|H]%send_all_from; [by left | right].
  apply offered_events_cases in H as (k & d' & Hl & Hmac & Hc); [|done]. apply elem_of_dom_2 in Hl.
  destruct Hc as [[Hn ->]|(d & _ & -> & _)]; split; simpl; try (by rewrite Hmac); [|done].
  rewrite Hmac. apply not_elem_of_dom in Hn. unfold inventory in Hd. set_solver.
Qed.

Lemma scan_events_sound (s0 s : system S A) ts now ev :
  keyed (inventory s) -> Scan now ∈ ts ->
  ev ∈ queued (event_tx (scan_turn (pipeline s) now)) -> ev ∈ events_of s \/ event_sound s0 ts (inventory s) ev.
Proof.
  intros Hk Ht. unfold scan_turn. destruct (ds_list_spec (store (pipeline s))) as (l & -> & Hp & _).
  destruct (emit_all (pipeline s) (List.filter (silent_too_long now) l)) as [_ ->].
  intros [H|H]%send_all_from; [by left | right]. apply list_elem_of_fmap in H as (d & -> & Hd).
  apply list_elem_of_In, filter_In in Hd as [Hd Hs]. apply list_elem_of_In in Hd.
  rewrite Hp in Hd. apply list_elem_of_fmap in Hd as ([k d'] & -> & Hd). apply elem_of_map_to_list in Hd.
  split; simpl.
  - rewrite (Hk _ _ Hd). by eapply elem_of_dom_2.
  - exists now. split; [done | by apply silent_too_long_iff].
Qed.

Lemma evaluate_alerts_sound (s0 s : system S A) ts ev clk en sent res :
  Forall2 same_rule (rules (ruling s0)) (rules (ruling s)) -> event_sound s0 ts (inventory s) ev ->
  process_event (ruling s) ev clk = (en, sent, res) ->
  Forall2 same_rule (rules (ruling s0)) (rules en) /\ Forall (alert_sound s0 ts (inventory s)) sent.
Proof.
  intros Hr Hev Hp. apply process_event_spec in Hp as (Hl & Hf & _ & Hall & _). split.
  - apply Forall2_same_length_lookup. split; [rewrite Hl; by eapply Forall2_length|].
    intros k r0 r' H0 H'. destruct (Forall2_lookup_l _ _ _ _ _ Hr H0) as (r & Hk & Hs).
    destruct (Hf _ _ _ Hk H') as [Hs' _]. unfold same_rule in *. intuition congruence.
  - apply Forall_forall. intros a Ha. destruct (Hall a Ha) as (Hm & (Hty & Hsn) & k & r & r' & Hk & _ & Hn & Hc & _).
    destruct (Forall2_lookup_r _ _ _ _ _ Hr Hk) as (r0 & H0 & Hs). exists ev, r0.
    split_and!; try done; [by eapply list_elem_of_lookup_2 | |].
    + unfold considered in *. destruct Hs as (_ & <- & <- & _). done.
    + destruct Hs as (<- & _). done.
Qed.

Lemma sound_step (s0 s s' : system S A) ts t :
  sound_so_far s0 ts s -> system_turn s t = Done s' -> sound_so_far s0 (ts ++ [t]) s'.
Proof.
  intros (Hk & Hd & He & Hr & since & Hh & Ha). unfold sound_so_far.
  assert (ts ⊆ ts ++ [t]) as Hts by (intros x Hx; apply elem_of_app; by left).
  destruct t as [buf c|now|clk|i]; cbn [system_turn].
  - destruct (process_packet (pipeline s) buf c) as [e'| |] eqn:E; try done. intros [= <-].
    destruct (frame_events_sound s0 s (ts ++ [Frame buf c]) e' buf c Hk Hd E) as (Hk' & Hd' & Hev).
    destruct (sound_mono s0 ts (ts ++ [Frame buf c]) (inventory s) (ds_map (store e')) _ since Hts Hd' (conj He Ha))
      as [He' Ha'].
    split_and!; [done | by etrans | | done | by exists since].
    apply Forall_forall. intros ev [H|H]%Hev; [|done]. by apply (proj1 (Forall_forall _ _) He').
  - intros [= <-].
    destruct (sound_mono s0 ts (ts ++ [Scan now]) (inventory s) (inventory s) _ since Hts ltac:(done) (conj He Ha))
      as [He' Ha'].
    assert (inventory (mkSystem (scan_turn (pipeline s) now) (ruling s) (handed_on s)) = inventory s) as Hi.
    { unfold inventory. cbn. by rewrite scan_keeps_store. }
    rewrite Hi. split_and!; [done.. | | done | by exists since].
    apply Forall_forall. intros ev H. apply (scan_events_sound s0 s (ts ++ [Scan now])) in H as [H|H];
      [by apply (proj1 (Forall_forall _ _) He') | done | done | apply elem_of_app; right; by left].
  - destruct (sound_mono s0 ts (ts ++ [Evaluate clk]) (inventory s) (inventory s) _ since Hts ltac:(done) (conj He Ha))
      as [He' Ha'].
    pose proof (try_recv_spec (event_tx (pipeline s))) as Hrecv. unfold events_of in He'.
    destruct (try_recv (event_tx (pipeline s))) as [[ev c]|]; [|intros [= <-]; by split_and!; [..|exists since]].
    destruct Hrecv as [Hq _]. rewrite Hq in He'. apply Forall_cons in He' as [Hev He'].
    destruct (process_event (ruling s) ev clk) as [[en sent] res] eqn:Ep.
    destruct (evaluate_alerts_sound s0 s _ ev clk en sent res Hr Hev Ep) as [Hr' Hs]. intros [= <-].
    split_and!; try done. exists (since ++ sent). cbn. rewrite Hh, <- app_assoc. split; [done|].
    apply Forall_app. by split.
  - intros [= <-].
    destruct (sound_mono s0 ts (ts ++ [Acknowledge i]) (inventory s) (inventory s) _ since Hts ltac:(done) (conj He Ha))
      as [He' Ha'].
    split_and!; try done. by exists since.
Qed.

Lemma sound_run (s0 s : system S A) ts :
  keyed (inventory s0) -> events_of s0 = [] -> system_turns s0 ts = Done s -> sound_so_far s0 ts s.
Proof.
  intros Hk He. revert s. induction ts as [|t ts IH] using rev_ind; intros s.
  - intros [= <-]. split_and!; [done..| | |].
    + rewrite He. constructor.
    + apply Forall2_same_length_lookup. split; [done|]. intros k r r' H1 H2. rewrite H1 in H2. by injection H2 as <-.
    + exists []. by rewrite app_nil_r.
  - intros H. destruct (system_turns s0 ts) as [s1| |] eqn:E.
    + rewrite (system_turns_snoc _ _ _ _ E) in H. eapply sound_step; [by apply IH | exact H].
    + destruct (system_turns_stuck s0 ts t) with s; [by rewrite E | done].
    + destruct (system_turns_stuck s0 ts t) with s; [by rewrite E | done].
Qed.
End SystemFacts.

(** * Properties *)

(** C5: every new device is reported exactly once.  On a daemon without rules
    of its own (its only rule is the default one for new devices), over any interleaving of frames, scans, evaluations and
    acknowledgments in which the event channel never overflows and the
    alert store takes what it is given: the devices the inventory gained
    are, each once, those whose discovery is still queued and those of the
    alerts handed to the notifiers; every such alert is in the alert store
    under its identifier, and nobody's acknowledgment of another alert can
    suppress one.  As many evaluations as there are queued events empty the
    queue, and then the alerts are exactly the new devices. *)
Theorem new_devices_reported_once {S A : Type} {PN : Pnet} {PNL : PnetLaws} {OU : Oui}
  {DS : DeviceStore S} {MP : Mpsc DiscoveryEvent} {MR : MpscRecv DiscoveryEvent} {AS : AlertStore A}
  {MT : MacText} {DSL : DeviceStoreLaws S} {MPL : MpscLaws DiscoveryEvent}
  {MRL : MpscRecvLaws DiscoveryEvent} {ASL : AlertStoreLaws A}
  (s0 s : system S A) (ts : list turn) :
  starting s0 -> smooth_run s0 ts -> system_turns s0 ts = Done s ->
  discovered (events_of s) ++ (Alert.mac <$> handed_on s) ≡ₚ
    elements (dom (inventory s) ∖ dom (inventory s0)) /\
  Forall (fun a => exists x, alerts_of s !! Alert.id a = Some x /\ Alert.rule_name x = "new_device" /\
                     Alert.mac x = Alert.mac a) (handed_on s) /\
  (forall clks, length clks = length (events_of s) -> smooth_run s (Evaluate <$> clks) ->
     exists s', system_turns s (Evaluate <$> clks) = Done s' /\ inventory s' = inventory s /\
       Alert.mac <$> handed_on s' ≡ₚ elements (dom (inventory s) ∖ dom (inventory s0))).
Proof.
  intros H0%on_track_start Hs Hr. pose proof (on_track_run _ _ _ _ H0 Hs Hr) as H.
  pose proof H as (_ & _ & _ & Hp & _ & _ & _ & Ha). split_and!; [done..|]. intros clks Hl Hsm.
  destruct (evaluations_drain s clks Hl) as (s' & Hr' & He & Hi). exists s'. split_and!; [done..|].
  destruct (on_track_run _ _ _ _ H Hsm Hr') as (_ & _ & _ & Hp' & _).
  by rewrite He, Hi in Hp'.
Qed.

(** C7: no false alarms.  With any rules, any interleaving of the tasks, a
    full event channel and a failing alert store included: every alert handed
    on is of an enabled rule of the configuration whose condition its event
    meets, and shows a device of the inventory; an alert for a new device is
    about an address that was unknown when the daemon started, and one for a
    device that went offline about a device that some scan found silent for
    more than a minute. *)
Theorem no_false_alarms {S A : Type} {PN : Pnet} {PNL : PnetLaws} {OU : Oui}
  {DS : DeviceStore S} {MP : Mpsc DiscoveryEvent} {MR : MpscRecv DiscoveryEvent} {AS : AlertStore A}
  {MT : MacText} {DSL : DeviceStoreLaws S} {MPL : MpscLaws DiscoveryEvent}
  {MRL : MpscRecvLaws DiscoveryEvent}
  (s0 s : system S A) (ts : list turn) :
  keyed (inventory s0) -> events_of s0 = [] -> system_turns s0 ts = Done s ->
  exists since, handed_on s = handed_on s0 ++ since /\
    forall a, a ∈ since ->
      Alert.mac a ∈ dom (inventory s) /\ Alert.mac a = Device.mac (Alert.device_snapshot a) /\
      (exists ev r, r ∈ rules (ruling s0) /\ Rule.enabled r = true /\
         condition_matches (Rule.condition r) ev = true /\ Alert.rule_name a = Rule.name r /\
         Alert.event_type a = event_alert_type ev /\ Alert.device_snapshot a = event_device ev) /\
      (Alert.event_type a = NewDevice -> Alert.mac a ∉ dom (inventory s0)) /\
      (Alert.event_type a = Types.DeviceOffline ->
         exists now, Scan now ∈ ts /\ from_secs 61 <= now - Device.last_seen (Alert.device_snapshot a)).
Proof.
  intros Hk He (_ & _ & _ & _ & since & Hh & Ha)%sound_run; [|done..]. exists since. split; [done|].
  intros a Hin. apply (proj1 (Forall_forall _ _) Ha) in Hin as (ev & r & [Hd Hev] & Hr & Hc & Hn & Hty & Hm & Hsn).
  apply andb_prop in Hc as [Hen Hc]. rewrite Hm, Hsn, Hty.
  split_and!; [done..|by exists ev, r| |]; by destruct ev.
Qed.

(** * Witnesses *)

Definition queue_recv (A : Type) : @MpscRecv A (queue_mpsc A) :=
  @Build_MpscRecv A (queue_mpsc A)
    (fun c : list A * nat => match c.1 with [] => None | a :: l => Some (a, (l, c.2)) end).
Definition queue_recv_laws (A : Type)
  : @MpscRecvLaws A (queue_mpsc A) (queue_mpsc_laws A) (queue_recv A).
Proof. split. intros [[|a l] n]; by simpl. Qed.

#[local] Existing Instances ref_mac_text wire_pnet wire_pnet_laws demo_oui queue_mpsc queue_mpsc_laws
  queue_recv queue_recv_laws.

(** A frame between two unknown addresses; the rule engine takes one of the
    two discoveries. *)
Definition demo_idle : system MemoryStore.t InMemoryAlertStore.t :=
  mkSystem (mkEngine MemoryStore.new demo_tx) (mkRuleEngine [default_rule] InMemoryAlertStore.new) [].
Definition after (s : system MemoryStore.t InMemoryAlertStore.t) (t : turn)
  : system MemoryStore.t InMemoryAlertStore.t :=
  match system_turn s t with Done s' => s' | _ => s end.
Definition demo_frame : turn := Frame demo_packet (demo_clock_at 1).
Definition demo_evaluation : turn := Evaluate (demo_clock 2).

Definition demo_first : system MemoryStore.t InMemoryAlertStore.t := after demo_idle demo_frame.
Definition demo_second : system MemoryStore.t InMemoryAlertStore.t := after demo_first demo_evaluation.

Lemma demo_first_step : system_turn demo_idle demo_frame = Done demo_first.
Proof. vm_compute. reflexivity. Qed.
Lemma demo_second_step : system_turn demo_first demo_evaluation = Done demo_second.
Proof. vm_compute. reflexivity. Qed.
Lemma demo_handed_on : Alert.mac <$> handed_on demo_second = [demo_src].
Proof. vm_compute. reflexivity. Qed.

Lemma demo_starting : starting demo_idle.
Proof.
  split_and!; try reflexivity; [|split; [split; vm_compute; discriminate|]|].
  - intros k d Hd. change ((∅ : gmap MacAddress Device.t) !! k = Some d) in Hd.
    rewrite lookup_empty in Hd. discriminate Hd.
  - intros k d Hd. change ((∅ : gmap AlertId Alert.t) !! k = Some d) in Hd.
    rewrite lookup_empty in Hd. discriminate Hd.
  - intros i x Hx. change ((∅ : gmap AlertId Alert.t) !! i = Some x) in Hx.
    rewrite lookup_empty in Hx. discriminate Hx.
Qed.

Lemma demo_smooth : smooth_run demo_idle [demo_frame; demo_evaluation].
Proof.
  cbn [smooth_run]. split.
  { split; [|vm_compute; lia].
    repeat (apply Forall_cons; split; [unfold in_u8, u8_max; lia|]); apply Forall_nil; exact I. }
  intros s' Hs'. rewrite demo_first_step in Hs'. injection Hs' as <-. split; [|by intros].
  split; [vm_compute; reflexivity | by intros].
Qed.

Lemma demo_run : system_turns demo_idle [demo_frame; demo_evaluation] = Done demo_second.
Proof.
  rewrite (system_turns_cons _ _ _ _ demo_first_step).
  exact (system_turns_cons _ _ _ [] demo_second_step).
Qed.

Lemma new_devices_reported_once_witness :
  discovered (events_of demo_second) ++ (Alert.mac <$> handed_on demo_second) ≡ₚ
    elements (dom (inventory demo_second) ∖ dom (inventory demo_idle)) /\
  Alert.mac <$> handed_on demo_second = [demo_src].
Proof.
  split; [|exact demo_handed_on].
  exact (proj1 (new_devices_reported_once demo_idle demo_second [demo_frame; demo_evaluation]
    demo_starting demo_smooth demo_run)).
Defined.

Lemma no_false_alarms_witness :
  exists since, handed_on demo_second = handed_on demo_idle ++ since /\
    forall a, a ∈ since -> Alert.mac a ∈ dom (inventory demo_second) /\
      (Alert.event_type a = NewDevice -> Alert.mac a ∉ dom (inventory demo_idle)).
Proof.
  destruct (no_false_alarms demo_idle demo_second [demo_frame; demo_evaluation] (proj1 demo_starting)
    (proj1 (proj2 demo_starting)) demo_run) as (since & Hh & Ha).
  exists since. refine (conj Hh _). intros a Hin. destruct (Ha a Hin) as (H1 & _ & _ & H4 & _).
  exact (conj H1 H4).
Defined.
