(* ===== verification/Api.v ===== *)
(** The REST API: the handlers of [crates/api/src/routes.rs], the audit
    middleware of [crates/api/src/audit.rs] and the stack of
    [crates/api/src/api.rs] (audit outside, authentication inside, handlers
    within), over any device store, alert store and history store that keep
    their contracts.

    Axum picks the handler: a request is the endpoint it matched with its
    path and query parameters.  The bodies are JSON values or text. *)

From S2P Require Import Prelude Text Types Reference Net Json Stores Sqlite HistorySqlite Config.
From S2P Require Import Alerts Packet Classify Dhcp Mdns Oui Discovery Rules Auth.

(** * Requests and responses *)

Inductive Endpoint : Type :=
| Health
| ListDevices
| GetDevice (mac : string)
| GetDeviceHistory (mac : string) (params : gmap string string)
| Metrics
| MetricsPrometheus
| ListAlerts (params : gmap string string)
| GetAlert (id : string)
| AcknowledgeAlert (id : string)
| DeleteAlert (id : string).
#[global] Instance Endpoint_eq_dec : EqDecision Endpoint.
Proof. solve_decision. Defined.

Definition endpoint_method (e : Endpoint) : string :=
  match e with AcknowledgeAlert _ => "POST" | DeleteAlert _ => "DELETE" | _ => "GET" end.
Definition endpoint_path (e : Endpoint) : string :=
  match e with
  | Health => "/health"
  | ListDevices => "/devices"
  | GetDevice mac => "/devices/" +:+ mac
  | GetDeviceHistory mac _ => "/devices/" +:+ mac +:+ "/history"
  | Metrics => "/metrics"
  | MetricsPrometheus => "/metrics/prometheus"
  | ListAlerts _ => "/alerts"
  | GetAlert id => "/alerts/" +:+ id
  | AcknowledgeAlert id => "/alerts/" +:+ id +:+ "/acknowledge"
  | DeleteAlert id => "/alerts/" +:+ id
  end.

Inductive Body : Type := JsonBody (j : json) | TextBody (s : string) | NoBody.
Record Response : Type := mkResponse { status : Z; body : Body }.

(** [(StatusCode, String)] errors. *)
Definition BAD_REQUEST (s : string) : Response := mkResponse 400 (TextBody s).
Definition NOT_FOUND (s : string) : Response := mkResponse 404 (TextBody s).
Definition INTERNAL_SERVER_ERROR (s : string) : Response := mkResponse 500 (TextBody s).
Definition NOT_IMPLEMENTED (s : string) : Response := mkResponse 501 (TextBody s).
Definition NO_CONTENT : Response := mkResponse 204 NoBody.
Definition ok_json (j : json) : Response := mkResponse 200 (JsonBody j).

(** [mac.replace(':', "")]. *)
Definition remove_colons (s : string) : string := replace_char ":" "" s.

(** [hex::encode], and the text of [serde_json]'s error for a map key that is
    not a string. *)
Class ApiText : Type := { hex_encode : list Z -> string; json_key_error : string }.

(** [hex] reads the pairs of digits that [mac_address] prints. *)
Class MacHexLaws {MT : MacText} {CR : Crypto} : Prop := {
  hex_decode_mac m : octets_ok m ->
    hex_decode (remove_colons (mac_to_string m)) =
      Some [mac0 m; mac1 m; mac2 m; mac3 m; mac4 m; mac5 m]
}.

(** * Handlers *)

(** The filter of [GET /alerts]; what does not parse does not filter. *)
Definition filter_of_params (params : gmap string string) : AlertFilter.t :=
  AlertFilter.mk
    (params !! "severity" ≫= (fun sev => result_ok (severity_from_str sev)))
    (params !! "acknowledged" ≫= (fun ack =>
       if String.eqb ack "true" then Some true
       else if String.eqb ack "false" then Some false else None))
    (params !! "rule")
    (params !! "limit" ≫= (fun limit => Z.to_nat <$> parse_uint u64_max limit)).

(** The [limit] of the history, 90 by default. *)
Definition history_limit (params : gmap string string) : option nat :=
  match params !! "limit" ≫= parse_uint u64_max with
  | Some l => Some (Z.to_nat l)
  | None => Some 90%nat
  end.

Section Handlers.
Context {S A H : Type} {DS : DeviceStore S} {AS : AlertStore A} {HS : DeviceHistoryStore H}.
Context {MT : MacText} {IT : IpText} {CH : Chrono} {CR : Crypto} {AT : ApiText}.
Variables (version : string) (overflow_checks : bool).

Definition health : Response :=
  ok_json (JObj [("status", JStr "ok"); ("version", JStr version)]).

Definition list_devices (s : S) : Response :=
  match ds_list s with
  | Ok devices => ok_json (JArr (device_to_json <$> devices))
  | Err _ => INTERNAL_SERVER_ERROR "failed to list devices"
  end.

(** The address of the path: hexadecimal digits, colons ignored. *)
Definition path_mac (mac : string) : result MacAddress Response :=
  match hex_decode (remove_colons mac) with
  | None => Err (BAD_REQUEST ("invalid MAC address: " +:+ mac))
  | Some bytes =>
      match mac_of_bytes bytes with
      | None => Err (BAD_REQUEST ("invalid MAC address length: " +:+ mac))
      | Some m => Ok m
      end
  end.

Definition get_device (s : S) (mac : string) : Response :=
  match path_mac mac with
  | Err r => r
  | Ok m =>
      match ds_get s m with
      | Ok (Some device) => ok_json (device_to_json device)
      | Ok None => NOT_FOUND ("device not found: " +:+ mac_to_string m)
      | Err _ => INTERNAL_SERVER_ERROR "failed to get device"
      end
  end.

(** The derived [Serialize] of [DeviceHistorySnapshot]; its statistics have
    no custom form: they are a map with protocol keys, which [serde_json]
    only prints for the unit variants. *)
Definition history_stats_to_json (stats : gmap Protocol Z) : option json :=
  JObj <$> mapM (fun e : Protocol * Z =>
    match protocol_to_json e.1 with JStr k => Some (k, JNum e.2) | _ => None end) (stats_entries stats).
Definition snapshot_to_json (x : Snapshot.t) : option json :=
  stats ← history_stats_to_json (Snapshot.protocol_stats x);
  Some (JObj [("mac", mac_to_json (Snapshot.mac x));
        ("snapshot_date", JStr (Snapshot.snapshot_date x));
        ("snapshot_timestamp", timestamp_to_json (Snapshot.snapshot_timestamp x));
        ("ips", JArr (ip_to_json <$> sorted_elements ip_le (Snapshot.ips x)));
        ("hostname", option_to_json (Snapshot.hostname x));
        ("vendor", option_to_json (Snapshot.vendor x));
        ("dhcp_vendor_class", option_to_json (Snapshot.dhcp_vendor_class x));
        ("packet_count", JNum (Snapshot.packet_count x));
        ("bytes_sent", JNum (Snapshot.bytes_sent x));
        ("bytes_received", JNum (Snapshot.bytes_received x));
        ("protocols", JArr (protocol_to_json <$> sorted_elements protocol_le (Snapshot.protocols x)));
        ("protocol_stats", stats);
        ("first_seen", timestamp_to_json (Snapshot.first_seen x));
        ("last_seen", timestamp_to_json (Snapshot.last_seen x))]).

Definition history_response (l : list Snapshot.t) : Response :=
  match mapM snapshot_to_json l with
  | Some js => ok_json (JArr js)
  | None => INTERNAL_SERVER_ERROR json_key_error
  end.

Definition get_device_history (history_store : option H) (mac : string) (params : gmap string string)
  : Response :=
  match history_store with
  | None =>
      NOT_IMPLEMENTED
        "device history is not enabled (set database_path and history_snapshot_hours > 0)"
  | Some h =>
      match path_mac mac with
      | Err r => r
      | Ok m =>
          match hs_list h m (params !! "from") (params !! "to") (history_limit params) with
          | Ok snapshots => history_response snapshots
          | Err _ => INTERNAL_SERVER_ERROR "failed to list device history"
          end
      end
  end.

(** The totals of the two metrics handlers: unchecked [u64] sums. *)
Definition totals (devices : list Device.t) : exec (Z * Z) :=
  run! packets := sum_u64 overflow_checks (Device.packet_count <$> devices) in
  run! bytes := foldl (fun acc d =>
      run! a := acc in
      run! b := add_u64 overflow_checks (Device.bytes_sent d) (Device.bytes_received d) in
      add_u64 overflow_checks a b) (Done 0) devices in
  Done (packets, bytes).

Definition metrics (s : S) (uptime_seconds : Z) : exec Response :=
  match ds_list s with
  | Err _ => Done (INTERNAL_SERVER_ERROR "failed to compute metrics")
  | Ok devices =>
      run! t := totals devices in
      Done (ok_json (JObj [("total_devices", JNum (Z.of_nat (length devices)));
        ("total_packets", JNum t.1); ("total_bytes", JNum t.2); ("uptime_seconds", JNum uptime_seconds)]))
  end.

(** The lines of one metric of the text exposition format. *)
Definition prometheus_metric (name help kind : string) (value : Z) : string :=
  "# HELP " +:+ name +:+ " " +:+ help +:+ nl +:+
  "# TYPE " +:+ name +:+ " " +:+ kind +:+ nl +:+
  name +:+ " " +:+ fmt_uint value +:+ nl.
Definition metrics_prometheus (s : S) (a : A) (uptime_seconds : Z) : exec Response :=
  match ds_list s with
  | Err _ => Done (INTERNAL_SERVER_ERROR "failed to compute metrics")
  | Ok devices =>
      run! t := totals devices in
      let total_alerts := match as_count a with Ok n => Z.of_nat n | Err _ => 0 end in
      Done (mkResponse 200 (TextBody
        (prometheus_metric "edgeshield_devices_total" "Total number of discovered devices." "gauge"
           (Z.of_nat (length devices)) +:+
         prometheus_metric "edgeshield_packets_total" "Total packets observed across all devices."
           "counter" t.1 +:+
         prometheus_metric "edgeshield_bytes_total" "Total bytes observed across all devices." "counter"
           t.2 +:+
         prometheus_metric "edgeshield_uptime_seconds" "Daemon uptime in seconds." "gauge" uptime_seconds +:+
         prometheus_metric "edgeshield_alerts_total" "Total alerts in the alert store." "gauge"
           total_alerts)))
  end.

Definition list_alerts (a : A) (params : gmap string string) : Response :=
  match as_list a (filter_of_params params) with
  | Ok alerts => ok_json (JArr (alert_to_json <$> alerts))
  | Err _ => INTERNAL_SERVER_ERROR "failed to list alerts"
  end.

(** [id.parse::<u64>()]. *)
Definition path_id (id : string) : result AlertId Response :=
  match parse_uint u64_max id with
  | Some n => Ok n
  | None => Err (BAD_REQUEST ("invalid alert id: " +:+ id))
  end.

Definition get_alert (a : A) (id : string) : Response :=
  match path_id id with
  | Err r => r
  | Ok n =>
      match as_get a n with
      | Ok (Some alert) => ok_json (alert_to_json alert)
      | Ok None => NOT_FOUND ("alert not found: " +:+ fmt_uint n)
      | Err _ => INTERNAL_SERVER_ERROR "failed to get alert"
      end
  end.

Definition acknowledge_alert (a : A) (id : string) : A * Response :=
  match path_id id with
  | Err r => (a, r)
  | Ok n =>
      match as_acknowledge a n with
      | (a', Ok _) => (a', NO_CONTENT)
      | (a', Err _) => (a', INTERNAL_SERVER_ERROR "failed to acknowledge alert")
      end
  end.

Definition delete_alert (a : A) (id : string) : A * Response :=
  match path_id id with
  | Err r => (a, r)
  | Ok n =>
      match as_delete a n with
      | (a', Ok _) => (a', NO_CONTENT)
      | (a', Err _) => (a', INTERNAL_SERVER_ERROR "failed to delete alert")
      end
  end.

(** * The stack *)

Record AuditEntry : Type := mkAuditEntry {
  timestamp : string; a_method : string; a_path : string; a_status : Z;
  key_prefix : option string; duration_ms : Z
}.

(** [AppState]; the audit log is the entries written, when it is open. *)
Record AppState : Type := mkAppState {
  store : S;
  alert_store : A;
  history_store : option H;
  auth : AuthState;
  audit_logger : option (list AuditEntry)
}.

(** What a request carries besides its endpoint, and the readings of the
    clock while it is served. *)
Record Incoming : Type := mkIncoming {
  endpoint : Endpoint;
  in_authorization : option string;
  in_forwarded_for : option string;
  in_connect_info : option IpAddr
}.
Record ApiClock : Type := mkApiClock {
  auth_clock : AuthClock; uptime : Z; elapsed_ms : Z; audit_time : Timestamp
}.

Definition request_of (r : Incoming) : Request :=
  mkRequest (endpoint_method (endpoint r)) (endpoint_path (endpoint r)) (in_authorization r)
    (in_forwarded_for r) (in_connect_info r).

(** The handler behind the middlewares; a panic in it drops the connection. *)
Definition handle (st : AppState) (e : Endpoint) (uptime : Z) : exec (AppState * Response) :=
  let keep (r : Response) : exec (AppState * Response) := Done (st, r) in
  let with_alerts (ar : A * Response) : exec (AppState * Response) :=
    Done (mkAppState (store st) ar.1 (history_store st) (auth st) (audit_logger st), ar.2) in
  match e with
  | Health => keep health
  | ListDevices => keep (list_devices (store st))
  | GetDevice mac => keep (get_device (store st) mac)
  | GetDeviceHistory mac params => keep (get_device_history (history_store st) mac params)
  | Metrics => run! r := metrics (store st) uptime in keep r
  | MetricsPrometheus => run! r := metrics_prometheus (store st) (alert_store st) uptime in keep r
  | ListAlerts params => keep (list_alerts (alert_store st) params)
  | GetAlert id => keep (get_alert (alert_store st) id)
  | AcknowledgeAlert id => with_alerts (acknowledge_alert (alert_store st) id)
  | DeleteAlert id => with_alerts (delete_alert (alert_store st) id)
  end.

(** The authentication layer around the handlers. *)
Definition authenticated (st : AppState) (r : Incoming) (c : ApiClock) : exec (AppState * Response) :=
  let (auth', outcome) := auth_middleware (auth st) (request_of r) (auth_clock c) in
  let st' := mkAppState (store st) (alert_store st) (history_store st) auth' (audit_logger st) in
  match outcome with
  | Next => handle st' (endpoint r) (uptime c)
  | Rejected code body => Done (st', mkResponse code (TextBody body))
  | Panicked => Panic
  end.

Definition key_hash_prefix (key : string) : string := hex_encode (take 2 (sha256 (as_bytes key))).
Definition audit_key_prefix (authorization : option string) : option string :=
  key_hash_prefix <$> (authorization ≫= (fun h =>
    match strip_prefix "Bearer " h with Some t => Some t | None => strip_prefix "bearer " h end)).

(** [audit_middleware] around both; the entry is written by a task of its
    own, here at once. *)
Definition serve_request (st : AppState) (r : Incoming) (c : ApiClock) : exec (AppState * Response) :=
  if String.eqb (endpoint_path (endpoint r)) "/health" then authenticated st r c
  else
    run! (st', resp) := authenticated st r c in
    let entry := mkAuditEntry (fmt_iso8601 (audit_time c)) (endpoint_method (endpoint r))
                   (endpoint_path (endpoint r)) (status resp) (audit_key_prefix (in_authorization r))
                   (elapsed_ms c) in
    Done (mkAppState (store st') (alert_store st') (history_store st') (auth st')
            ((fun log : list AuditEntry => log ++ [entry]) <$> audit_logger st'), resp).
End Handlers.
Arguments AppState S A H : clear implicits.

(** [emit_security_warnings]: what is logged at startup. *)
Inductive security_notice : Type := WarnOpenToNetwork | InfoOpenToLocal | WarnKeysInCleartext.
Definition is_loopback (bind_address : string) : bool :=
  String.eqb bind_address "127.0.0.1" || String.eqb bind_address "localhost".
Definition emit_security_warnings (c : Config.t) (auth : AuthState) : list security_notice :=
  let loopback := is_loopback (Config.api_bind_address c) in
  (if negb (is_enabled auth) && negb loopback then [WarnOpenToNetwork]
   else if negb (is_enabled auth) && loopback then [InfoOpenToLocal] else []) ++
  (if is_enabled auth && negb (from_option (fun _ => true) false (ApiConfig.tls (Config.api c)))
   then [WarnKeysInCleartext] else []).

(** * Specifications *)

Section Specs.
Context {S A H : Type} {DS : DeviceStore S} {AS : AlertStore A} {HS : DeviceHistoryStore H}.
Context {MT : MacText} {IT : IpText} {CH : Chrono} {CR : Crypto} {AT : ApiText}.
Variables (version : string) (overflow_checks : bool).

(** What a panic while a request is served leaves: only a failed attempt may
    have been noted, for the alert store is written last. *)
Definition unwound (st : AppState S A H) (r : Incoming) (c : ApiClock) : AppState S A H :=
  mkAppState (store st) (alert_store st) (history_store st)
    (auth_middleware (auth st) (request_of r) (auth_clock c)).1 (audit_logger st).

(** A connection after another: a request that panics gets no answer. *)
Fixpoint serve_all (st : AppState S A H) (rs : list (Incoming * ApiClock))
  : AppState S A H * list (option Response) :=
  match rs with
  | [] => (st, [])
  | (r, c) :: rs' =>
      match serve_request version overflow_checks st r c with
      | Done (st', resp) => let (st'', out) := serve_all st' rs' in (st'', Some resp :: out)
      | _ => let (st'', out) := serve_all (unwound st r c) rs' in (st'', None :: out)
      end
  end.

(** The entry a request with this answer is to leave in the audit log. *)
Definition entry_due (q : Incoming * ApiClock) (answer : option Response) : option AuditEntry :=
  match endpoint q.1, answer with
  | Health, _ | _, None => None
  | e, Some resp =>
      Some (mkAuditEntry (fmt_iso8601 (audit_time q.2)) (endpoint_method e) (endpoint_path e)
              (status resp) (audit_key_prefix (in_authorization q.1)) (elapsed_ms q.2))
  end.

(** A request that authentication lets through. *)
Definition admitted (st : AppState S A H) (r : Incoming) (c : ApiClock) : Prop :=
  is_enabled (auth st) = false \/
  (forall i, client_ip (request_of r) = Some i ->
     is_blocked (rate_limiter (auth st)) i (at_check (auth_clock c)) = false) /\
  exists token, extract_bearer_token (in_authorization r) = Ok token /\
    key_opens (auth st) (endpoint_method (endpoint r)) token.
End Specs.

(** A sum as the machine computes it. *)
Definition machine_sum (overflow_checks : bool) (n : Z) : exec Z :=
  if n <=? u64_max then Done n
  else if overflow_checks then Panic else Done (n mod (u64_max + 1)).
Definition sum_over (f : Device.t -> Z) (m : gmap MacAddress Device.t) : Z :=
  foldr Z.add 0 (f <$> (map_to_list m).*2).

Definition counters_ok (d : Device.t) : Prop :=
  in_u64 (Device.packet_count d) /\ in_u64 (Device.bytes_sent d) /\ in_u64 (Device.bytes_received d).

(** A text of whole lines. *)
Definition text_of_lines (lines : list string) : string := foldr (fun l t => l +:+ nl +:+ t) "" lines.

(** What a client sees of a served request: the answer and the stores. *)
Definition visible {S A H} (m : exec (AppState S A H * Response)) : exec (Response * S * A * option H) :=
  run! (st, resp) := m in Done (resp, store st, alert_store st, history_store st).

(** The keys [serde_json] cannot print. *)
Definition is_other (p : Protocol) : bool := match p with Other _ => true | _ => false end.

(** * Lemmas *)

Lemma mac_of_bytes_octets m : mac_of_bytes [mac0 m; mac1 m; mac2 m; mac3 m; mac4 m; mac5 m] = Some m.
Proof. by destruct m. Qed.

Lemma path_mac_display {MT : MacText} {CR : Crypto} {MH : MacHexLaws} m :
  octets_ok m -> path_mac (mac_to_string m) = Ok m.
Proof. intros Hm. unfold path_mac. by rewrite hex_decode_mac, mac_of_bytes_octets. Qed.

Lemma path_id_display i : in_u64 i -> path_id (fmt_uint i) = Ok i.
Proof. intros Hi. unfold path_id. rewrite parse_fmt_uint; [done | apply Hi | lia]. Qed.

Lemma path_health (e : Endpoint) : String.eqb (endpoint_path e) "/health" = match e with Health => true | _ => false end.
Proof. by destruct e. Qed.

Section Stack.
Context {S A H : Type} {DS : DeviceStore S} {AS : AlertStore A} {HS : DeviceHistoryStore H}.
Context {MT : MacText} {IT : IpText} {CH : Chrono} {CR : Crypto} {AT : ApiText}.
Variables (version : string) (overflow_checks : bool).
Implicit Types (st : AppState S A H).

(** Handlers only ever change the alert store. *)
Lemma handle_frame st e up st' resp :
  handle version overflow_checks st e up = Done (st', resp) ->
  store st' = store st /\ history_store st' = history_store st /\ auth st' = auth st /\
  audit_logger st' = audit_logger st /\
  (match e with AcknowledgeAlert _ | DeleteAlert _ => True | _ => alert_store st' = alert_store st end).
Proof.
  destruct e; simpl; try (by intros [= <- <-]).
  - destruct (metrics overflow_checks (store st) up); simpl; [by intros [= <- <-] | done..].
  - destruct (metrics_prometheus _ _ _ _); simpl; [by intros [= <- <-] | done..].
Qed.

Lemma authenticated_frame st r c st' resp :
  authenticated version overflow_checks st r c = Done (st', resp) ->
  store st' = store st /\ history_store st' = history_store st /\ audit_logger st' = audit_logger st.
Proof.
  unfold authenticated. destruct (auth_middleware _ _ _) as [a' []]; [|by intros [= <- <-] | done].
  intros Hh. apply handle_frame in Hh as (H1 & H2 & _ & H4 & _). by rewrite H1, H2, H4.
Qed.

(** The audit layer adds its entry and passes everything else on. *)
Lemma serve_request_Done st r c st' resp :
  serve_request version overflow_checks st r c = Done (st', resp) ->
  exists st1, authenticated version overflow_checks st r c = Done (st1, resp) /\
    store st' = store st1 /\ alert_store st' = alert_store st1 /\
    history_store st' = history_store st1 /\ auth st' = auth st1 /\
    audit_logger st' =
      (fun log => log ++ option_list (entry_due (r, c) (Some resp))) <$> audit_logger st1.
Proof.
  unfold serve_request. rewrite path_health.
  destruct (authenticated version overflow_checks st r c) as [[st1 resp1]| |] eqn:E;
    [|by destruct (endpoint r)..].
  destruct (endpoint r) eqn:Ee; simpl; unfold entry_due; simpl; rewrite Ee; simpl;
    intros [= <- <-]; exists st1; split_and!; try done.
  destruct (audit_logger st1) as [log|]; simpl; [|done]. by rewrite app_nil_r.
Qed.

Lemma serve_request_handled st r c res :
  authenticated version overflow_checks st r c = Done res ->
  exists st', serve_request version overflow_checks st r c = Done (st', res.2) /\
    alert_store st' = alert_store res.1 /\ store st' = store res.1.
Proof.
  intros E. unfold serve_request. rewrite E. destruct res as [st1 resp]. simpl.
  destruct (String.eqb _ _); eexists; split; (reflexivity || done).
Qed.

(** An admitted request goes to its handler, in the same state. *)
Lemma auth_middleware_admitted st r c :
  admitted st r c \/ endpoint r = Health ->
  auth_middleware (auth st) (request_of r) (auth_clock c) = (auth st, Next).
Proof.
  intros Had. unfold auth_middleware. simpl. rewrite path_health.
  destruct st as [s al h a log]. simpl.
  destruct (decide (endpoint r = Health)) as [->|Hne]; [done|].
  assert (match endpoint r with Health => true | _ => false end = false) as -> by (by destruct (endpoint r)).
  destruct Had as [Had|]; [|done]. unfold admitted in Had. simpl in Had.
  assert (exists p, (check a (endpoint_method (endpoint r)) (in_authorization r)
     (client_ip (request_of r)) (auth_clock c)).2 = Done (Ok p)) as [p Hp].
  { destruct (is_enabled a) eqn:He.
    - apply check_Ok; [done|]. destruct Had as [Had|Had]; [congruence | done].
    - exists PermAdmin. unfold check. by rewrite He. }
  pose proof (check_Ok_state _ _ _ _ _ _ Hp) as Hs.
  destruct (check _ _ _ _ _) as [a' res]. simpl in Hp, Hs. by subst.
Qed.

Lemma authenticated_admitted st r c :
  admitted st r c \/ endpoint r = Health ->
  authenticated version overflow_checks st r c =
    handle version overflow_checks st (endpoint r) (uptime c).
Proof. intros Had. unfold authenticated. rewrite auth_middleware_admitted by done. by destruct st. Qed.

Lemma unwound_admitted st r c : admitted st r c \/ endpoint r = Health -> unwound st r c = st.
Proof. intros Had. unfold unwound. rewrite auth_middleware_admitted by done. by destruct st. Qed.

(** The audit layer is invisible to the client. *)
Lemma visible_serve_request st r c :
  visible (serve_request version overflow_checks st r c) =
    visible (authenticated version overflow_checks st r c).
Proof.
  unfold serve_request. destruct (String.eqb _ _); [done|].
  by destruct (authenticated version overflow_checks st r c) as [[st1 resp]| |].
Qed.

Lemma authenticated_rejected st r c :
  is_enabled (auth st) = true -> ~ admitted st r c -> endpoint r <> Health ->
  (exists a' code text, authenticated version overflow_checks st r c =
    Done (mkAppState (store st) (alert_store st) (history_store st) a' (audit_logger st),
          mkResponse code (TextBody text)) /\ code ∈ [401; 403; 429]) \/
  (authenticated version overflow_checks st r c = Panic /\
   instant_max < at_failure (auth_clock c) + from_secs (block_seconds (rate_limiter (auth st)))).
Proof.
  intros He Had Hne. unfold authenticated, auth_middleware. simpl. rewrite path_health.
  assert (match endpoint r with Health => true | _ => false end = false) as -> by (by destruct (endpoint r)).
  pose proof (check_Ok (auth st) (endpoint_method (endpoint r)) (in_authorization r)
    (client_ip (request_of r)) (auth_clock c) He) as Hok.
  pose proof (check_rejects (auth st) (endpoint_method (endpoint r)) (in_authorization r)
    (client_ip (request_of r)) (auth_clock c) He) as Hrej.
  destruct (check _ _ _ _ _) as [a' [[p|e]| |]]; simpl in Hok, Hrej; [| |right; by destruct Hrej|by destruct Hrej].
  - destruct Had. right. apply Hok. eauto.
  - left. eexists _, _, _. split; [reflexivity|]. by apply status_code_rejects.
Qed.
End Stack.

(** ** The totals *)

Lemma foldr_add_nonneg (l : list Z) : Forall (fun z => 0 <= z) l -> 0 <= foldr Z.add 0 l.
Proof. induction 1; simpl; lia. Qed.

Lemma add_u64_machine oc a b : add_u64 oc a b = machine_sum oc (a + b).
Proof. done. Qed.

Lemma machine_sum_in oc n : n <= u64_max -> machine_sum oc n = Done n.
Proof. intros Hn. unfold machine_sum. by rewrite (proj2 (Z.leb_le _ _) Hn). Qed.
Lemma machine_sum_over n : u64_max < n -> machine_sum true n = Panic.
Proof. intros Hn. unfold machine_sum. by rewrite (proj2 (Z.leb_gt _ _) Hn). Qed.
Lemma machine_sum_release n : 0 <= n -> machine_sum false n = Done (n mod (u64_max + 1)).
Proof.
  intros Hn. unfold machine_sum. destruct (n <=? u64_max) eqn:E; bool_to_prop; [|done].
  rewrite Z.mod_small; [done | lia].
Qed.

(** Adding a partial sum and a non-negative number is the sum of both. *)
Lemma machine_sum_add oc a b :
  0 <= a -> 0 <= b -> (run! s := machine_sum oc a in add_u64 oc s b) = machine_sum oc (a + b).
Proof.
  intros Ha Hb. destruct oc.
  - destruct (Z.le_gt_cases a u64_max).
    + by rewrite machine_sum_in.
    + by rewrite !machine_sum_over by lia.
  - rewrite machine_sum_release by done. simpl. rewrite add_u64_machine.
    pose proof (Z.mod_pos_bound a (u64_max + 1)).
    rewrite !machine_sum_release by (unfold u64_max in *; lia).
    by rewrite Zplus_mod_idemp_l.
Qed.

Lemma machine_sum_add_r oc a b :
  0 <= a -> 0 <= b ->
  (run! x := machine_sum oc a in run! y := machine_sum oc b in add_u64 oc x y) = machine_sum oc (a + b).
Proof.
  intros Ha Hb. destruct oc.
  - destruct (Z.le_gt_cases a u64_max).
    + rewrite (machine_sum_in _ a) by done. simpl. destruct (Z.le_gt_cases b u64_max).
      * by rewrite (machine_sum_in _ b).
      * by rewrite !machine_sum_over by lia.
    + by rewrite (machine_sum_over a), (machine_sum_over (a + b)) by lia.
  - rewrite !machine_sum_release by lia. simpl. rewrite add_u64_machine.
    pose proof (Z.mod_pos_bound a (u64_max + 1)). pose proof (Z.mod_pos_bound b (u64_max + 1)).
    rewrite machine_sum_release by (unfold u64_max in *; lia). by rewrite <- Zplus_mod.
Qed.

Lemma sum_u64_machine oc l : Forall (fun z => 0 <= z) l -> sum_u64 oc l = machine_sum oc (foldr Z.add 0 l).
Proof.
  intros Hl. unfold sum_u64.
  enough (forall acc, 0 <= acc ->
    (run! s := machine_sum oc acc in sum_u64_from oc s l) = machine_sum oc (acc + foldr Z.add 0 l)) as H.
  { by apply (H 0). }
  induction Hl as [|z l Hz Hl IH]; intros acc Hacc; simpl.
  - rewrite Z.add_0_r. by destruct (machine_sum oc acc).
  - rewrite Z.add_assoc, <- IH by lia. rewrite <- machine_sum_add by done.
    by destruct (machine_sum oc acc).
Qed.

Lemma bytes_fold_machine oc ds a :
  Forall (fun d => in_u64 (Device.bytes_sent d) /\ in_u64 (Device.bytes_received d)) ds -> 0 <= a ->
  foldl (fun acc d =>
      run! a := acc in
      run! b := add_u64 oc (Device.bytes_sent d) (Device.bytes_received d) in
      add_u64 oc a b) (machine_sum oc a) ds =
    machine_sum oc (a + foldr Z.add 0 ((fun d => Device.bytes_sent d + Device.bytes_received d) <$> ds)).
Proof.
  intros Hds. revert a. induction Hds as [|d ds [Hs Hr] Hds IH]; intros a Ha.
  { by rewrite Z.add_0_r. }
  rewrite fmap_cons. cbn [foldl foldr]. unfold in_u64 in *.
  rewrite add_u64_machine, machine_sum_add_r, IH by lia.
  by rewrite <- (Z.add_assoc a).
Qed.

Lemma totals_machine oc ds :
  Forall counters_ok ds ->
  totals oc ds =
    run! p := machine_sum oc (foldr Z.add 0 (Device.packet_count <$> ds)) in
    run! b := machine_sum oc
                (foldr Z.add 0 ((fun d => Device.bytes_sent d + Device.bytes_received d) <$> ds)) in
    Done (p, b).
Proof.
  intros Hds. unfold totals. rewrite sum_u64_machine.
  2: { apply Forall_fmap. eapply Forall_impl; [exact Hds|]. intros d (Hp & _).
       unfold in_u64 in Hp. simpl. lia. }
  change (Done 0) with (machine_sum oc 0). rewrite bytes_fold_machine; [done | | done].
  eapply Forall_impl; [exact Hds|]. unfold counters_ok. naive_solver.
Qed.

Lemma foldr_add_perm (l k : list Z) : l ≡ₚ k -> foldr Z.add 0 l = foldr Z.add 0 k.
Proof. induction 1; simpl; lia. Qed.

(** The totals depend on the inventory only. *)
Lemma totals_of_map oc m ds :
  ds ≡ₚ (map_to_list m).*2 -> map_Forall (fun _ d => counters_ok d) m ->
  totals oc ds =
    run! p := machine_sum oc (sum_over Device.packet_count m) in
    run! b := machine_sum oc (sum_over (fun d => Device.bytes_sent d + Device.bytes_received d) m) in
    Done (p, b).
Proof.
  intros Hp Hm. unfold sum_over.
  rewrite totals_machine; [by rewrite !(foldr_add_perm _ _ (fmap_Permutation _ _ _ Hp))|].
  rewrite Hp. apply Forall_fmap, Forall_forall. intros [k d] Hd. apply elem_of_map_to_list in Hd.
  by apply Hm in Hd.
Qed.

(** ** History answers *)

Lemma protocol_to_json_key p :
  match protocol_to_json p with JStr _ => is_other p = false | _ => is_other p = true end.
Proof. by destruct p. Qed.

Lemma history_stats_to_json_None stats :
  history_stats_to_json stats = None <-> exists n, is_Some (stats !! Other n).
Proof.
  unfold history_stats_to_json. rewrite fmap_None, mapM_None.
  setoid_rewrite Exists_exists. setoid_rewrite stats_entries_perm.
  setoid_rewrite elem_of_map_to_list'. split.
  - intros ([p n] & Hp & He). simpl in *. pose proof (protocol_to_json_key p) as Hk.
    destruct (protocol_to_json p); try done; destruct p; try done; eauto.
  - intros (n & v & Hv). exists (Other n, v). by split.
Qed.

Lemma snapshot_to_json_None {MT : MacText} {IT : IpText} {CH : Chrono} x :
  snapshot_to_json x = None <-> exists n, is_Some (Snapshot.protocol_stats x !! Other n).
Proof.
  rewrite <- history_stats_to_json_None. unfold snapshot_to_json.
  by destruct (history_stats_to_json (Snapshot.protocol_stats x)).
Qed.

Lemma Forall2_in_l {A B} (P : A -> B -> Prop) l k :
  Forall2 P l k -> forall x, x ∈ l -> exists y, y ∈ k /\ P x y.
Proof.
  induction 1 as [|x y l k Hxy Hl IH]; intros z; [by intros ?%not_elem_of_nil|].
  rewrite elem_of_cons. intros [->|Hz]; [exists y; split; [left | done]|].
  destruct (IH z Hz) as (w & Hw & ?). exists w. split; [by right | done].
Qed.

Lemma sum_over_nonneg m :
  map_Forall (fun _ d => counters_ok d) m ->
  0 <= sum_over Device.packet_count m /\
  0 <= sum_over (fun d => Device.bytes_sent d + Device.bytes_received d) m.
Proof.
  intros Hm.
  assert (forall d, d ∈ (map_to_list m).*2 -> counters_ok d) as Hd.
  { intros d Hd. apply list_elem_of_fmap in Hd as ([k d'] & -> & Hd). apply elem_of_map_to_list in Hd. by apply Hm in Hd. }
  split; apply foldr_add_nonneg, Forall_fmap, Forall_forall; intros d Hin;
    apply Hd in Hin as (? & ? & ?); unfold in_u64 in *; simpl; lia.
Qed.

(** A stored acknowledgment keeps its rule from raising an alert. *)
Lemma evaluate_rule_silenced {MT : MacText} {A} {AS : AlertStore A} {AL : AlertStoreLaws A}
  rule e (s : A) clk i x :
  as_inv s -> octets_ok (Device.mac (event_device e)) -> as_map s !! i = Some x ->
  acknowledged_for (Rule.name rule) (Device.mac (event_device e)) x = true ->
  let '(rule', s', out) := evaluate_rule rule e s clk in
  out = Ok None /\ s' = s /\ same_rule rule rule'.
Proof.
  intros Hinv Ho Hx Hack. unfold evaluate_rule.
  destruct (negb (condition_matches _ e)); [done|].
  destruct (Rule.check_and_record_cooldown rule _ (instant clk)) as [rule' ok] eqn:Ec.
  apply cooldown_keeps in Ec as Hs. pose proof Hs as (Hn & _). destruct (negb ok); [done|].
  rewrite Hn.
  destruct (as_is_acknowledged_spec s (Rule.name rule) (Device.mac (event_device e)) Hinv Ho)
    as (b & -> & Hb).
  assert (b = true) as -> by (apply Hb; by exists i, x). done.
Qed.

(** * Properties *)

Section Properties.
Context {S A H : Type} {DS : DeviceStore S} {AS : AlertStore A} {HS : DeviceHistoryStore H}.
Context {MT : MacText} {IT : IpText} {CH : Chrono} {CR : Crypto} {AT : ApiText}.

(** C16: nothing of the API is served, and nothing changes, without a key.
    With authentication enabled, a request for anything but [/health] that
    shows no key opening its method, or whose client is blocked, is answered
    401, 403 or 429 with a text, and leaves the device, alert and history
    stores exactly as they were (or, when its failure starts a block that
    would end beyond the last [Instant], it panics and is not answered at
    all); a request that is let through gets exactly the answer of its
    handler and has exactly its effect. *)
Theorem api_serves_only_admitted (version : string) (oc : bool) (st : AppState S A H) (r : Incoming)
  (c : ApiClock) :
  is_enabled (auth st) = true -> endpoint r <> Health ->
  (admitted st r c ->
     visible (serve_request version oc st r c) = visible (handle version oc st (endpoint r) (uptime c))) /\
  (~ admitted st r c ->
     (exists code text,
       visible (serve_request version oc st r c) =
         Done (mkResponse code (TextBody text), store st, alert_store st, history_store st) /\
       code ∈ [401; 403; 429]) \/
     (serve_request version oc st r c = Panic /\
      instant_max < at_failure (auth_clock c) + from_secs (block_seconds (rate_limiter (auth st))))).
Proof.
  intros He Hne. split; intros Had.
  - rewrite visible_serve_request, authenticated_admitted; [done | by left].
  - destruct (authenticated_rejected version oc st r c He Had Hne) as [(a' & code & text & Ha & Hc)|[Ha Hc]].
    + left. exists code, text. by rewrite visible_serve_request, Ha.
    + right. split; [|done]. unfold serve_request. rewrite Ha. by destruct (String.eqb _ _).
Qed.

(** The audit log is complete.  Over any sequence of requests it gains,
    in order, exactly one entry for each answered request other than
    [/health], rejected or not, with the method, the path, the status that
    was answered and the fingerprint of the key that was shown. *)
Theorem audit_log_complete (version : string) (oc : bool) (st : AppState S A H)
  (rs : list (Incoming * ApiClock)) :
  let '(st', answers) := serve_all version oc st rs in
  length answers = length rs /\
  audit_logger st' =
    (fun log => log ++ omap (fun x => entry_due x.1 x.2) (zip rs answers)) <$> audit_logger st.
Proof.
  revert st. induction rs as [|[r c] rs IH]; intros st.
  { simpl. split; [done|]. destruct (audit_logger st) as [log|]; simpl; [by rewrite app_nil_r | done]. }
  cbn [serve_all]. destruct (serve_request version oc st r c) as [[st1 resp]| |] eqn:E.
  - specialize (IH st1). destruct (serve_all version oc st1 rs) as [st' answers].
    destruct IH as [Hl Ha]. split; [simpl; by rewrite Hl|]. rewrite Ha.
    destruct (serve_request_Done _ _ _ _ _ _ _ E) as (st2 & E2 & _ & _ & _ & _ & ->).
    destruct (authenticated_frame _ _ _ _ _ _ _ E2) as (_ & _ & ->).
    rewrite <- option_fmap_compose. apply option_fmap_ext. intros log. simpl.
    destruct (entry_due (r, c) (Some resp)); simpl; by rewrite <- ?app_assoc, ?app_nil_r.
  - specialize (IH (unwound st r c)). destruct (serve_all version oc (unwound st r c) rs) as [st' answers].
    destruct IH as [Hl Ha]. split; [simpl; by rewrite Hl|]. rewrite Ha.
    unfold entry_due at 2. simpl. by destruct (endpoint r).
  - specialize (IH (unwound st r c)). destruct (serve_all version oc (unwound st r c) rs) as [st' answers].
    destruct IH as [Hl Ha]. split; [simpl; by rewrite Hl|]. rewrite Ha.
    unfold entry_due at 2. simpl. by destruct (endpoint r).
Qed.

(** The inventory as the API shows it.  Asking for the text of an address
    gives the stored device (200) or nothing (404); what was last written to
    the store for an address is what a client reads back from the body, to
    the millisecond; a path that is not hexadecimal is a bad request; and
    the list holds every device once, in the order of the address text. *)
Theorem device_endpoints_exact {DL : DeviceStoreLaws S} {ML : MacTextLaws} {IL : IpTextLaws}
  {CL : ChronoLaws} {SJ : SerdeJson} {SL : SerdeJsonLaws} {MH : MacHexLaws}
  (s : S) (m : MacAddress) (d : Device.t) (bad : string) :
  octets_ok m -> representable d -> hex_decode (remove_colons bad) = None ->
  get_device s (mac_to_string m) =
    match ds_map s !! m with
    | Some x => ok_json (device_to_json x)
    | None => NOT_FOUND ("device not found: " +:+ mac_to_string m)
    end /\
  (exists j, get_device (ds_upsert s d).1 (mac_to_string (Device.mac d)) = ok_json j /\
     json_from_str (json_to_string j) ≫= device_from_json = Some (to_millis d)) /\
  status (get_device s bad) = 400 /\
  (exists l, list_devices s = ok_json (JArr (device_to_json <$> l)) /\
     l ≡ₚ (map_to_list (ds_map s)).*2 /\ StronglySorted mac_text_le l).
Proof.
  intros Hm Hd Hbad. pose proof Hd as (Hdm & _). split_and!.
  - unfold get_device. rewrite path_mac_display, ds_get_spec by done. by destruct (ds_map s !! m).
  - exists (device_to_json d). unfold get_device. rewrite path_mac_display, ds_get_spec by done.
    rewrite ds_upsert_map, lookup_insert_eq, json_from_to_string. split; [done|].
    by apply device_json_inverse.
  - unfold get_device, path_mac. by rewrite Hbad.
  - destruct (ds_list_spec s) as (l & Hl & Hp & Hs). exists l. unfold list_devices. by rewrite Hl.
Qed.

(** C32: an acknowledgment through the API silences the rule for the device,
    whatever alert store and whatever rule engine share it: after an
    admitted [POST /alerts/{id}/acknowledge] of a stored alert (204), no
    event about its device makes its rule raise or store an alert again;
    for an unknown identifier the answer is 500 and no alert changes. *)
Theorem acknowledge_request_silences {AL : AlertStoreLaws A} (version : string) (oc : bool)
  (st : AppState S A H) (r : Incoming) (c : ApiClock) (i : AlertId) :
  as_inv (alert_store st) -> admitted st r c -> in_u64 i ->
  endpoint r = AcknowledgeAlert (fmt_uint i) ->
  exists st' resp, serve_request version oc st r c = Done (st', resp) /\
    match as_map (alert_store st) !! i with
    | Some x => status resp = 204 /\
        forall rule e clk, Rule.name rule = Alert.rule_name x ->
          Device.mac (event_device e) = Alert.mac x -> octets_ok (Alert.mac x) ->
          let '(rule', s', out) := evaluate_rule rule e (alert_store st') clk in
          out = Ok None /\ s' = alert_store st' /\ same_rule rule rule'
    | None => status resp = 500 /\ as_map (alert_store st') = as_map (alert_store st)
    end.
Proof.
  intros Hinv Had Hi Hr.
  pose proof (authenticated_admitted version oc st r c (or_introl Had)) as Ha. rewrite Hr in Ha.
  simpl in Ha. unfold acknowledge_alert in Ha. rewrite path_id_display in Ha by done.
  destruct (as_acknowledge_spec (alert_store st) i Hinv Hi) as [Hinv' Hack].
  destruct (as_acknowledge (alert_store st) i) as [al res]. simpl in Hinv', Hack.
  destruct (as_map (alert_store st) !! i) as [x|] eqn:Ex.
  - destruct Hack as [-> Hmap]. destruct (serve_request_handled _ _ _ _ _ _ Ha) as (st' & E & Hs & _).
    exists st', NO_CONTENT. split; [done|]. split; [done|]. intros rule e clk Hn Hm Ho. rewrite Hs. simpl.
    apply (evaluate_rule_silenced rule e al clk i (Alert.set_acknowledged true x)); try done.
    + by rewrite Hm.
    + by rewrite Hmap, lookup_insert_eq.
    + unfold acknowledged_for. simpl. rewrite Hn, Hm, String.eqb_refl. by apply bool_decide_eq_true_2.
  - destruct Hack as [Herr Hmap]. destruct res as [|err]; [done|].
    destruct (serve_request_handled _ _ _ _ _ _ Ha) as (st' & E & Hs & _).
    eexists st', _. split; [exact E|]. split; [done|]. by rewrite Hs.
Qed.

(** C40: the metrics are the exact totals of the inventory, in both formats:
    the JSON object, and the fifteen lines of the Prometheus text, which
    also tell the number of stored alerts, 0 when they cannot be counted.
    This is so as long as the totals fit 64 bits; past that a checked build
    panics in both handlers, and a release build reports them modulo 2^64. *)
Theorem metrics_exact {DL : DeviceStoreLaws S} {AL : AlertStoreLaws A} (oc : bool) (s : S) (a : A)
  (up alerts : Z) :
  map_Forall (fun _ d => counters_ok d) (ds_map s) ->
  (as_inv a /\ alerts = Z.of_nat (size (as_map a))) \/ (is_ok (as_count a) = false /\ alerts = 0) ->
  let N := Z.of_nat (size (ds_map s)) in
  let P := sum_over Device.packet_count (ds_map s) in
  let B := sum_over (fun d => Device.bytes_sent d + Device.bytes_received d) (ds_map s) in
  let object p b := ok_json (JObj [("total_devices", JNum N); ("total_packets", JNum p);
    ("total_bytes", JNum b); ("uptime_seconds", JNum up)]) in
  let exposition p b := mkResponse 200 (TextBody (text_of_lines [
    "# HELP edgeshield_devices_total Total number of discovered devices.";
    "# TYPE edgeshield_devices_total gauge";
    "edgeshield_devices_total " +:+ fmt_uint N;
    "# HELP edgeshield_packets_total Total packets observed across all devices.";
    "# TYPE edgeshield_packets_total counter";
    "edgeshield_packets_total " +:+ fmt_uint p;
    "# HELP edgeshield_bytes_total Total bytes observed across all devices.";
    "# TYPE edgeshield_bytes_total counter";
    "edgeshield_bytes_total " +:+ fmt_uint b;
    "# HELP edgeshield_uptime_seconds Daemon uptime in seconds.";
    "# TYPE edgeshield_uptime_seconds gauge";
    "edgeshield_uptime_seconds " +:+ fmt_uint up;
    "# HELP edgeshield_alerts_total Total alerts in the alert store.";
    "# TYPE edgeshield_alerts_total gauge";
    "edgeshield_alerts_total " +:+ fmt_uint alerts])) in
  (P <= u64_max -> B <= u64_max ->
     metrics oc s up = Done (object P B) /\ metrics_prometheus oc s a up = Done (exposition P B)) /\
  (u64_max < P \/ u64_max < B ->
     metrics true s up = Panic /\ metrics_prometheus true s a up = Panic) /\
  metrics false s up = Done (object (P mod 2 ^ 64) (B mod 2 ^ 64)) /\
  metrics_prometheus false s a up = Done (exposition (P mod 2 ^ 64) (B mod 2 ^ 64)).
Proof.
  intros Hc Ha N P B object exposition. destruct (ds_list_spec s) as (l & Hl & Hp & _).
  assert (Z.of_nat (length l) = N) as Hlen
    by (by unfold N; rewrite (Permutation_length Hp), length_fmap, length_map_to_list).
  assert (match as_count a with Ok n => Z.of_nat n | Err _ => 0 end = alerts) as Hcount.
  { destruct Ha as [[Hi ->]|[He ->]]; [by rewrite as_count_spec | by destruct (as_count a)]. }
  assert (forall oc', let sums := run! p := machine_sum oc' P in run! b := machine_sum oc' B in Done (p, b) in
    metrics oc' s up = (run! t := sums in Done (object t.1 t.2)) /\
    metrics_prometheus oc' s a up = (run! t := sums in Done (exposition t.1 t.2))) as Hmet.
  { intros oc' sums. unfold metrics, metrics_prometheus.
    rewrite Hl, (totals_of_map oc' _ l Hp Hc), Hlen, Hcount. fold P B.
    split; subst sums; destruct (machine_sum oc' P), (machine_sum oc' B); try done.
    cbv [mbind exec_bind fst snd]. unfold exposition, prometheus_metric, text_of_lines. cbn [foldr].
    rewrite !string_app_assoc, string_app_nil_r. reflexivity. }
  destruct (sum_over_nonneg _ Hc) as [HP HB]. fold P in HP. fold B in HB.
  pose proof (Hmet oc) as [Hoc1 Hoc2]. pose proof (Hmet true) as [Ht1 Ht2]. pose proof (Hmet false) as [Hf1 Hf2].
  rewrite Hoc1, Hoc2, Ht1, Ht2, Hf1, Hf2. rewrite !machine_sum_release by done. split_and!; try done.
  - intros H1 H2. by rewrite !machine_sum_in.
  - intros Hover. unfold machine_sum.
    destruct (P <=? u64_max) eqn:E1, (B <=? u64_max) eqn:E2; bool_to_prop; simpl; try done. lia.
Qed.

(** The history endpoint fails on what the discovery engine itself
    produces: for a valid address it answers 500 exactly when the history
    query fails or some snapshot counted a protocol without a name of its
    own, and otherwise 200 with one JSON object per snapshot, in order. *)
Theorem history_endpoint_exact {MH : MacHexLaws} (h : H) (m : MacAddress)
  (params : gmap string string) :
  octets_ok m ->
  let resp := get_device_history (Some h) (mac_to_string m) params in
  match hs_list h m (params !! "from") (params !! "to") (history_limit params) with
  | Err _ => status resp = 500
  | Ok l =>
      (status resp = 500 <->
         exists x n, x ∈ l /\ is_Some (Snapshot.protocol_stats x !! Other n)) /\
      (status resp <> 500 -> exists js, resp = ok_json (JArr js) /\
         Forall2 (fun x j => snapshot_to_json x = Some j) l js)
  end.
Proof.
  intros Hm resp. subst resp. unfold get_device_history. rewrite path_mac_display by done.
  destruct (hs_list h m _ _ _) as [l|err]; [|done]. unfold history_response.
  destruct (mapM snapshot_to_json l) as [js|] eqn:E; simpl.
  - apply mapM_Some in E. split; [|by eauto]. split; [done|]. intros (x & n & Hx & Hn).
    destruct (Forall2_in_l _ _ _ E x Hx) as (j & _ & Hj).
    assert (snapshot_to_json x = None); [|congruence]. apply snapshot_to_json_None. by exists n.
  - apply mapM_None, Exists_exists in E as (x & Hx & Hn). apply snapshot_to_json_None in Hn as [n Hn].
    split; [|done]. split; [by eauto | done].
Qed.
End Properties.

(** * Witnesses *)

#[local] Existing Instances ref_mac_text std_ip_text ref_chrono ref_serde_json demo_crypto.
#[local] Instance demo_api_text : ApiText :=
  {| hex_encode := foldr hex_byte ""; json_key_error := "key must be a string" |}.
#[local] Instance demo_history_store : DeviceHistoryStore history_table :=
  sqlite_history_store 0 "out of range" "bad row".

Lemma remove_colons_hex b s : in_u8 b -> remove_colons (hex_byte b s) = hex_byte b (remove_colons s).
Proof.
  intros Hb. unfold in_u8, u8_max in Hb.
  assert (forall d, 0 <= d < 16 -> Ascii.eqb ":" (hex_digit d) = false) as Hd.
  { intros d Hd. apply Ascii.eqb_neq. intros E. pose proof (hex_value_digit d Hd) as H.
    by rewrite <- E in H. }
  pose proof (Z.mod_pos_bound b 16).
  assert (0 <= b / 16 < 16) by (split; [apply Z.div_pos | apply Z.div_lt_upper_bound]; lia).
  unfold hex_byte, remove_colons. cbn [replace_char]. by rewrite !Hd by lia.
Qed.

Lemma demo_decode_hex b s : in_u8 b -> demo_decode (hex_byte b s) = cons b <$> demo_decode s.
Proof. intros Hb. unfold hex_byte. cbn [demo_decode]. rewrite hex_pair_byte by done. by destruct (demo_decode s). Qed.

#[local] Instance demo_mac_hex : MacHexLaws.
Proof.
  split. intros m (H0 & H1 & H2 & H3 & H4 & H5).
  change (demo_decode (remove_colons (ref_mac_to_string m)) =
    Some [mac0 m; mac1 m; mac2 m; mac3 m; mac4 m; mac5 m]).
  assert (forall s, remove_colons (String ":" s) = remove_colons s) as Hc by done.
  unfold ref_mac_to_string.
  repeat (first [rewrite remove_colons_hex by done | rewrite Hc]).
  by rewrite !demo_decode_hex by done.
Qed.

Definition demo_app (a : InMemoryAlertStore.t) : AppState MemoryStore.t InMemoryAlertStore.t history_table :=
  mkAppState (MemoryStore.upsert MemoryStore.new (demo_at 7)).1 a None demo_state (Some []).
Definition demo_incoming (e : Endpoint) (key : string) : Incoming :=
  mkIncoming e (Some ("Bearer " +:+ key)) None (Some (V4 7)).
Definition demo_api_clock : ApiClock := mkApiClock (mkAuthClock 5 6) 60 1 (from_secs 1700000000).

Lemma api_serves_only_admitted_witness :
  (exists code text, visible (serve_request "1.0" true (demo_app InMemoryAlertStore.new)
      (demo_incoming (DeleteAlert "1") "reader") demo_api_clock) =
    Done (mkResponse code (TextBody text), store (demo_app InMemoryAlertStore.new),
          InMemoryAlertStore.new, None) /\ code ∈ [401; 403; 429]) \/
  (serve_request "1.0" true (demo_app InMemoryAlertStore.new)
      (demo_incoming (DeleteAlert "1") "reader") demo_api_clock = Panic /\
   instant_max < 6 + from_secs 300).
Proof.
  apply (api_serves_only_admitted "1.0" true (demo_app InMemoryAlertStore.new)
    (demo_incoming (DeleteAlert "1") "reader") demo_api_clock).
  - reflexivity.
  - discriminate.
  - intros [H|(_ & token & Ht & Hk)]; [discriminate H|]. vm_compute in Ht. injection Ht as <-.
    destruct Hk as [[_ [H|H]]|[H _]]; vm_compute in H; discriminate H.
Defined.

Lemma device_endpoints_exact_witness :
  status (get_device MemoryStore.new (mac_to_string (mkMac 2 0 0 0 0 1))) = 404 /\
  exists j, get_device (ds_upsert MemoryStore.new (demo_at 7)).1
      (mac_to_string (mkMac 2 0 0 0 0 1)) = ok_json j /\
    json_from_str (json_to_string j) ≫= device_from_json = Some (to_millis (demo_at 7)).
Proof.
  destruct (@device_endpoints_exact _ memory_device_store ref_mac_text std_ip_text ref_chrono
    demo_crypto memory_device_store_laws ref_mac_laws std_ip_laws ref_chrono_laws ref_serde_json
    ref_serde_json_laws demo_mac_hex MemoryStore.new (mkMac 2 0 0 0 0 1) (demo_at 7) "zz")
    as (H1 & H2 & _).
  - unfold octets_ok, in_u8, u8_max. simpl. lia.
  - apply demo_at_representable. unfold in_u64, u64_max. lia.
  - reflexivity.
  - split; [by rewrite H1 | exact H2].
Defined.

Lemma acknowledge_request_silences_witness :
  let a := (InMemoryAlertStore.insert_alert InMemoryAlertStore.new demo_alert).1 in
  exists st' resp, serve_request "1.0" true (demo_app a)
      (demo_incoming (AcknowledgeAlert "1") "root") demo_api_clock = Done (st', resp) /\
    status resp = 204 /\
    (evaluate_rule (Rule.new "new_device" true CondNewDevice Info 0) (DeviceDiscovered demo_device)
       (alert_store st') (mkRuleClock 0 0)).2 = Ok None.
Proof.
  intros a.
  destruct (acknowledge_request_silences "1.0" true (demo_app a)
    (demo_incoming (AcknowledgeAlert "1") "root") demo_api_clock 1) as (st' & resp & E & H).
  - split; [split; vm_compute; discriminate|]. apply map_Forall_singleton. split; vm_compute; [discriminate | reflexivity].
  - right. split; [intros i [= <-]; reflexivity|]. exists "root". split; [reflexivity|].
    right. split; [reflexivity|]. vm_compute. discriminate.
  - unfold in_u64, u64_max. lia.
  - reflexivity.
  - exists st', resp. split; [exact E|]. destruct H as [Hs H]. split; [exact Hs|].
    specialize (H (Rule.new "new_device" true CondNewDevice Info 0) (DeviceDiscovered demo_device)
      (mkRuleClock 0 0) eq_refl eq_refl).
    destruct (evaluate_rule _ _ _ _) as [[r' s'] out]. apply H.
    unfold octets_ok, in_u8, u8_max. simpl. lia.
Defined.

Lemma metrics_exact_witness :
  metrics true (store (demo_app InMemoryAlertStore.new)) 60 =
    Done (ok_json (JObj [("total_devices", JNum 1); ("total_packets", JNum 7);
      ("total_bytes", JNum 300); ("uptime_seconds", JNum 60)])) /\
  is_done (metrics_prometheus true (store (demo_app InMemoryAlertStore.new)) InMemoryAlertStore.new 60)
    = true.
Proof.
  destruct (metrics_exact true (store (demo_app InMemoryAlertStore.new)) InMemoryAlertStore.new 60 0)
    as [H _].
  - apply map_Forall_singleton. unfold counters_ok, in_u64, u64_max. simpl. lia.
  - left. split; [|vm_compute; reflexivity].
    split; [split; vm_compute; discriminate|]. apply map_Forall_empty.
  - destruct H as [H1 H2]; [vm_compute; discriminate | vm_compute; discriminate |].
    rewrite H1, H2. split; [vm_compute; reflexivity | reflexivity].
Defined.

(** A device that was seen with any IPv6 packet has no history to show. *)
Definition demo_table (p : Protocol) : history_table :=
  (hs_insert ∅ (Snapshot.from_device
     (Device.mk (mkMac 2 0 0 0 0 1) ∅ None 5 6 7 100 200 {[p]} None None {[p := 7]})
     "2026-07-18" 8)).1.

Lemma history_endpoint_exact_witness :
  status (get_device_history (Some (demo_table (Other 0))) (mac_to_string (mkMac 2 0 0 0 0 1)) ∅) = 500 /\
  status (get_device_history (Some (demo_table Tcp)) (mac_to_string (mkMac 2 0 0 0 0 1)) ∅) = 200.
Proof.
  split; [|vm_compute; reflexivity].
  pose proof (history_endpoint_exact (demo_table (Other 0)) (mkMac 2 0 0 0 0 1) ∅
    ltac:(unfold octets_ok, in_u8, u8_max; simpl; lia)) as H.
  destruct (hs_list (demo_table (Other 0)) _ _ _ _) as [l|e] eqn:E; [|exact H].
  apply H. vm_compute in E. injection E as <-. eexists _, 0. split; [left|].
  vm_compute. eauto.
Defined.
