(* ===== verification/AuditLog.v ===== *)
(** The audit log on disk: [AuditLogger] of [crates/api/src/audit.rs].  [Api]
    keeps the entries the requests leave; here an entry is a line of text,
    written by a task of its own ([tokio::spawn]), so in any order, under the
    mutex of the file, and a write may fail with part of the line written.
    A schedule is the list of what happens: a request answered, a task
    getting the file. *)

From S2P Require Import Prelude Text Types Reference Net Packet Json Stores Config Alerts Auth Api.
From S2P Require Import HistorySqlite Daemon.

(** [AuditLogger::new]: the parent directory is created, the file opened for
    appending, with the text it holds. *)
Definition audit_logger_new (create_parent : result unit string) (open_append : result string string)
  : result string string :=
  let? _ := create_parent in open_append.

(** [#[derive(Serialize)] struct AuditEntry]. *)
Definition entry_to_json (e : AuditEntry) : json :=
  JObj [("timestamp", JStr (Api.timestamp e)); ("method", JStr (a_method e)); ("path", JStr (a_path e));
        ("status", JNum (a_status e)); ("key_prefix", option_to_json (key_prefix e));
        ("duration_ms", JNum (duration_ms e))].

Section AuditLog.
Context {SJ : SerdeJson}.

Definition entry_line (e : AuditEntry) : string := json_to_string (entry_to_json e) +:+ nl.

(** [AuditLogger::write]: [write_all] appends the line, or fails after some
    of its bytes, which is only logged. *)
Definition audit_write (file : string) (e : AuditEntry) (failed_after : option nat) : string :=
  match failed_after with
  | None => file +:+ entry_line e
  | Some k => file +:+ String.substring 0 k (entry_line e)
  end.

(** The file, and the tasks that have not had it yet. *)
Record LogState : Type := mkLogState { log_text : string; waiting : list AuditEntry }.

Inductive log_event : Type :=
| Answered (e : AuditEntry)
| Wrote (i : nat) (failed_after : option nat).

Definition log_step (st : LogState) (ev : log_event) : LogState :=
  match ev with
  | Answered e => mkLogState (log_text st) (waiting st ++ [e])
  | Wrote i failed =>
      match waiting st !! i with
      | Some e => mkLogState (audit_write (log_text st) e failed) (delete i (waiting st))
      | None => st
      end
  end.
Definition log_run (st : LogState) (evs : list log_event) : LogState := foldl log_step st evs.

Definition answered (evs : list log_event) : list AuditEntry :=
  omap (fun ev => match ev with Answered e => Some e | Wrote _ _ => None end) evs.
(** No write stops inside its line. *)
Definition untorn (ev : log_event) : bool :=
  match ev with Wrote _ (Some k) => Nat.eqb k 0 | _ => true end.
Definition succeeds (ev : log_event) : bool :=
  match ev with Wrote _ (Some _) => false | _ => true end.

(** Reading a file of JSON lines. *)
Definition read_json_lines (s : string) : option (list json) :=
  mapM json_from_str (removelast (split_on newline s)).
End AuditLog.

(** [serde_json::to_string] prints on one line: control characters are
    escaped. *)
Class CompactJson `{!SerdeJson} : Prop :=
  compact_json : forall j, no_newline (json_to_string j) = true.

(** * Lemmas *)

Section LogFacts.
Context {SJ : SerdeJson} {SL : SerdeJsonLaws} {CJ : CompactJson}.

Lemma split_on_ne c s : split_on c s <> [].
Proof. destruct s as [|d s]; simpl; [done|]. destruct (Ascii.eqb c d); [done|]. by destruct (split_on c s). Qed.

Lemma split_on_lines (ls : list string) rest :
  Forall (fun l => no_newline l = true) ls ->
  split_on newline (foldr (fun l r => l +:+ String newline r) rest ls) = ls ++ split_on newline rest.
Proof. induction 1 as [|l ls Hl _ IH]; simpl; [done|]. by rewrite split_on_line, IH. Qed.

(** The lines [ls], then [rest]. *)
Lemma lines_then ls rest :
  foldr (fun l r => l +:+ String newline r) "" ls +:+ rest =
  foldr (fun l r => l +:+ String newline r) rest ls.
Proof. induction ls as [|l ls IH]; simpl; [done|]. rewrite string_app_assoc. simpl. by rewrite IH. Qed.

(** The file that holds these entries. *)
Definition file_of (es : list AuditEntry) : string :=
  foldr (fun l r => l +:+ String newline r) "" ((fun e => json_to_string (entry_to_json e)) <$> es).

Lemma file_of_snoc es e : file_of (es ++ [e]) = file_of es +:+ entry_line e.
Proof. unfold file_of. by rewrite lines_then, fmap_app, foldr_app. Qed.

Lemma read_file_of es : read_json_lines (file_of es) = Some (entry_to_json <$> es).
Proof.
  unfold read_json_lines, file_of. rewrite split_on_lines by (apply Forall_fmap, Forall_true; intros; apply CJ).
  simpl. rewrite removelast_last. induction es as [|e es IH]; [done|].
  cbn. rewrite json_from_to_string. cbn. by rewrite IH.
Qed.

Lemma log_run_untorn evs st w :
  Forall (fun ev => untorn ev = true) evs -> log_text st = file_of w ->
  exists w' lost, log_text (log_run st evs) = file_of (w ++ w') /\
    w' ++ lost ++ waiting (log_run st evs) ≡ₚ waiting st ++ answered evs /\
    (Forall (fun ev => succeeds ev = true) evs -> lost = []).
Proof.
  intros H. revert st w. induction H as [|ev evs Hev _ IH]; intros st w Hw.
  { exists [], []. simpl. by rewrite !app_nil_r. }
  destruct ev as [e|i failed]; cbn [log_run foldl log_step].
  - destruct (IH (mkLogState (log_text st) (waiting st ++ [e])) w Hw) as (w' & lost & Ht & Hp & Hl).
    exists w', lost. split; [done|]. split; [|intros [_ ?]%Forall_cons; by auto]. rewrite Hp. simpl.
    by rewrite <- app_assoc.
  - destruct (waiting st !! i) as [e|] eqn:Ei; cbn [answered omap list_omap].
    2:{ destruct (IH st w Hw) as (w' & lost & Ht & Hp & Hl). exists w', lost.
        split; [done|]. split; [done|]. intros [_ ?]%Forall_cons; auto. }
    pose proof (delete_Permutation _ _ _ Ei) as Hd.
    destruct failed as [k|]; cbn [audit_write].
    + cbn in Hev. apply Nat.eqb_eq in Hev as ->.
      destruct (IH (mkLogState (log_text st +:+ "") (delete i (waiting st))) w) as (w' & lost & Ht & Hp & Hl).
      { cbn. by rewrite string_app_nil_r. }
      exists w', (e :: lost). assert (String.substring 0 0 (entry_line e) = "") as ->
        by (by destruct (entry_line e)).
      split; [done|]. split; [|by intros [[=] _]%Forall_cons].
      etrans; [|apply Permutation_app_tail; symmetry; exact Hd]. cbn [app].
      etrans; [symmetry; apply Permutation_middle|]. apply perm_skip, Hp.
    + destruct (IH (mkLogState (log_text st +:+ entry_line e) (delete i (waiting st))) (w ++ [e]))
        as (w' & lost & Ht & Hp & Hl).
      { cbn. by rewrite file_of_snoc, Hw. }
      exists (e :: w'), lost. split; [by rewrite <- app_assoc in Ht|].
      split; [|intros [_ ?]%Forall_cons; by auto].
      etrans; [|apply Permutation_app_tail; symmetry; exact Hd]. cbn [app]. apply perm_skip, Hp.
Qed.

Lemma substring_no_newline k s : no_newline s = true -> no_newline (String.substring 0 k s) = true.
Proof.
  unfold no_newline. revert k. induction s as [|c s IH]; intros [|k]; simpl; try done.
  rewrite !andb_true_iff. naive_solver.
Qed.
Lemma substring_app k s t :
  (k <= String.length s)%nat -> String.substring 0 k (s +:+ t) = String.substring 0 k s.
Proof.
  revert k. induction s as [|c s IH]; intros [|k]; simpl; intros; try done; [by destruct t | lia |].
  rewrite IH by lia. done.
Qed.

(** A torn line swallows the next one. *)
Lemma torn_line e1 e2 k w :
  (k <= String.length (json_to_string (entry_to_json e1)))%nat ->
  split_on newline (audit_write (audit_write (file_of w) e1 (Some k)) e2 None) =
    ((fun e => json_to_string (entry_to_json e)) <$> w) ++
    [String.substring 0 k (json_to_string (entry_to_json e1)) +:+ json_to_string (entry_to_json e2); ""].
Proof.
  intros Hk. cbn [audit_write]. unfold entry_line at 1. rewrite substring_app by done.
  set (p := String.substring 0 k _). unfold file_of, entry_line.
  assert (no_newline (p +:+ json_to_string (entry_to_json e2)) = true) as Hp.
  { unfold no_newline. rewrite all_chars_app. apply andb_true_iff. split; [|apply CJ].
    apply substring_no_newline, CJ. }
  rewrite !string_app_assoc. rewrite <- (string_app_assoc p).
  rewrite lines_then, split_on_lines by (apply Forall_fmap, Forall_true; intros; apply CJ). f_equal.
  unfold nl. by rewrite split_on_line.
Qed.
End LogFacts.

(** * Properties *)

(** C34: the audit file can be read back.  The requests are answered, the
    tasks write their entries in whatever order they get the file; as long
    as no write stops inside its line, the file is at every moment a JSON
    line for each entry written, nothing is invented, and what was answered
    is, as a multiset, what is written, what a failed write lost, and what
    still waits (and is lost if the process stops now).  A write that stops
    inside its line also spoils the entry that comes next. *)
Theorem audit_file_reads_back {S A H : Type} {DS : DeviceStore S} {AS : AlertStore A}
  {HS : DeviceHistoryStore H} {MT : MacText} {IT : IpText} {CH : Chrono} {CR : Crypto} {AT : ApiText}
  {SJ : SerdeJson} {SL : SerdeJsonLaws} {CJ : CompactJson}
  (version : string) (oc : bool) (st : AppState S A H) (rs : list (Incoming * ApiClock))
  (evs : list log_event) (e1 e2 : AuditEntry) (k : nat) :
  audit_logger st = Some [] ->
  audit_logger (serve_all version oc st rs).1 = Some (answered evs) ->
  Forall (fun ev => untorn ev = true) evs ->
  (k <= String.length (json_to_string (entry_to_json e1)))%nat ->
  (exists written lost,
     read_json_lines (log_text (log_run (mkLogState "" []) evs)) = Some (entry_to_json <$> written) /\
     written ++ lost ++ waiting (log_run (mkLogState "" []) evs) ≡ₚ
       omap (fun x => entry_due x.1 x.2) (zip rs (serve_all version oc st rs).2) /\
     (Forall (fun ev => succeeds ev = true) evs -> lost = [])) /\
  split_on newline (audit_write (audit_write "" e1 (Some k)) e2 None) =
    [String.substring 0 k (json_to_string (entry_to_json e1)) +:+ json_to_string (entry_to_json e2); ""].
Proof.
  intros H0 Hlog Hu Hk. split; [|apply (torn_line e1 e2 k [] Hk)].
  destruct (log_run_untorn evs (mkLogState "" []) [] Hu eq_refl) as (w & lost & Ht & Hp & Hl).
  exists w, lost. rewrite Ht. split; [apply read_file_of|]. split; [|done]. rewrite Hp. simpl.
  pose proof (audit_log_complete version oc st rs) as Hc.
  destruct (serve_all version oc st rs) as [st' answers]. destruct Hc as [_ Hc].
  cbn [fst snd] in *. rewrite Hc, H0 in Hlog. cbn in Hlog. by injection Hlog as <-.
Qed.

(** * Witnesses *)

#[local] Existing Instances ref_mac_text std_ip_text ref_chrono ref_serde_json ref_serde_json_laws
  demo_crypto demo_api_text demo_history_store.

Lemma pos_letters_line p : no_newline (pos_letters p) = true.
Proof. induction p as [p IH|p IH|]; [exact IH | exact IH | reflexivity]. Qed.
#[local] Instance ref_compact_json : CompactJson := fun j => pos_letters_line _.

(** Two answered requests, whose tasks get the file in the other order. *)
Definition demo_requests : list (Incoming * ApiClock) :=
  [(demo_incoming ListDevices "reader", demo_api_clock);
   (demo_incoming (DeleteAlert "1") "reader", demo_api_clock)].
Definition demo_entries : list AuditEntry :=
  omap (fun x => entry_due x.1 x.2)
    (zip demo_requests (serve_all "1.0" true (demo_app InMemoryAlertStore.new) demo_requests).2).
Definition demo_schedule : list log_event :=
  (Answered <$> demo_entries) ++ [Wrote 1 None; Wrote 0 None].

Lemma audit_file_reads_back_witness :
  length demo_entries = 2%nat /\
  exists written, read_json_lines (log_text (log_run (mkLogState "" []) demo_schedule)) =
      Some (entry_to_json <$> written) /\
    written ≡ₚ demo_entries.
Proof.
  split; [vm_compute; reflexivity|].
  destruct (audit_file_reads_back "1.0" true (demo_app InMemoryAlertStore.new) demo_requests
    demo_schedule (mkAuditEntry "" "" "" 0 None 0) (mkAuditEntry "" "" "" 0 None 0) 0)
    as [(w & lost & Hr & Hp & Hl) _].
  - reflexivity.
  - vm_compute. reflexivity.
  - unfold demo_schedule. apply Forall_app. split; [|by repeat constructor].
    apply Forall_fmap, Forall_true. done.
  - lia.
  - exists w. split; [exact Hr|]. assert (lost = []) as ->.
    { apply Hl. unfold demo_schedule. apply Forall_app. split; [|by repeat constructor].
      apply Forall_fmap, Forall_true. done. }
    assert (waiting (log_run (mkLogState "" []) demo_schedule) = []) as Hw by (vm_compute; reflexivity).
    rewrite Hw, !app_nil_r in Hp. exact Hp.
Defined.
