(* ===== verification/Notify.v ===== *)
(** Alert delivery, [crates/notify/src]: the fan-out, and the message each
    notifier builds for an alert (ntfy, MQTT, webhook, email).

    The clients are other crates ([reqwest], [rumqttc], [lettre]): what they
    answer is an argument, and what the code hands to them is the value of
    the definitions.  Header values and names are checked by [http]: the
    class [Http]. *)

From S2P Require Import Prelude Text Types Reference Net Json Stores Config Alerts.

(** * Header maps *)

(** [HeaderValue::from_str] accepts a value or not; [HeaderName::from_bytes]
    gives the name in its canonical form; a [StatusCode] has a text. *)
Class Http : Type := {
  header_value : string -> bool;
  header_name : string -> option string;
  status_display : Z -> string
}.

Inductive NotifierError : Type := Delivery (s : string) | ConfigurationError (s : string).

(** A [HeaderMap], by canonical name. *)
Notation HeaderMap := (gmap string string) (only parsing).

Section Headers.
Context {HT : Http}.

(** [if let Ok(value) = HeaderValue::from_str(..) { headers.insert(..) }]. *)
Definition insert_header (name value : string) (h : HeaderMap) : HeaderMap :=
  if header_value value then <[name := value]> h else h.
Definition insert_header_opt (name : string) (value : option string) (h : HeaderMap) : HeaderMap :=
  match value with Some v => insert_header name v h | None => h end.

(** * The payload that ntfy and MQTT share *)

Record NewDevicePayload : Type := mkPayload {
  event : string; mac : string; ip : option string; hostname : option string;
  vendor : option string; protocol : string; first_seen : string
}.

Section Payload.
Context {MT : MacText} {IT : IpText} {CH : Chrono} {SJ : SerdeJson}.

Definition payload_from_device (d : Device.t) (protocol : string) : NewDevicePayload :=
  mkPayload "new_device" (mac_to_string (Device.mac d))
    (ip_to_string <$> head (sorted_elements ip_le (Device.ips d)))
    (Device.hostname d) (Device.vendor d) protocol (timestamp_display (Device.first_seen d)).

Definition payload_to_json (p : NewDevicePayload) : json :=
  JObj [("event", JStr (event p)); ("mac", JStr (mac p)); ("ip", option_to_json (ip p));
        ("hostname", option_to_json (hostname p)); ("vendor", option_to_json (vendor p));
        ("protocol", JStr (protocol p)); ("first_seen", JStr (first_seen p))].

Definition first_protocol (d : Device.t) : string :=
  match head (sorted_elements protocol_le (Device.protocols d)) with
  | Some p => protocol_display p
  | None => "Unknown"
  end.
Definition alert_payload (a : Alert.t) : string :=
  let d := Alert.device_snapshot a in
  json_to_string (payload_to_json (payload_from_device d (first_protocol d))).

(** * ntfy *)

Record NtfyNotifier : Type := mkNtfy { ntfy_url : string; base_headers : HeaderMap }.

Definition build_headers_static (c : NtfyConfig.t) : HeaderMap :=
  let h := insert_header_opt "authorization" (String.append "Bearer " <$> NtfyConfig.token c) ∅ in
  let h := insert_header_opt "priority" (fmt_uint <$> NtfyConfig.priority c) h in
  insert_header_opt "tags" (NtfyConfig.tags c) h.
Definition ntfy_new (c : NtfyConfig.t) : NtfyNotifier :=
  mkNtfy (NtfyConfig.base_url c +:+ "/" +:+ NtfyConfig.topic c) (build_headers_static c).

Definition ntfy_title (a : Alert.t) : string :=
  let d := Alert.device_snapshot a in
  let name := match Device.hostname d, Device.vendor d with
              | Some h, _ => h
              | None, Some v => v
              | None, None => mac_to_string (Device.mac d)
              end in
  "[" +:+ severity_display (Alert.severity a) +:+ "] " +:+ Alert.message a +:+ ": " +:+ name +:+
  " (" +:+ mac_to_string (Device.mac d) +:+ ")".

(** * Webhook *)

Record WebhookNotifier : Type := mkWebhook { webhook_config : WebhookConfig.t; headers : HeaderMap }.

(** The custom headers, in the order the [HashMap] yields them. *)
Definition add_custom (h : HeaderMap) (kv : string * string) : HeaderMap :=
  match header_name kv.1 with
  | Some name => insert_header name kv.2 h
  | None => h
  end.
Definition webhook_new (iter : gmap string string -> list (string * string)) (c : WebhookConfig.t)
  : WebhookNotifier :=
  mkWebhook c (foldl add_custom
    (insert_header_opt "authorization" (String.append "Bearer " <$> WebhookConfig.token c) ∅)
    (iter (WebhookConfig.headers c))).

(** * Requests *)

(** A POST: the headers set, those appended to them, and the body. *)
Record HttpPost : Type := mkPost {
  post_url : string; set_headers : HeaderMap; added_headers : list (string * string);
  post_body : string
}.

(** What the server answers: a status code, or no answer. *)
Definition is_success (status : Z) : bool := in_range 200 299 status.
Definition post_outcome (who : string) (answer : result Z string) : result unit NotifierError :=
  match answer with
  | Ok status =>
      if is_success status then Ok tt
      else Err (Delivery (who +:+ " returned status " +:+ status_display status))
  | Err e => Err (Delivery (who +:+ " POST failed: " +:+ e))
  end.

Definition ntfy_post (n : NtfyNotifier) (a : Alert.t) : HttpPost :=
  mkPost (ntfy_url n)
    (insert_header "title" (ntfy_title a) (base_headers n)) []
    (alert_payload a).
Definition webhook_post (w : WebhookNotifier) (a : Alert.t) : HttpPost :=
  mkPost (WebhookConfig.url (webhook_config w)) (headers w)
    [("content-type", "application/json")] (json_to_string (alert_to_json a)).

(** * MQTT *)

Inductive QoS : Type := AtMostOnce | AtLeastOnce | ExactlyOnce.
Definition qos_of (qos : Z) : QoS :=
  if qos =? 0 then AtMostOnce else if qos =? 1 then AtLeastOnce else ExactlyOnce.
Record MqttPublish : Type := mkPublish {
  pub_topic : string; pub_qos : QoS; pub_retain : bool; pub_body : string
}.
Definition mqtt_publish (c : MqttConfig.t) (a : Alert.t) : MqttPublish :=
  mkPublish (MqttConfig.topic c) (qos_of (MqttConfig.qos c)) false (alert_payload a).
Definition mqtt_outcome (answer : result unit string) : result unit NotifierError :=
  map_err (fun e => Delivery ("MQTT publish failed: " +:+ e)) answer.

(** [build_mqtt_options]: the credentials are set when both are there. *)
Record MqttOptions : Type := mkMqttOptions {
  opt_client_id : string; opt_host : string; opt_port : Z; opt_clean_session : bool;
  opt_credentials : option (string * string)
}.
Definition build_mqtt_options (c : MqttConfig.t) : MqttOptions :=
  mkMqttOptions (MqttConfig.client_id c) (MqttConfig.host c) (MqttConfig.port c) true
    (match MqttConfig.username c, MqttConfig.password c with
     | Some user, Some pass => Some (user, pass)
     | _, _ => None
     end).

(** The task [MqttNotifier::new] spawns polls the connection for ever; what
    it logs of what a poll returns. *)
Inductive mqtt_event : Type := ConnAck | OtherIncoming | Outgoing.
Definition mqtt_poll_log (client_id : string) (r : result mqtt_event string) : option string :=
  match r with
  | Ok ConnAck => Some ("MQTT connected " +:+ client_id)
  | Ok Outgoing => None
  | Ok OtherIncoming => None
  | Err e => Some ("MQTT connection error " +:+ e +:+ " " +:+ client_id)
  end.

(** * Email *)

(** [EmailNotifier::new]: [relay b host] is [lettre]'s [starttls_relay] or
    [relay]. *)
Record SmtpTransport : Type := mkSmtp {
  smtp_starttls : bool; smtp_host : string; smtp_port : Z; smtp_user : string; smtp_pass : string
}.
Definition email_new (relay : bool -> string -> result unit string) (c : EmailConfig.t)
  : result SmtpTransport NotifierError :=
  let? _ := map_err (fun e => ConfigurationError ("SMTP relay build failed: " +:+ e))
              (relay (EmailConfig.starttls c) (EmailConfig.host c)) in
  Ok (mkSmtp (EmailConfig.starttls c) (EmailConfig.host c) (EmailConfig.port c)
        (EmailConfig.username c) (EmailConfig.password c)).

Definition or_none (l : list string) : string :=
  match l with [] => "(none)" | _ => join ", " l end.
Definition format_alert_body (a : Alert.t) : string :=
  let d := Alert.device_snapshot a in
  "EdgeShield Alert" +:+ nl +:+
  "================" +:+ nl +:+ nl +:+
  "Rule: " +:+ Alert.rule_name a +:+ nl +:+
  "Severity: " +:+ severity_display (Alert.severity a) +:+ nl +:+
  "Event: " +:+ event_type_display (Alert.event_type a) +:+ nl +:+
  "Time: " +:+ timestamp_display (Alert.timestamp a) +:+ nl +:+ nl +:+
  "Device:" +:+ nl +:+
  "MAC: " +:+ mac_to_string (Device.mac d) +:+ nl +:+
  "Hostname: " +:+ default "(unknown)" (Device.hostname d) +:+ nl +:+
  "Vendor: " +:+ default "(unknown)" (Device.vendor d) +:+ nl +:+
  "IPs: " +:+ or_none (ip_to_string <$> sorted_elements ip_le (Device.ips d)) +:+ nl +:+
  "Protocols: " +:+ or_none (protocol_display <$> sorted_elements protocol_le (Device.protocols d))
    +:+ nl +:+ nl +:+
  "Message: " +:+ Alert.message a +:+ nl +:+
  (if Alert.acknowledged a then nl +:+ "(Alert acknowledged)" +:+ nl else "").
Definition email_subject (c : EmailConfig.t) (a : Alert.t) : string :=
  EmailConfig.subject_prefix c +:+ " " +:+ severity_display (Alert.severity a) +:+ " — " +:+
  Alert.message a.

(** What [lettre] makes of an address, and of the whole message. *)
Record Lettre : Type := mkLettre {
  parse_mailbox : string -> result unit string;
  build_message : string -> string -> result unit string  (** subject and body *)
}.
Definition build_email (l : Lettre) (c : EmailConfig.t) (a : Alert.t)
  : result (string * string) NotifierError :=
  let? _ := map_err (fun e => ConfigurationError ("invalid from address: " +:+ e))
              (parse_mailbox l (EmailConfig.from c)) in
  let? _ := map_err (fun e => ConfigurationError ("invalid to address: " +:+ e))
              (parse_mailbox l (EmailConfig.to c)) in
  let? _ := map_err (fun e => Delivery ("email build failed: " +:+ e))
              (build_message l (email_subject c a) (format_alert_body a)) in
  Ok (email_subject c a, format_alert_body a).
Definition email_deliver (l : Lettre) (c : EmailConfig.t) (a : Alert.t) (answer : result unit string)
  : result unit NotifierError :=
  let? _ := build_email l c a in
  map_err (fun e => Delivery ("SMTP send failed: " +:+ e)) answer.

(** * The fan-out *)

Inductive notifier : Type :=
| Ntfy (n : NtfyNotifier)
| Mqtt (c : MqttConfig.t)
| Webhook (w : WebhookNotifier)
| Email (c : EmailConfig.t).

(** The list that the daemon builds (step 9 of [run]); [built] says whether
    the client of a notifier could be constructed. *)
Definition build_notifiers (iter : gmap string string -> list (string * string))
  (built : notifier -> bool) (c : Config.t) : list notifier :=
  List.filter built (option_list ((fun n => Ntfy (ntfy_new n)) <$> Config.ntfy c)) ++
  option_list (Mqtt <$> Config.mqtt c) ++
  List.filter built (option_list ((fun w => Webhook (webhook_new iter w)) <$> Config.webhook c)) ++
  List.filter built (option_list (Email <$> Config.email c)).

Definition notifier_rank (n : notifier) : nat :=
  match n with Ntfy _ => 0 | Mqtt _ => 1 | Webhook _ => 2 | Email _ => 3 end.

(** What a notifier hands to its client for an alert. *)
Inductive message : Type :=
| NtfyPost (p : HttpPost)
| MqttMessage (m : MqttPublish)
| WebhookPost (p : HttpPost)
| EmailMessage (subject body : string).
Definition message_of (l : Lettre) (n : notifier) (a : Alert.t) : result message NotifierError :=
  match n with
  | Ntfy n => Ok (NtfyPost (ntfy_post n a))
  | Mqtt c => Ok (MqttMessage (mqtt_publish c a))
  | Webhook w => Ok (WebhookPost (webhook_post w a))
  | Email c => let? m := build_email l c a in Ok (EmailMessage m.1 m.2)
  end.

(** [deliver], with what the client answers: a status, or success, or an
    error text. *)
Definition deliver (l : Lettre) (n : notifier) (a : Alert.t) (answer : result Z string)
  : result unit NotifierError :=
  match n with
  | Ntfy _ => post_outcome "ntfy" answer
  | Mqtt _ => match answer with Ok _ => mqtt_outcome (Ok tt) | Err e => mqtt_outcome (Err e) end
  | Webhook _ => post_outcome "webhook" answer
  | Email c => email_deliver l c a (match answer with Ok _ => Ok tt | Err e => Err e end)
  end.

(** The two loops of [run]: what was handed out and what was logged; [i]
    counts the deliveries. *)
Fixpoint fanout_alert (l : Lettre) (ns : list notifier) (a : Alert.t) (answer : nat -> result Z string)
  (i : nat) : list message * list (notifier * result unit NotifierError) :=
  match ns with
  | [] => ([], [])
  | n :: ns' =>
      let r := deliver l n a (answer i) in
      let (out, log) := fanout_alert l ns' a answer (S i) in
      (match message_of l n a with Ok m => m :: out | Err _ => out end, (n, r) :: log)
  end.
Fixpoint fanout_run (l : Lettre) (ns : list notifier) (alerts : list Alert.t)
  (answer : nat -> result Z string) (i : nat)
  : list message * list (notifier * result unit NotifierError) :=
  match alerts with
  | [] => ([], [])
  | a :: alerts' =>
      let (out, log) := fanout_alert l ns a answer i in
      let (out', log') := fanout_run l ns alerts' answer (i + length ns)%nat in
      (out ++ out', log ++ log')
  end.
End Payload.
End Headers.

(** * Lemmas *)

Section Facts.
Context {HT : Http} {MT : MacText} {IT : IpText} {CH : Chrono} {SJ : SerdeJson}.

Lemma lookup_insert_header_ne k name v h : k <> name -> insert_header name v h !! k = h !! k.
Proof. intros Hk. unfold insert_header. destruct (header_value v); [by rewrite lookup_insert_ne | done]. Qed.

Lemma lookup_insert_header name v (h : HeaderMap) :
  h !! name = None -> insert_header name v h !! name = if header_value v then Some v else None.
Proof. intros Hn. unfold insert_header. destruct (header_value v); [apply lookup_insert_eq | done]. Qed.

Lemma lookup_insert_header_opt_ne k name o h : k <> name -> insert_header_opt name o h !! k = h !! k.
Proof. destruct o as [v|]; simpl; [apply lookup_insert_header_ne | done]. Qed.

Lemma static_headers_title c : build_headers_static c !! "title" = None.
Proof. unfold build_headers_static. by rewrite !lookup_insert_header_opt_ne. Qed.

Lemma fanout_alert_spec l ns a answer i :
  fanout_alert l ns a answer i =
    (omap (fun n => result_ok (message_of l n a)) ns,
     imap (fun j n => (n, deliver l n a (answer (i + j)%nat))) ns).
Proof.
  revert i. induction ns as [|n ns IH]; intros i; [done|]. cbn [fanout_alert]. rewrite IH.
  cbn [omap list_omap imap]. rewrite Nat.add_0_r.
  f_equal; [by destruct (message_of l n a)|]. f_equal. apply imap_ext. intros j m _. simpl.
  by rewrite Nat.add_succ_r.
Qed.

Lemma build_notifiers_sorted iter built c :
  StronglySorted lt (notifier_rank <$> build_notifiers iter built c).
Proof.
  unfold build_notifiers.
  destruct (Config.ntfy c) as [n|], (Config.mqtt c) as [m|], (Config.webhook c) as [w|],
    (Config.email c) as [e|]; simpl;
    repeat match goal with |- context [built ?n] => destruct (built n) end; simpl;
    repeat constructor.
Qed.

(** The deliveries of a run, numbered. *)
Lemma fanout_run_log l ns alerts answer i k j a n :
  alerts !! k = Some a -> ns !! j = Some n ->
  (fanout_run l ns alerts answer i).2 !! (k * length ns + j)%nat =
    Some (n, deliver l n a (answer (i + (k * length ns + j))%nat)).
Proof.
  revert i k. induction alerts as [|a0 alerts IH]; intros i k Ha Hn; [done|]. cbn [fanout_run].
  rewrite fanout_alert_spec. destruct (fanout_run l ns alerts answer (i + length ns)) as [out log] eqn:E.
  pose proof (lookup_lt_Some _ _ _ Hn) as Hj. cbn [snd]. destruct k as [|k].
  - injection Ha as <-. simpl. rewrite lookup_app_l by (rewrite length_imap; lia).
    by rewrite list_lookup_imap, Hn.
  - simpl in Ha. specialize (IH (i + length ns)%nat k Ha Hn). rewrite E in IH. simpl in IH.
    rewrite lookup_app_r by (rewrite length_imap; lia). rewrite length_imap.
    replace (S k * length ns + j - length ns)%nat with (k * length ns + j)%nat by lia.
    rewrite IH. do 4 f_equal. lia.
Qed.

Lemma fanout_run_out l ns alerts answer i :
  (fanout_run l ns alerts answer i).1 =
    (a ← alerts; omap (fun n => result_ok (message_of l n a)) ns) /\
  length (fanout_run l ns alerts answer i).2 = (length alerts * length ns)%nat.
Proof.
  revert i. induction alerts as [|a alerts IH]; intros i; [done|]. cbn [fanout_run].
  rewrite fanout_alert_spec. specialize (IH (i + length ns)%nat).
  destruct (fanout_run l ns alerts answer (i + length ns)) as [out log]. destruct IH as [Ho Hl].
  cbn [fst snd] in *. rewrite bind_cons, Ho, length_app, length_imap, Hl. split; [done | simpl; lia].
Qed.
End Facts.

(** * Properties *)

Section Properties.
Context {HT : Http} {MT : MacText} {IT : IpText} {CH : Chrono} {SJ : SerdeJson}.

(** No alert is lost on the way out.  Whatever the clients answer, the
    fan-out hands every alert, in order, to every notifier of the
    configuration, in the order ntfy, MQTT, webhook, email; each delivery is
    tried once, and its outcome depends on its own answer only, so a failing
    notifier takes nothing from the others. *)
Theorem fanout_delivers_all (l : Lettre) (c : Config.t)
  (iter : gmap string string -> list (string * string)) (built : notifier -> bool)
  (alerts : list Alert.t) (answer : nat -> result Z string) :
  let ns := build_notifiers iter built c in
  let (out, log) := fanout_run l ns alerts answer 0 in
  StronglySorted lt (notifier_rank <$> ns) /\
  out = (a ← alerts; omap (fun n => result_ok (message_of l n a)) ns) /\
  length log = (length alerts * length ns)%nat /\
  forall k j a n, alerts !! k = Some a -> ns !! j = Some n ->
    log !! (k * length ns + j)%nat = Some (n, deliver l n a (answer (k * length ns + j)%nat)).
Proof.
  intros ns. pose proof (fanout_run_out l ns alerts answer 0) as [Ho Hl].
  pose proof (fanout_run_log l ns alerts answer 0) as Hlog.
  destruct (fanout_run l ns alerts answer 0) as [out log].
  split; [apply build_notifiers_sorted | by split_and!].
Qed.

(** What consumers can rely on.  The webhook body parses back to the
    alert, times cut to the millisecond; ntfy and MQTT carry the same body,
    which describes the device and always says [new_device]: it cannot tell
    an alert from another about the same device, not even a device that went
    offline from a new one; and the ntfy title, when it is a legal header
    value, is the severity, the message and the address, and is otherwise
    left out. *)
Theorem notify_messages_exact {ML : MacTextLaws} {IL : IpTextLaws} {CL : ChronoLaws}
  {SL : SerdeJsonLaws} (n : NtfyConfig.t) (m : MqttConfig.t) (w : WebhookNotifier) (a b : Alert.t) :
  (alert_representable a ->
     json_from_str (post_body (webhook_post w a)) ≫= alert_from_json = Some (alert_millis a)) /\
  post_body (ntfy_post (ntfy_new n) a) = pub_body (mqtt_publish m a) /\
  (exists fs, json_from_str (pub_body (mqtt_publish m a)) = Some (JObj fs) /\
     required "event" string_from_json fs = Some "new_device" /\
     (octets_ok (Device.mac (Alert.device_snapshot a)) ->
        required "mac" mac_from_json fs = Some (Device.mac (Alert.device_snapshot a)))) /\
  (Alert.device_snapshot a = Alert.device_snapshot b ->
     pub_body (mqtt_publish m a) = pub_body (mqtt_publish m b)) /\
  set_headers (ntfy_post (ntfy_new n) a) !! "title" =
    (if header_value (ntfy_title a) then Some (ntfy_title a) else None).
Proof.
  split_and!.
  - intros Ha. unfold webhook_post. simpl. rewrite json_from_to_string. simpl. by apply alert_json_inverse.
  - done.
  - eexists. unfold mqtt_publish, alert_payload. simpl. rewrite json_from_to_string.
    split; [reflexivity|]. split; [reflexivity|]. intros Hm. by apply mac_parse_to_string.
  - unfold mqtt_publish, alert_payload. simpl. by intros ->.
  - apply lookup_insert_header, static_headers_title.
Qed.
End Properties.

(** * Witnesses *)

#[local] Existing Instances ref_mac_text std_ip_text ref_chrono ref_serde_json.
#[local] Instance demo_http : Http :=
  {| header_value := all_chars (fun c => in_range 32 126 (ord c));
     header_name s := Some (to_ascii_lowercase s); status_display := fmt_uint |}.

Lemma notify_messages_exact_witness :
  let offline := Alert.mk 3 "quiet" Warning DeviceOffline (mkMac 2 0 0 0 0 1) "gone" demo_device 9 false in
  json_from_str (post_body (webhook_post (webhook_new map_to_list
      (WebhookConfig.mk "http://hook" None ∅ 5)) offline)) ≫= alert_from_json =
    Some (alert_millis offline) /\
  pub_body (mqtt_publish (MqttConfig.mk "h" 1883 "t" "c" None None 1) offline) =
    pub_body (mqtt_publish (MqttConfig.mk "h" 1883 "t" "c" None None 1) demo_alert).
Proof.
  intros offline.
  destruct (@notify_messages_exact demo_http ref_mac_text std_ip_text ref_chrono ref_serde_json
    ref_mac_laws std_ip_laws ref_chrono_laws ref_serde_json_laws
    (NtfyConfig.mk "https://ntfy.sh" "edgeshield" None (Some 2) None)
    (MqttConfig.mk "h" 1883 "t" "c" None None 1)
    (webhook_new map_to_list (WebhookConfig.mk "http://hook" None ∅ 5)) offline demo_alert)
    as (H1 & _ & _ & H4 & _).
  split; [|by apply H4]. apply H1.
  unfold alert_representable, representable, octets_ok, in_u64, in_u8, u64_max, u8_max, chrono_range,
    ns_per_s; simpl.
  split_and!; try lia; try done; try apply set_Forall_empty; apply map_Forall_empty.
Defined.
