(* ===== verification/Delivery.v ===== *)
(** From a discovery event to the notifiers: the rule engine that waits for
    room in the alert channel ([fire_alert] of [crates/rules/src/engine.rs]),
    the channel of 256 alerts ([crates/daemon/src/daemon.rs]) and the fan-out
    that works on one alert at a time ([crates/notify/src/fanout.rs]), next to
    the other tasks of the daemon.  An action is what one task does between
    two points where it may have to wait; an action that would have to wait
    is not enabled.  Any sequence of enabled actions is a run. *)

From S2P Require Import Prelude Text Types Reference Net Packet Classify Dhcp Mdns Oui Stores Discovery.
From S2P Require Import Json Sqlite HistorySqlite Config Alerts Rules Daemon System Notify.

(** * State and actions *)

Section Delivery.
Context {S A : Type} {PN : Pnet} {OU : Oui} {DS : DeviceStore S} {MP : Mpsc DiscoveryEvent}.
Context {MR : MpscRecv DiscoveryEvent} {AS : AlertStore A} {MT : MacText}.
Context {MPA : Mpsc Alert.t} {MRA : MpscRecv Alert.t}.
Context {HT : Http} {IT : IpText} {CH : Chrono} {SJ : SerdeJson}.

(** The tasks and stores of [System] (its [handed_on] are all the alerts that
    were fired); the alerts of the current event that [process_event] has not
    sent yet; the alert channel, and whether its receiver still exists; the
    deliveries of the received alert that the fan-out has not started or not
    finished; and how the finished ones went. *)
Record delivery : Type := mkDelivery {
  tasks : system S A;
  outbox : list Alert.t;
  alert_tx : chan Alert.t;
  receiving : bool;
  undelivered : list (notifier * Alert.t);
  outcomes : list (notifier * Alert.t * result unit NotifierError)
}.

(** [for notifier in &self.notifiers]. *)
Definition deliveries_of (ns : list notifier) (a : Alert.t) : list (notifier * Alert.t) :=
  (fun n => (n, a)) <$> ns.

(** Steps 7 to 10 of [run]: without notifiers the receiver is dropped. *)
Definition delivery_start (ns : list notifier) (s : system S A) (tx : chan Alert.t) : delivery :=
  mkDelivery s [] tx (match ns with [] => false | _ => true end) [] [].

(** A task that is neither the rule engine nor the fan-out. *)
Definition other_task (d : delivery) (t : turn) : option delivery :=
  match t with
  | Evaluate _ => None
  | _ => match system_turn (tasks d) t with
         | Done s => Some (mkDelivery s (outbox d) (alert_tx d) (receiving d) (undelivered d) (outcomes d))
         | _ => None
         end
  end.

(** [event_rx.recv()] and the loop of [process_event] over the rules: only
    when every alert of the event before has been sent. *)
Definition engine_receive (d : delivery) (clk : nat -> RuleClock) : option delivery :=
  match outbox d with
  | _ :: _ => None
  | [] =>
      let s := tasks d in
      match try_recv (event_tx (pipeline s)) with
      | None => None
      | Some (ev, c) =>
          let '(en, sent, _) := process_event (ruling s) ev clk in
          Some (mkDelivery (mkSystem (mkEngine (store (pipeline s)) c) en (handed_on s ++ sent))
                  sent (alert_tx d) (receiving d) (undelivered d) (outcomes d))
      end
  end.

(** [fire_alert]: [send] completes when there is room, and fails at once, with
    a log, when the receiver is gone. *)
Definition fire_alert (d : delivery) : option delivery :=
  match outbox d with
  | [] => None
  | a :: rest =>
      if receiving d then
        let (tx, room) := try_send (alert_tx d) a in
        if room then Some (mkDelivery (tasks d) rest tx true (undelivered d) (outcomes d)) else None
      else Some (mkDelivery (tasks d) rest (alert_tx d) false (undelivered d) (outcomes d))
  end.

(** [alert_rx.recv()] of the fan-out, between two alerts. *)
Definition fanout_receive (ns : list notifier) (d : delivery) : option delivery :=
  match undelivered d, receiving d with
  | [], true =>
      match try_recv (alert_tx d) with
      | None => None
      | Some (a, tx) =>
          Some (mkDelivery (tasks d) (outbox d) tx true (deliveries_of ns a) (outcomes d))
      end
  | _, _ => None
  end.

(** [notifier.deliver(&alert).await] returns. *)
Definition fanout_deliver (l : Lettre) (d : delivery) (answer : result Z string) : option delivery :=
  match undelivered d with
  | [] => None
  | (n, a) :: rest =>
      Some (mkDelivery (tasks d) (outbox d) (alert_tx d) (receiving d) rest
              (outcomes d ++ [(n, a, deliver l n a answer)]))
  end.

Inductive action : Type :=
| Task (t : turn)
| EngineReceive (clk : nat -> RuleClock)
| FireAlert
| FanoutReceive
| Delivered (answer : result Z string).

Definition delivery_step (l : Lettre) (ns : list notifier) (d : delivery) (x : action) : option delivery :=
  match x with
  | Task t => other_task d t
  | EngineReceive clk => engine_receive d clk
  | FireAlert => fire_alert d
  | FanoutReceive => fanout_receive ns d
  | Delivered answer => fanout_deliver l d answer
  end.

Inductive delivery_run (l : Lettre) (ns : list notifier) (d0 : delivery) : list action -> delivery -> Prop :=
| run_here : delivery_run l ns d0 [] d0
| run_next xs d x d' :
    delivery_run l ns d0 xs d -> delivery_step l ns d x = Some d' ->
    delivery_run l ns d0 (xs ++ [x]) d'.
End Delivery.
Arguments delivery S A {_ _}.

(** * Specification *)

Section DeliverySpecs.
Context {S A : Type} {PN : Pnet} {OU : Oui} {DS : DeviceStore S} {MP : Mpsc DiscoveryEvent}.
Context {MR : MpscRecv DiscoveryEvent} {AS : AlertStore A} {MT : MacText}.
Context {MPA : Mpsc Alert.t} {MRA : MpscRecv Alert.t}.
Context {HT : Http} {IT : IpText} {CH : Chrono} {SJ : SerdeJson}.
Context {MPL : MpscLaws DiscoveryEvent} {MPAL : MpscLaws Alert.t}.

(** The abstract system evaluates an event and hands its alerts on at once. *)
Definition turn_of (x : action) : option turn :=
  match x with
  | Task t => Some t
  | EngineReceive clk => Some (Evaluate clk)
  | _ => None
  end.
Definition is_delivered (x : action) : bool := match x with Delivered _ => true | _ => false end.
Definition is_task (x : action) : bool := match x with Task _ => true | _ => false end.

(** Every delivery there is to make for these alerts, in order. *)
Definition all_deliveries (ns : list notifier) (alerts : list Alert.t) : list (notifier * Alert.t) :=
  a ← alerts; deliveries_of ns a.
Definition fired (d : delivery S A) : list Alert.t := handed_on (tasks d).
Definition done_deliveries (d : delivery S A) : list (notifier * Alert.t) := fst <$> outcomes d.
(** The alerts on their way to the fan-out. *)
Definition in_transit (d : delivery S A) : list Alert.t := queued (alert_tx d) ++ outbox d.

(** Nothing is left to do but for the tasks that wait for the world. *)
Definition quiet (d : delivery S A) : Prop :=
  events_of (tasks d) = [] /\ outbox d = [] /\ undelivered d = [] /\
  (receiving d = true -> queued (alert_tx d) = []).

(** How many steps can be left: an alert is sent, received, and delivered to
    every notifier; an event can raise an alert per rule. *)
Definition alert_work (ns : list notifier) : nat := 2 + length ns.
Definition event_work (ns : list notifier) (d : delivery S A) : nat :=
  1 + length (rules (ruling (tasks d))) * alert_work ns.
Definition work_left (ns : list notifier) (d : delivery S A) : nat :=
  length (events_of (tasks d)) * event_work ns d + length (outbox d) * alert_work ns +
  length (queued (alert_tx d)) * (1 + length ns) + length (undelivered d).

(** The alerts that a notifier (the one of its kind) was handed. *)
Definition given_to (n : notifier) (l : list (notifier * Alert.t)) : list Alert.t :=
  omap (fun p => if notifier_rank p.1 =? notifier_rank n then Some p.2 else None)%nat l.
Definition delivered_to (n : notifier) (d : delivery S A) : list Alert.t := given_to n (done_deliveries d).

(** What every run from the start keeps. *)
Definition conserved (ns : list notifier) (before : list Alert.t) (d : delivery S A) : Prop :=
  exists since, fired d = before ++ since /\
    done_deliveries d ++ undelivered d ++ all_deliveries ns (in_transit d) = all_deliveries ns since.
End DeliverySpecs.

(** * Lemmas *)

Section DeliveryFacts.
Context {S A : Type} {PN : Pnet} {OU : Oui} {DS : DeviceStore S} {MP : Mpsc DiscoveryEvent}.
Context {MR : MpscRecv DiscoveryEvent} {AS : AlertStore A} {MT : MacText}.
Context {MPA : Mpsc Alert.t} {MRA : MpscRecv Alert.t}.
Context {HT : Http} {IT : IpText} {CH : Chrono} {SJ : SerdeJson}.
Context {MPL : MpscLaws DiscoveryEvent} {MPAL : MpscLaws Alert.t}.
Context {MRL : MpscRecvLaws DiscoveryEvent} {MRAL : MpscRecvLaws Alert.t}.
Implicit Types (d : delivery S A) (ns : list notifier).

Lemma all_deliveries_app ns l k : all_deliveries ns (l ++ k) = all_deliveries ns l ++ all_deliveries ns k.
Proof. apply bind_app. Qed.
Lemma all_deliveries_nil ns : all_deliveries ns [] = [].
Proof. done. Qed.
Lemma all_deliveries_cons ns a l : all_deliveries ns (a :: l) = deliveries_of ns a ++ all_deliveries ns l.
Proof. done. Qed.
Lemma all_deliveries_none l : all_deliveries [] l = [].
Proof. by induction l as [|a l IH]; rewrite ?all_deliveries_cons. Qed.
Lemma length_deliveries_of ns a : length (deliveries_of ns a) = length ns.
Proof. apply length_fmap. Qed.

(** A rule raises at most one alert for an event. *)
Lemma process_event_length (en : rule_engine A) ev clk en' sent res :
  process_event en ev clk = (en', sent, res) ->
  (length sent <= length (rules en))%nat /\ length (rules en') = length (rules en).
Proof.
  intros (Hl & _ & Hs & _)%process_event_spec. split; [|done].
  apply sublist_length in Hs. rewrite !length_fmap in Hs.
  pose proof (filter_length_le (considered ev) (rules en)). lia.
Qed.

(** ** The steps, one by one *)

Lemma other_task_step d t d' :
  other_task d t = Some d' ->
  system_turn (tasks d) t = Done (tasks d') /\ outbox d' = outbox d /\ alert_tx d' = alert_tx d /\
  receiving d' = receiving d /\ undelivered d' = undelivered d /\ outcomes d' = outcomes d /\
  fired d' = fired d /\ rules (ruling (tasks d')) = rules (ruling (tasks d)).
Proof.
  unfold other_task, fired. destruct t as [buf c|now|clk|i]; try done; cbn [system_turn].
  - destruct (process_packet (pipeline (tasks d)) buf c) as [e| |]; try done. by intros [= <-].
  - by intros [= <-].
  - by intros [= <-].
Qed.

Lemma engine_receive_step d clk d' :
  engine_receive d clk = Some d' ->
  outbox d = [] /\ system_turn (tasks d) (Evaluate clk) = Done (tasks d') /\
  alert_tx d' = alert_tx d /\ receiving d' = receiving d /\ undelivered d' = undelivered d /\
  outcomes d' = outcomes d /\ fired d' = fired d ++ outbox d' /\
  (length (outbox d') <= length (rules (ruling (tasks d))))%nat /\
  length (rules (ruling (tasks d'))) = length (rules (ruling (tasks d))) /\
  length (events_of (tasks d)) = Datatypes.S (length (events_of (tasks d'))).
Proof.
  unfold engine_receive, fired, events_of. destruct (outbox d); [|done]. cbn [system_turn].
  pose proof (try_recv_spec (event_tx (pipeline (tasks d)))) as Hr.
  destruct (try_recv (event_tx (pipeline (tasks d)))) as [[ev c]|]; [|done]. destruct Hr as [Hq _].
  destruct (process_event (ruling (tasks d)) ev clk) as [[en sent] res] eqn:E.
  apply process_event_length in E as [Hs Hn]. intros [= <-]. cbn. rewrite Hq. by split_and!.
Qed.

Lemma fire_alert_step d d' :
  fire_alert d = Some d' ->
  tasks d' = tasks d /\ receiving d' = receiving d /\ undelivered d' = undelivered d /\
  outcomes d' = outcomes d /\ exists a, outbox d = a :: outbox d' /\
  if receiving d
  then queued (alert_tx d') = queued (alert_tx d) ++ [a] /\ capacity (alert_tx d') = capacity (alert_tx d) /\
       (length (queued (alert_tx d)) < capacity (alert_tx d))%nat
  else alert_tx d' = alert_tx d.
Proof.
  unfold fire_alert. destruct (outbox d) as [|a rest]; [done|]. destruct (receiving d) eqn:Er.
  - pose proof (try_send_spec (alert_tx d) a) as Hs.
    destruct (try_send (alert_tx d) a) as [tx []]; [|done]. destruct Hs as (Hc & Hl & Hq).
    intros [= <-]. cbn. split_and!; try done. exists a. split_and!; try done. by apply Hl.
  - intros [= <-]. cbn. split_and!; try done. by exists a.
Qed.

Lemma fanout_receive_step ns d d' :
  fanout_receive ns d = Some d' ->
  tasks d' = tasks d /\ outbox d' = outbox d /\ receiving d' = receiving d /\ receiving d = true /\
  outcomes d' = outcomes d /\ undelivered d = [] /\ capacity (alert_tx d') = capacity (alert_tx d) /\
  exists a, queued (alert_tx d) = a :: queued (alert_tx d') /\ undelivered d' = deliveries_of ns a.
Proof.
  unfold fanout_receive. destruct (undelivered d); [|done]. destruct (receiving d) eqn:Er; [|done].
  pose proof (try_recv_spec (alert_tx d)) as Hr. destruct (try_recv (alert_tx d)) as [[a tx]|]; [|done].
  destruct Hr as [Hq Hc]. intros [= <-]. cbn. split_and!; try done. by exists a.
Qed.

Lemma fanout_deliver_step l d answer d' :
  fanout_deliver l d answer = Some d' ->
  tasks d' = tasks d /\ outbox d' = outbox d /\ receiving d' = receiving d /\ alert_tx d' = alert_tx d /\
  exists n a, undelivered d = (n, a) :: undelivered d' /\
    outcomes d' = outcomes d ++ [(n, a, deliver l n a answer)].
Proof.
  unfold fanout_deliver. destruct (undelivered d) as [|[n a] rest]; [done|]. intros [= <-]. cbn.
  split_and!; try done. by exists n, a.
Qed.

(** ** Runs *)

(** The tasks of a run are a run of the abstract system, in which the rule
    engine hands its alerts on at once. *)
Lemma delivery_refines l ns d0 xs d :
  delivery_run l ns d0 xs d -> system_turns (tasks d0) (omap turn_of xs) = Done (tasks d).
Proof.
  induction 1 as [|xs d x d' Hr IH Hx]; [done|]. rewrite omap_app.
  destruct x as [t|clk| | |answer]; cbn [omap list_omap turn_of]; rewrite ?app_nil_r.
  - rewrite (system_turns_snoc _ _ _ _ IH). by apply other_task_step in Hx as [? _].
  - rewrite (system_turns_snoc _ _ _ _ IH). by apply engine_receive_step in Hx as (_ & ? & _).
  - by apply fire_alert_step in Hx as [-> _].
  - by apply fanout_receive_step in Hx as [-> _].
  - by apply fanout_deliver_step in Hx as [-> _].
Qed.

Lemma delivery_step_frame l ns d x d' :
  delivery_step l ns d x = Some d' ->
  receiving d' = receiving d /\ capacity (alert_tx d') = capacity (alert_tx d) /\
  length (rules (ruling (tasks d'))) = length (rules (ruling (tasks d))).
Proof.
  destruct x as [t|clk| | |answer]; simpl; intros H.
  - apply other_task_step in H as (_ & _ & -> & -> & _ & _ & _ & ->). done.
  - apply engine_receive_step in H as (_ & _ & -> & -> & _ & _ & _ & _ & -> & _). done.
  - apply fire_alert_step in H as (-> & -> & _ & _ & a & _ & Ht). destruct (receiving d); [|by rewrite Ht].
    by destruct Ht as (_ & -> & _).
  - apply fanout_receive_step in H as (-> & _ & -> & _ & _ & _ & -> & _). done.
  - apply fanout_deliver_step in H as (-> & _ & -> & -> & _). done.
Qed.

Lemma delivery_run_frame l ns d0 xs d :
  delivery_run l ns d0 xs d ->
  receiving d = receiving d0 /\ capacity (alert_tx d) = capacity (alert_tx d0) /\
  length (rules (ruling (tasks d))) = length (rules (ruling (tasks d0))).
Proof.
  induction 1 as [|xs d x d' _ (IHr & IHc & IHl) Hx]; [done|].
  by apply delivery_step_frame in Hx as (-> & -> & ->).
Qed.

Lemma conserved_step l ns before d x d' :
  (receiving d = false -> ns = []) -> delivery_step l ns d x = Some d' ->
  conserved ns before d -> conserved ns before d'.
Proof.
  intros Hns H (since & Hf & Hc). unfold conserved, in_transit, done_deliveries in *.
  destruct x as [t|clk| | |answer]; simpl in H.
  - exists since. by apply other_task_step in H as (_ & -> & -> & _ & -> & -> & -> & _).
  - apply engine_receive_step in H as (Ho & _ & -> & _ & -> & -> & -> & _).
    exists (since ++ outbox d'). rewrite Hf, <- app_assoc. split; [done|].
    by rewrite !all_deliveries_app, <- Hc, Ho, app_nil_r, <- !app_assoc.
  - apply fire_alert_step in H as (Ht & _ & -> & -> & a & Ho & Hr). unfold fired in *. rewrite Ht.
    exists since. split; [done|]. rewrite <- Hc, Ho. destruct (receiving d).
    + destruct Hr as (-> & _). by rewrite <- app_assoc.
    + by rewrite (Hns eq_refl), !all_deliveries_none.
  - apply fanout_receive_step in H as (Ht & -> & _ & _ & -> & Hu & _ & a & Hq & ->).
    unfold fired in *. rewrite Ht. exists since. split; [done|]. rewrite <- Hc, Hu, Hq.
    cbn [app]. by rewrite all_deliveries_cons.
  - apply fanout_deliver_step in H as (Ht & -> & _ & -> & n & a & Hu & ->).
    unfold fired in *. rewrite Ht. exists since. split; [done|].
    rewrite <- Hc, Hu, fmap_app, <- app_assoc. done.
Qed.

Lemma conserved_run l ns before d0 xs d :
  (receiving d0 = false -> ns = []) -> conserved ns before d0 ->
  delivery_run l ns d0 xs d -> conserved ns before d.
Proof.
  intros Hns H0. induction 1 as [|xs d x d' Hr IH Hx]; [done|].
  eapply conserved_step; [|exact Hx|exact IH]. by apply delivery_run_frame in Hr as (-> & _).
Qed.

Lemma start_receiving ns (s : system S A) tx : receiving (delivery_start ns s tx) = false -> ns = [].
Proof. by destruct ns. Qed.
Lemma start_conserved ns (s : system S A) tx :
  queued tx = [] -> conserved ns (handed_on s) (delivery_start ns s tx).
Proof. intros Hq. exists []. unfold fired, in_transit. cbn. by rewrite app_nil_r, Hq. Qed.

Lemma run_app l ns d0 xs d ys d' :
  delivery_run l ns d0 xs d -> delivery_run l ns d ys d' -> delivery_run l ns d0 (xs ++ ys) d'.
Proof.
  intros H. induction 1 as [|ys d1 y d' _ IH Hy]; [by rewrite app_nil_r|].
  rewrite app_assoc. by econstructor.
Qed.

(** Every outcome is what [deliver] makes of some answer. *)
Lemma outcomes_answered l ns d0 xs d :
  delivery_run l ns d0 xs d -> outcomes d0 = [] ->
  Forall (fun o => exists answer, o.2 = deliver l o.1.1 o.1.2 answer) (outcomes d).
Proof.
  intros H H0. induction H as [|xs d x d' _ IH Hx]; [by rewrite H0|].
  destruct x as [t|clk| | |answer]; simpl in Hx.
  - by apply other_task_step in Hx as (_ & _ & _ & _ & _ & -> & _).
  - by apply engine_receive_step in Hx as (_ & _ & _ & _ & _ & -> & _).
  - by apply fire_alert_step in Hx as (_ & _ & _ & -> & _).
  - by apply fanout_receive_step in Hx as (_ & _ & _ & _ & -> & _).
  - apply fanout_deliver_step in Hx as (_ & _ & _ & _ & n & a & _ & ->). apply Forall_app. split; [done|].
    apply Forall_singleton. by exists answer.
Qed.

Lemma given_to_app n l k : given_to n (l ++ k) = given_to n l ++ given_to n k.
Proof. apply omap_app. Qed.

(** A notifier is handed every alert once. *)
Lemma given_to_deliveries ns n a :
  NoDup (notifier_rank <$> ns) -> n ∈ ns -> given_to n (deliveries_of ns a) = [a].
Proof.
  intros Hnd Hn. apply list_elem_of_split in Hn as (l & k & ->).
  rewrite fmap_app, fmap_cons in Hnd. apply NoDup_app in Hnd as (_ & Hl & [Hk _]%NoDup_cons).
  assert (forall ms, notifier_rank n ∉ notifier_rank <$> ms -> given_to n (deliveries_of ms a) = []) as Hnone.
  { induction ms as [|m ms IH]; intros Hm; [done|].     unfold given_to, deliveries_of in *. simpl. destruct (Nat.eqb_spec (notifier_rank m) (notifier_rank n));
      [destruct Hm; simpl; rewrite e; by left | apply IH; intros Hin; apply Hm; by right]. }
  assert (notifier_rank n ∉ notifier_rank <$> l) as Hl'.
  { intros Hin. apply (Hl _ Hin). by constructor. }
  assert (deliveries_of (l ++ n :: k) a = deliveries_of l a ++ [(n, a)] ++ deliveries_of k a) as ->.
  { unfold deliveries_of. by rewrite fmap_app. }
  rewrite !given_to_app, !Hnone by done. unfold given_to. simpl. by rewrite Nat.eqb_refl.
Qed.

Lemma given_to_all ns n l :
  NoDup (notifier_rank <$> ns) -> n ∈ ns -> given_to n (all_deliveries ns l) = l.
Proof.
  intros Hnd Hn. induction l as [|a l IH]; [done|].
  by rewrite all_deliveries_cons, given_to_app, given_to_deliveries, IH.
Qed.

Lemma build_notifiers_nodup iter built c : NoDup (notifier_rank <$> build_notifiers iter built c).
Proof.
  pose proof (build_notifiers_sorted iter built c) as H.
  induction H as [|x l _ IH Hx]; constructor; [|done].
  intros Hin. rewrite Forall_forall in Hx. specialize (Hx x Hin). lia.
Qed.

(** ** Progress *)

Lemma work_decreases l ns d x d' :
  is_task x = false -> delivery_step l ns d x = Some d' -> (work_left ns d' < work_left ns d)%nat.
Proof.
  intros Ht H. unfold work_left, event_work, alert_work.
  destruct x as [t|clk| | |answer]; [done|..]; simpl in H.
  - apply engine_receive_step in H as (-> & _ & -> & _ & -> & _ & _ & Hs & -> & ->). simpl. nia.
  - apply fire_alert_step in H as (-> & _ & -> & _ & a & -> & Hr). simpl.
    destruct (receiving d); [destruct Hr as (-> & _); rewrite length_app; simpl | rewrite Hr]; lia.
  - apply fanout_receive_step in H as (-> & -> & _ & _ & _ & -> & _ & a & -> & ->).
    rewrite length_deliveries_of. simpl. lia.
  - apply fanout_deliver_step in H as (-> & -> & _ & -> & n & a & -> & _). simpl. lia.
Qed.

Lemma work_bounds_run l ns d xs d' :
  Forall (fun x => is_task x = false) xs -> delivery_run l ns d xs d' ->
  (length xs + work_left ns d' <= work_left ns d)%nat.
Proof.
  intros Hx H. induction H as [|xs d1 x d' _ IH Hs]; [simpl; lia|].
  apply Forall_app in Hx as [Hx Hx1]. apply Forall_inv in Hx1.
  pose proof (work_decreases _ _ _ _ _ Hx1 Hs). rewrite length_app. specialize (IH Hx). simpl. lia.
Qed.

(** Each of the three loops either has nothing to do or can move. *)
Lemma engine_ready d clk :
  outbox d = [] -> events_of (tasks d) = [] \/ exists d', engine_receive d clk = Some d'.
Proof.
  intros Ho. unfold events_of, engine_receive. rewrite Ho.
  pose proof (try_recv_spec (event_tx (pipeline (tasks d)))) as He.
  destruct (try_recv (event_tx (pipeline (tasks d)))) as [[ev c]|]; [right | by left].
  destruct (process_event _ ev clk) as [[en sent] res]. by eexists.
Qed.

Lemma fire_ready d :
  (receiving d = true -> (length (queued (alert_tx d)) < capacity (alert_tx d))%nat) ->
  outbox d = [] \/ exists d', fire_alert d = Some d'.
Proof.
  intros Hroom. unfold fire_alert. destruct (outbox d) as [|a o]; [by left | right].
  destruct (receiving d); [|by eexists]. pose proof (try_send_spec (alert_tx d) a) as Hs.
  destruct (try_send (alert_tx d) a) as [tx []]; [by eexists|]. destruct Hs as (_ & Hl & _).
  by apply Hl in Hroom.
Qed.

Lemma fanout_ready ns d :
  undelivered d = [] -> receiving d = true ->
  queued (alert_tx d) = [] \/ exists d', fanout_receive ns d = Some d'.
Proof.
  intros Hu Hr. unfold fanout_receive. rewrite Hu, Hr. pose proof (try_recv_spec (alert_tx d)) as Hq.
  destruct (try_recv (alert_tx d)) as [[a tx]|]; [right; by eexists | by left].
Qed.

(** Something can be done unless all is quiet. *)
Lemma quiet_or_step l ns d clk answer :
  (0 < capacity (alert_tx d))%nat ->
  quiet d \/ exists x d', delivery_step l ns d x = Some d' /\
    x ∈ [EngineReceive clk; FireAlert; FanoutReceive; Delivered answer].
Proof.
  intros Hcap. destruct (undelivered d) as [|[n a] u] eqn:Eu.
  2:{ right. exists (Delivered answer). simpl. unfold fanout_deliver. rewrite Eu. eexists.
      split; [done|]. set_solver. }
  assert ((receiving d = true -> queued (alert_tx d) = []) \/
          exists d', fanout_receive ns d = Some d') as [Hq|[d' H]].
  { destruct (receiving d) eqn:Er; [|by left]. destruct (fanout_ready ns d Eu Er); [by left | by right]. }
  2:{ right. exists FanoutReceive, d'. split; [done | set_solver]. }
  destruct (fire_ready d) as [Ho|[d' H]].
  { intros Hr. by rewrite (Hq Hr). }
  2:{ right. exists FireAlert, d'. split; [done | set_solver]. }
  destruct (engine_ready d clk Ho) as [He|[d' H]]; [by left|].
  right. exists (EngineReceive clk), d'. split; [done | set_solver].
Qed.

Lemma drain l ns d :
  (0 < capacity (alert_tx d))%nat ->
  exists ys d', Forall (fun x => is_task x = false) ys /\ delivery_run l ns d ys d' /\ quiet d'.
Proof.
  remember (work_left ns d) as w eqn:Hw. revert d Hw.
  induction w as [w IH] using lt_wf_ind. intros d -> Hcap.
  destruct (quiet_or_step l ns d (fun _ => mkRuleClock 0 0) (Ok 200) Hcap) as [Hq|(x & d1 & Hx & Hin)].
  { exists [], d. split_and!; [constructor | constructor | done]. }
  assert (is_task x = false) as Ht.
  { repeat (apply elem_of_cons in Hin as [->|Hin]; [done|]). by apply not_elem_of_nil in Hin. }
  pose proof (work_decreases _ _ _ _ _ Ht Hx) as Hlt.
  destruct (IH _ Hlt d1 eq_refl) as (ys & d' & Hys & Hr & Hq).
  { by apply delivery_step_frame in Hx as (_ & -> & _). }
  exists ([x] ++ ys), d'. split_and!; [by constructor | | done].
  eapply run_app; [|exact Hr]. apply (run_next l ns d [] d x d1); [constructor | done].
Qed.

Lemma quiet_done ns before d :
  (receiving d = false -> ns = []) -> quiet d -> conserved ns before d ->
  exists since, fired d = before ++ since /\ done_deliveries d = all_deliveries ns since.
Proof.
  intros Hns (_ & Ho & Hu & Hq) (since & Hf & Hc). exists since. split; [done|]. rewrite <- Hc, Hu.
  unfold in_transit. rewrite Ho, app_nil_r. destruct (receiving d).
  - by rewrite (Hq eq_refl), app_nil_r.
  - by rewrite (Hns eq_refl), all_deliveries_none, app_nil_r.
Qed.

(** ** A delivery that does not return *)

Lemma send_all_grows (c : chan DiscoveryEvent) evs :
  exists l, queued (send_all c evs) = queued c ++ l /\ capacity (send_all c evs) = capacity c /\
    (length (queued (send_all c evs)) <= Nat.max (length (queued c)) (capacity c))%nat.
Proof.
  revert c. induction evs as [|ev evs IH]; intros c.
  { exists []. rewrite app_nil_r. split_and!; [done..|]. cbn [send_all foldl]. lia. }
  change (send_all c (ev :: evs)) with (send_all (try_send c ev).1 evs).
  destruct (IH (try_send c ev).1) as (l & -> & -> & Hb). pose proof (try_send_spec c ev) as Hs.
  destruct (try_send c ev) as [c' ok]. cbn [fst] in *. destruct Hs as (Hc & Hl & Hq).
  rewrite Hc in Hb. destruct ok; rewrite Hq in *.
  - exists (ev :: l). rewrite <- app_assoc. split_and!; [done..|]. rewrite !length_app in *. simpl in *.
    pose proof (proj1 Hl eq_refl). lia.
  - by exists l.
Qed.

Lemma update_one_sends (e : engine S) m t touch changed :
  exists evs, event_tx (update_one e m t touch changed).1 = send_all (event_tx e) evs.
Proof.
  unfold update_one. destruct (ds_get (store e) m) as [found|err]; [|by exists []].
  destruct (ds_upsert _ _) as [s' [u|err]]; [|by exists []]. destruct found as [d|]; simpl.
  - destruct (changed _ _); [by eexists [_] | by exists []].
  - by eexists [_].
Qed.

Lemma process_packet_sends (e e' : engine S) buf c :
  process_packet e buf c = Done e' -> exists evs, event_tx e' = send_all (event_tx e) evs.
Proof.
  unfold process_packet. destruct (decode_packet buf) as [[packet|err]| |]; try done.
  2:{ intros [= <-]. by exists []. }
  simpl. destruct (classify packet) as [p| |]; try done. simpl.
  destruct (extract_names packet p) as [n| |]; try done. intros [= <-]. unfold update_devices.
  match goal with |- context [update_one e ?m ?t ?f ?g] =>
    destruct (update_one_sends e m t f g) as [l Hl]; destruct (update_one e m t f g) as [e1 [u|err]] end;
    simpl in *; [|by exists l].
  case_bool_decide; [by exists l|].
  match goal with |- context [update_one e1 ?m ?t ?f ?g] => destruct (update_one_sends e1 m t f g) as [k ->] end.
  exists (l ++ k). by rewrite Hl, send_all_app.
Qed.

Lemma other_task_sends d t d' :
  other_task d t = Some d' ->
  exists evs, event_tx (pipeline (tasks d')) = send_all (event_tx (pipeline (tasks d))) evs.
Proof.
  unfold other_task. destruct t as [buf c|now|clk|i]; try done; cbn [system_turn].
  - destruct (process_packet (pipeline (tasks d)) buf c) as [e| |] eqn:E; try done. intros [= <-].
    by eapply process_packet_sends.
  - intros [= <-]. cbn. unfold scan_turn. destruct (ds_list _) as [ds|err]; [|by exists []].
    destruct (emit_all (pipeline (tasks d)) (List.filter (silent_too_long now) ds)) as [_ ->]. by eexists.
  - intros [= <-]. by exists [].
Qed.

(** What the capacities bound. *)
Definition bounded (d : delivery S A) : Prop :=
  (length (queued (alert_tx d)) <= capacity (alert_tx d))%nat /\
  (length (outbox d) <= length (rules (ruling (tasks d))))%nat /\
  (receiving d = false -> undelivered d = []).

Lemma bounded_step l ns d x d' :
  delivery_step l ns d x = Some d' -> bounded d -> bounded d'.
Proof.
  unfold bounded. intros H (Hq & Ho & Hu). pose proof (delivery_step_frame _ _ _ _ _ H) as (Hr & Hc & Hl).
  rewrite Hr, Hc, Hl. destruct x as [t|clk| | |answer]; simpl in H.
  - by apply other_task_step in H as (_ & -> & -> & _ & -> & _).
  - by apply engine_receive_step in H as (_ & _ & -> & _ & -> & _ & _ & ? & _).
  - apply fire_alert_step in H as (_ & _ & -> & _ & a & Ho' & Ht). rewrite Ho' in Ho. simpl in Ho.
    split_and!; [|lia|done]. destruct (receiving d); [|by rewrite Ht].
    destruct Ht as (-> & _ & Hlt). rewrite length_app. simpl. lia.
  - apply fanout_receive_step in H as (_ & -> & _ & -> & _ & _ & _ & a & Hq' & _). rewrite Hq' in Hq.
    simpl in Hq. by split_and!; [lia|..].
  - apply fanout_deliver_step in H as (_ & -> & _ & -> & n & a & Hu' & _). split_and!; [done..|].
    intros Hf. rewrite (Hu Hf) in Hu'. done.
Qed.

Lemma bounded_run l ns d0 xs d : delivery_run l ns d0 xs d -> bounded d0 -> bounded d.
Proof. induction 1; [done|]. intros. eapply bounded_step; eauto. Qed.

Lemma start_bounded ns (s : system S A) tx : queued tx = [] -> bounded (delivery_start ns s tx).
Proof. intros Hq. unfold bounded. cbn. rewrite Hq. simpl. split_and!; [lia..|done]. Qed.

(** While the fan-out waits, what is fired piles up. *)
Lemma stuck_step l ns d x d' :
  is_delivered x = false -> undelivered d <> [] -> bounded d -> delivery_step l ns d x = Some d' ->
  undelivered d' = undelivered d /\ outcomes d' = outcomes d /\
  (length (fired d') + length (in_transit d) = length (fired d) + length (in_transit d'))%nat.
Proof.
  intros Hx Hu (_ & _ & Hrec) H. unfold in_transit, fired.
  destruct x as [t|clk| | |answer]; [..|done]; simpl in H.
  - apply other_task_step in H as (_ & -> & -> & _ & -> & -> & Hf & _). unfold fired in Hf. by rewrite Hf.
  - apply engine_receive_step in H as (Ho & _ & -> & _ & -> & -> & Hf & _). unfold fired in Hf.
    split_and!; [done..|]. rewrite Hf, Ho, !length_app. simpl. lia.
  - apply fire_alert_step in H as (-> & _ & -> & -> & a & Ho & Ht). split_and!; [done..|]. rewrite Ho.
    destruct (receiving d); [|by rewrite Hrec in Hu].
    destruct Ht as (-> & _). rewrite !length_app. simpl. lia.
  - by apply fanout_receive_step in H as (_ & _ & _ & _ & _ & ? & _).
Qed.

Lemma stuck_run l ns d xs d' :
  Forall (fun x => is_delivered x = false) xs -> undelivered d <> [] -> bounded d ->
  delivery_run l ns d xs d' ->
  undelivered d' = undelivered d /\ outcomes d' = outcomes d /\
  (length (fired d') + length (in_transit d) = length (fired d) + length (in_transit d'))%nat.
Proof.
  intros Hx Hu Hb H. induction H as [|xs d1 x d2 Hr IH Hs]; [done|].
  apply Forall_app in Hx as [Hx Hx1]. apply Forall_inv in Hx1.
  destruct (IH Hx) as (Hu1 & Ho1 & Hf1). pose proof (bounded_run _ _ _ _ _ Hr Hb) as Hb1.
  rewrite <- Hu1 in Hu. destruct (stuck_step _ _ _ _ _ Hx1 Hu Hb1 Hs) as (-> & -> & ?).
  split_and!; [done..|]. lia.
Qed.

(** With the channel full and an alert to send, only the other tasks move. *)
Definition jammed (d : delivery S A) : Prop :=
  undelivered d <> [] /\ outbox d <> [] /\ length (queued (alert_tx d)) = capacity (alert_tx d) /\
  receiving d = true.

Lemma jammed_step l ns d x d' :
  is_delivered x = false -> jammed d -> delivery_step l ns d x = Some d' ->
  jammed d' /\ fired d' = fired d /\ rules (ruling (tasks d')) = rules (ruling (tasks d)) /\
  exists evs, event_tx (pipeline (tasks d')) = send_all (event_tx (pipeline (tasks d))) evs.
Proof.
  intros Hx (Hu & Ho & Hq & Hr) H. destruct x as [t|clk| | |answer]; [..|done]; simpl in H.
  - pose proof (other_task_sends _ _ _ H) as Hs.
    apply other_task_step in H as (_ & Ho' & Ht' & Hr' & Hu' & _ & Hf' & Hl'). unfold jammed.
    by rewrite Ho', Ht', Hr', Hu'.
  - by apply engine_receive_step in H as (? & _).
  - apply fire_alert_step in H as (_ & _ & _ & _ & a & _ & Ht). rewrite Hr in Ht.
    destruct Ht as (_ & _ & ?). lia.
  - by apply fanout_receive_step in H as (_ & _ & _ & _ & _ & ? & _).
Qed.

Lemma jammed_run l ns d xs d' :
  Forall (fun x => is_delivered x = false) xs -> jammed d -> delivery_run l ns d xs d' ->
  jammed d' /\ fired d' = fired d /\ rules (ruling (tasks d')) = rules (ruling (tasks d)) /\
  exists evs, event_tx (pipeline (tasks d')) = send_all (event_tx (pipeline (tasks d))) evs.
Proof.
  intros Hx Hj H. induction H as [|xs d1 x d2 Hr IH Hs].
  { split_and!; try done. by exists []. }
  apply Forall_app in Hx as [Hx Hx1]. apply Forall_inv in Hx1.
  destruct (IH Hx) as (Hj1 & Hf1 & Hl1 & evs & He1).
  destruct (jammed_step _ _ _ _ _ Hx1 Hj1 Hs) as (Hj2 & -> & -> & evs' & He2).
  split_and!; [done..|]. exists (evs ++ evs'). by rewrite He2, He1, send_all_app.
Qed.
End DeliveryFacts.

(** * Properties *)

Section Properties.
Context {S A : Type} {PN : Pnet} {PNL : PnetLaws} {OU : Oui} {DS : DeviceStore S}.
Context {MP : Mpsc DiscoveryEvent} {MR : MpscRecv DiscoveryEvent} {AS : AlertStore A} {MT : MacText}.
Context {MPA : Mpsc Alert.t} {MRA : MpscRecv Alert.t}.
Context {HT : Http} {IT : IpText} {CH : Chrono} {SJ : SerdeJson}.
Context {DSL : DeviceStoreLaws S} {MPL : MpscLaws DiscoveryEvent} {MPAL : MpscLaws Alert.t}.
Context {MRL : MpscRecvLaws DiscoveryEvent} {MRAL : MpscRecvLaws Alert.t} {ASL : AlertStoreLaws A}.

(** C8: the bounded channel and the sequential fan-out implement the abstract
    hand-over, in any interleaving, with any rules, stores and answers.  The
    tasks of a run are a run of the abstract system, which hands an event's
    alerts on in one step; the deliveries made, the one in progress and those
    of the alerts in the channel and in the engine's hands are together one
    delivery per fired alert and notifier, in that order, each made once and
    never repeated, whatever was answered; so each notifier has been handed a
    prefix of what was fired. *)
Theorem alerts_delivered_in_order (s0 : system S A) (l : Lettre) (c : Config.t)
  (iter : gmap string string -> list (string * string)) (built : notifier -> bool)
  (tx : chan Alert.t) (xs : list action) (d : delivery S A) :
  let ns := build_notifiers iter built c in
  queued tx = [] -> delivery_run l ns (delivery_start ns s0 tx) xs d ->
  system_turns s0 (omap turn_of xs) = Done (tasks d) /\
  Forall (fun o => exists answer, o.2 = deliver l o.1.1 o.1.2 answer) (outcomes d) /\
  exists since, handed_on (tasks d) = handed_on s0 ++ since /\
    done_deliveries d ++ undelivered d ++ all_deliveries ns (in_transit d) = all_deliveries ns since /\
    forall n, n ∈ ns -> delivered_to n d `prefix_of` since.
Proof.
  intros ns Hq Hr. split; [exact (delivery_refines _ _ _ _ _ Hr)|].
  split; [by eapply outcomes_answered|].
  destruct (conserved_run _ _ (handed_on s0) _ _ _ (start_receiving ns s0 tx) (start_conserved ns s0 tx Hq) Hr)
    as (since & Hf & Hc).
  exists since. split_and!; [done..|]. intros n Hn. exists (given_to n (undelivered d ++ all_deliveries ns (in_transit d))).
  unfold delivered_to. rewrite <- given_to_app, Hc. by rewrite given_to_all by (done || apply build_notifiers_nodup).
Qed.

(** C2: end to end, from a frame on the wire to the notifiers.  On a daemon
    without rules of its own, over any interleaving of all its tasks in which
    the event channel never overflows and the alert store takes what it is
    given, once everything queued is worked off each configured notifier has
    been handed an alert for exactly the devices that are new in the
    inventory, one each. *)
Theorem new_devices_notified_once (s0 : system S A) (l : Lettre) (c : Config.t)
  (iter : gmap string string -> list (string * string)) (built : notifier -> bool)
  (tx : chan Alert.t) (xs : list action) (d : delivery S A) (n : notifier) :
  let ns := build_notifiers iter built c in
  starting s0 -> queued tx = [] -> smooth_run s0 (omap turn_of xs) ->
  delivery_run l ns (delivery_start ns s0 tx) xs d -> quiet d -> n ∈ ns ->
  Alert.mac <$> delivered_to n d ≡ₚ elements (dom (inventory (tasks d)) ∖ dom (inventory s0)).
Proof.
  intros ns Hs Hq Hsm Hr Hqu Hn.
  pose proof (on_track_run _ _ _ _ (on_track_start _ Hs) Hsm (delivery_refines _ _ _ _ _ Hr))
    as (_ & _ & _ & Hp & _).
  rewrite (proj1 Hqu) in Hp. rewrite <- Hp. pose proof Hr as Hr'. apply delivery_run_frame in Hr' as (Hrec & _).
  destruct (quiet_done ns (handed_on s0) d) as (since & Hf & Hd); [by rewrite Hrec; apply start_receiving|done| |].
  { eapply conserved_run; [apply start_receiving | by apply start_conserved | exact Hr]. }
  unfold delivered_to. rewrite Hd, given_to_all by (done || apply build_notifiers_nodup).
  unfold fired in Hf. rewrite Hf. destruct Hs as (_ & _ & Hh & _). by rewrite Hh.
Qed.

(** C9: delivery ends, and loses nothing.  Whatever the rules, and whatever
    had happened before, if the channel has a place and no new work comes in,
    the engine and the fan-out can make at most [work_left] more steps; they
    can make one unless all is quiet, whatever the clients answer; and when
    all is quiet every alert fired since the start went to every notifier. *)
Theorem deliveries_drain (s0 : system S A) (l : Lettre) (ns : list notifier) (tx : chan Alert.t)
  (xs : list action) (d : delivery S A) :
  queued tx = [] -> (0 < capacity tx)%nat -> delivery_run l ns (delivery_start ns s0 tx) xs d ->
  (forall ys d', Forall (fun x => is_task x = false) ys -> delivery_run l ns d ys d' ->
     (length ys <= work_left ns d)%nat /\
     (quiet d' ->
        exists since, handed_on (tasks d') = handed_on s0 ++ since /\
          done_deliveries d' = all_deliveries ns since) /\
     (~ quiet d' -> forall clk answer, exists x d'', delivery_step l ns d' x = Some d'' /\
        x ∈ [EngineReceive clk; FireAlert; FanoutReceive; Delivered answer])) /\
  exists ys d', Forall (fun x => is_task x = false) ys /\ delivery_run l ns d ys d' /\ quiet d'.
Proof.
  intros Hq Hcap Hr. pose proof (delivery_run_frame _ _ _ _ _ Hr) as (Hrec & Hc & _).
  assert (0 < capacity (alert_tx d))%nat as Hcd by (rewrite Hc; destruct ns; exact Hcap).
  split; [|by apply drain]. intros ys d' Hys Hr'. split.
  { pose proof (work_bounds_run _ _ _ _ _ Hys Hr'). lia. }
  pose proof (delivery_run_frame _ _ _ _ _ Hr') as (Hrec' & Hc' & _). split.
  - intros Hqu. apply (quiet_done ns (handed_on s0) d'); [|done|].
    + rewrite Hrec', Hrec. apply start_receiving.
    + eapply conserved_run; [apply start_receiving | by apply start_conserved | by eapply run_app].
  - intros Hnq clk answer. destruct (quiet_or_step l ns d' clk answer) as [|H]; [by rewrite Hc' | done | exact H].
Qed.

(** C10: a notifier that does not answer stops them all.  While one delivery
    does not return, nothing is delivered to anybody; at most the capacity of
    the alert channel and one alert per rule are fired; and once the channel
    is full with an alert waiting, the rule engine is frozen: whatever the
    network does, no alert is fired, the queued events only pile up to the
    capacity of their channel, and every event beyond that is lost. *)
Theorem stuck_notifier_stalls_engine (s0 : system S A) (l : Lettre) (ns : list notifier)
  (tx : chan Alert.t) (xs ys : list action) (d d' : delivery S A) :
  queued tx = [] -> delivery_run l ns (delivery_start ns s0 tx) xs d -> undelivered d <> [] ->
  Forall (fun x => is_delivered x = false) ys -> delivery_run l ns d ys d' ->
  outcomes d' = outcomes d /\ undelivered d' = undelivered d /\
  (length (handed_on (tasks d')) + length (in_transit d) <=
     length (handed_on (tasks d)) + capacity tx + length (rules (ruling s0)))%nat /\
  (length (queued (alert_tx d)) = capacity tx -> outbox d <> [] ->
     handed_on (tasks d') = handed_on (tasks d) /\ rules (ruling (tasks d')) = rules (ruling (tasks d)) /\
     exists more, events_of (tasks d') = events_of (tasks d) ++ more /\
       (length (events_of (tasks d)) + length more <=
          Nat.max (length (events_of (tasks d))) (capacity (event_tx (pipeline (tasks d)))))%nat).
Proof.
  intros Hq Hr Hu Hys Hr'. pose proof (bounded_run _ _ _ _ _ Hr (start_bounded ns s0 tx Hq)) as Hb.
  pose proof (delivery_run_frame _ _ _ _ _ Hr) as (_ & Hc & Hl).
  pose proof (bounded_run _ _ _ _ _ Hr' Hb) as (Hq' & Ho' & _).
  pose proof (delivery_run_frame _ _ _ _ _ Hr') as (_ & Hc' & Hl').
  destruct (stuck_run _ _ _ _ _ Hys Hu Hb Hr') as (Hu' & Ho & Hf).
  assert (capacity (alert_tx (delivery_start ns s0 tx)) = capacity tx) as Hcs by by destruct ns.
  split_and!; [done..| |].
  - unfold fired, in_transit in *. rewrite !length_app in *. simpl in *. lia.
  - intros Hfull Hout. assert (jammed d) as Hj.
    { split_and!; [done..|congruence|]. destruct Hb as (_ & _ & Hrec).
      destruct (receiving d); [done | by rewrite Hrec in Hu]. }
    destruct (jammed_run _ _ _ _ _ Hys Hj Hr') as (_ & Hf' & Hl2 & evs & He). split_and!; [done..|].
    destruct (send_all_grows (event_tx (pipeline (tasks d))) evs) as (more & Hm & _ & Hle).
    exists more. unfold events_of. rewrite He, Hm in *. split; [done|]. rewrite length_app in Hle. lia.
Qed.
End Properties.

(** * Witnesses *)

#[local] Existing Instances ref_mac_text std_ip_text ref_chrono ref_serde_json wire_pnet wire_pnet_laws
  demo_oui queue_mpsc queue_mpsc_laws queue_recv queue_recv_laws demo_http.

(** Two notifiers and room for one alert: the frame of [System] brings two
    devices; the second alert waits while the first is delivered. *)
Definition demo_two : Config.t :=
  Config.mk "eth0" 8080 "0.0.0.0" ApiConfig.default_config "info" 4096 ""
    (Some (MqttConfig.mk "broker" 1883 "t" "c" None None 1))
    (Some (NtfyConfig.mk "https://ntfy.sh" "edgeshield" None None None)) None None []
    ScannerConfig.default_config StorageConfig.default_config.
Definition demo_notifiers : list notifier := build_notifiers map_to_list (fun _ => true) demo_two.
Definition demo_lettre : Lettre := mkLettre (fun _ => Ok tt) (fun _ _ => Ok tt).
Definition demo_alert_tx : @chan Alert.t (queue_mpsc Alert.t) := ([], 1%nat).
Definition demo_begin : delivery MemoryStore.t InMemoryAlertStore.t :=
  delivery_start demo_notifiers demo_idle demo_alert_tx.

Fixpoint follow (d : delivery MemoryStore.t InMemoryAlertStore.t) (xs : list action)
  : option (delivery MemoryStore.t InMemoryAlertStore.t) :=
  match xs with
  | [] => Some d
  | x :: xs' =>
      match delivery_step demo_lettre demo_notifiers d x with Some d' => follow d' xs' | None => None end
  end.

Lemma follow_run d xs d' : follow d xs = Some d' -> delivery_run demo_lettre demo_notifiers d xs d'.
Proof.
  revert d. induction xs as [|x xs IH]; intros d; cbn [follow]; [intros [= ->]; constructor|].
  destruct (delivery_step demo_lettre demo_notifiers d x) as [d1|] eqn:E; [|done]. intros H.
  apply (run_app _ _ _ [x] d1); [|by apply IH]. 
  apply (run_next _ _ _ [] d); [constructor | exact E].
Qed.

Definition demo_opening : list action :=
  [Task demo_frame; EngineReceive (demo_clock 2); FireAlert; FanoutReceive; EngineReceive (demo_clock 3);
   FireAlert].
Definition demo_closing : list action :=
  [Delivered (Ok 200); Delivered (Err "broker down"); FanoutReceive; Delivered (Ok 500); Delivered (Ok 0)].
Definition demo_middle : delivery MemoryStore.t InMemoryAlertStore.t :=
  default demo_begin (follow demo_begin demo_opening).
Definition demo_end : delivery MemoryStore.t InMemoryAlertStore.t :=
  default demo_middle (follow demo_middle demo_closing).

(** A third device while the first alert is still out: the engine is stuck. *)
Definition demo_third : turn := Frame (mkPacketBuf (<[5%nat := 9]> tcp_syn_frame) 14) (demo_clock_at 4).
Definition demo_fourth : turn := Frame (mkPacketBuf (<[5%nat := 10]> tcp_syn_frame) 14) (demo_clock_at 5).
Definition demo_jammed : delivery MemoryStore.t InMemoryAlertStore.t :=
  default demo_middle (follow demo_middle [Task demo_third; EngineReceive (demo_clock 5)]).
Definition demo_later : delivery MemoryStore.t InMemoryAlertStore.t :=
  default demo_jammed (follow demo_jammed [Task demo_fourth]).

Lemma demo_tx_empty : queued demo_alert_tx = [].
Proof. reflexivity. Qed.
Lemma demo_opening_run : delivery_run demo_lettre demo_notifiers demo_begin demo_opening demo_middle.
Proof. apply follow_run. vm_compute. reflexivity. Qed.
Lemma demo_closing_run : delivery_run demo_lettre demo_notifiers demo_middle demo_closing demo_end.
Proof. apply follow_run. vm_compute. reflexivity. Qed.
Lemma demo_full_run :
  delivery_run demo_lettre demo_notifiers demo_begin (demo_opening ++ demo_closing) demo_end.
Proof. eapply run_app; [apply demo_opening_run | apply demo_closing_run]. Qed.
Lemma demo_jammed_run :
  delivery_run demo_lettre demo_notifiers demo_begin
    (demo_opening ++ [Task demo_third; EngineReceive (demo_clock 5)]) demo_jammed.
Proof. eapply run_app; [apply demo_opening_run |]. apply follow_run. vm_compute. reflexivity. Qed.
Lemma demo_later_run : delivery_run demo_lettre demo_notifiers demo_jammed [Task demo_fourth] demo_later.
Proof. apply follow_run. vm_compute. reflexivity. Qed.

Lemma demo_end_quiet : quiet demo_end.
Proof. split_and!; try intros _; vm_compute; reflexivity. Qed.
Lemma demo_jammed_is :
  undelivered demo_jammed <> [] /\ outbox demo_jammed <> [] /\
  length (queued (alert_tx demo_jammed)) = capacity demo_alert_tx.
Proof. split_and!; vm_compute; discriminate || reflexivity. Qed.
Lemma demo_later_events : length (events_of (tasks demo_later)) = 1%nat.
Proof. vm_compute. reflexivity. Qed.

(** The last of the evaluations, too, finds nothing in its way. *)
Lemma demo_smooth_run : smooth_run demo_idle (omap turn_of (demo_opening ++ demo_closing)).
Proof.
  change (omap turn_of (demo_opening ++ demo_closing)) with
    [demo_frame; demo_evaluation; Evaluate (demo_clock 3)].
  cbn [smooth_run]. split; [exact (proj1 demo_smooth)|].
  intros s1 H1. rewrite demo_first_step in H1. injection H1 as <-.
  split; [split; [vm_compute; reflexivity | by intros]|].
  intros s2 H2. rewrite demo_second_step in H2. injection H2 as <-.
  split; [split; [vm_compute; reflexivity | by intros] | by intros].
Qed.

Lemma alerts_delivered_in_order_witness :
  exists since, handed_on (tasks demo_middle) = handed_on demo_idle ++ since /\
    done_deliveries demo_middle ++ undelivered demo_middle ++
      all_deliveries demo_notifiers (in_transit demo_middle) = all_deliveries demo_notifiers since.
Proof.
  destruct (alerts_delivered_in_order demo_idle demo_lettre demo_two map_to_list (fun _ => true)
    demo_alert_tx demo_opening demo_middle demo_tx_empty demo_opening_run) as (_ & _ & since & Hh & Hc & _).
  exists since. exact (conj Hh Hc).
Defined.

Lemma new_devices_notified_once_witness :
  Forall (fun n => Alert.mac <$> delivered_to n demo_end ≡ₚ
      elements (dom (inventory (tasks demo_end)) ∖ dom (inventory demo_idle))) demo_notifiers.
Proof.
  apply Forall_forall. intros n Hn.
  exact (new_devices_notified_once demo_idle demo_lettre demo_two map_to_list (fun _ => true)
    demo_alert_tx (demo_opening ++ demo_closing) demo_end n demo_starting demo_tx_empty demo_smooth_run
    demo_full_run demo_end_quiet Hn).
Defined.

Lemma deliveries_drain_witness :
  (length demo_closing <= work_left demo_notifiers demo_middle)%nat /\
  exists since, handed_on (tasks demo_end) = handed_on demo_idle ++ since /\
    done_deliveries demo_end = all_deliveries demo_notifiers since.
Proof.
  destruct (deliveries_drain demo_idle demo_lettre demo_notifiers demo_alert_tx demo_opening demo_middle
    demo_tx_empty (Nat.lt_0_succ 0) demo_opening_run) as [H _].
  destruct (H demo_closing demo_end) as (Hl & Hq & _); [repeat constructor | exact demo_closing_run|].
  split; [exact Hl | exact (Hq demo_end_quiet)].
Defined.

Lemma stuck_notifier_stalls_engine_witness :
  outcomes demo_later = outcomes demo_jammed /\
  handed_on (tasks demo_later) = handed_on (tasks demo_jammed) /\
  length (events_of (tasks demo_later)) = 1%nat.
Proof.
  destruct demo_jammed_is as (Hu & Ho & Hf).
  destruct (stuck_notifier_stalls_engine demo_idle demo_lettre demo_notifiers demo_alert_tx
    (demo_opening ++ [Task demo_third; EngineReceive (demo_clock 5)]) [Task demo_fourth]
    demo_jammed demo_later demo_tx_empty demo_jammed_run Hu) as (H1 & _ & _ & H2);
    [repeat constructor | exact demo_later_run|].
  destruct (H2 Hf Ho) as (H3 & _). split; [exact H1|]. split; [exact H3 | exact demo_later_events].
Defined.
