(* ===== verification/Lifecycle.v ===== *)
(** Lives of the daemon: what is opened at the start, the tasks of [System]
    next to the flush task over the SQLite store, the end of [run], and the
    next start on the database that is left ([crates/daemon/src/daemon.rs],
    [crates/storage/src/sqlite.rs]).  The theorem is about any number of
    lives. *)

From S2P Require Import Prelude Text Types Reference Net Packet Classify Dhcp Mdns Oui Stores Discovery.
From S2P Require Import Json Sqlite HistorySqlite Config Alerts Rules Daemon System.

(** * One life *)

Section Lifecycle.
Context {MT : MacText} {IT : IpText} {CH : Chrono} {SJ : SerdeJson}.
Context {PN : Pnet} {OU : Oui} {MP : Mpsc DiscoveryEvent} {MR : MpscRecv DiscoveryEvent}.
Context {A : Type} {AS : AlertStore A}.
Variables (bind_error row_error : string) (iter : gset MacAddress -> list MacAddress).

(** The start: the store over the table that is there, an empty channel, the
    rules, and the alert store [alerts]. *)
Definition boot (rules : list Rule.t) (path : string) (t : Timestamp) (io : SqliteStore.open_io) (tbl : devices_table)
  (tx : chan DiscoveryEvent) (alerts : A) : result (option (system SqliteStore.t A)) StorageError :=
  let? opened := SqliteStore.open row_error path t io tbl in
  Ok ((fun st => mkSystem (mkEngine st tx) (mkRuleEngine rules alerts) []) <$> opened).

(** A turn of a task, the flush task included. *)
Inductive life_event : Type :=
| Turn (t : turn)
| FlushTurn (io : sql_io).
Definition life_turn (s : system SqliteStore.t A) (ev : life_event) : exec (system SqliteStore.t A) :=
  match ev with
  | Turn t => system_turn s t
  | FlushTurn io =>
      Done (mkSystem (with_store (pipeline s) (SqliteStore.flush bind_error iter io (store (pipeline s))).1)
              (ruling s) (handed_on s))
  end.
Fixpoint life_turns (s : system SqliteStore.t A) (evs : list life_event) : exec (system SqliteStore.t A) :=
  match evs with
  | [] => Done s
  | ev :: evs' => run! s' := life_turn s ev in life_turns s' evs'
  end.

(** The end: the tasks are aborted, the rule engine with the events it had
    not received, and the cache is flushed. *)
Definition life_end (s : system SqliteStore.t A) (io : sql_io) : SqliteStore.t * result nat StorageError :=
  SqliteStore.flush bind_error iter io (store (pipeline s)).
End Lifecycle.

(** * Specification *)

Section LifeSpecs.
Context {MT : MacText} {IT : IpText} {CH : Chrono} {SJ : SerdeJson}.
Context {PN : Pnet} {OU : Oui} {MP : Mpsc DiscoveryEvent} {MR : MpscRecv DiscoveryEvent}.
Context {MPL : MpscLaws DiscoveryEvent} {A : Type} {AS : AlertStore A} {ASL : AlertStoreLaws A}.
Variables (bind_error row_error : string) (iter : gset MacAddress -> list MacAddress).

(** The frames are byte strings, and the clock is in the range of [chrono]. *)
Definition life_sane (ev : life_event) : Prop :=
  match ev with Turn (Frame buf c) => bytes_ok (raw buf) /\ clock_ok c | _ => True end.
(** Nothing goes wrong at a turn; a flush may fail. *)
Definition life_smooth (s : system SqliteStore.t A) (ev : life_event) : Prop :=
  match ev with
  | Turn t => smooth s t /\ match t with Frame _ c => clock_ok c | _ => True end
  | FlushTurn _ => True
  end.
Fixpoint smooth_life (s : system SqliteStore.t A) (evs : list life_event) : Prop :=
  match evs with
  | [] => True
  | ev :: evs' =>
      life_smooth s ev /\
      forall s', life_turn bind_error iter s ev = Done s' -> smooth_life s' evs'
  end.

(** Lives in a row, on one database: the addresses alerts were handed on for,
    the addresses whose discovery died with the rule engine, the table and
    the alert store that the last life left.  The rows come in any order; the
    alerts may be kept or forgotten. *)
Inductive lives : list MacAddress -> list MacAddress -> devices_table -> A -> Prop :=
| first_start alerts :
    as_inv alerts ->
    (forall i x, as_map alerts !! i = Some x -> Alert.rule_name x <> "new_device") ->
    lives [] [] ∅ alerts
| next_life reported lost tbl alerts path t oio rs tx alerts' s0 evs s1 io st n :
    lives reported lost tbl alerts ->
    SqliteStore.rows oio = Ok rs -> rs ≡ₚ (map_to_list tbl).*2 ->
    as_inv alerts' -> as_map alerts' ⊆ as_map alerts -> queued tx = [] ->
    boot row_error [default_rule] path t oio tbl tx alerts' = Ok (Some s0) ->
    smooth_life s0 evs -> life_turns bind_error iter s0 evs = Done s1 ->
    life_end bind_error iter s1 io = (st, Ok n) ->
    lives (reported ++ (Alert.mac <$> handed_on s1)) (lost ++ discovered (events_of s1))
      (SqliteStore.conn st) (alert_store (ruling s1)).
End LifeSpecs.

(** * Lemmas *)

Section LifeFacts.
Context {MT : MacText} {IT : IpText} {CH : Chrono} {SJ : SerdeJson}.
Context {ML : MacTextLaws} {IL : IpTextLaws} {CL : ChronoLaws} {SL : SerdeJsonLaws}.
Context {PN : Pnet} {PNL : PnetLaws} {OU : Oui} {MP : Mpsc DiscoveryEvent} {MR : MpscRecv DiscoveryEvent}.
Context {MPL : MpscLaws DiscoveryEvent} {MRL : MpscRecvLaws DiscoveryEvent}.
Context {A : Type} {AS : AlertStore A} {ASL : AlertStoreLaws A}.
Variables (bind_error row_error : string) (iter : gset MacAddress -> list MacAddress).
Hypothesis iter_elements : forall ds, iter ds ≡ₚ elements ds.

Notation the_store s := (store (pipeline s)).

Lemma life_smooth_sane (s : system SqliteStore.t A) ev : life_smooth s ev -> life_sane ev.
Proof. destruct ev as [[]|]; cbn; intuition. Qed.

Lemma life_turn_persistent (s s' : system SqliteStore.t A) ev :
  persistent (the_store s) -> life_sane ev -> life_turn bind_error iter s ev = Done s' ->
  persistent (the_store s').
Proof.
  intros Hp. destruct ev as [t|io]; cbn [life_turn life_sane].
  - destruct t as [buf c|t|clk|i]; cbn [system_turn].
    + intros [Hb Hc]. destruct (process_packet (pipeline s) buf c) as [e| |] eqn:E; try done.
      intros [= <-]. by eapply process_packet_persistent.
    + intros _ [= <-]. change (persistent (store (scan_turn (pipeline s) t))). by rewrite scan_keeps_store.
    + intros _. destruct (try_recv _) as [[ev c]|]; [|by intros [= <-]].
      destruct (process_event _ ev clk) as [[en sent] res]. by intros [= <-].
    + by intros _ [= <-].
  - intros _ [= <-]. cbn. destruct (SqliteStore.flush _ _ io (the_store s)) as [st r] eqn:E.
    by apply (flush_persistent bind_error iter iter_elements) in E as [? _].
Qed.

(** A flush is not seen by the other tasks. *)
Lemma on_track_flush (s0 s : system SqliteStore.t A) st :
  SqliteStore.cache st = SqliteStore.cache (the_store s) -> on_track s0 s ->
  on_track s0 (mkSystem (with_store (pipeline s) st) (ruling s) (handed_on s)).
Proof.
  intros Hc. unfold on_track, inventory, events_of, alerts_of. cbn [pipeline ruling handed_on store event_tx with_store].
  change (ds_map st) with (MemoryStore.devices (SqliteStore.cache st)). by rewrite Hc.
Qed.

Lemma life_turn_on_track (s0 s s' : system SqliteStore.t A) ev :
  persistent (the_store s) -> on_track s0 s -> life_smooth s ev ->
  life_turn bind_error iter s ev = Done s' -> on_track s0 s'.
Proof.
  intros Hp H. destruct ev as [t|io]; cbn [life_turn life_smooth].
  - intros [Hs _] Ht. eapply (on_track_run s0 s s' [t]); [done | |].
    + cbn [smooth_run]. by split.
    + cbn [system_turns]. by rewrite Ht.
  - intros _ [= <-]. apply on_track_flush; [|done].
    destruct (SqliteStore.flush _ _ io (the_store s)) as [st r] eqn:E.
    by apply (flush_persistent bind_error iter iter_elements) in E as (_ & ? & _).
Qed.

Lemma life_run (s0 s s' : system SqliteStore.t A) evs :
  persistent (the_store s) -> on_track s0 s -> smooth_life bind_error iter s evs ->
  life_turns bind_error iter s evs = Done s' -> persistent (the_store s') /\ on_track s0 s'.
Proof.
  revert s. induction evs as [|ev evs IH]; intros s Hp H; cbn [smooth_life life_turns]; [by intros _ [= <-]|].
  intros [Hs Hevs]. destruct (life_turn bind_error iter s ev) as [s1| |] eqn:E; try done. cbn.
  apply IH; [by eapply life_turn_persistent, E; [|eapply life_smooth_sane] | by eapply life_turn_on_track | by apply Hevs].
Qed.

(** Opening gives what loading gives. *)
Lemma boot_loads rules path t oio rs tbl tx (alerts : A) s0 :
  SqliteStore.rows oio = Ok rs -> boot row_error rules path t oio tbl tx alerts = Ok (Some s0) ->
  exists c n, SqliteStore.load_all row_error t rs MemoryStore.new 0 = Ok (c, n) /\
    s0 = mkSystem (mkEngine (SqliteStore.mk c ∅ tbl false) tx) (mkRuleEngine rules alerts) [].
Proof.
  intros Hrs. unfold boot, SqliteStore.open. destruct (is_empty path); [done|].
  destruct (SqliteStore.connection oio); [|done]. destruct (SqliteStore.pragmas oio); [|done].
  destruct (SqliteStore.schema oio); [|done]. cbn.
  destruct (SqliteStore.migrate _); [|done]. cbn. destruct (SqliteStore.prepared oio); [|done]. rewrite Hrs.
  cbn. destruct (SqliteStore.load_all row_error t rs MemoryStore.new 0) as [[c n]|]; [|done].
  intros [= <-]. by exists c, n.
Qed.

(** Between two lives: a clean table that holds exactly the devices that were
    reported or lost, and no alert about another. *)
Definition settled (reported lost : list MacAddress) (tbl : devices_table) (alerts : A) : Prop :=
  exists st, persistent st /\ SqliteStore.dirty st = ∅ /\ SqliteStore.conn st = tbl /\ as_inv alerts /\
    reported ++ lost ≡ₚ elements (dom (MemoryStore.devices (SqliteStore.cache st))) /\
    forall i x, as_map alerts !! i = Some x -> Alert.rule_name x = "new_device" ->
      Alert.mac x ∈ dom (MemoryStore.devices (SqliteStore.cache st)).

Lemma boot_starting reported lost tbl (alerts alerts' : A) path t oio rs tx s0 :
  settled reported lost tbl alerts -> SqliteStore.rows oio = Ok rs -> rs ≡ₚ (map_to_list tbl).*2 ->
  as_inv alerts' -> as_map alerts' ⊆ as_map alerts -> queued tx = [] ->
  boot row_error [default_rule] path t oio tbl tx alerts' = Ok (Some s0) ->
  persistent (the_store s0) /\ starting s0 /\ reported ++ lost ≡ₚ elements (dom (inventory s0)).
Proof.
  intros (st & Hp & Hd & <- & Hi & Hperm & Ha) Hrs Hrows Hi' Hsub Hq Hb.
  destruct (boot_loads _ _ _ _ _ _ _ _ _ Hrs Hb) as (c & n & Hload & ->).
  destruct (load_clean row_error st rs t Hp Hd Hrows) as (c' & Hload' & Hc).
  assert (c' = c) as -> by congruence. cbn.
  pose proof (reopened_persistent row_error st rs t c n Hp Hrows Hload) as Hp'.
  assert (dom (MemoryStore.devices c) = dom (MemoryStore.devices (SqliteStore.cache st))) as Hdom
    by by rewrite Hc, dom_fmap_L.
  split; [done|]. unfold starting, inventory, alerts_of, events_of. cbn. rewrite Hdom. split; [|done].
  split_and!; try done.
  - intros m d Hm. by destruct (p_cache _ Hp' m d Hm).
  - intros i x Hx. apply (Ha i). by eapply lookup_weaken.
Qed.

Lemma lives_settled reported lost tbl (alerts : A) :
  lives bind_error row_error iter reported lost tbl alerts -> settled reported lost tbl alerts.
Proof.
  induction 1 as [alerts Hi Ha|reported lost tbl alerts path t oio rs tx alerts' s0 evs s1 io st n
    _ IH Hrs Hrows Hi' Hsub Hq Hb Hsm Hr He].
  { exists fresh_store. split; [apply fresh_persistent|]. split_and!; try done.
    intros i x Hx Hn. by destruct (Ha i x). }
  destruct (boot_starting _ _ _ _ _ _ _ _ _ _ _ IH Hrs Hrows Hi' Hsub Hq Hb) as (Hp0 & Hs0 & Hperm).
  destruct (life_run s0 s0 s1 evs Hp0 (on_track_start _ Hs0) Hsm Hr) as
    [Hp1 (_ & Hdom & _ & Hnew & _ & Hinv & Hal & _)].
  unfold life_end in He. destruct (flush_persistent bind_error iter iter_elements _ _ _ _ Hp1 He)
    as (Hp & Hc & _ & Hok). destruct (Hok n eq_refl) as [Hclean _].
  assert (forall m, m ∈ Alert.mac <$> handed_on s1 -> m ∈ dom (inventory s1)) as Hin.
  { intros m Hm. assert (m ∈ discovered (events_of s1) ++ (Alert.mac <$> handed_on s1)) as Hm'
      by (apply elem_of_app; by right). rewrite Hnew, elem_of_elements in Hm'. set_solver. }
  exists st. unfold inventory in *. change (ds_map (the_store s1)) with
    (MemoryStore.devices (SqliteStore.cache (the_store s1))) in *. rewrite Hc. split; [done|]. split_and!; try done.
  - transitivity ((reported ++ lost) ++ discovered (events_of s1) ++ (Alert.mac <$> handed_on s1)).
    { solve_Permutation. }
    rewrite Hperm, Hnew, <- elements_disj_union by set_solver.
    by rewrite <- union_difference_L.
  - intros i x Hx Hn. destruct (Hal i x Hx Hn) as [H|H]; [by apply Hdom | by apply Hin].
Qed.
End LifeFacts.

(** * Properties *)

(** C3: over all its lives the daemon reports a device once.  On one
    database, over any number of starts without rules of its own (so with the
    default rule for new devices and no other), with any interleaving of
    frames, scans, evaluations, acknowledgments and flushes in each life
    (failed flushes included), when the event channel never overflows, the
    alert store takes every alert, and each life ends with a successful final
    flush: the table opens again, whatever order the rows come in, and holds
    each device exactly once that an alert was ever handed on for, or whose
    discovery was still queued when the rule engine was aborted.  So no
    device is reported twice, and those lost at a shutdown are known from
    then on and never reported.  ([Crashes] says what is left of this with
    any rules, full channels, failing stores and crashes.  A flush is one
    turn here: the pipeline may get in between its accesses, but that never
    changes which addresses the table ends up with, as only an update of a
    row just written can be lost, [Writeback].) *)
Theorem devices_reported_once_over_lives {MT : MacText} {IT : IpText} {CH : Chrono} {SJ : SerdeJson}
  {ML : MacTextLaws} {IL : IpTextLaws} {CL : ChronoLaws} {SL : SerdeJsonLaws}
  {PN : Pnet} {PNL : PnetLaws} {OU : Oui} {MP : Mpsc DiscoveryEvent} {MR : MpscRecv DiscoveryEvent}
  {MPL : MpscLaws DiscoveryEvent} {MRL : MpscRecvLaws DiscoveryEvent}
  {A : Type} {AS : AlertStore A} {ASL : AlertStoreLaws A}
  (bind_error row_error : string) (iter : gset MacAddress -> list MacAddress)
  (reported lost : list MacAddress) (tbl : devices_table) (alerts : A)
  (rs : list DeviceRow.t) (t : Timestamp) :
  (forall ds, iter ds ≡ₚ elements ds) -> lives bind_error row_error iter reported lost tbl alerts ->
  rs ≡ₚ (map_to_list tbl).*2 ->
  (exists c, SqliteStore.load_all row_error t rs MemoryStore.new 0 = Ok (c, length rs) /\
     reported ++ lost ≡ₚ elements (dom (MemoryStore.devices c))) /\
  NoDup (reported ++ lost).
Proof.
  intros Hit (st & Hp & Hd & <- & _ & Hperm & _)%lives_settled Hrows; [|done]. split.
  - destruct (load_clean row_error st rs t Hp Hd Hrows) as (c & Hload & Hc). exists c. split; [done|].
    by rewrite Hc, dom_fmap_L.
  - rewrite Hperm. apply NoDup_elements.
Qed.

(** * Witnesses *)

#[local] Existing Instances ref_mac_text ref_mac_laws std_ip_text std_ip_laws ref_chrono ref_chrono_laws
  ref_serde_json ref_serde_json_laws wire_pnet wire_pnet_laws demo_oui queue_mpsc queue_mpsc_laws
  queue_recv queue_recv_laws.

(** A life with one frame from two unknown devices: the rule engine takes one
    of the discoveries, a flush fails, and the daemon is stopped. *)
Definition demo_open : SqliteStore.open_io :=
  SqliteStore.mkOpenIo (Ok tt) (Ok tt) (Ok tt) (fun _ => Ok tt) (Ok tt) (Ok []).
Definition demo_boot : system SqliteStore.t InMemoryAlertStore.t :=
  mkSystem (mkEngine fresh_store demo_tx) (mkRuleEngine [default_rule] InMemoryAlertStore.new) [].
Definition demo_life : list life_event :=
  [Turn demo_frame; Turn demo_evaluation; FlushTurn (fun _ => Some "disk full")].
Definition lived (s : system SqliteStore.t InMemoryAlertStore.t) (evs : list life_event)
  : system SqliteStore.t InMemoryAlertStore.t :=
  match life_turns "out of range" elements s evs with Done s' => s' | _ => s end.
Definition demo_lived1 : system SqliteStore.t InMemoryAlertStore.t := lived demo_boot [Turn demo_frame].
Definition demo_lived : system SqliteStore.t InMemoryAlertStore.t := lived demo_boot demo_life.
Definition demo_left : SqliteStore.t := (life_end "out of range" elements demo_lived (fun _ => None)).1.

Lemma demo_booted :
  boot "bad row" [default_rule] "edgeshield.db" 0 demo_open ∅ demo_tx InMemoryAlertStore.new = Ok (Some demo_boot).
Proof. vm_compute. reflexivity. Qed.
Lemma demo_lived1_turn : life_turn "out of range" elements demo_boot (Turn demo_frame) = Done demo_lived1.
Proof. vm_compute. reflexivity. Qed.
Lemma demo_lived_turns : life_turns "out of range" elements demo_boot demo_life = Done demo_lived.
Proof. vm_compute. reflexivity. Qed.
Lemma demo_left_end :
  life_end "out of range" elements demo_lived (fun _ => None) = (demo_left, Ok 2%nat).
Proof. vm_compute. reflexivity. Qed.
Lemma demo_ledger :
  (Alert.mac <$> handed_on demo_lived) = [demo_src] /\ length (discovered (events_of demo_lived)) = 1%nat.
Proof. vm_compute. split; reflexivity. Qed.
Lemma demo_tx_idle : queued demo_tx = [].
Proof. reflexivity. Qed.
Lemma demo_alerts_fresh : as_inv InMemoryAlertStore.new.
Proof.
  split; [split; vm_compute; discriminate|]. intros k d Hd.
  change ((∅ : gmap AlertId Alert.t) !! k = Some d) in Hd. rewrite lookup_empty in Hd. discriminate Hd.
Qed.

Lemma demo_life_smooth : smooth_life "out of range" elements demo_boot demo_life.
Proof.
  cbn [smooth_life demo_life]. split.
  { split; [exact (proj1 demo_smooth)|]. unfold demo_frame, clock_ok, chrono_range, demo_clock_at, from_secs, ns_per_s.
    simpl. unfold from_secs, ns_per_s. lia. }
  intros s1 H1. rewrite demo_lived1_turn in H1. injection H1 as <-.
  split; [split; [split; [vm_compute; reflexivity | by intros] | exact I]|].
  intros s2 _. split; [exact I | intros; exact I].
Qed.

Lemma demo_lives :
  lives "out of range" "bad row" elements ([] ++ (Alert.mac <$> handed_on demo_lived))
    ([] ++ discovered (events_of demo_lived)) (SqliteStore.conn demo_left)
    (alert_store (ruling demo_lived)).
Proof.
  eapply (next_life _ _ _ [] [] ∅ InMemoryAlertStore.new "edgeshield.db" 0 demo_open [] demo_tx
    InMemoryAlertStore.new demo_boot demo_life demo_lived (fun _ => None) demo_left 2);
    [apply first_start | reflexivity | reflexivity | | | exact demo_tx_idle | exact demo_booted | exact demo_life_smooth | exact demo_lived_turns | exact demo_left_end].
  - exact demo_alerts_fresh.
  - intros i x Hx. change ((∅ : gmap AlertId Alert.t) !! i = Some x) in Hx. by rewrite lookup_empty in Hx.
  - exact demo_alerts_fresh.
  - done.
Qed.

Lemma devices_reported_once_over_lives_witness :
  NoDup ((Alert.mac <$> handed_on demo_lived) ++ discovered (events_of demo_lived)) /\
  (Alert.mac <$> handed_on demo_lived) = [demo_src] /\ length (discovered (events_of demo_lived)) = 1%nat.
Proof.
  split; [|exact demo_ledger].
  exact (proj2 (devices_reported_once_over_lives "out of range" "bad row" elements _ _ _ _
    (map_to_list (SqliteStore.conn demo_left)).*2 0 (fun ds => Permutation_refl _) demo_lives
    (Permutation_refl _))).
Defined.
