(* ===== verification/Crashes.v ===== *)
(** Lives of the daemon that may end in any way: a shutdown whose final flush
    succeeds or fails, or a crash, after which the table holds what the last
    flush left ([crates/daemon/src/daemon.rs],
    [crates/storage/src/sqlite.rs]).  Nothing is assumed of the event
    channel, which may overflow, of the alert store, which may fail, or of
    the rules, except that their names differ: a device is reported again
    only after a life that ended before its first row was written. *)

From S2P Require Import Prelude Text Types Reference Net Packet Classify Dhcp Mdns Oui Stores Discovery.
From S2P Require Import Json Sqlite HistorySqlite Config Alerts Rules Daemon System Lifecycle.

(** * The end of a life *)

Section Endings.
Context {MT : MacText} {IT : IpText} {CH : Chrono} {SJ : SerdeJson}.
Context {PN : Pnet} {OU : Oui} {MP : Mpsc DiscoveryEvent} {MR : MpscRecv DiscoveryEvent}.
Context {A : Type} {AS : AlertStore A}.
Variables (bind_error row_error : string) (iter : gset MacAddress -> list MacAddress).

(** A shutdown, with what the statements of its flush answer, or a crash:
    the store that is left and whether the flush succeeded. *)
Definition life_stop (s : system SqliteStore.t A) (ending : option sql_io) : SqliteStore.t * bool :=
  match ending with
  | Some io => let (st, r) := life_end bind_error iter s io in (st, is_ok r)
  | None => (store (pipeline s), false)
  end.

(** The addresses with a row, and those known without one. *)
Definition stored (st : SqliteStore.t) : gset MacAddress :=
  filter (fun m => is_Some (SqliteStore.conn st !! mac_to_string m))
    (dom (MemoryStore.devices (SqliteStore.cache st))).
Definition forgotten_by (st : SqliteStore.t) : list MacAddress :=
  elements (dom (MemoryStore.devices (SqliteStore.cache st)) ∖ stored st).
End Endings.

(** The devices the rule [name] reported as new. *)
Definition reports (name : string) (alerts : list Alert.t) : list MacAddress :=
  Alert.mac <$> List.filter (fun a =>
    String.eqb (Alert.rule_name a) name && bool_decide (Alert.event_type a = NewDevice)) alerts.

Section CrashSpecs.
Context {MT : MacText} {IT : IpText} {CH : Chrono} {SJ : SerdeJson}.
Context {PN : Pnet} {OU : Oui} {MP : Mpsc DiscoveryEvent} {MR : MpscRecv DiscoveryEvent}.
Context {MPL : MpscLaws DiscoveryEvent} {A : Type} {AS : AlertStore A}.
Variables (bind_error row_error : string) (iter : gset MacAddress -> list MacAddress).
Variable name : string.

(** Lives in a row, on one database: what the rule [name] reported or would
    have if its life had been longer, the addresses a life took with it, the
    number of lives without a final flush, and the table. *)
Inductive histories : list MacAddress -> list MacAddress -> nat -> devices_table -> Prop :=
| no_life : histories [] [] 0 ∅
| another_life told forgotten cut tbl rules path t oio rs tx alerts s0 evs s1 ending :
    histories told forgotten cut tbl ->
    SqliteStore.rows oio = Ok rs -> rs ≡ₚ (map_to_list tbl).*2 ->
    NoDup (Rule.name <$> rules) -> queued tx = [] ->
    boot row_error rules path t oio tbl tx alerts = Ok (Some s0) ->
    Forall life_sane evs -> life_turns bind_error iter s0 evs = Done s1 ->
    let left := life_stop bind_error iter s1 ending in
    histories (told ++ reports name (handed_on s1) ++ discovered (events_of s1))
      (forgotten ++ forgotten_by left.1) (if left.2 : bool then cut else S cut)
      (SqliteStore.conn left.1).

(** Within one life: at most one report per device that was unknown at its
    start. *)
Definition reported_within (s0 s : system SqliteStore.t A) : Prop :=
  dom (inventory s0) ⊆ dom (inventory s) /\ NoDup (Rule.name <$> rules (ruling s)) /\
  reports name (handed_on s) ++ discovered (events_of s) ⊆+
    elements (dom (inventory s) ∖ dom (inventory s0)).
End CrashSpecs.

(** * Lemmas *)

#[local] Notation the_store s := (store (pipeline s)).

(** How often an address occurs. *)
Lemma occurrences_nodup (m : MacAddress) l :
  NoDup l -> (length (List.filter (fun k => bool_decide (k = m)) l) <= 1)%nat.
Proof.
  induction 1 as [|k l Hk _ IH]; cbn; [lia|]. case_bool_decide as E; [|done]. subst k. cbn.
  replace (List.filter _ l) with (@nil MacAddress); [cbn; lia|]. symmetry. clear IH.
  induction l as [|k l IH]; cbn; [done|]. rewrite bool_decide_eq_false_2 by set_solver. apply IH. set_solver.
Qed.

Lemma occurrences_submseteq (m : MacAddress) l k :
  l ⊆+ k ->
  (length (List.filter (fun k => bool_decide (k = m)) l) <=
   length (List.filter (fun k => bool_decide (k = m)) k))%nat.
Proof. induction 1; cbn; repeat case_bool_decide; cbn; lia. Qed.

Section CrashFacts.
Context {MT : MacText} {IT : IpText} {CH : Chrono} {SJ : SerdeJson}.
Context {ML : MacTextLaws} {IL : IpTextLaws} {CL : ChronoLaws} {SL : SerdeJsonLaws}.
Context {PN : Pnet} {PNL : PnetLaws} {OU : Oui} {MP : Mpsc DiscoveryEvent} {MR : MpscRecv DiscoveryEvent}.
Context {MPL : MpscLaws DiscoveryEvent} {MRL : MpscRecvLaws DiscoveryEvent}.
Context {A : Type} {AS : AlertStore A}.
Variables (bind_error row_error : string) (iter : gset MacAddress -> list MacAddress).
Hypothesis iter_elements : forall ds, iter ds ≡ₚ elements ds.
Variable name : string.

Notation cached st := (dom (MemoryStore.devices (SqliteStore.cache st))).

(** ** One life *)

(** A full channel drops events, and adds none. *)
Lemma send_all_sublist (c : chan DiscoveryEvent) evs :
  queued (send_all c evs) `sublist_of` queued c ++ evs.
Proof.
  revert c. induction evs as [|ev evs IH]; intros c; [by rewrite app_nil_r|].
  change (send_all c (ev :: evs)) with (send_all (try_send c ev).1 evs). etrans; [apply IH|].
  destruct (try_send_queued c ev) as [-> | ->].
  - apply sublist_app; [done | by constructor].
  - by rewrite <- app_assoc.
Qed.

Lemma discovered_sublist l k : l `sublist_of` k -> discovered l `sublist_of` discovered k.
Proof.
  induction 1 as [|ev l k _ IH|ev l k _ IH]; [done| |]; unfold discovered in *; cbn;
    destruct (discovered_mac ev); by try constructor.
Qed.

Lemma reports_app l k : reports name (l ++ k) = reports name l ++ reports name k.
Proof. unfold reports. by rewrite List.filter_app, fmap_app. Qed.

(** One event makes at most one report, of the device it discovered. *)
Lemma reports_of_event (en en' : rule_engine A) ev clk sent res :
  NoDup (Rule.name <$> rules en) -> process_event en ev clk = (en', sent, res) ->
  (Rule.name <$> rules en') = (Rule.name <$> rules en) /\
  reports name sent ⊆+ option_list (discovered_mac ev).
Proof.
  intros Hnd Hp. apply process_event_spec in Hp as (Hl & Hf & Hsub & Hall & _). split.
  { apply list_eq. intros k. rewrite !list_lookup_fmap.
    destruct (rules en' !! k) as [r'|] eqn:H', (rules en !! k) as [r|] eqn:H; try done; simpl.
    - f_equal. by destruct (Hf _ _ _ H H') as [(-> & _) _].
    - apply lookup_lt_Some in H'. apply lookup_ge_None in H. lia.
    - apply lookup_lt_Some in H. apply lookup_ge_None in H'. lia. }
  assert (NoDup (Alert.rule_name <$> sent)) as Hns.
  { eapply sublist_NoDup; [|exact Hsub]. eapply sublist_NoDup; [exact Hnd|].
    apply fmap_sublist, filter_sublist. }
  clear Hsub Hf Hl Hnd. unfold reports.
  assert (forall a, a ∈ sent -> Alert.event_type a = NewDevice ->
            discovered_mac ev = Some (Alert.mac a)) as Hev.
  { intros a Ha Hty. destruct (Hall a Ha) as (-> & [Hty' _] & _). rewrite Hty in Hty'. by destruct ev. }
  clear Hall. induction sent as [|a sent IH]; cbn; [apply submseteq_nil_l|].
  apply NoDup_cons in Hns as [Hfresh Hns].
  destruct (String.eqb_spec (Alert.rule_name a) name) as [Hn|Hn]; cbn.
  2: { apply IH; [done|]. intros b Hb. apply Hev. by right. }
  case_bool_decide as Hty; [|apply IH; [done|]; intros b Hb; apply Hev; by right].
  rewrite (Hev a) by (done || by left). cbn.
  replace (List.filter _ sent) with (@nil Alert.t); [done|]. symmetry.
  clear IH Hns Hev. induction sent as [|b sent IH]; cbn in *; [done|].
  destruct (String.eqb_spec (Alert.rule_name b) name) as [Hb|Hb]; cbn; [set_solver|]. apply IH. set_solver.
Qed.

Lemma within_start (s : system SqliteStore.t A) :
  NoDup (Rule.name <$> rules (ruling s)) -> handed_on s = [] -> events_of s = [] ->
  reported_within name s s.
Proof. intros Hn Hh He. unfold reported_within. rewrite Hh, He. split_and!; try done. apply submseteq_nil_l. Qed.

Lemma within_frame (s0 s : system SqliteStore.t A) e' buf c :
  keyed (inventory s) -> reported_within name s0 s -> process_packet (pipeline s) buf c = Done e' ->
  reported_within name s0 (mkSystem e' (ruling s) (handed_on s)).
Proof.
  intros Hk (Hd & Hn & Hr) E.
  apply process_packet_Done in E as [(err & _ & ->)|(packet & p & n & _ & _ & _ & Hm & Htx)]; [done| |done].
  unfold reported_within, inventory, events_of in *. cbn [pipeline handed_on ruling]. rewrite Hm, Htx.
  split; [rewrite dom_updated; set_solver|]. split; [done|].
  etrans; [apply submseteq_app; [done|]; apply sublist_submseteq, discovered_sublist, send_all_sublist|].
  rewrite discovered_app, discovered_frame by done. rewrite app_assoc, (Permutation_app_comm (_ ++ _)).
  by apply submseteq_app.
Qed.

Lemma within_turn (s0 s s' : system SqliteStore.t A) ev :
  persistent (the_store s) -> reported_within name s0 s -> life_turn bind_error iter s ev = Done s' ->
  reported_within name s0 s'.
Proof.
  intros Hp H. assert (keyed (inventory s)) as Hk.
  { intros m d Hm. by destruct (p_cache _ Hp m d Hm). }
  destruct ev as [[buf c|t|clk|i]|io]; cbn [life_turn system_turn].
  - destruct (process_packet (pipeline s) buf c) as [e'| |] eqn:E; try done. intros [= <-].
    by eapply within_frame.
  - intros [= <-]. destruct H as (Hd & Hn & Hr).
    unfold reported_within, inventory, events_of, scan_turn in *. cbn [pipeline handed_on ruling].
    destruct (ds_list (the_store s)) as [l|]; [|done].
    destruct (emit_all (pipeline s) (List.filter (silent_too_long t) l)) as [-> ->].
    by rewrite discovered_offline.
  - pose proof (try_recv_spec (event_tx (pipeline s))) as Hrecv.
    destruct (try_recv (event_tx (pipeline s))) as [[e c]|]; [|by intros [= <-]].
    destruct Hrecv as [Hq _]. destruct (process_event (ruling s) e clk) as [[en sent] res] eqn:Ep.
    intros [= <-]. destruct H as (Hd & Hn & Hr). apply reports_of_event in Ep as [Hnames Hsent]; [|done].
    unfold reported_within, inventory, events_of in *. cbn [pipeline store event_tx handed_on ruling].
    rewrite Hnames. split_and!; [done..|]. etrans; [|exact Hr].
    rewrite Hq, reports_app, <- app_assoc. apply submseteq_app; [done|].
    change (e :: queued c) with ([e] ++ queued c). rewrite discovered_app. apply submseteq_app; [|done].
    unfold discovered. cbn. by destruct (discovered_mac e).
  - by intros [= <-].
  - intros [= <-]. destruct H as (Hd & Hn & Hr).
    destruct (SqliteStore.flush bind_error iter io (the_store s)) as [st r] eqn:E.
    apply (flush_persistent bind_error iter iter_elements) in E as (_ & Hc & _); [|done].
    unfold reported_within, inventory, events_of in *. cbn [pipeline store event_tx with_store handed_on ruling fst].
    change (ds_map st) with (MemoryStore.devices (SqliteStore.cache st)). by rewrite Hc.
Qed.

Lemma within_run (s0 s s' : system SqliteStore.t A) evs :
  persistent (the_store s) -> reported_within name s0 s -> Forall life_sane evs ->
  life_turns bind_error iter s evs = Done s' ->
  persistent (the_store s') /\ reported_within name s0 s'.
Proof.
  intros Hp H Hs. revert s Hp H. induction Hs as [|ev evs Hev Hs IH]; intros s Hp H; cbn [life_turns];
    [by intros [= <-]|].
  destruct (life_turn bind_error iter s ev) as [s1| |] eqn:E; try done. cbn.
  apply IH; [by eapply (life_turn_persistent bind_error iter iter_elements) | by eapply within_turn].
Qed.
(** ** What a start finds *)

Lemma loaded_stored (st : SqliteStore.t) rs t c n :
  persistent st -> rs ≡ₚ (map_to_list (SqliteStore.conn st)).*2 ->
  SqliteStore.load_all row_error t rs MemoryStore.new 0 = Ok (c, n) ->
  dom (MemoryStore.devices c) = stored st.
Proof.
  intros Hp Hperm Hload. destruct (load_persistent row_error st rs t Hp Hperm) as (c' & Hload' & Hc).
  assert (c' = c) as -> by congruence. apply set_eq. intros m. unfold stored.
  rewrite elem_of_filter, !elem_of_dom. split.
  - intros [d (d' & row & (Hrep & Hrow & Hl) & _ & ->)%Hc]. split; [by exists row|].
    destruct (p_rows _ Hp _ _ Hl) as (d1 & d2 & Heq & Hcache & _ & _).
    destruct (p_cache _ Hp _ _ Hcache) as [_ (Hok & _)].
    apply mac_to_string_inj in Heq; [|by destruct Hrep|done]. rewrite Heq. eauto.
  - intros [[row Hl] [d Hd]]. destruct (p_cache _ Hp _ _ Hd) as [Hmac (Hok & _)].
    destruct (p_rows _ Hp _ _ Hl) as (d1 & d2 & Heq & Hcache & Hm & Hrep & Hrow & _).
    destruct (p_cache _ Hp _ _ Hcache) as [_ (Hok1 & _)].
    apply mac_to_string_inj in Heq; [|by rewrite <- Hmac|done]. exists (to_millis d2). apply Hc. exists d2, row.
    split_and!; [|done|by rewrite Hm, <- Heq]. split_and!; [done|done|]. by rewrite Hm, <- Heq.
Qed.

Lemma stored_cached st : stored st ⊆ cached st.
Proof. unfold stored. set_solver. Qed.

Lemma stored_and_forgotten st : elements (cached st) ≡ₚ elements (stored st) ++ forgotten_by st.
Proof.
  unfold forgotten_by. rewrite <- elements_disj_union by set_solver.
  by rewrite <- union_difference_L by apply stored_cached.
Qed.

(** A clean store has a row for every device. *)
Lemma forgotten_clean st : persistent st -> SqliteStore.dirty st = ∅ -> forgotten_by st = [].
Proof.
  intros Hp Hd. unfold forgotten_by. replace (cached st ∖ stored st) with (∅ : gset MacAddress); [done|].
  apply set_eq. intros m. unfold stored. rewrite elem_of_difference, elem_of_filter, elem_of_dom.
  split; [set_solver|]. intros [[d Hm] Hn]. destruct Hn. split; [|by exists d].
  destruct (p_clean _ Hp m d Hm) as (row & _ & ->); [by rewrite Hd|by exists row].
Qed.

Lemma life_stop_persistent (s : system SqliteStore.t A) ending :
  persistent (the_store s) ->
  let left := life_stop bind_error iter s ending in
  persistent left.1 /\ SqliteStore.cache left.1 = SqliteStore.cache (the_store s) /\
  (left.2 = true -> forgotten_by left.1 = []).
Proof.
  intros Hp. destruct ending as [io|]; cbn; [|done]. unfold life_end.
  destruct (SqliteStore.flush bind_error iter io (the_store s)) as [st r] eqn:E.
  apply (flush_persistent bind_error iter iter_elements) in E as (Hp' & Hc & _ & Hok); [|done]. cbn.
  split_and!; [done..|]. destruct r as [n|]; [|done]. intros _. apply forgotten_clean; [done|]. by apply (Hok n).
Qed.

(** What holds between two lives. *)
Definition recorded (told forgotten : list MacAddress) (cut : nat) (tbl : devices_table) : Prop :=
  (exists st, persistent st /\ SqliteStore.conn st = tbl /\ told ⊆+ elements (stored st) ++ forgotten) /\
  forall m, (length (List.filter (fun k => bool_decide (k = m)) forgotten) <= cut)%nat.

Lemma histories_recorded told forgotten cut tbl :
  histories bind_error row_error iter name told forgotten cut tbl -> recorded told forgotten cut tbl.
Proof.
  induction 1 as [|told forgotten cut tbl rules path t oio rs tx alerts s0 evs s1 ending
    _ [(st & Hp & <- & Htold) Hcut] Hrs Hrows Hnd Hq Hb Hsane Hrun left].
  { split; [|done]. exists fresh_store. split; [apply fresh_persistent|]. split; [done|]. apply submseteq_nil_l. }
  destruct (boot_loads row_error _ _ _ _ _ _ _ _ _ Hrs Hb) as (c & n & Hload & Hs0).
  pose proof (reopened_persistent row_error st rs t c n Hp Hrows Hload) as Hp0.
  pose proof (loaded_stored st rs t c n Hp Hrows Hload) as Hdom.
  assert (persistent (the_store s0) /\ reported_within name s0 s0 /\ dom (inventory s0) = stored st)
    as (Hp0' & H0 & Hd0) by (rewrite Hs0; split_and!; [exact Hp0 | by apply within_start | exact Hdom]).
  destruct (within_run s0 s0 s1 evs Hp0' H0 Hsane Hrun) as [Hp1 (Hgrow & _ & Hnew)].
  destruct (life_stop_persistent s1 ending Hp1) as (Hp' & Hc & Hclean). fold left in Hp', Hc, Hclean.
  rewrite Hd0 in Hgrow, Hnew. unfold inventory in Hgrow, Hnew.
  change (ds_map (the_store s1)) with (MemoryStore.devices (SqliteStore.cache (the_store s1))) in *.
  rewrite <- Hc in Hgrow, Hnew. split.
  - exists left.1. split_and!; [done..|]. etrans; [apply submseteq_app; [exact Htold | exact Hnew]|].
    apply Permutation_submseteq. rewrite (app_assoc _ forgotten), (Permutation_app_comm _ forgotten), <- !app_assoc.
    rewrite (Permutation_app_comm forgotten). rewrite <- elements_disj_union by set_solver.
    rewrite <- union_difference_L by done. rewrite stored_and_forgotten. solve_Permutation.
  - intros m. rewrite List.filter_app, length_app. specialize (Hcut m). destruct left.2.
    + rewrite Hclean by done. cbn. lia.
    + pose proof (occurrences_nodup m (forgotten_by left.1) (NoDup_elements _)). lia.
Qed.
End CrashFacts.

(** * Properties *)

(** C4: a device is reported again only when a life took it along.  On one
    database, over any number of starts, each with rules of different names
    of its own, any interleaving of frames, scans, evaluations,
    acknowledgments and flushes, with the event channel full, the alert store
    failing and flushes failing at will, and with each life ended by a
    shutdown whose last flush succeeds or fails or by a crash: the table
    always opens again; what one rule reported as new, or had queued to
    report, is each stored device at most once, and further only devices that
    a life without a final flush knew and took with it before they had a row.
    So no device is reported more often than one plus the number of those
    lives, and each at most once when there is none. *)
Theorem devices_reported_again_only_if_forgotten {MT : MacText} {IT : IpText} {CH : Chrono}
  {SJ : SerdeJson} {ML : MacTextLaws} {IL : IpTextLaws} {CL : ChronoLaws} {SL : SerdeJsonLaws}
  {PN : Pnet} {PNL : PnetLaws} {OU : Oui} {MP : Mpsc DiscoveryEvent} {MR : MpscRecv DiscoveryEvent}
  {MPL : MpscLaws DiscoveryEvent} {MRL : MpscRecvLaws DiscoveryEvent} {A : Type} {AS : AlertStore A}
  (bind_error row_error : string) (iter : gset MacAddress -> list MacAddress) (name : string)
  (told forgotten : list MacAddress) (cut : nat) (tbl : devices_table)
  (rs : list DeviceRow.t) (t : Timestamp) :
  (forall ds, iter ds ≡ₚ elements ds) ->
  histories bind_error row_error iter name told forgotten cut tbl ->
  rs ≡ₚ (map_to_list tbl).*2 ->
  (exists c, SqliteStore.load_all row_error t rs MemoryStore.new 0 = Ok (c, length rs) /\
     told ⊆+ elements (dom (MemoryStore.devices c)) ++ forgotten) /\
  (forall m, (length (List.filter (fun k => bool_decide (k = m)) told) <= 1 + cut)%nat) /\
  (cut = 0%nat -> forgotten = [] /\ NoDup told).
Proof.
  intros Hit [(st & Hp & <- & Htold) Hcut]%histories_recorded Hrows; [|done].
  destruct (load_persistent row_error st rs t Hp Hrows) as (c & Hload & _). split_and!.
  - exists c. split; [done|]. by rewrite (loaded_stored row_error st rs t c _ Hp Hrows Hload).
  - intros m. rewrite (occurrences_submseteq m _ _ Htold), List.filter_app, length_app.
    pose proof (occurrences_nodup m _ (NoDup_elements (stored st))). specialize (Hcut m). lia.
  - intros ->. assert (forgotten = []) as ->; [|split; [done|]].
    + destruct forgotten as [|m l]; [done|]. specialize (Hcut m). cbn in Hcut.
      rewrite bool_decide_eq_true_2 in Hcut by done. cbn in Hcut. lia.
    + rewrite app_nil_r in Htold. apply submseteq_Permutation in Htold as [k Hk].
      pose proof (NoDup_elements (stored st)) as Hnd. rewrite Hk in Hnd. by apply NoDup_app in Hnd as [].
Qed.

(** * Witnesses *)

#[local] Existing Instances ref_mac_text ref_mac_laws std_ip_text std_ip_laws ref_chrono ref_chrono_laws
  ref_serde_json ref_serde_json_laws wire_pnet wire_pnet_laws demo_oui queue_mpsc queue_mpsc_laws
  queue_recv queue_recv_laws.

(** The frame of [Lifecycle] and one evaluation, and then a crash; twice. *)
Definition demo_short : list life_event := [Turn demo_frame; Turn demo_evaluation].
Definition demo_cut : system SqliteStore.t InMemoryAlertStore.t := lived demo_boot demo_short.

Lemma demo_cut_turns : life_turns "out of range" elements demo_boot demo_short = Done demo_cut.
Proof. vm_compute. reflexivity. Qed.
Lemma demo_cut_table : SqliteStore.conn (the_store demo_cut) = ∅.
Proof. vm_compute. reflexivity. Qed.
Lemma demo_short_sane : Forall life_sane demo_short.
Proof.
  constructor; [|by constructor]. split; [exact (proj1 (proj1 demo_smooth))|].
  unfold clock_ok, chrono_range, demo_clock_at, from_secs, ns_per_s. simpl.
  unfold from_secs, ns_per_s. lia.
Qed.
Lemma demo_histories told forgotten cut :
  histories "out of range" "bad row" elements "new_device" told forgotten cut ∅ ->
  histories "out of range" "bad row" elements "new_device"
    (told ++ reports "new_device" (handed_on demo_cut) ++ discovered (events_of demo_cut))
    (forgotten ++ forgotten_by (the_store demo_cut)) (S cut) ∅.
Proof.
  intros H. rewrite <- demo_cut_table at 1.
  apply (another_life "out of range" "bad row" elements "new_device" told forgotten cut ∅ [default_rule]
    "edgeshield.db" 0 demo_open [] demo_tx InMemoryAlertStore.new demo_boot demo_short demo_cut None);
    [exact H | reflexivity | reflexivity | apply NoDup_singleton | exact demo_tx_idle | exact demo_booted
     | exact demo_short_sane | exact demo_cut_turns].
Qed.
Lemma demo_told_twice :
  reports "new_device" (handed_on demo_cut) = [demo_src] /\
  discovered (events_of demo_cut) = [demo_dst].
Proof. vm_compute. split; reflexivity. Qed.
Lemma demo_two_lives :
  histories "out of range" "bad row" elements "new_device" [demo_src; demo_dst; demo_src; demo_dst]
    (forgotten_by (the_store demo_cut) ++ forgotten_by (the_store demo_cut)) 2 ∅.
Proof.
  pose proof (demo_histories _ _ _ (demo_histories _ _ _ (no_life _ _ _ _))) as H.
  rewrite (proj1 demo_told_twice), (proj2 demo_told_twice) in H. exact H.
Qed.

Lemma devices_reported_again_only_if_forgotten_witness :
  (length (List.filter (fun k => bool_decide (k = demo_src)) [demo_src; demo_dst; demo_src; demo_dst]) <= 3)%nat /\
  length (List.filter (fun k => bool_decide (k = demo_src)) [demo_src; demo_dst; demo_src; demo_dst]) = 2%nat.
Proof.
  split; [|reflexivity].
  destruct (devices_reported_again_only_if_forgotten "out of range" "bad row" elements "new_device" _ _ _ _
    [] 0 (fun ds => Permutation_refl _) demo_two_lives (Permutation_refl _)) as (_ & H & _).
  exact (H demo_src).
Defined.
