(* ===== verification/Startup.v ===== *)
(** Starting and stopping the daemon: the whole of [run] in
    [crates/daemon/src/daemon.rs] from a configuration to the running system
    and back, with [crates/telemetry/src/telemetry.rs], the state that
    [crates/api/src/api.rs] serves, and the audit log it opens.

    The trait objects ([Arc<dyn DeviceStore>], [Arc<dyn AlertStore>]) are
    sums of the two implementations.  What SQLite, the runtime and the
    clients' constructors answer is the record [StartIo]; a spawned task is
    the value it runs on, its turns being those of [Daemon], [Rules],
    [Notify] and [Api]. *)

From S2P Require Import Prelude Text Types Reference Net Packet Classify Dhcp Mdns Json Oui Stores.
From S2P Require Import Discovery Sqlite HistorySqlite Config Alerts AlertSqlite Auth Rules Daemon.
From S2P Require Import Api AuditLog Notify.

(** * Trait objects *)

Inductive DynDeviceStore : Type :=
| InMemoryDevices (s : MemoryStore.t)
| SqliteDevices (s : SqliteStore.t).
Inductive DynAlertStore : Type :=
| InMemoryAlerts (s : InMemoryAlertStore.t)
| SqliteAlerts (s : SqliteAlertStore.t).

(** [store], and [sqlite_store], the typed handle the flush task keeps. *)
Definition sqlite_store (d : DynDeviceStore) : option SqliteStore.t :=
  match d with SqliteDevices s => Some s | InMemoryDevices _ => None end.

#[global] Instance dyn_device_store {MT : MacText} : DeviceStore DynDeviceStore := {|
  ds_get d m := match d with InMemoryDevices s => ds_get s m | SqliteDevices s => ds_get s m end;
  ds_upsert d x :=
    match d with
    | InMemoryDevices s => let '(s', r) := ds_upsert s x in (InMemoryDevices s', r)
    | SqliteDevices s => let '(s', r) := ds_upsert s x in (SqliteDevices s', r)
    end;
  ds_list d := match d with InMemoryDevices s => ds_list s | SqliteDevices s => ds_list s end;
  ds_count d := match d with InMemoryDevices s => ds_count s | SqliteDevices s => ds_count s end
|}.

(** * Telemetry *)

(** [EnvFilter::try_new(log_level).unwrap_or_else(|_| "info")]: whether the
    text of the level parses is [tracing_subscriber]'s. *)
Definition log_filter (parses : string -> bool) (log_level : string) : string :=
  if parses log_level then log_level else "info".

(** [telemetry::init]: the filter of the global subscriber, unless one is set. *)
Definition telemetry_init (parses : string -> bool) (set_global : result unit string)
  (log_level : string) : result string string :=
  let? _ := map_err (fun e => "failed to set global subscriber: " +:+ e) set_global in
  Ok (log_filter parses log_level).

(** * What the world answers while the daemon starts *)

Record StartIo : Type := mkStartIo {
  filter_parses : string -> bool;
  set_global : result unit string;
  devices_io : SqliteStore.open_io;
  devices_table_of_file : devices_table;
  start_time : Timestamp;
  alerts_io : table_io;
  alerts_of_file : SqliteAlertStore.t;
  history_io : table_io;
  history_of_file : history_table;
  client_built : notifier -> bool;
  header_order : gmap string string -> list (string * string);
  audit_parent : result unit string;
  audit_file : result string string;
  read_file : string -> result string string;
  tls_from_pem : string -> string -> result unit string;
  socket_addr : string -> result unit string;
  bind : string -> result unit string;
  channel_ok : Z -> bool;  (** whether [mpsc::channel] takes the capacity *)
  capture_thread : result unit string;
  sigterm_handler : result unit string
}.

(** What ends [serve]; the daemon only logs it. *)
Inductive ServeError : Type :=
| CertificateUnreadable (e : string)
| PrivateKeyUnreadable (e : string)
| TlsConfigFailed (e : string)
| InvalidBindAddress (addr e : string)
| ListenFailed (e : string).

Inductive StartError : Type :=
| TelemetryFailed (e : string)
| StoreFailed (e : StorageError)
| CaptureFailedToStart (e : string)
| SignalFailed (e : string).

(** A spawned background task and what it was given. *)
Inductive task : Type :=
| RuleEngineTask
| FanoutTask (notifiers : list notifier)
| ScannerTask (interval_seconds : Z)
| HistoryTask (snapshot_hours retention_days : Z)
| FlushTask (interval_seconds : Z)
| ApiTask
| PipelineTask.

Section Startup.
Context {MT : MacText} {IT : IpText} {CH : Chrono} {SJ : SerdeJson} {CR : Crypto} {HT : Http}.
Variable row_error : string.

(** The running daemon: the shared stores, the rules, the task list and the
    state of the API. *)
Record Running : Type := mkRunning {
  log_level_used : string;
  device_store : DynDeviceStore;
  rule_engine_state : rule_engine DynAlertStore;
  history : option history_table;
  tasks : list task;
  api_state : AppState DynDeviceStore DynAlertStore history_table;
  listening : result unit ServeError;
  notices : list security_notice
}.

(** Step 2. *)
Definition open_device_store (c : Config.t) (io : StartIo) : result DynDeviceStore StorageError :=
  if is_empty (Config.database_path c) then Ok (InMemoryDevices MemoryStore.new)
  else
    let? opened := SqliteStore.open row_error (Config.database_path c) (start_time io) (devices_io io)
                     (devices_table_of_file io) in
    match opened with
    | Some s => Ok (SqliteDevices s)
    | None => Ok (InMemoryDevices MemoryStore.new)
    end.

(** Step 6. *)
Definition open_alert_store (c : Config.t) (io : StartIo) : result DynAlertStore StorageError :=
  if is_empty (Config.database_path c) then Ok (InMemoryAlerts InMemoryAlertStore.new)
  else
    let? opened := SqliteAlertStore.open (Config.database_path c) (alerts_io io) (alerts_of_file io) in
    match opened with
    | Some s => Ok (SqliteAlerts s)
    | None => Ok (InMemoryAlerts InMemoryAlertStore.new)
    end.

(** Step 6b. *)
Definition open_history_store (c : Config.t) (io : StartIo)
  : result (option history_table) StorageError :=
  if history_enabled c
  then SqliteHistoryStore.open (Config.database_path c) (history_io io) (history_of_file io)
  else Ok None.

(** The audit log of [serve]: when it cannot be opened the daemon goes on
    without. *)
Definition open_audit_log (c : Config.t) (io : StartIo) : option (list AuditEntry) :=
  match ApiConfig.audit (Config.api c) with
  | Some _ => (fun _ => []) <$> result_ok (audit_logger_new (audit_parent io) (audit_file io))
  | None => None
  end.

(** The state [serve] builds and the notices it logs. *)
Definition api_start (c : Config.t) (io : StartIo) (s : DynDeviceStore) (a : DynAlertStore)
  (h : option history_table)
  : AppState DynDeviceStore DynAlertStore history_table * list security_notice :=
  let auth := auth_new (ApiConfig.auth (Config.api c)) in
  (mkAppState s a h auth (open_audit_log c io), emit_security_warnings c auth).

(** The address the server binds. *)
Definition api_address (c : Config.t) : string :=
  Config.api_bind_address c +:+ ":" +:+ fmt_uint (Config.api_port c).

(** [serve_tls], up to the first connection. *)
Definition serve_tls (io : StartIo) (addr : string) (tls : ApiTlsConfig) : result unit ServeError :=
  let? cert := map_err CertificateUnreadable (read_file io (cert_path tls)) in
  let? key := map_err PrivateKeyUnreadable (read_file io (key_path tls)) in
  let? _ := map_err TlsConfigFailed (tls_from_pem io cert key) in
  let? _ := map_err (InvalidBindAddress addr) (socket_addr io addr) in
  map_err ListenFailed (bind io addr).

(** The last part of [serve]: whether the server comes to listen. *)
Definition listen (c : Config.t) (io : StartIo) : result unit ServeError :=
  match ApiConfig.tls (Config.api c) with
  | Some tls => serve_tls io (api_address c) tls
  | None => map_err ListenFailed (bind io (api_address c))
  end.

(** The period of the history task: [snapshot_hours * 3600] on a [u64];
    [interval] panics on a period of zero. *)
Definition history_period (overflow_checks : bool) (snapshot_hours : Z) : exec Z :=
  let product := snapshot_hours * 3600 in
  if product <=? u64_max then Done product
  else if overflow_checks then Panic
  else
    let wrapped := product mod (u64_max + 1) in
    if wrapped =? 0 then Panic else Done wrapped.

(** Steps 8, 10, 11, 11b, 11c and 12: the tasks, in the order they are spawned. *)
Definition fanout_task (notifiers : list notifier) : list task :=
  match notifiers with [] => [] | _ => [FanoutTask notifiers] end.
Definition scanner_task (c : Config.t) : list task :=
  if scanner_enabled c then [ScannerTask (ScannerConfig.interval_seconds (Config.scanner c))] else [].
Definition history_task (c : Config.t) (h : option history_table) : list task :=
  match h with
  | Some _ => [HistoryTask (StorageConfig.history_snapshot_hours (Config.storage c))
                 (StorageConfig.history_retention_days (Config.storage c))]
  | None => []
  end.
Definition flush_task (s : DynDeviceStore) : list task :=
  match sqlite_store s with Some _ => [FlushTask 5] | None => [] end.

(** [run], up to the start of the capture. *)
Definition wire (c : Config.t) (io : StartIo) : result Running StartError :=
  let? level := map_err TelemetryFailed
                  (telemetry_init (filter_parses io) (set_global io) (Config.log_level c)) in
  let? devices := map_err StoreFailed (open_device_store c io) in
  let rules := build_rules c in
  let? alerts := map_err StoreFailed (open_alert_store c io) in
  let? hist := map_err StoreFailed (open_history_store c io) in
  let notifiers := build_notifiers (header_order io) (client_built io) c in
  let '(api, warned) := api_start c io devices alerts hist in
  let spawned := [RuleEngineTask] ++ fanout_task notifiers ++ scanner_task c ++
                 history_task c hist ++ flush_task devices ++ [ApiTask] in
  Ok (mkRunning level devices (mkRuleEngine rules alerts) hist spawned api (listen c io) warned).

(** [CaptureSession::start]: [mpsc::channel] panics on a capacity it does not
    take. *)
Definition capture_start (channel_size : Z) (io : StartIo) : exec (result unit StartError) :=
  if channel_ok io channel_size
  then Done (map_err (fun e => CaptureFailedToStart ("failed to spawn capture thread: " +:+ e))
               (capture_thread io))
  else Panic.

(** [run], up to the line that says it is running. *)
Definition with_pipeline (r : Running) : Running :=
  mkRunning (log_level_used r) (device_store r) (rule_engine_state r) (history r)
    (tasks r ++ [PipelineTask]) (api_state r) (listening r) (notices r).
Definition start (c : Config.t) (io : StartIo) : exec (result Running StartError) :=
  try! r := Done (wire c io) in
  try! _ := capture_start (Config.capture_buffer c) io in
  try! _ := Done (map_err SignalFailed (sigterm_handler io)) in
  Done (Ok (with_pipeline r)).

(** The shutdown once the pipeline has drained: every other task is aborted
    and the write-back cache is flushed a last time. *)
Definition stop (bind_error : string) (iter : gset MacAddress -> list MacAddress) (io : sql_io)
  (d : DynDeviceStore) : DynDeviceStore * option (result nat StorageError) :=
  match d with
  | InMemoryDevices s => (InMemoryDevices s, None)
  | SqliteDevices s =>
      let '(s', r) := SqliteStore.flush bind_error iter io s in (SqliteDevices s', Some r)
  end.
End Startup.

(** * Lemmas *)

(** The trait object keeps the contract of a device store, so the theorems on
    the discovery engine hold for the daemon's, whichever store it opened. *)
#[global] Program Instance dyn_device_store_laws {MT : MacText} : DeviceStoreLaws DynDeviceStore := {|
  ds_map d := match d with InMemoryDevices s => ds_map s | SqliteDevices s => ds_map s end
|}.
Next Obligation. intros MT [s|s] m; apply (ds_get_spec s m). Qed.
Next Obligation.
  intros MT [s|s] d; pose proof (ds_upsert_ok s d) as H; simpl in *;
    [exact H | by destruct (SqliteStore.upsert s d)].
Qed.
Next Obligation.
  intros MT [s|s] d; pose proof (ds_upsert_map s d) as H; simpl in *;
    [exact H | by destruct (SqliteStore.upsert s d)].
Qed.
Next Obligation. intros MT [s|s]; apply (ds_list_spec s). Qed.
Next Obligation. intros MT [s|s]; apply (ds_count_spec s). Qed.

Section StartFacts.
Context {MT : MacText} {IT : IpText} {CH : Chrono} {SJ : SerdeJson} {CR : Crypto} {HT : Http}.
Variable row_error : string.

Lemma open_device_store_kind c io d :
  open_device_store row_error c io = Ok d -> sqlite_store d = None <-> Config.database_path c = "".
Proof.
  unfold open_device_store. destruct (Config.database_path c) as [|x p] eqn:E; cbn [is_empty].
  { by intros [= <-]. }
  rewrite result_bind_Ok. intros (o & Ho & Hd).
  destruct o as [s|]; [injection Hd as <-; done|]. exfalso. revert Ho.
  unfold SqliteStore.open. cbn [is_empty]. rewrite !result_bind_Ok.
  intros (? & _ & H). revert H. rewrite !result_bind_Ok. intros (? & _ & H).
  revert H. rewrite !result_bind_Ok. intros (? & _ & H). revert H. rewrite !result_bind_Ok.
  intros (? & _ & H). revert H. rewrite !result_bind_Ok. intros (? & _ & H).
  revert H. rewrite !result_bind_Ok. intros (? & _ & H). revert H. rewrite !result_bind_Ok.
  by intros (? & _ & [=]).
Qed.

Lemma open_table_Some {T} a b io (t : T) o : open_table a b io t = Ok o -> o = Some t.
Proof.
  unfold open_table. rewrite result_bind_Ok. intros (? & _ & H). rewrite result_bind_Ok in H.
  destruct H as (? & _ & H). rewrite result_bind_Ok in H. by destruct H as (? & _ & [= <-]).
Qed.

Lemma open_alert_store_Ok c io a :
  open_alert_store c io = Ok a ->
  a = if is_empty (Config.database_path c) then InMemoryAlerts InMemoryAlertStore.new
      else SqliteAlerts (alerts_of_file io).
Proof.
  unfold open_alert_store. destruct (is_empty (Config.database_path c)) eqn:E; [by intros [= <-]|].
  rewrite result_bind_Ok. intros (o & Ho & Ha). unfold SqliteAlertStore.open in Ho.
  rewrite E in Ho. apply open_table_Some in Ho as ->. by injection Ha as <-.
Qed.

Lemma open_history_store_Ok c io h :
  open_history_store c io = Ok h -> h = if history_enabled c then Some (history_of_file io) else None.
Proof.
  unfold open_history_store. destruct (history_enabled c) eqn:E; [|by intros [= <-]].
  unfold SqliteHistoryStore.open. unfold history_enabled, uses_sqlite in E.
  destruct (is_empty (Config.database_path c)); [done|]. apply open_table_Some.
Qed.

(** Without a database nothing that may fail is asked of SQLite. *)
Lemma memory_start c io :
  Config.database_path c = "" ->
  open_device_store row_error c io = Ok (InMemoryDevices MemoryStore.new) /\
  open_alert_store c io = Ok (InMemoryAlerts InMemoryAlertStore.new) /\
  open_history_store c io = Ok None.
Proof.
  intros Hp. unfold open_device_store, open_alert_store, open_history_store, history_enabled, uses_sqlite.
  by rewrite Hp.
Qed.

Lemma listen_Ok c io :
  is_ok (listen c io) = true <->
  is_ok (bind io (api_address c)) = true /\
  match ApiConfig.tls (Config.api c) with
  | Some t => exists cert key, read_file io (cert_path t) = Ok cert /\ read_file io (key_path t) = Ok key /\
      is_ok (tls_from_pem io cert key) = true /\ is_ok (socket_addr io (api_address c)) = true
  | None => True
  end.
Proof.
  unfold listen, serve_tls. destruct (ApiConfig.tls (Config.api c)) as [t|].
  2:{ destruct (bind io (api_address c)); cbn; naive_solver. }
  split.
  - destruct (read_file io (cert_path t)) as [cert|]; [|done].
    destruct (read_file io (key_path t)) as [key|]; [|done]. cbn.
    destruct (tls_from_pem io cert key) eqn:E; [|done]. destruct (socket_addr io (api_address c)); [|done].
    destruct (bind io (api_address c)); [|done]. intros _. split; [done|]. exists cert, key. by rewrite E.
  - intros (Hb & cert & key & -> & -> & Hp & Ha). cbn. destruct (tls_from_pem io cert key); [|done].
    destruct (socket_addr io (api_address c)); [|done]. by destruct (bind io (api_address c)).
Qed.

(** The period is the one configured up to 5.1e15 hours; the configuration
    does not bound it. *)
Lemma history_period_exact oc h :
  0 < h <= i64_max ->
  (h <= 5124095576030431 -> history_period oc h = Done (h * 3600)) /\
  (5124095576030431 < h -> oc = true -> history_period oc h = Panic) /\
  (5124095576030431 < h -> oc = false -> (history_period oc h = Panic <-> h mod 2 ^ 60 = 0)).
Proof.
  unfold history_period, u64_max, i64_max. intros Hh. split_and!.
  - intros. by destruct (Z.leb_spec (h * 3600) 18446744073709551615); [|lia].
  - intros ? ->. by destruct (Z.leb_spec (h * 3600) 18446744073709551615); [lia|].
  - intros ? ->. destruct (Z.leb_spec (h * 3600) 18446744073709551615); [lia|].
    destruct (Z.eqb_spec ((h * 3600) mod (18446744073709551615 + 1)) 0) as [E|E].
    + split; [|done]. intros _. change (18446744073709551615 + 1) with (2 ^ 64) in E.
      apply Z.mod_divide in E as [k Hk]; [|lia]. apply Z.mod_divide; [lia|].
      apply (Z.gauss _ 225). { exists (k). nia. } done.
    + split; [done|]. intros Hm. exfalso. apply E. apply Z.mod_divide in Hm as [k ->]; [|lia].
      change (18446744073709551615 + 1) with (2 ^ 60 * 16).
      replace (k * 2 ^ 60 * 3600) with (225 * k * (2 ^ 60 * 16)) by ring. by apply Z_mod_mult.
Qed.

Lemma wire_Ok c io r :
  wire row_error c io = Ok r ->
  exists d a h, open_device_store row_error c io = Ok d /\ open_alert_store c io = Ok a /\
    open_history_store c io = Ok h /\
    r = mkRunning (log_filter (filter_parses io) (Config.log_level c)) d (mkRuleEngine (build_rules c) a) h
          ([RuleEngineTask] ++ fanout_task (build_notifiers (header_order io) (client_built io) c) ++
           scanner_task c ++ history_task c h ++ flush_task d ++ [ApiTask])
          (api_start c io d a h).1 (listen c io) (api_start c io d a h).2.
Proof.
  unfold wire, telemetry_init. destruct (set_global io); [|done]. cbn [result_bind map_err].
  destruct (open_device_store row_error c io); [|done]. destruct (open_alert_store c io); [|done].
  destruct (open_history_store c io); [|done]. cbn. intros [= <-]. eauto 10.
Qed.

Lemma start_Ok c io r :
  start row_error c io = Done (Ok r) -> exists r', wire row_error c io = Ok r' /\ r = with_pipeline r'.
Proof.
  unfold start. destruct (wire row_error c io) as [r'|]; [|done]. cbn. unfold capture_start.
  destruct (channel_ok io _); [|done]. destruct (capture_thread io); [|done].
  destruct (sigterm_handler io); [|done]. intros [= <-]. eauto.
Qed.

Lemma in_tasks c d h ns t :
  t ∈ ([RuleEngineTask] ++ fanout_task ns ++ scanner_task c ++ history_task c h ++ flush_task d ++
       [ApiTask]) ++ [PipelineTask] <->
  match t with
  | RuleEngineTask | ApiTask | PipelineTask => True
  | FanoutTask l => l = ns /\ ns <> []
  | ScannerTask n => n = ScannerConfig.interval_seconds (Config.scanner c) /\ 0 < n
  | HistoryTask a b => is_Some h /\ a = StorageConfig.history_snapshot_hours (Config.storage c) /\
      b = StorageConfig.history_retention_days (Config.storage c)
  | FlushTask n => n = 5 /\ sqlite_store d <> None
  end.
Proof.
  assert (forall x, x ∈ fanout_task ns <-> ns <> [] /\ x = FanoutTask ns) as Hf.
  { intros x. unfold fanout_task. destruct ns; set_solver. }
  assert (forall x, x ∈ scanner_task c <->
    0 < ScannerConfig.interval_seconds (Config.scanner c) /\
    x = ScannerTask (ScannerConfig.interval_seconds (Config.scanner c))) as Hs.
  { intros x. unfold scanner_task, scanner_enabled.
    destruct (Z.ltb_spec 0 (ScannerConfig.interval_seconds (Config.scanner c)));
      rewrite ?elem_of_nil, ?list_elem_of_singleton; naive_solver lia. }
  assert (forall x, x ∈ history_task c h <-> is_Some h /\
    x = HistoryTask (StorageConfig.history_snapshot_hours (Config.storage c))
          (StorageConfig.history_retention_days (Config.storage c))) as Hh.
  { intros x. unfold history_task. destruct h; rewrite ?elem_of_nil, ?list_elem_of_singleton; [|].
    - split; [intros ->; eauto | by intros [_ ?]].
    - split; [done | by intros [[? ?] ?]]. }
  assert (forall x, x ∈ flush_task d <-> sqlite_store d <> None /\ x = FlushTask 5) as Hl.
  { intros x. unfold flush_task. destruct (sqlite_store d);
      rewrite ?elem_of_nil, ?list_elem_of_singleton; naive_solver. }
  rewrite !elem_of_app, Hf, Hs, Hh, Hl, !list_elem_of_singleton. destruct t; naive_solver.
Qed.
End StartFacts.

(** * Properties *)

(** C33: what a started daemon consists of, for every configuration.  The
    rule engine runs the rules of the configuration (or the default one) on
    the alert store that the API serves; devices, alerts and history are in
    SQLite exactly when a database is named (history only when snapshots are
    enabled), with what the file held; every task runs exactly when its
    setting asks for it (delivery with a notifier, the scanner and the
    snapshots with a period, the flush with SQLite); the API works on the same
    stores and, on a validated configuration, asks for a key exactly when
    [[api.auth]] is there; it comes to listen exactly when its address can be
    bound and, with TLS, the two files can be read and used and the address
    is numeric; and without a database the daemon starts exactly when the
    subscriber, the capture thread and the signal handler come up, whatever
    becomes of the API, and panics exactly when the channel cannot have
    [capture_buffer] places. *)
Theorem start_exact {MT : MacText} {IT : IpText} {CH : Chrono} {SJ : SerdeJson} {CR : Crypto}
  {CL : CryptoLaws} {HT : Http} (row_error : string) (c : Config.t) (io : StartIo) :
  (forall r, start row_error c io = Done (Ok r) ->
     Rules.rules (rule_engine_state r) = build_rules c /\
     (sqlite_store (device_store r) = None <-> Config.database_path c = "") /\
     Rules.alert_store (rule_engine_state r) =
       (if is_empty (Config.database_path c) then InMemoryAlerts InMemoryAlertStore.new
        else SqliteAlerts (alerts_of_file io)) /\
     history r = (if history_enabled c then Some (history_of_file io) else None) /\
     (forall t, t ∈ tasks r <->
        match t with
        | RuleEngineTask | ApiTask | PipelineTask => True
        | FanoutTask l => l = build_notifiers (header_order io) (client_built io) c /\ l <> []
        | ScannerTask n => n = ScannerConfig.interval_seconds (Config.scanner c) /\ 0 < n
        | HistoryTask a b => history_enabled c = true /\
            a = StorageConfig.history_snapshot_hours (Config.storage c) /\
            b = StorageConfig.history_retention_days (Config.storage c)
        | FlushTask n => n = 5 /\ Config.database_path c <> ""
        end) /\
     Api.store (api_state r) = device_store r /\
     Api.alert_store (api_state r) = Rules.alert_store (rule_engine_state r) /\
     Api.history_store (api_state r) = history r /\
     (is_ok (listening r) = true <->
        is_ok (bind io (api_address c)) = true /\
        match ApiConfig.tls (Config.api c) with
        | Some t => exists cert key, read_file io (cert_path t) = Ok cert /\
            read_file io (key_path t) = Ok key /\ is_ok (tls_from_pem io cert key) = true /\
            is_ok (socket_addr io (api_address c)) = true
        | None => True
        end) /\
     (config_valid c ->
        is_enabled (Api.auth (api_state r)) = true <-> is_Some (ApiConfig.auth (Config.api c)))) /\
  (Config.database_path c = "" ->
     ((exists r, start row_error c io = Done (Ok r)) <->
      is_ok (set_global io) && channel_ok io (Config.capture_buffer c) && is_ok (capture_thread io) &&
      is_ok (sigterm_handler io) = true) /\
     (start row_error c io = Panic <->
      is_ok (set_global io) && negb (channel_ok io (Config.capture_buffer c)) = true)).
Proof.
  split.
  - intros r (r' & (d & a & h & Hd & Ha & Hh & ->)%wire_Ok & ->)%start_Ok. cbn.
    pose proof (open_device_store_kind _ _ _ _ Hd) as Hk.
    split; [done|]. split; [done|]. split; [by apply open_alert_store_Ok|].
    pose proof (open_history_store_Ok _ _ _ Hh) as Eh. split; [done|]. split.
    { intros t. pose proof (in_tasks c d h (build_notifiers (header_order io) (client_built io) c) t) as Ht.
      cbn in Ht. rewrite Ht. destruct t; try done; [naive_solver | | naive_solver].
      rewrite Eh. destruct (history_enabled c); [|by split; [intros [[] _]|intros [? _]]].
      split; [tauto|]. intros (_ & ?). split; [by eexists | done]. }
    split_and!; try done; [apply listen_Ok|]. intros (_ & _ & _ & _ & Hv & _).
    destruct (ApiConfig.auth (Config.api c)) as [cfg|]; cbn in Hv |- *.
    + destruct (auth_new_valid cfg Hv) as [He _]. split; [by eexists|]. by intros _.
    + split; [done|]. by intros [].
  - intros Hp. destruct (memory_start row_error c io Hp) as (Hd & Ha & Hh).
    unfold start, wire, telemetry_init. rewrite Hd, Ha, Hh. destruct (set_global io); [|naive_solver].
    cbn. unfold capture_start. destruct (channel_ok io _); [|naive_solver].
    destruct (capture_thread io); [|naive_solver]. destruct (sigterm_handler io); naive_solver.
Qed.

(** * Witnesses *)

#[local] Existing Instances ref_mac_text std_ip_text ref_chrono ref_serde_json demo_crypto.
#[local] Instance start_http : Http :=
  {| header_value s := true; header_name := Some; status_display := fmt_uint |}.
Definition demo_io (opens : result unit string) : StartIo := {|
  filter_parses s := bool_decide (s = "debug");
  set_global := Ok tt;
  devices_io := SqliteStore.mkOpenIo opens opens opens (fun _ => Ok tt) opens (Ok []);
  devices_table_of_file := ∅;
  start_time := 0;
  alerts_io := mkTableIo opens opens opens;
  alerts_of_file := SqliteAlertStore.empty;
  history_io := mkTableIo opens opens opens;
  history_of_file := ∅;
  client_built _ := true;
  header_order := map_to_list;
  audit_parent := Ok tt;
  audit_file := Ok "";
  read_file _ := Err "no such file";
  tls_from_pem _ _ := Ok tt;
  socket_addr _ := Ok tt;
  bind _ := Ok tt;
  channel_ok n := 0 <? n;
  capture_thread := Ok tt;
  sigterm_handler := Ok tt
|}.
Lemma start_exact_witness :
  exists r, start "row" demo_config (demo_io (Ok tt)) = Done (Ok r) /\
    log_level_used r = "info" /\
    (ScannerTask 300 ∈ tasks r <-> ScannerConfig.interval_seconds (Config.scanner demo_config) = 300).
Proof.
  destruct (start_exact (CL := demo_crypto_laws) "row" demo_config (demo_io (Ok tt))) as [H H0].
  assert (exists r, start "row" demo_config (demo_io (Ok tt)) = Done (Ok r)) as [r E]
    by (apply H0; [reflexivity | vm_compute; reflexivity]).
  exists r. destruct (H r E) as (_ & _ & _ & _ & Ht & _). split; [exact E|]. split.
  - revert E. vm_compute. by intros [= <-].
  - rewrite Ht. split; [by intros [? _]|]. intros ->. done.
Defined.
