(* ===== verification/Tui.v ===== *)
(** The terminal dashboard, [crates/tui/src]: the client ([client.rs]), the
    snapshot it polls ([snapshot.rs]), the selections and views ([views/]),
    and the application state with its key bindings ([app.rs]).  Drawing is
    [ratatui]'s and is left out.

    The client sends its requests into a world, [W]: any server whatsoever
    for the theorems about the dashboard alone, and the API of [Api] for the
    one that puts both together. *)

From S2P Require Import Prelude Text Types Reference Net Json Stores Sqlite HistorySqlite Config Alerts.
From S2P Require Import Packet Classify Dhcp Mdns Oui Discovery Rules Auth Api Notify.

(** * The client *)

Inductive ClientError : Type :=
| Network (e : string)
| Build (e : string)
| StatusError (url : string) (status : Z) (body : string)
| Decode (url : string) (source : string).

(** An answer: its status and its body, which may fail to arrive. *)
Record HttpResponse : Type := mkHttpResponse { resp_status : Z; resp_text : result string string }.

(** [reqwest]: the world after a request, and the answer.  [decode_error] is
    the text of a parse error of [serde_json]. *)
Class World (W : Type) : Type := {
  send : W -> string -> string -> option string -> W * result HttpResponse string
}.

Record Client : Type := mkClient { base : string; key : option string }.

Record MetricsResponse : Type := mkMetrics {
  total_devices : Z; total_packets : Z; total_bytes : Z; uptime_seconds : Z
}.
Record HealthSnapshot : Type := mkHealth { h_status : string; h_version : string }.

Module Snapshot.
Record t : Type := mk {
  fetched_at : option Instant; health : option HealthSnapshot; devices : option (list Device.t);
  alerts : option (list Alert.t); metrics : option MetricsResponse; last_error : option string
}.
Definition empty : t := mk None None None None None None.
Definition is_reachable (s : t) : bool := match health s with Some _ => true | None => false end.
Definition device_count (s : t) : nat := from_option length 0%nat (devices s).
Definition alert_count (s : t) : nat := from_option length 0%nat (alerts s).
End Snapshot.

Section ClientOperations.
Context {MT : MacText} {IT : IpText} {CH : Chrono} {SJ : SerdeJson} {HT : Http}.
Context {W : Type} {WO : World W}.
Variable decode_error : string -> string.

(** [header_error] is the text of an illegal header value, [built] what
    building the HTTP client gives. *)
Definition client_new (header_error : string) (built : result unit string) (base : string)
  (key : option string) : result Client ClientError :=
  let base := trim_end_matches "/" base in
  let? _ := match key with
            | Some k => if header_value ("Bearer " +:+ k) then Ok tt else Err (Build header_error)
            | None => Ok tt
            end in
  let? _ := map_err Network built in
  Ok (mkClient base key).

Definition metrics_from_json (j : json) : option MetricsResponse :=
  match j with
  | JObj fs =>
      d ← required "total_devices" u64_from_json fs;
      p ← required "total_packets" u64_from_json fs;
      b ← required "total_bytes" u64_from_json fs;
      u ← required "uptime_seconds" u64_from_json fs;
      Some (mkMetrics d p b u)
  | _ => None
  end.
Definition health_from_json (j : json) : option HealthSnapshot :=
  match j with
  | JObj fs =>
      s ← required "status" string_from_json fs;
      v ← required "version" string_from_json fs;
      Some (mkHealth s v)
  | _ => None
  end.
(** The derived reader of [DeviceHistorySnapshot]. *)
Definition history_stats_from_json (j : json) : option (gmap Protocol Z) :=
  match j with
  | JObj fs =>
      l ← mapM (fun f : string * json => p ← variant_of f.1; n ← u64_from_json f.2; Some (p, n)) fs;
      Some (foldl (fun m e => <[e.1 := e.2]> m) ∅ l)
  | _ => None
  end.
Definition history_from_json (j : json) : option Types.Snapshot.t :=
  match j with
  | JObj fs =>
      mac ← required "mac" mac_from_json fs;
      date ← required "snapshot_date" string_from_json fs;
      ts ← required "snapshot_timestamp" timestamp_from_json fs;
      ips ← required "ips" (array_from_json ip_from_json) fs;
      hostname ← optional "hostname" string_from_json fs;
      vendor ← optional "vendor" string_from_json fs;
      dhcp_vendor_class ← optional "dhcp_vendor_class" string_from_json fs;
      packet_count ← required "packet_count" u64_from_json fs;
      bytes_sent ← required "bytes_sent" u64_from_json fs;
      bytes_received ← required "bytes_received" u64_from_json fs;
      protocols ← required "protocols" (array_from_json protocol_from_json) fs;
      protocol_stats ← required "protocol_stats" history_stats_from_json fs;
      first_seen ← required "first_seen" timestamp_from_json fs;
      last_seen ← required "last_seen" timestamp_from_json fs;
      Some (Types.Snapshot.mk mac date ts (list_to_set ips) hostname vendor dhcp_vendor_class
              packet_count bytes_sent bytes_received (list_to_set protocols) protocol_stats first_seen
              last_seen)
  | _ => None
  end.

(** The shape of every reading method. *)
Definition get {A} (dec : json -> option A) (w : W) (c : Client) (path : string)
  : W * result A ClientError :=
  let url := base c +:+ path in
  match send w "GET" url (key c) with
  | (w', Err e) => (w', Err (Network e))
  | (w', Ok resp) =>
      (w', if negb (is_success (resp_status resp))
           then Err (StatusError url (resp_status resp) (default "" (result_ok (resp_text resp))))
           else match resp_text resp with
                | Err e => Err (Network e)
                | Ok body =>
                    match json_from_str body ≫= dec with
                    | Some a => Ok a
                    | None => Err (Decode url (decode_error body))
                    end
                end)
  end.
Definition get_health (w : W) (c : Client) := get health_from_json w c "/health".
Definition get_devices (w : W) (c : Client) := get (array_from_json device_from_json) w c "/devices".
Definition get_alerts (w : W) (c : Client) := get (array_from_json alert_from_json) w c "/alerts".
Definition get_metrics (w : W) (c : Client) := get metrics_from_json w c "/metrics".

(** 501 is an empty history. *)
Definition device_history (w : W) (c : Client) (mac : string)
  : W * result (list Types.Snapshot.t) ClientError :=
  match get (array_from_json history_from_json) w c ("/devices/" +:+ mac +:+ "/history") with
  | (w', Err (StatusError url status body)) =>
      (w', if status =? 501 then Ok [] else Err (StatusError url status body))
  | r => r
  end.

Definition post_acknowledge (w : W) (c : Client) (id : Z) : W * result unit ClientError :=
  let url := base c +:+ "/alerts/" +:+ fmt_uint id +:+ "/acknowledge" in
  match send w "POST" url (key c) with
  | (w', Err e) => (w', Err (Network e))
  | (w', Ok resp) =>
      (w', if negb (is_success (resp_status resp))
           then Err (StatusError url (resp_status resp) (default "" (result_ok (resp_text resp))))
           else Ok tt)
  end.

Definition client_error_display (e : ClientError) : string :=
  match e with
  | Network e => "network error: " +:+ e
  | Build e => "client build error: " +:+ e
  | StatusError url status body =>
      "unexpected status " +:+ status_display status +:+ " from " +:+ url +:+ ": " +:+ body
  | Decode url source => "invalid response body from " +:+ url +:+ ": " +:+ source
  end.

(** [snapshot]: [join!] starts the four requests in this order. *)
Definition first_error {A} (seen : option string) (r : result A ClientError) : option string :=
  match seen, r with
  | None, Err e => Some (client_error_display e)
  | _, _ => seen
  end.
Definition fetch_snapshot (w : W) (c : Client) (now : Instant) : W * Snapshot.t :=
  let (w, h) := get_health w c in
  let (w, d) := get_devices w c in
  let (w, a) := get_alerts w c in
  let (w, m) := get_metrics w c in
  let err := first_error (first_error (first_error (first_error None h) d) a) m in
  (w, Snapshot.mk (Some now) (result_ok h) (result_ok d) (result_ok a) (result_ok m) err).
End ClientOperations.

(** * Views and selections *)

Inductive View : Type := VDevices | VAlerts | VMetrics | VHealth.
#[global] Instance View_eq_dec : EqDecision View.
Proof. solve_decision. Defined.
Definition ALL : list View := [VDevices; VAlerts; VMetrics; VHealth].
Definition view_index (v : View) : nat :=
  match v with VDevices => 0 | VAlerts => 1 | VMetrics => 2 | VHealth => 3 end.
Definition view_next (v : View) : View :=
  nth ((view_index v + 1) mod length ALL) ALL VDevices.
Definition view_prev (v : View) : View :=
  nth ((view_index v + length ALL - 1) mod length ALL) ALL VDevices.

(** [up] and [down] of both list views. *)
Definition select_up (selected len : nat) : nat :=
  match len with O => 0 | S n => Nat.min (selected - 1) n end.
Definition select_down (selected len : nat) : nat :=
  match len with O => 0 | S n => Nat.min (selected + 1) n end.

(** * The application *)

Record DeviceDetail : Type := mkDetail {
  d_mac : option string; d_device : option Device.t; d_history : list Types.Snapshot.t;
  d_history_error : option string
}.
Record App : Type := mkApp {
  snap : Snapshot.t; client : Client; view : View; devices_selected : nat; alerts_selected : nat;
  detail : option DeviceDetail; flash : option string; quit : bool
}.
Definition app_new (c : Client) : App := mkApp Snapshot.empty c VDevices 0 0 None None false.

Definition set_snap (s : Snapshot.t) (a : App) : App :=
  mkApp s (client a) (view a) (devices_selected a) (alerts_selected a) (detail a) (flash a) (quit a).
Definition set_view (v : View) (a : App) : App :=
  mkApp (snap a) (client a) v (devices_selected a) (alerts_selected a) (detail a) (flash a) (quit a).
Definition set_selected (d l : nat) (a : App) : App :=
  mkApp (snap a) (client a) (view a) d l (detail a) (flash a) (quit a).
Definition set_detail (d : option DeviceDetail) (a : App) : App :=
  mkApp (snap a) (client a) (view a) (devices_selected a) (alerts_selected a) d (flash a) (quit a).
Definition set_flash (f : option string) (a : App) : App :=
  mkApp (snap a) (client a) (view a) (devices_selected a) (alerts_selected a) (detail a) f (quit a).
Definition should_quit (a : App) : bool := quit a.
Definition set_quit (a : App) : App :=
  mkApp (snap a) (client a) (view a) (devices_selected a) (alerts_selected a) (detail a) (flash a) true.

(** [current_list_len]; [busy] says that the poller holds the lock. *)
Definition current_list_len (a : App) (busy : bool) : nat :=
  if busy then 0%nat
  else match view a with
       | VDevices => Snapshot.device_count (snap a)
       | VAlerts => Snapshot.alert_count (snap a)
       | _ => 0%nat
       end.
Definition move (f : nat -> nat -> nat) (a : App) (busy : bool) : App :=
  let len := current_list_len a busy in
  match view a with
  | VDevices => set_selected (f (devices_selected a) len) (alerts_selected a) a
  | VAlerts => set_selected (devices_selected a) (f (alerts_selected a) len) a
  | _ => a
  end.

Definition selected_alert_id (a : App) : option Z :=
  alerts ← Snapshot.alerts (snap a); Alert.id <$> (alerts !! alerts_selected a).

(** The keys the dashboard reacts to. *)
Inductive KeyCode : Type :=
| KChar (c : ascii) | KTab | KBackTab | KUp | KDown | KEnter | KEsc | KBackspace | KOther.
Record KeyEvent : Type := mkKey { code : KeyCode; ctrl : bool; lock_busy : bool; at_instant : Instant }.

Section Application.
Context {MT : MacText} {IT : IpText} {CH : Chrono} {SJ : SerdeJson} {HT : Http}.
Context {W : Type} {WO : World W}.
Variable decode_error : string -> string.

Definition ack_selected (w : W) (a : App) (now : Instant) : W * App :=
  match selected_alert_id a with
  | Some id =>
      match post_acknowledge w (client a) id with
      | (w', Ok _) =>
          let (w'', s) := fetch_snapshot decode_error w' (client a) now in
          (w'', set_snap s (set_flash None a))
      | (w', Err e) => (w', set_flash (Some ("ack failed: " +:+ client_error_display e)) a)
      end
  | None => (w, set_flash (Some "no alert selected") a)
  end.

Definition open_device_detail (w : W) (a : App) : W * App :=
  match Snapshot.devices (snap a) ≫= (fun ds => ds !! devices_selected a) with
  | None => (w, set_flash (Some "no device selected") a)
  | Some d =>
      let mac := mac_to_string (Device.mac d) in
      let (w', r) := device_history decode_error w (client a) mac in
      let '(history, err) := match r with
                             | Ok h => (h, None)
                             | Err e => ([], Some (client_error_display e))
                             end in
      let device := Snapshot.devices (snap a) ≫=
        List.find (fun d => String.eqb (mac_to_string (Device.mac d)) mac) in
      (w', set_detail (Some (mkDetail (Some mac) device history err)) a)
  end.

(** [handle_event]: an open overlay takes the keys first. *)
Definition handle_key (w : W) (a : App) (k : KeyEvent) : W * App :=
  match detail a with
  | Some _ =>
      (w, match code k, ctrl k with
          | KEsc, _ | KBackspace, _ => set_detail None a
          | KChar "q", false | KChar "c", true => set_quit a
          | _, _ => a
          end)
  | None =>
      match code k, ctrl k with
      | KChar "q", false | KChar "c", true => (w, set_quit a)
      | KTab, false => (w, set_view (view_next (view a)) a)
      | KBackTab, false => (w, set_view (view_prev (view a)) a)
      | KChar "1", false => (w, set_view VDevices a)
      | KChar "2", false => (w, set_view VAlerts a)
      | KChar "3", false => (w, set_view VMetrics a)
      | KChar "4", false => (w, set_view VHealth a)
      | KUp, _ => (w, move select_up a (lock_busy k))
      | KDown, _ => (w, move select_down a (lock_busy k))
      | KEnter, _ => open_device_detail w a
      | KChar "a", false => ack_selected w a (at_instant k)
      | _, _ => (w, a)
      end
  end.

(** The two tasks: a key, or a tick of the poller. *)
Inductive tui_event : Type := Key (k : KeyEvent) | PollTick (now : Instant).
Definition tui_step (w : W) (a : App) (e : tui_event) : W * App :=
  match e with
  | Key k => handle_key w a k
  | PollTick now =>
      let (w', s) := fetch_snapshot decode_error w (client a) now in (w', set_snap s a)
  end.
(** The loop of [run] and, beside it, the poller it aborts when it is done:
    what comes after the quit is no longer handled. *)
Fixpoint tui_run (w : W) (a : App) (es : list tui_event) : W * App :=
  if should_quit a then (w, a)
  else match es with
       | [] => (w, a)
       | e :: es' => let (w', a') := tui_step w a e in tui_run w' a' es'
       end.
End Application.

(** The counts of a history, oldest day first, for the sparkline. *)
Definition date_le (x y : Types.Snapshot.t) : Prop :=
  String.le (Types.Snapshot.snapshot_date x) (Types.Snapshot.snapshot_date y).
#[global] Instance date_le_dec : RelDecision date_le.
Proof. intros x y. unfold date_le. apply _. Defined.
Definition packet_series (d : DeviceDetail) : list Z :=
  Types.Snapshot.packet_count <$> merge_sort date_le (d_history d).

(** * Specifications *)

(** A world that remembers the requests it was sent. *)
Definition logged (W : Type) : Type := W * list (string * string).
#[global] Instance logged_world {W} `{!World W} : World (logged W) := {|
  send w method url key :=
    let (w', r) := send w.1 method url key in ((w', w.2 ++ [(method, url)]), r)
|}.

(** The write a step asks for: [a] pressed, no overlay, an alert selected. *)
Definition write_asked (a : App) (e : tui_event) : option (string * string) :=
  match e, detail a with
  | Key k, None =>
      match code k, ctrl k with
      | KChar "a", false =>
          (fun id => ("POST", base (client a) +:+ "/alerts/" +:+ fmt_uint id +:+ "/acknowledge"))
            <$> selected_alert_id a
      | _, _ => None
      end
  | _, _ => None
  end.
Definition is_write (r : string * string) : bool := negb (String.eqb r.1 "GET").

(** The API of [Api] as a world: each request takes the next reading of the
    clock; a panic in a handler closes the connection.  Matching a request
    to a route is Axum's. *)
Class Routing : Type := { route : string -> string -> option Endpoint }.
Definition dashboard_endpoint (e : Endpoint) : Prop :=
  match e with
  | Health | ListDevices | Metrics => True
  | ListAlerts params => params = ∅
  | AcknowledgeAlert id => exists i, in_u64 i /\ id = fmt_uint i
  | _ => False
  end.
Class RoutingLaws {RO : Routing} : Prop := {
  route_path e : dashboard_endpoint e -> route (endpoint_method e) (endpoint_path e) = Some e
}.

Record daemon (S A H : Type) : Type := mkDaemon { server : AppState S A H; ticks : nat }.
Arguments mkDaemon {S A H}.
Arguments server {S A H}.
Arguments ticks {S A H}.

Section DaemonWorld.
Context {S A H : Type} {DS : DeviceStore S} {AS : AlertStore A} {HS : DeviceHistoryStore H}.
Context {MT : MacText} {IT : IpText} {CH : Chrono} {SJ : SerdeJson} {CR : Crypto} {AT : ApiText}.
Context {RO : Routing}.
Variables (version : string) (oc : bool) (address : string) (peer : option IpAddr)
  (clk : nat -> ApiClock).

Definition body_text (b : Body) : string :=
  match b with JsonBody j => json_to_string j | TextBody s => s | NoBody => "" end.
Definition incoming (e : Endpoint) (key : option string) : Incoming :=
  mkIncoming e (String.append "Bearer " <$> key) None peer.
Definition daemon_send (w : daemon S A H) (method url : string) (key : option string)
  : daemon S A H * result HttpResponse string :=
  match strip_prefix address url ≫= route method with
  | None => (w, Ok (mkHttpResponse 404 (Ok "")))
  | Some e =>
      match serve_request version oc (server w) (incoming e key) (clk (ticks w)) with
      | Done (st, resp) =>
          (mkDaemon st (ticks w + 1), Ok (mkHttpResponse (status resp) (Ok (body_text (body resp)))))
      | _ => (mkDaemon (unwound (server w) (incoming e key) (clk (ticks w))) (ticks w + 1), Err "connection closed before message completed")
      end
  end.
Definition daemon_world : World (daemon S A H) := {| send := daemon_send |}.

(** The server lets the reads of this key through, at any time. *)
Definition reads_admitted (st : AppState S A H) (key : option string) : Prop :=
  forall e n, dashboard_endpoint e -> endpoint_method e = "GET" ->
    admitted st (incoming e key) (clk n) \/ e = Health.
End DaemonWorld.

(** Two states of the server with the same stores and keys. *)
Definition same_state {S A H} (st st' : AppState S A H) : Prop :=
  store st' = store st /\ alert_store st' = alert_store st /\
  history_store st' = history_store st /\ auth st' = auth st.

(** The writes asked for along a run. *)
Section Runs.
Context {MT : MacText} {IT : IpText} {CH : Chrono} {SJ : SerdeJson} {HT : Http}.
Context {W : Type} {WO : World W}.
Variable decode_error : string -> string.
Fixpoint writes_along (w : W) (a : App) (es : list tui_event) : list (string * string) :=
  match es with
  | [] => []
  | e :: es' =>
      let (w', a') := tui_step decode_error w a e in
      option_list (write_asked a e) ++ writes_along w' a' es'
  end.
(** The events handled: none after the quit. *)
Fixpoint handled (w : W) (a : App) (es : list tui_event) : list tui_event :=
  match es with
  | [] => []
  | e :: es' =>
      if quit a then []
      else let (w', a') := tui_step decode_error w a e in e :: handled w' a' es'
  end.
End Runs.

(** * Lemmas *)

Section Logging.
Context {MT : MacText} {IT : IpText} {CH : Chrono} {SJ : SerdeJson} {HT : Http}.
Context {W : Type} {WO : World W}.
Variable decode_error : string -> string.
Implicit Types (w : logged W) (c : Client) (a : App).

Lemma get_logged {A} (dec : json -> option A) w c path :
  (get decode_error dec w c path).1.2 = w.2 ++ [("GET", base c +:+ path)].
Proof.
  unfold get. simpl. destruct (send w.1 "GET" (base c +:+ path) (key c)) as [w' [resp|e]]; done.
Qed.

Lemma fetch_logged w c now :
  exists l, (fetch_snapshot decode_error w c now).1.2 = w.2 ++ l /\ List.filter is_write l = [].
Proof.
  unfold fetch_snapshot, get_health, get_devices, get_alerts, get_metrics.
  pose proof (get_logged health_from_json w c "/health") as H1.
  destruct (get decode_error _ w c "/health") as [w1 h].
  pose proof (get_logged (array_from_json device_from_json) w1 c "/devices") as H2.
  destruct (get decode_error _ w1 c "/devices") as [w2 d].
  pose proof (get_logged (array_from_json alert_from_json) w2 c "/alerts") as H3.
  destruct (get decode_error _ w2 c "/alerts") as [w3 al].
  pose proof (get_logged metrics_from_json w3 c "/metrics") as H4.
  destruct (get decode_error _ w3 c "/metrics") as [w4 m]. simpl in *.
  rewrite H4, H3, H2, H1, <- !app_assoc. by eexists.
Qed.

Lemma history_logged w c mac :
  (device_history decode_error w c mac).1.2 =
    w.2 ++ [("GET", base c +:+ "/devices/" +:+ mac +:+ "/history")].
Proof.
  unfold device_history. rewrite <- (get_logged (array_from_json history_from_json)).
  by destruct (get decode_error _ w c _) as [w' [h|[]]].
Qed.

Lemma post_logged w c id :
  (post_acknowledge w c id).1.2 =
    w.2 ++ [("POST", base c +:+ "/alerts/" +:+ fmt_uint id +:+ "/acknowledge")].
Proof.
  unfold post_acknowledge. simpl. by destruct (send w.1 _ _ _) as [w' [resp|e]].
Qed.

Lemma ack_selected_logged w a now :
  exists l, (ack_selected decode_error w a now).1.2 = w.2 ++ l /\
    List.filter is_write l = option_list
      ((fun id => ("POST", base (client a) +:+ "/alerts/" +:+ fmt_uint id +:+ "/acknowledge"))
         <$> selected_alert_id a) /\
    client (ack_selected decode_error w a now).2 = client a.
Proof.
  unfold ack_selected. destruct (selected_alert_id a) as [id|].
  2: { exists []. by rewrite app_nil_r. }
  pose proof (post_logged w (client a) id) as Hp.
  destruct (post_acknowledge w (client a) id) as [w' [u|e]]; simpl in Hp.
  - destruct (fetch_logged w' (client a) now) as (l & Hl & Hw).
    destruct (fetch_snapshot decode_error w' (client a) now) as [w'' s]. simpl in *.
    rewrite Hl, Hp, <- app_assoc. eexists. split; [reflexivity|]. simpl. by rewrite Hw.
  - simpl. rewrite Hp. by eexists.
Qed.

Lemma open_detail_logged w a :
  exists l, (open_device_detail decode_error w a).1.2 = w.2 ++ l /\ List.filter is_write l = [] /\
    client (open_device_detail decode_error w a).2 = client a.
Proof.
  unfold open_device_detail. destruct (_ ≫= _) as [d|].
  2: { exists []. by rewrite app_nil_r. }
  pose proof (history_logged w (client a) (mac_to_string (Device.mac d))) as Hh.
  destruct (device_history decode_error w (client a) _) as [w' r]. simpl in Hh.
  destruct r as [h|e]; simpl; rewrite Hh; by eexists.
Qed.

(** Every step sends reads and the one write it was asked for. *)
Lemma step_logged w a e :
  exists l, (tui_step decode_error w a e).1.2 = w.2 ++ l /\
    List.filter is_write l = option_list (write_asked a e) /\
    client (tui_step decode_error w a e).2 = client a.
Proof.
  assert (forall r : logged W * App, r.1 = w -> client r.2 = client a -> write_asked a e = None ->
    exists l, r.1.2 = w.2 ++ l /\ List.filter is_write l = option_list (write_asked a e) /\
      client r.2 = client a) as Hstill.
  { intros r Hr Hc ->. exists []. by rewrite Hr, app_nil_r. }
  destruct e as [k|now]; simpl tui_step.
  - unfold handle_key. destruct (detail a) as [d|] eqn:Ed.
    + apply Hstill; [done | by repeat case_match | simpl; by rewrite Ed].
    + unfold write_asked in *. rewrite Ed in *.
      destruct (code k) as [x| | | | | | | |]; try (by apply Hstill; repeat case_match).
      * destruct x as [[] [] [] [] [] [] [] []]; destruct (ctrl k);
          try (by apply Hstill); apply ack_selected_logged.
      * apply Hstill; [done | by unfold move; case_match | done].
      * apply Hstill; [done | by unfold move; case_match | done].
      * apply open_detail_logged.
  - destruct (fetch_logged w (client a) now) as (l & Hl & Hw).
    destruct (fetch_snapshot decode_error w (client a) now) as [w' s]. simpl in *.
    exists l. rewrite Hw. split_and!; try done.
Qed.
End Logging.

Section DaemonFacts.
Context {S A H : Type} {DS : DeviceStore S} {AS : AlertStore A} {HS : DeviceHistoryStore H}.
Context {MT : MacText} {IT : IpText} {CH : Chrono} {SJ : SerdeJson} {CR : Crypto} {AT : ApiText}.
Context {HT : Http} {RO : Routing} {RL : RoutingLaws}.
Variables (version : string) (oc : bool) (address : string) (peer : option IpAddr)
  (clk : nat -> ApiClock) (decode_error : string -> string).
Implicit Types (st : AppState S A H).

Lemma same_state_refl st : same_state st st.
Proof. done. Qed.
Lemma same_state_trans st1 st2 st3 : same_state st1 st2 -> same_state st2 st3 -> same_state st1 st3.
Proof. intros (H1 & H2 & H3 & H4) (K1 & K2 & K3 & K4). repeat split; congruence. Qed.

Lemma reads_admitted_same st st' k :
  same_state st st' -> reads_admitted peer clk st k -> reads_admitted peer clk st' k.
Proof. intros (_ & _ & _ & Ha) Hr e n He Hg. unfold admitted. rewrite Ha. by apply Hr. Qed.

(** A read of the dashboard reaches its handler and changes no store. *)
Lemma daemon_read (w : daemon S A H) e k :
  reads_admitted peer clk (server w) k -> dashboard_endpoint e -> endpoint_method e = "GET" ->
  exists st' r, daemon_send version oc address peer clk w "GET" (address +:+ endpoint_path e) k =
      (mkDaemon st' (ticks w + 1), r) /\ same_state (server w) st' /\
    forall resp, handle version oc (server w) e (uptime (clk (ticks w))) = Done (server w, resp) ->
      r = Ok (mkHttpResponse (status resp) (Ok (body_text (body resp)))).
Proof.
  intros Hr He Hg. unfold daemon_send. rewrite strip_prefix_app. simpl.
  rewrite <- Hg, (route_path e He).
  pose proof (authenticated_admitted version oc (server w) (incoming peer e k) (clk (ticks w))
    (Hr e (ticks w) He Hg)) as Ha. simpl in Ha.
  assert (forall resp, handle version oc (server w) e (uptime (clk (ticks w))) = Done (server w, resp) ->
    exists st', serve_request version oc (server w) (incoming peer e k) (clk (ticks w)) =
      Done (st', resp)) as Hdone.
  { intros resp Hh. rewrite Hh in Ha. apply serve_request_handled in Ha as (st' & E & _). by exists st'. }
  destruct (serve_request version oc (server w) (incoming peer e k) (clk (ticks w)))
    as [[st' resp']| |] eqn:E;
    eexists _, _; (split; [reflexivity|]); (split; [|intros resp Hh; by destruct (Hdone resp Hh); simplify_eq]);
    [|by rewrite (unwound_admitted _ _ _ (Hr e (ticks w) He Hg))..].
  destruct (serve_request_Done _ _ _ _ _ _ _ E) as (st1 & E1 & H1 & H2 & H3 & H4 & _).
  rewrite Ha in E1. pose proof (handle_frame _ _ _ _ _ _ _ E1) as (K1 & K2 & K3 & _ & K5).
  unfold same_state. rewrite H1, H2, H3, H4, K1, K2, K3. split_and!; try done. by destruct e.
Qed.

(** The JSON answer of a read, decoded. *)
Lemma get_json {A'} (dec : json -> option A') (w : daemon S A H) e k j a :
  reads_admitted peer clk (server w) k -> dashboard_endpoint e -> endpoint_method e = "GET" ->
  handle version oc (server w) e (uptime (clk (ticks w))) = Done (server w, ok_json j) ->
  json_from_str (json_to_string j) ≫= dec = Some a ->
  exists st', get (WO := daemon_world version oc address peer clk) decode_error dec w (mkClient address k) (endpoint_path e) =
    (mkDaemon st' (ticks w + 1), Ok a) /\ same_state (server w) st'.
Proof.
  intros Hr He Hg Hh Hj. destruct (daemon_read w e k Hr He Hg) as (st' & r & E & Hs & Hresp).
  exists st'. split; [|done]. unfold get. simpl. rewrite E, (Hresp _ Hh). simpl. by rewrite Hj.
Qed.

Lemma get_any {A'} (dec : json -> option A') (w : daemon S A H) e k :
  reads_admitted peer clk (server w) k -> dashboard_endpoint e -> endpoint_method e = "GET" ->
  exists st' r, get (WO := daemon_world version oc address peer clk) decode_error dec w (mkClient address k) (endpoint_path e) =
    (mkDaemon st' (ticks w + 1), r) /\ same_state (server w) st'.
Proof.
  intros Hr He Hg. destruct (daemon_read w e k Hr He Hg) as (st' & r & E & Hs & _).
  unfold get. simpl. rewrite E. destruct r as [resp|err]; by eexists _, _.
Qed.

Lemma mapM_inverse {X Y} (enc : X -> json) (dec : json -> option Y) (f : X -> Y) l :
  Forall (fun x => dec (enc x) = Some (f x)) l -> mapM dec (enc <$> l) = Some (f <$> l).
Proof.
  intros Hl. apply mapM_Some, Forall2_fmap_l, Forall2_fmap_r, Forall_Forall2_diag. exact Hl.
Qed.
End DaemonFacts.

Lemma no_params_no_limit : AlertFilter.limit (filter_of_params ∅) = None.
Proof. unfold filter_of_params. cbn [AlertFilter.limit]. by rewrite lookup_empty. Qed.

Lemma filter_keeps_default l : List.filter (filter_keeps (filter_of_params ∅)) l = l.
Proof. induction l as [|a l IH]; [done|]. simpl. by rewrite IH. Qed.

(** * Properties *)

(** C38: the dashboard only observes.  Against any server and over any
    sequence of keys and poll ticks, the requests that are not reads are
    exactly the acknowledgments asked for until the user quits: one for each
    press of [a] while no overlay is open and an alert is selected, of the
    alert selected then, in this order (in any view, not only in the one that
    shows the alerts). *)
Theorem dashboard_only_acknowledges {MT : MacText} {IT : IpText} {CH : Chrono} {SJ : SerdeJson}
  {HT : Http} {W} {WO : World W} (decode_error : string -> string) (w : logged W) (a : App)
  (es : list tui_event) :
  exists l, (tui_run decode_error w a es).1.2 = w.2 ++ l /\
    List.filter is_write l = writes_along decode_error w a (handled decode_error w a es) /\
    client (tui_run decode_error w a es).2 = client a.
Proof.
  revert w a. induction es as [|e es IH]; intros w a.
  { exists []. rewrite app_nil_r. simpl. by destruct (should_quit a). }
  simpl. unfold should_quit. destruct (quit a).
  { exists []. by rewrite app_nil_r. }
  destruct (step_logged decode_error w a e) as (l & Hl & Hf & Hc).
  destruct (tui_step decode_error w a e) as [w' a'] eqn:E. simpl in Hl, Hc. simpl. rewrite E.
  destruct (IH w' a') as (l' & Hl' & Hf' & Hc'). exists (l ++ l').
  rewrite Hl', Hl, <- app_assoc, List.filter_app, Hf, Hf'. split_and!; congruence.
Qed.

(** C37: the dashboard shows what the daemon has.  When the API lets the
    reads of its key through, one poll changes no store of the server, and
    the snapshot holds the whole inventory in the order of the address text
    and all alerts in the order of the store, times cut to the millisecond;
    an error is reported exactly when the metrics could not be read (a sum
    over 64 bits in a checked build). *)
Theorem dashboard_mirrors_daemon {S A H} {DS : DeviceStore S} {AS : AlertStore A}
  {HS : DeviceHistoryStore H} {MT : MacText} {IT : IpText} {CH : Chrono} {SJ : SerdeJson}
  {CR : Crypto} {AT : ApiText} {HT : Http} {RO : Routing} {RL : RoutingLaws}
  {DL : DeviceStoreLaws S} {AL : AlertStoreLaws A} {ML : MacTextLaws} {IL : IpTextLaws}
  {CL : ChronoLaws} {SL : SerdeJsonLaws} (version : string) (oc : bool) (address : string)
  (peer : option IpAddr) (clk : nat -> ApiClock) (decode_error : string -> string)
  (w : daemon S A H) (key : option string) (now : Instant) :
  reads_admitted peer clk (server w) key ->
  map_Forall (fun _ d => representable d) (ds_map (store (server w))) ->
  as_inv (alert_store (server w)) ->
  map_Forall (fun _ a => alert_representable a) (as_map (alert_store (server w))) ->
  let (w', s) := @fetch_snapshot MT IT CH SJ HT (daemon S A H)
                   (daemon_world version oc address peer clk) decode_error w (mkClient address key) now in
  same_state (server w) (server w') /\ Snapshot.is_reachable s = true /\
  (exists ds, Snapshot.devices s = Some (to_millis <$> ds) /\
     ds ≡ₚ (map_to_list (ds_map (store (server w)))).*2 /\ StronglySorted mac_text_le ds) /\
  (exists al, Snapshot.alerts s = Some (alert_millis <$> al) /\
     al ≡ₚ values (as_map (alert_store (server w))) /\ StronglySorted as_newer al) /\
  (Snapshot.last_error s = None <-> Snapshot.metrics s <> None).
Proof.
  intros Hr Hdev Hinv Hal.
  destruct (ds_list_spec (store (server w))) as (ds & Hds & Hdp & Hsort).
  destruct (as_list_spec (alert_store (server w)) (filter_of_params ∅) Hinv) as (al & Hl & Hap & Has);
    [by rewrite no_params_no_limit|].
  rewrite no_params_no_limit in Hl. rewrite filter_keeps_default in Hap.
  assert (Forall representable ds) as Hdr.
  { rewrite Hdp. apply Forall_fmap, Forall_forall. intros [k d] Hd. apply elem_of_map_to_list in Hd.
    by apply Hdev in Hd. }
  assert (Forall alert_representable al) as Har.
  { rewrite Hap. apply Forall_forall. intros x Hx. apply elem_of_values in Hx as [i Hi].
    by apply Hal in Hi. }
  unfold fetch_snapshot, get_health, get_devices, get_alerts, get_metrics.
  destruct (get_json version oc address peer clk decode_error health_from_json w Health key
    (JObj [("status", JStr "ok"); ("version", JStr version)]) (mkHealth "ok" version) Hr I eq_refl eq_refl)
    as (st1 & E1 & S1); [by rewrite json_from_to_string|].
  simpl endpoint_path in E1. rewrite E1.
  pose proof (reads_admitted_same _ _ _ _ _ S1 Hr) as Hr1. pose proof S1 as (Q1 & Q2 & _).
  destruct (get_json version oc address peer clk decode_error (array_from_json device_from_json)
    (mkDaemon st1 (ticks w + 1)) ListDevices key (JArr (device_to_json <$> ds)) (to_millis <$> ds)
    Hr1 I eq_refl) as (st2 & E2 & S2).
  { simpl. unfold list_devices. by rewrite Q1, Hds. }
  { rewrite json_from_to_string. simpl. apply mapM_inverse. eapply Forall_impl; [exact Hdr|].
    intros d Hd. by apply device_json_inverse. }
  simpl endpoint_path in E2. simpl ticks in E2. rewrite E2. simpl in S2.
  pose proof (same_state_trans _ _ _ S1 S2) as S12.
  pose proof (reads_admitted_same _ _ _ _ _ S12 Hr) as Hr2. pose proof S12 as (_ & Q3 & _).
  destruct (get_json version oc address peer clk decode_error (array_from_json alert_from_json)
    (mkDaemon st2 (ticks w + 1 + 1)) (ListAlerts ∅) key (JArr (alert_to_json <$> al))
    (alert_millis <$> al) Hr2 eq_refl eq_refl) as (st3 & E3 & S3).
  { simpl. unfold list_alerts. by rewrite Q3, Hl. }
  { rewrite json_from_to_string. simpl. apply mapM_inverse. eapply Forall_impl; [exact Har|].
    intros x Hx. by apply alert_json_inverse. }
  simpl endpoint_path in E3. simpl ticks in E3. rewrite E3. simpl in S3.
  pose proof (same_state_trans _ _ _ S12 S3) as S13.
  pose proof (reads_admitted_same _ _ _ _ _ S13 Hr) as Hr3.
  destruct (get_any version oc address peer clk decode_error metrics_from_json
    (mkDaemon st3 (ticks w + 1 + 1 + 1)) Metrics key Hr3 I eq_refl) as (st4 & m & E4 & S4).
  simpl endpoint_path in E4. simpl ticks in E4. rewrite E4. simpl in S4.
  split_and!; [by apply (same_state_trans _ st3) | done | by exists ds | by exists al |].
  simpl. by destruct m.
Qed.

(** * Witnesses *)

#[local] Existing Instances ref_mac_text std_ip_text ref_chrono ref_serde_json demo_crypto demo_api_text
  demo_history_store demo_http.

(** A router for the endpoints of the dashboard. *)
#[local] Instance demo_routing : Routing := {|
  route method path :=
    if String.eqb method "GET" then
      if String.eqb path "/health" then Some Health
      else if String.eqb path "/devices" then Some ListDevices
      else if String.eqb path "/alerts" then Some (ListAlerts ∅)
      else if String.eqb path "/metrics" then Some Metrics
      else None
    else rest ← strip_prefix "/alerts/" path; AcknowledgeAlert <$> strip_suffix "/acknowledge" rest
|}.
#[local] Instance demo_routing_laws : RoutingLaws.
Proof.
  split. intros e He. destruct e; simpl in He; try done.
  - by subst.
  - change ((rest ← strip_prefix "/alerts/" ("/alerts/" +:+ (id +:+ "/acknowledge"));
             AcknowledgeAlert <$> strip_suffix "/acknowledge" rest) = Some (AcknowledgeAlert id)).
    rewrite strip_prefix_app. cbn [mbind option_bind]. by rewrite strip_suffix_app.
Qed.

Definition demo_daemon : daemon MemoryStore.t InMemoryAlertStore.t history_table :=
  mkDaemon (demo_app (InMemoryAlertStore.insert_alert InMemoryAlertStore.new demo_alert).1) 0.

Lemma dashboard_mirrors_daemon_witness :
  exists w' s, @fetch_snapshot ref_mac_text std_ip_text ref_chrono ref_serde_json demo_http _
      (daemon_world "1.0" true "http://localhost:8080" (Some (V4 7)) (fun _ => demo_api_clock))
      (fun _ => "invalid") demo_daemon (mkClient "http://localhost:8080" (Some "reader")) 5 = (w', s) /\
    length <$> Snapshot.devices s = Some 1%nat /\ length <$> Snapshot.alerts s = Some 1%nat.
Proof.
  pose proof (@dashboard_mirrors_daemon MemoryStore.t InMemoryAlertStore.t history_table
    memory_device_store in_memory_alert_store demo_history_store ref_mac_text std_ip_text ref_chrono
    ref_serde_json demo_crypto demo_api_text demo_http demo_routing demo_routing_laws
    memory_device_store_laws in_memory_alert_store_laws ref_mac_laws std_ip_laws ref_chrono_laws
    ref_serde_json_laws "1.0" true "http://localhost:8080" (Some (V4 7)) (fun _ => demo_api_clock)
    (fun _ => "invalid") demo_daemon (Some "reader") 5) as H.
  destruct (fetch_snapshot _ demo_daemon _ 5) as [w' s] eqn:E. exists w', s. split; [reflexivity|].
  destruct H as (_ & _ & (ds & -> & Hds & _) & (al & -> & Hal & _) & _).
  - intros e n _ Hg. left. right. split; [by intros i [= <-]|]. exists "reader".
    split; [vm_compute; reflexivity|]. left. split; [vm_compute; reflexivity|]. right.
    simpl. rewrite Hg. reflexivity.
  - apply map_Forall_singleton. apply demo_at_representable. unfold in_u64, u64_max. lia.
  - split; [split; vm_compute; discriminate|]. apply map_Forall_singleton.
    split; vm_compute; [discriminate | reflexivity].
  - apply map_Forall_singleton.
    unfold alert_representable, representable, octets_ok, in_u64, in_u8, u64_max, u8_max, chrono_range,
      ns_per_s; simpl.
    split_and!; try lia; try done; try apply set_Forall_empty; apply map_Forall_empty.
  - simpl. rewrite !length_fmap, Hds, Hal. split; reflexivity.
Defined.

(** A world that never answers. *)
#[local] Instance silent_world : World unit := {| send w _ _ _ := (w, Err "connection refused") |}.

(** While the poller writes, an arrow key sends the selection to the top,
    where the comment of [current_list_len] says that it stays put. *)
Lemma busy_lock_resets_selection :
  let a := set_selected 1 0 (set_snap (Snapshot.mk None None (Some [demo_at 1; demo_at 2; demo_at 3])
             None None None) (app_new (mkClient "http://localhost:8080" None))) in
  let press busy := (handle_key (fun _ => "invalid") tt a (mkKey KDown false busy 0)).2 in
  devices_selected (press false) = 2%nat /\ devices_selected (press true) = 0%nat.
Proof. vm_compute. split; reflexivity. Qed.
