(* ===== verification/TuiView.v ===== *)
(** What the dashboard draws: the views of [crates/tui/src/views/*.rs], the
    palette of [theme.rs], [App::render] and the status bar of [app.rs], as
    the widgets handed to [ratatui] and the area each goes to.  How a widget
    becomes cells (borders, clipping, scrolling) is [ratatui]'s. *)

From S2P Require Import Prelude Text Types Reference Net Json Stores Sqlite HistorySqlite Config Alerts.
From S2P Require Import Packet Classify Dhcp Mdns Oui Discovery Rules Auth Api Notify Tui.

(** * The palette *)

Inductive Color : Type := Cyan | DarkGray | Black | Yellow | Blue | Red | Green.

Module Theme.
Definition border_active : Color := Cyan.
Definition border_dim : Color := DarkGray.
Definition bar_bg : Color := Black.
Definition heading : Color := Yellow.
Definition info : Color := Blue.
Definition warning : Color := Yellow.
Definition critical : Color := Red.
Definition error : Color := Red.
Definition ok : Color := Green.
Definition muted : Color := DarkGray.
End Theme.

Record Style : Type := mkStyle {
  fg : option Color; bg : option Color; bold : bool; is_reversed : bool
}.
Definition no_style : Style := mkStyle None None false false.
Definition fg_style (c : Color) : Style := mkStyle (Some c) None false false.
Definition bar_style : Style := mkStyle None (Some Theme.bar_bg) true false.
Definition heading_style : Style := mkStyle (Some Theme.heading) None true false.
Definition highlight : Style := mkStyle None None false true.

(** * Widgets *)

Record Block : Type := mkBlock { block_title : string; border : option Color }.
Definition active_block (title : string) : Block :=
  mkBlock (" " +:+ title +:+ " ") (Some Theme.border_active).
Definition dim_block (title : string) : Block :=
  mkBlock (" " +:+ title +:+ " ") (Some Theme.border_dim).

Definition span : Type := string * Style.
Definition raw (s : string) : span := (s, no_style).
(** The text of a line. *)
Definition line_text (l : list span) : string := foldr (fun s out => s.1 +:+ out) "" l.

Inductive Widget : Type :=
| Clear
| TitleOnly (b : Block)
| TextBox (text : string) (b : Block) (centered : bool)
| Paragraph (lines : list (list span)) (b : option Block) (s : Style)
| Table (header : list string) (rows : list (list string)) (b : Block) (selected : nat)
| ItemList (items : list span) (b : Block) (selected : nat)
| Sparkline (data : list Z) (b : Block) (s : Style).

(** The areas a frame is split into; the overlay splits the body. *)
Inductive Area : Type := Body | InfoArea | SparkArea | StatusArea.

(** * Padding and byte counts *)

(** [{:<n}] and [{:>n}] of a string or an integer. *)
Definition pad_right (n : nat) (s : string) : string := s +:+ repeat_str (n - char_count s) " ".
Definition pad_left (n : nat) (s : string) : string := repeat_str (n - char_count s) " " +:+ s.

(** The nearest integer to a quotient, ties to even: the rounding of
    [u64 as f64] and that of [{:.2}]. *)
Definition round_half_even (num den : Z) : Z :=
  let q := num / den in
  let r := num mod den in
  if 2 * r <? den then q
  else if den <? 2 * r then q + 1
  else if Z.even q then q else q + 1.

(** [n as f64], an integer: 53 significant bits. *)
Definition f64_of_u64 (n : Z) : Z :=
  let e := Z.max 0 (Z.log2 n - 52) in round_half_even n (2 ^ e) * 2 ^ e.

Definition UNITS (i : nat) : string :=
  match i with O => "B" | 1%nat => "KB" | 2%nat => "MB" | _ => "GB" end.
(** The loop: the value is [f / 1024 ^ unit], exact in binary. *)
Fixpoint human_unit (fuel unit : nat) (f : Z) : nat :=
  match fuel with
  | O => unit
  | S fuel' => if 1024 ^ (Z.of_nat unit + 1) <=? f then human_unit fuel' (S unit) f else unit
  end.
Definition two_decimals (h : Z) : string :=
  fmt_uint (h / 100) +:+ "." +:+ fmt_uint (h mod 100 / 10) +:+ fmt_uint (h mod 10).
Definition human_bytes (n : Z) : string :=
  let f := f64_of_u64 n in
  match human_unit 3 0 f with
  | O => fmt_uint n +:+ " " +:+ UNITS 0
  | unit => two_decimals (round_half_even (100 * f) (1024 ^ Z.of_nat unit)) +:+ " " +:+ UNITS unit
  end.

(** * The views *)

(** [chrono]'s [%H:%M:%S]. *)
Class ChronoTime : Type := { fmt_time : Timestamp -> string }.

Definition view_title (v : View) : string :=
  match v with VDevices => "Devices" | VAlerts => "Alerts" | VMetrics => "Metrics" | VHealth => "Health" end.

Definition severity_color (s : Severity) : Color :=
  match s with Info => Theme.info | Warning => Theme.warning | Critical => Theme.critical end.

(** [Display for Severity] writes its name with [write!], so the width of
    [{sev:>7}] has no effect on it. *)
Definition alert_line `{!MacText} (a : Alert.t) : string :=
  (if Alert.acknowledged a then "✓ " else "  ") +:+ severity_display (Alert.severity a) +:+ "  #" +:+
  pad_right 6 (fmt_uint (Alert.id a)) +:+ "  " +:+ event_type_display (Alert.event_type a) +:+ "  " +:+
  mac_to_string (Alert.mac a).

Definition or_dash (s : string) : string := if is_empty s then "—" else s.

Section Views.
Context {MT : MacText} {IT : IpText} {CH : Chrono} {CT : ChronoTime}.

Definition joined_ips (d : Device.t) : string :=
  join ", " (ip_to_string <$> sorted_elements ip_le (Device.ips d)).
Definition joined_protocols (d : Device.t) : string :=
  join ", " (protocol_display <$> sorted_elements protocol_le (Device.protocols d)).

Definition device_row (d : Device.t) : list string :=
  [mac_to_string (Device.mac d); joined_ips d; default "—" (Device.hostname d);
   default "—" (Device.vendor d); fmt_uint (Device.packet_count d); fmt_time (Device.last_seen d)].

Definition devices_render (s : Snapshot.t) (selected : nat) : list (Area * Widget) :=
  match Snapshot.devices s with
  | None => [(Body, TitleOnly (mkBlock "Devices — API unreachable" None))]
  | Some ds =>
      [(Body, Table ["MAC"; "IPs"; "Hostname"; "Vendor"; "Packets"; "Last seen"] (device_row <$> ds)
                (active_block "Devices") selected)]
  end.

Definition alerts_render (s : Snapshot.t) (selected : nat) : list (Area * Widget) :=
  match Snapshot.alerts s with
  | None => [(Body, TitleOnly (mkBlock "Alerts — API unreachable" None))]
  | Some l =>
      [(Body, ItemList ((fun a => (alert_line a, fg_style (severity_color (Alert.severity a)))) <$> l)
                (active_block "Alerts") selected)]
  end.

Definition metrics_body (s : Snapshot.t) : string :=
  match Snapshot.metrics s with
  | Some m =>
      "Total devices : " +:+ fmt_uint (total_devices m) +:+ nl +:+
      "Total packets : " +:+ fmt_uint (total_packets m) +:+ nl +:+
      "Total bytes   : " +:+ fmt_uint (total_bytes m) +:+ nl +:+
      "Uptime         : " +:+ fmt_uint (uptime_seconds m) +:+ "s"
  | None => "Metrics — API unreachable"
  end.
Definition metrics_render (s : Snapshot.t) : list (Area * Widget) :=
  [(Body, TextBox (metrics_body s) (active_block "Metrics") false)].

Definition health_body (s : Snapshot.t) : string :=
  match Snapshot.health s with
  | Some h => "Status   : " +:+ h_status h +:+ nl +:+ "Version  : " +:+ h_version h +:+ nl +:+
              "Reachable: yes"
  | None => "Daemon unreachable"
  end +:+
  match Snapshot.last_error s with Some e => nl +:+ nl +:+ "Last error: " +:+ e | None => "" end.
Definition health_render (s : Snapshot.t) : list (Area * Widget) :=
  [(Body, TextBox (health_body s) (active_block "Health") false)].

(** The overlay.  A history error is red. *)
Definition detail_lines (d : Device.t) (st : DeviceDetail) : list (list span) :=
  [[raw ("MAC          : " +:+ mac_to_string (Device.mac d))];
   [raw ("IPs          : " +:+ or_dash (joined_ips d))];
   [raw ("Hostname     : " +:+ default "—" (Device.hostname d))];
   [raw ("Vendor       : " +:+ default "—" (Device.vendor d))];
   [raw ("DHCP class   : " +:+ default "—" (Device.dhcp_vendor_class d))];
   [raw ("Packets      : " +:+ fmt_uint (Device.packet_count d))];
   [raw ("Bytes sent   : " +:+ human_bytes (Device.bytes_sent d) +:+ "   received: " +:+
         human_bytes (Device.bytes_received d))];
   [raw ("First seen   : " +:+ timestamp_display (Device.first_seen d))];
   [raw ("Last seen    : " +:+ timestamp_display (Device.last_seen d))];
   [raw ("Protocols    : " +:+ or_dash (joined_protocols d))];
   [raw ""];
   match d_history_error st, d_history st with
   | Some e, _ => [("History error: " +:+ e, fg_style Red)]
   | None, [] => [raw "History      : no daily snapshots available"]
   | None, h => [raw ("History      : " +:+ fmt_uint (Z.of_nat (length h)) +:+ " daily snapshot(s)")]
   end].

Definition sparkline_widget (st : DeviceDetail) : Widget :=
  let block := dim_block "Packet count over time (daily snapshots)" in
  match packet_series st with
  | [] => TextBox "no history data" block true
  | data => Sparkline data block (fg_style Cyan)
  end.

Definition detail_render (st : DeviceDetail) : list (Area * Widget) :=
  (Body, Clear) ::
  match d_device st with
  | None => [(Body, TextBox "No device selected. Press Esc to return." (active_block "Device Detail") true)]
  | Some d =>
      [(InfoArea, Paragraph (detail_lines d st) (Some (active_block "Device Detail")) no_style);
       (SparkArea, sparkline_widget st)]
  end.

(** * The status bar *)

Definition view_hint (v : View) : string :=
  match v with
  | VDevices => "↑↓ select · Enter detail · Tab switch · 1-4 views · q quit"
  | VAlerts => "↑↓ select · a ack · Tab switch · 1-4 views · q quit"
  | VMetrics | VHealth => "Tab switch · 1-4 views · q quit"
  end.

Definition left_spans (a : App) : list span :=
  let s := snap a in
  [(" ●", fg_style (if Snapshot.is_reachable s then Theme.ok else Theme.error));
   raw (" " +:+ pad_right 8 (view_title (view a)) +:+ " ");
   (fmt_uint (Z.of_nat (Snapshot.device_count s)) +:+ " dev · " +:+
    fmt_uint (Z.of_nat (Snapshot.alert_count s)) +:+ " alert", mkStyle None None true false)] ++
  match flash a with Some f => [raw "  "; (f, fg_style Theme.error)] | None => [] end.

Definition status_bar (a : App) (width : nat) : list span :=
  let hint := view_hint (view a) in
  let left_len := sum_list ((fun s => char_count s.1) <$> left_spans a) in
  let hint_len := (char_count hint + 1)%nat in
  let padding := (width - (left_len + hint_len))%nat in
  left_spans a ++ [raw (repeat_str padding " "); raw " "; (hint, fg_style DarkGray)].

(** [App::render]: nothing is drawn while the poller holds the lock. *)
Definition view_render (a : App) : list (Area * Widget) :=
  match view a with
  | VDevices => devices_render (snap a) (devices_selected a)
  | VAlerts => alerts_render (snap a) (alerts_selected a)
  | VMetrics => metrics_render (snap a)
  | VHealth => health_render (snap a)
  end.
Definition render (a : App) (locked : bool) (width : nat) : list (Area * Widget) :=
  if locked then []
  else view_render a ++ from_option detail_render [] (detail a) ++
       [(StatusArea, Paragraph [status_bar a width] None bar_style)].
End Views.

(** * Lemmas *)

(** ** Byte counts *)

Lemma round_half_even_error num den :
  0 < den -> 2 * Z.abs (round_half_even num den * den - num) <= den.
Proof.
  intros Hd. unfold round_half_even. pose proof (Z.div_mod num den) as Hm.
  pose proof (Z.mod_pos_bound num den Hd) as Hb.
  set (q := num / den) in *. set (r := num mod den) in *. assert (num = den * q + r) as Hn by lia. clear Hm.
  destruct (Z.ltb_spec (2 * r) den); [lia|]. destruct (Z.ltb_spec den (2 * r)); [nia|].
  destruct (Z.even q); nia.
Qed.

Lemma round_half_even_1 n : round_half_even n 1 = n.
Proof. pose proof (round_half_even_error n 1). lia. Qed.

Lemma f64_small n : 0 <= n < 2 ^ 53 -> f64_of_u64 n = n.
Proof.
  intros [H0 H1]. unfold f64_of_u64. assert (Z.log2 n < 53) as Hl.
  { destruct (Z.eq_dec n 0) as [->|]; [done|]. apply Z.log2_lt_pow2; lia. }
  rewrite Z.max_l by lia. change (2 ^ 0) with 1. rewrite round_half_even_1. lia.
Qed.

Lemma f64_large n : 2 ^ 53 <= n -> n <= u64_max ->
  2 ^ 53 <= f64_of_u64 n /\ Z.abs (f64_of_u64 n - n) <= 1024.
Proof.
  intros Hlo Hhi. unfold f64_of_u64.
  assert (53 <= Z.log2 n) as H53 by (apply Z.log2_le_pow2; lia).
  assert (Z.log2 n < 64) as H64 by (apply Z.log2_lt_pow2; unfold u64_max in Hhi; lia).
  pose proof (Z.log2_spec n) as Hn. rewrite Z.max_r by lia. set (e := Z.log2 n - 52).
  assert (2 ^ e <= 2 ^ 11) as He by (apply Z.pow_le_mono_r; lia). change (2 ^ 11) with 2048 in He.
  assert (0 < 2 ^ e) as Hp by (apply Z.pow_pos_nonneg; lia).
  pose proof (round_half_even_error n (2 ^ e) Hp) as Hr. split; [|lia].
  assert (2 ^ Z.log2 n = 2 ^ 52 * 2 ^ e) as E by (rewrite <- Z.pow_add_r by lia; f_equal; lia).
  assert (2 ^ 53 <= 2 ^ 52 * 2 ^ e) as Hm.
  { change (2 ^ 53) with (2 ^ 52 * 2 ^ 1). apply Z.mul_le_mono_nonneg_l; [lia|].
    apply Z.pow_le_mono_r; lia. }
  assert (2 ^ 52 <= round_half_even n (2 ^ e)); [|nia].
  destruct (Z.le_gt_cases (2 ^ 52) (round_half_even n (2 ^ e))) as [|Hc]; [done|]. nia.
Qed.

Lemma human_unit_spec f u :
  human_unit 3 0 f = u ->
  (u <= 3)%nat /\ ((0 < u)%nat -> 1024 ^ Z.of_nat u <= f) /\
  ((u < 3)%nat -> f < 1024 ^ (Z.of_nat u + 1)).
Proof.
  cbn [human_unit].
  destruct (Z.leb_spec (1024 ^ (Z.of_nat 0 + 1)) f); [|intros <-; split_and!; [lia..|done]].
  destruct (Z.leb_spec (1024 ^ (Z.of_nat 1 + 1)) f); [|intros <-; split_and!; [lia|done..]].
  destruct (Z.leb_spec (1024 ^ (Z.of_nat 2 + 1)) f); intros <-; split_and!; done || lia.
Qed.

(** ** The status bar *)

Lemma line_text_count (l : list span) :
  char_count (line_text l) = sum_list ((fun s => char_count s.1) <$> l).
Proof.
  induction l as [|s l IH]; [done|]. change (line_text (s :: l)) with (s.1 +:+ line_text l).
  by rewrite char_count_app, IH.
Qed.
Lemma line_text_app (a b : list span) : line_text (a ++ b) = line_text a +:+ line_text b.
Proof.
  induction a as [|s a IH]; [done|]. cbn [app]. change (line_text (s :: ?l)) with (s.1 +:+ line_text l).
  rewrite IH. by rewrite string_app_assoc.
Qed.

Lemma find_by_text {A} (f : A -> string) (l : list A) i x :
  NoDup (f <$> l) -> l !! i = Some x -> List.find (fun y => String.eqb (f y) (f x)) l = Some x.
Proof.
  revert i. induction l as [|y l IH]; intros i Hn Hi; [done|]. cbn in Hn |- *.
  apply NoDup_cons in Hn as [Hy Hn]. destruct i as [|i]; cbn in Hi.
  - injection Hi as ->. by rewrite String.eqb_refl.
  - destruct (String.eqb_spec (f y) (f x)) as [E|]; [|by eapply IH]. exfalso. apply Hy. rewrite E.
    apply list_elem_of_fmap. exists x. split; [done|]. by eapply list_elem_of_lookup_2.
Qed.

Lemma render_detail {MT : MacText} {IT : IpText} {CH : Chrono} {CT : ChronoTime} a st d width :
  d_device st = Some d ->
  render (set_detail (Some st) a) false width =
    view_render a ++ [(Body, Clear);
      (InfoArea, Paragraph (detail_lines d st) (Some (active_block "Device Detail")) no_style);
      (SparkArea, sparkline_widget st);
      (StatusArea, Paragraph [status_bar (set_detail (Some st) a) width] None bar_style)].
Proof.
  intros Hd. unfold render. cbn [set_detail detail from_option]. unfold detail_render. rewrite Hd.
  reflexivity.
Qed.

(** * Properties *)

(** The byte counts of the overlay.  Below 1024 the exact number of
    bytes; from there on the largest unit up to GB that the number reaches,
    with two decimals that are off by at most half a hundredth of the unit,
    plus, from 2^53 bytes on, the 1024 bytes the conversion to a float may
    lose. *)
Theorem human_bytes_exact (n : Z) :
  in_u64 n ->
  (n < 1024 -> human_bytes n = fmt_uint n +:+ " B") /\
  (1024 <= n -> exists unit h,
     (1 <= unit <= 3)%nat /\ human_bytes n = two_decimals h +:+ " " +:+ UNITS unit /\
     1024 ^ Z.of_nat unit <= n /\ ((unit < 3)%nat -> n < 1024 ^ (Z.of_nat unit + 1)) /\
     2 * Z.abs (h * 1024 ^ Z.of_nat unit - 100 * n) <=
       1024 ^ Z.of_nat unit + (if n <? 2 ^ 53 then 0 else 204800)).
Proof.
  unfold in_u64. intros [H0 H1]. unfold human_bytes. cbv zeta.
  destruct (human_unit_spec (f64_of_u64 n) _ eq_refl) as (Hu & Hlo & Hhi).
  destruct (human_unit 3 0 (f64_of_u64 n)) as [|u]; set (f := f64_of_u64 n) in *.
  - specialize (Hhi ltac:(lia)). change (1024 ^ (Z.of_nat 0 + 1)) with 1024 in Hhi.
    split; [done|]. intros Hn. destruct (Z.lt_ge_cases n (2 ^ 53)).
    + unfold f in Hhi. rewrite f64_small in Hhi by lia. lia.
    + destruct (f64_large n) as [? _]; [done..|]. fold f in H2. lia.
  - specialize (Hlo ltac:(lia)).
    assert (1024 <= 1024 ^ Z.of_nat (S u)) as Hp.
    { change 1024 with (1024 ^ 1) at 1. apply Z.pow_le_mono_r; lia. }
    pose proof (round_half_even_error (100 * f) (1024 ^ Z.of_nat (S u)) ltac:(lia)) as Hr.
    destruct (Z.ltb_spec n (2 ^ 53)) as [Hs|Hs].
    + assert (f = n) as E by (apply f64_small; lia). rewrite E in *. split; [lia|]. intros _.
      exists (S u), (round_half_even (100 * n) (1024 ^ Z.of_nat (S u))). split_and!; try done; lia.
    + destruct (f64_large n) as [Hf Hd]; [done..|]. fold f in Hf, Hd. split; [lia|]. intros _.
      assert (S u = 3)%nat as E.
      { destruct (decide (S u = 3)%nat) as [|Hne]; [done|]. specialize (Hhi ltac:(lia)).
        assert (1024 ^ (Z.of_nat (S u) + 1) <= 1024 ^ 3) by (apply Z.pow_le_mono_r; lia). lia. }
      exists (S u), (round_half_even (100 * f) (1024 ^ Z.of_nat (S u))).
      rewrite E in *. split_and!; try done; lia.
Qed.

(** The status bar fills the terminal exactly, or is as long as its texts
    when they do not fit; the reachability is shown by the colour of the dot
    only. *)
Theorem status_bar_width (a : App) (width : nat) :
  char_count (line_text (status_bar a width)) =
    Nat.max width (char_count (line_text (left_spans a)) + char_count (view_hint (view a)) + 1) /\
  head (status_bar a width) =
    Some (" ●", fg_style (if Snapshot.is_reachable (snap a) then Theme.ok else Theme.error)).
Proof.
  split; [|done]. unfold status_bar. rewrite line_text_app, char_count_app, <- line_text_count.
  change (line_text [raw ?x; raw " "; (?h, ?st)]) with (x +:+ " " +:+ h +:+ "").
  rewrite !char_count_app, char_count_repeat. change (char_count " ") with 1%nat.
  change (char_count "") with 0%nat. lia.
Qed.

(** C36: the keys act on what is highlighted.  As long as the snapshot is the
    one that was drawn, the selected row of the alert list is the line of
    the alert that [a] acknowledges, and the selected row of the device
    table is the row of the device whose record the overlay shows after
    [Enter], with its history or the error of the request. *)
Theorem highlighted_is_acted_on {MT : MacText} {IT : IpText} {CH : Chrono} {CT : ChronoTime}
  {SJ : SerdeJson} {HT : Http} {W : Type} {WO : World W} (decode_error : string -> string)
  (w : W) (a : App) (k : KeyEvent) (width i : nat) :
  detail a = None -> ctrl k = false ->
  (forall l al, view a = VAlerts -> Snapshot.alerts (snap a) = Some l -> alerts_selected a = i ->
     l !! i = Some al -> code k = KChar "a" ->
     (exists items bar, render a false width = [(Body, ItemList items (active_block "Alerts") i); bar] /\
        length items = length l /\
        items !! i = Some (alert_line al, fg_style (severity_color (Alert.severity al)))) /\
     (handle_key decode_error w a k).1 =
       match post_acknowledge w (client a) (Alert.id al) with
       | (w', Ok _) => (fetch_snapshot decode_error w' (client a) (at_instant k)).1
       | (w', Err _) => w'
       end) /\
  (forall l d, view a = VDevices -> Snapshot.devices (snap a) = Some l -> devices_selected a = i ->
     l !! i = Some d -> NoDup ((fun x => mac_to_string (Device.mac x)) <$> l) -> code k = KEnter ->
     (exists header rows bar,
        render a false width = [(Body, Table header rows (active_block "Devices") i); bar] /\
        length rows = length l /\ rows !! i = Some (device_row d)) /\
     exists st bar, d_device st = Some d /\
       render (handle_key decode_error w a k).2 false width =
         view_render a ++ [(Body, Clear);
           (InfoArea, Paragraph (detail_lines d st) (Some (active_block "Device Detail")) no_style);
           (SparkArea, sparkline_widget st); bar]).
Proof.
  intros Hd Hc. split.
  - intros l al Hv Hl Hi Hal Hk. split.
    + unfold render, view_render, alerts_render. rewrite Hv, Hl, Hd, Hi. cbn. do 2 eexists.
      split; [done|]. by rewrite length_map, list_lookup_fmap, Hal.
    + unfold handle_key. rewrite Hd, Hk, Hc. unfold ack_selected, selected_alert_id. rewrite Hl, Hi. cbn.
      rewrite Hal. cbn. destruct (post_acknowledge w (client a) (Alert.id al)) as [w' [?|?]]; [|done].
      by destruct (fetch_snapshot decode_error w' (client a) (at_instant k)).
  - intros l d Hv Hl Hi Hld Hn Hk. split.
    + unfold render, view_render, devices_render. rewrite Hv, Hl, Hd, Hi. cbn. do 3 eexists.
      split; [done|]. by rewrite length_map, list_lookup_fmap, Hld.
    + unfold handle_key. rewrite Hd, Hk. unfold open_device_detail. rewrite Hl, Hi. cbn. rewrite Hld.
      destruct (device_history decode_error w (client a) (mac_to_string (Device.mac d))) as [w' [h|e]]; cbn [snd].
      all: do 2 eexists; split; [|apply render_detail].
      all: exact (find_by_text (fun x => mac_to_string (Device.mac x)) l i d Hn Hld).
Qed.

(** * Witnesses *)

(** The last kilobyte before a megabyte is shown as 1024.00 KB. *)
Lemma human_bytes_exact_witness :
  human_bytes 1152 = "1.12 KB" /\ human_bytes 1048575 = "1024.00 KB" /\
  exists unit h, (1 <= unit <= 3)%nat /\ human_bytes 1048575 = two_decimals h +:+ " " +:+ UNITS unit /\
    1024 ^ Z.of_nat unit <= 1048575.
Proof.
  split; [vm_compute; reflexivity|]. split; [vm_compute; reflexivity|].
  destruct (human_bytes_exact 1048575) as [_ H]; [unfold in_u64, u64_max; lia|].
  destruct (H ltac:(lia)) as (unit & h & Hu & Ht & Hl & _). by exists unit, h.
Defined.

#[local] Existing Instances ref_mac_text std_ip_text ref_chrono ref_serde_json demo_http silent_world.
#[local] Instance demo_time : ChronoTime := {| fmt_time _ := "12:00:00" |}.
Definition demo_screen : App :=
  set_view VAlerts (set_snap (Snapshot.mk None None (Some [demo_at 1]) (Some [demo_alert]) None None)
    (app_new (mkClient "http://localhost:8080" None))).

Lemma highlighted_is_acted_on_witness :
  exists items bar, render demo_screen false 80 = [(Body, ItemList items (active_block "Alerts") 0); bar] /\
    items = [("  info  #0       new_device  02:00:00:00:00:01", fg_style Blue)].
Proof.
  destruct (highlighted_is_acted_on (fun _ => "") tt demo_screen (mkKey (KChar "a") false false 5) 80 0)
    as [H _]; [reflexivity..|].
  destruct (H [demo_alert] demo_alert) as [(items & bar & Hr & Hl & Hi) _]; [reflexivity..|].
  exists items, bar. split; [exact Hr|].
  destruct items as [|x [|]]; [discriminate Hl | | discriminate Hl].
  injection Hi as ->. vm_compute. reflexivity.
Defined.
