(* ===== verification/Toml.v ===== *)
(** The TOML that the repository writes and reads: the part of the language
    its own texts use (comments, bare keys, basic strings, decimal integers,
    booleans, [[table]], [[table.table]] and [[[array]]] headings), and the
    [#[derive(Deserialize)]] of the structs of [crates/config/src/config.rs]
    as functions from a TOML value to the [raw] records of [Config].

    The [toml] crate itself stays the parameter [toml_from_str].  Its
    documented behaviour is the class [TomlLaws]: on a document of this part
    of the language it does what the TOML specification and the derives
    say.  The reader below is stricter than the language, never more lenient:
    what it does not know it refuses, and the law says nothing there. *)

From S2P Require Import Prelude Text Types Config.

(** * Values *)

Inductive tvalue : Type :=
| TString (s : string)
| TInteger (z : Z)
| TBoolean (b : bool)
| TTable (entries : list (string * tvalue))
| TArray (items : list tvalue).

Definition entries_t : Type := list (string * tvalue).

Fixpoint lookup_key (k : string) (t : entries_t) : option tvalue :=
  match t with
  | [] => None
  | (k', v) :: t' => if String.eqb k k' then Some v else lookup_key k t'
  end.
Fixpoint replace_key (k : string) (v : tvalue) (t : entries_t) : entries_t :=
  match t with
  | [] => []
  | (k', v') :: t' => if String.eqb k k' then (k, v) :: t' else (k', v') :: replace_key k v t'
  end.

(** * Lines *)

(** [non-eol] of a comment, [basic-unescaped] of a string, bare keys. *)
Definition comment_char (c : ascii) : bool :=
  let z := ord c in (z =? 9) || in_range 32 126 z || (128 <=? z).
Definition basic_char (c : ascii) : bool :=
  comment_char c && negb (Ascii.eqb c dquote) && negb (Ascii.eqb c backslash).
Definition bare_key_char (c : ascii) : bool :=
  let z := ord c in
  in_range 48 57 z || in_range 65 90 z || in_range 97 122 z || (z =? 95) || (z =? 45).
Definition is_bare_key (s : string) : bool := negb (is_empty s) && all_chars bare_key_char s.

Definition unescape (c : ascii) : option ascii :=
  if Ascii.eqb c dquote then Some dquote
  else if Ascii.eqb c backslash then Some backslash
  else if Ascii.eqb c "b" then Some (chr 8)
  else if Ascii.eqb c "t" then Some (chr 9)
  else if Ascii.eqb c "n" then Some (chr 10)
  else if Ascii.eqb c "f" then Some (chr 12)
  else if Ascii.eqb c "r" then Some (chr 13)
  else None.

(** The rest of a basic string after its opening quote, which must end the line. *)
Fixpoint read_basic (s : string) : option string :=
  match s with
  | "" => None
  | String c s' =>
      if Ascii.eqb c dquote then if is_empty s' then Some "" else None
      else if Ascii.eqb c backslash then
        match s' with
        | "" => None
        | String d s'' =>
            match unescape d with
            | Some e => String e <$> read_basic s''
            | None => None
            end
        end
      else if basic_char c then String c <$> read_basic s' else None
  end.

(** A decimal integer in its canonical form: no sign, no underscore, no leading zero. *)
Definition read_integer (s : string) : option Z :=
  n ← parse_uint i64_max s; if String.eqb (fmt_uint n) s then Some n else None.

Definition read_plain (s : string) : option tvalue :=
  if String.eqb s "true" then Some (TBoolean true)
  else if String.eqb s "false" then Some (TBoolean false)
  else None.

Definition read_value (s : string) : option tvalue :=
  match s with
  | "" => None
  | String c s' =>
      if Ascii.eqb c dquote then TString <$> read_basic s'
      else match read_integer s with
           | Some n => Some (TInteger n)
           | None => read_plain s
           end
  end.

Inductive heading : Type :=
| HTable (path : list string)
| HArray (key : string).
Inductive stmt : Type :=
| SBlank
| SEntry (k : string) (v : tvalue)
| SHead (h : heading).

(** The text before and after the first [ = ]. *)
Fixpoint split_entry (s : string) : option (string * string) :=
  match strip_prefix " = " s with
  | Some v => Some ("", v)
  | None =>
      match s with
      | "" => None
      | String c s' =>
          match split_entry s' with
          | Some (k, v) => Some (String c k, v)
          | None => None
          end
      end
  end.

Definition read_array_heading (r : string) : option stmt :=
  k ← strip_suffix "]]" r; if is_bare_key k then Some (SHead (HArray k)) else None.
Definition read_table_heading (r : string) : option stmt :=
  k ← strip_suffix "]" r;
  let path := split_on "." k in
  if forallb is_bare_key path then Some (SHead (HTable path)) else None.
Definition read_entry (s : string) : option stmt :=
  match split_entry s with
  | Some (k, v) => if is_bare_key k then SEntry k <$> read_value v else None
  | None => None
  end.

Definition read_line (s : string) : option stmt :=
  match s with
  | "" => Some SBlank
  | String "#" s' => if all_chars comment_char s' then Some SBlank else None
  | String "[" (String "[" r) => read_array_heading r
  | String "[" r => read_table_heading r
  | _ => read_entry s
  end.

Definition read_stmts (s : string) : option (list stmt) := mapM read_line (split_on newline s).

(** * Documents *)

Definition entry_stmts (es : entries_t) : list stmt := map (fun e => SEntry e.1 e.2) es.

(** The entries before the first heading, then the headings with theirs. *)
Fixpoint group (l : list stmt) : entries_t * list (heading * entries_t) :=
  match l with
  | [] => ([], [])
  | SBlank :: l' => group l'
  | SEntry k v :: l' => let '(es, secs) := group l' in ((k, v) :: es, secs)
  | SHead h :: l' => let '(es, secs) := group l' in ([], (h, es) :: secs)
  end.

Definition table_of (es : entries_t) : option entries_t :=
  if bool_decide (NoDup (es.*1)) then Some es else None.

Definition add_section (doc : entries_t) (sec : heading * entries_t) : option entries_t :=
  let '(h, es) := sec in
  es ← table_of es;
  match h with
  | HTable [k] =>
      match lookup_key k doc with None => Some (doc ++ [(k, TTable es)]) | Some _ => None end
  | HTable [k; j] =>
      match lookup_key k doc with
      | None => Some (doc ++ [(k, TTable [(j, TTable es)])])
      | Some (TTable t) =>
          match lookup_key j t with
          | None => Some (replace_key k (TTable (t ++ [(j, TTable es)])) doc)
          | Some _ => None
          end
      | Some _ => None
      end
  | HArray k =>
      match lookup_key k doc with
      | None => Some (doc ++ [(k, TArray [TTable es])])
      | Some (TArray l) => Some (replace_key k (TArray (l ++ [TTable es])) doc)
      | Some _ => None
      end
  | _ => None
  end.
Fixpoint add_sections (doc : entries_t) (secs : list (heading * entries_t)) : option entries_t :=
  match secs with
  | [] => Some doc
  | sec :: secs' => doc' ← add_section doc sec; add_sections doc' secs'
  end.

Definition document (l : list stmt) : option entries_t :=
  let '(es, secs) := group l in
  es ← table_of es; add_sections es secs.

Definition read_toml (s : string) : option entries_t := read_stmts s ≫= document.

(** * The derives: from a TOML value to a struct *)

Definition de_string (v : tvalue) : option string :=
  match v with TString s => Some s | _ => None end.
Definition de_bool (v : tvalue) : option bool :=
  match v with TBoolean b => Some b | _ => None end.
Definition de_uint (max : Z) (v : tvalue) : option Z :=
  match v with TInteger z => if in_range 0 max z then Some z else None | _ => None end.
Definition de_table {A} (de : entries_t -> option A) (v : tvalue) : option A :=
  match v with TTable t => de t | _ => None end.
Definition de_array {A} (de : tvalue -> option A) (v : tvalue) : option (list A) :=
  match v with TArray l => mapM de l | _ => None end.
Definition de_string_map (v : tvalue) : option (gmap string string) :=
  match v with
  | TTable t => list_to_map <$> mapM (fun '(k, v) => s ← de_string v; Some (k, s)) t
  | _ => None
  end.

(** A field, and a field that may be absent. *)
Definition req {A} (k : string) (de : tvalue -> option A) (t : entries_t) : option A :=
  lookup_key k t ≫= de.
Definition opt {A} (k : string) (de : tvalue -> option A) (t : entries_t) : option (option A) :=
  match lookup_key k t with None => Some None | Some v => Some <$> de v end.

Definition de_mqtt (t : entries_t) : option MqttConfig.raw :=
  host ← req "host" de_string t; port ← opt "port" (de_uint u16_max) t;
  topic ← opt "topic" de_string t; client_id ← opt "client_id" de_string t;
  username ← opt "username" de_string t; password ← opt "password" de_string t;
  qos ← opt "qos" (de_uint u8_max) t;
  Some (MqttConfig.mkRaw host port topic client_id username password qos).
Definition de_ntfy (t : entries_t) : option NtfyConfig.t :=
  base_url ← req "base_url" de_string t; topic ← req "topic" de_string t;
  token ← opt "token" de_string t; priority ← opt "priority" (de_uint u8_max) t;
  tags ← opt "tags" de_string t;
  Some (NtfyConfig.mk base_url topic token priority tags).
Definition de_webhook (t : entries_t) : option WebhookConfig.raw :=
  url ← req "url" de_string t; token ← opt "token" de_string t;
  headers ← opt "headers" de_string_map t;
  timeout ← opt "timeout_seconds" (de_uint u64_max) t;
  Some (WebhookConfig.mkRaw url token headers timeout).
Definition de_email (t : entries_t) : option EmailConfig.raw :=
  host ← req "host" de_string t; port ← opt "port" (de_uint u16_max) t;
  username ← req "username" de_string t; password ← req "password" de_string t;
  from ← req "from" de_string t; to ← req "to" de_string t;
  starttls ← opt "starttls" de_bool t; subject_prefix ← opt "subject_prefix" de_string t;
  Some (EmailConfig.mkRaw host port username password from to starttls subject_prefix).

(** [#[serde(untagged)]]: the variants are tried in their order. *)
Definition de_condition (v : tvalue) : option RuleConditionConfig :=
  match v with
  | TString s => Some (Simple s)
  | TTable t =>
      match req "new_device_by_vendor" de_string t with
      | Some s => Some (NewDeviceByVendorCfg s)
      | None =>
          match req "new_device_by_mac_prefix" de_string t with
          | Some s => Some (NewDeviceByMacPrefixCfg s)
          | None =>
              DeviceOfflineCfg <$>
                req "device_offline" (de_table (req "after_seconds" (de_uint u64_max))) t
          end
      end
  | _ => None
  end.
Definition de_rule (t : entries_t) : option RuleConfig.raw :=
  name ← req "name" de_string t; enabled ← opt "enabled" de_bool t;
  condition ← req "condition" de_condition t; severity ← opt "severity" de_string t;
  cooldown ← opt "cooldown_seconds" (de_uint u64_max) t;
  Some (RuleConfig.mkRaw name enabled condition severity cooldown).
Definition de_scanner (t : entries_t) : option ScannerConfig.raw :=
  interval ← opt "interval_seconds" (de_uint u64_max) t;
  Some (ScannerConfig.mkRaw interval).
Definition de_storage (t : entries_t) : option StorageConfig.raw :=
  hours ← opt "history_snapshot_hours" (de_uint u64_max) t;
  days ← opt "history_retention_days" (de_uint u64_max) t;
  Some (StorageConfig.mkRaw hours days).
Definition de_auth (t : entries_t) : option ApiAuthConfig.raw :=
  read_key_hash ← req "read_key_hash" de_string t;
  admin_key_hash ← opt "admin_key_hash" de_string t;
  max_failures ← opt "max_failures" (de_uint u32_max) t;
  window ← opt "window_seconds" (de_uint u64_max) t;
  block ← opt "block_seconds" (de_uint u64_max) t;
  Some (ApiAuthConfig.mkRaw read_key_hash admin_key_hash max_failures window block).
Definition de_tls (t : entries_t) : option ApiTlsConfig :=
  cert ← req "cert_path" de_string t; key ← req "key_path" de_string t;
  Some (mkApiTlsConfig cert key).
Definition de_audit (t : entries_t) : option ApiAuditConfig :=
  log ← req "log_path" de_string t; Some (mkApiAuditConfig log).
Definition de_api (t : entries_t) : option ApiConfig.raw :=
  auth ← opt "auth" (de_table de_auth) t; tls ← opt "tls" (de_table de_tls) t;
  audit ← opt "audit" (de_table de_audit) t;
  Some (ApiConfig.mkRaw auth tls audit).

Definition de_config (t : entries_t) : option Config.raw :=
  interface ← req "interface" de_string t;
  api_port ← opt "api_port" (de_uint u16_max) t;
  api_bind_address ← opt "api_bind_address" de_string t;
  api ← opt "api" (de_table de_api) t;
  log_level ← opt "log_level" de_string t;
  capture_buffer ← opt "capture_buffer" (de_uint u64_max) t;
  database_path ← opt "database_path" de_string t;
  mqtt ← opt "mqtt" (de_table de_mqtt) t;
  ntfy ← opt "ntfy" (de_table de_ntfy) t;
  webhook ← opt "webhook" (de_table de_webhook) t;
  email ← opt "email" (de_table de_email) t;
  rules ← opt "rules" (de_array (de_table de_rule)) t;
  scanner ← opt "scanner" (de_table de_scanner) t;
  storage ← opt "storage" (de_table de_storage) t;
  Some (Config.mkRaw interface api_port api_bind_address api log_level capture_buffer
          database_path mqtt ntfy webhook email rules scanner storage).

(** What is relied on of [toml::from_str]. *)
Class TomlLaws `{!Toml} : Prop := {
  toml_from_str_reads s doc r :
    read_toml s = Some doc -> de_config doc = Some r -> toml_from_str s = Ok r
}.

(** An instance: the reader itself. *)
Definition ref_toml : Toml := {|
  toml_from_str s := ok_or (read_toml s ≫= de_config) "not in the subset"
|}.

(** ** Well-typed configurations: every integer fits its Rust type *)

Definition in_uint (max z : Z) : Prop := 0 <= z <= max.
Definition opt_uint (max : Z) (o : option Z) : Prop := from_option (in_uint max) True o.
Definition mqtt_typed (m : MqttConfig.t) : Prop :=
  in_uint u16_max (MqttConfig.port m) /\ in_uint u8_max (MqttConfig.qos m).
Definition ntfy_typed (n : NtfyConfig.t) : Prop := opt_uint u8_max (NtfyConfig.priority n).
Definition webhook_typed (w : WebhookConfig.t) : Prop :=
  in_uint u64_max (WebhookConfig.timeout_seconds w).
Definition email_typed (e : EmailConfig.t) : Prop := in_uint u16_max (EmailConfig.port e).
Definition rule_typed (r : RuleConfig.t) : Prop :=
  in_uint u64_max (RuleConfig.cooldown_seconds r) /\
  match RuleConfig.condition r with DeviceOfflineCfg s => in_uint u64_max s | _ => True end.
Definition auth_typed (a : ApiAuthConfig.t) : Prop :=
  in_uint u32_max (ApiAuthConfig.max_failures a) /\
  in_uint u64_max (ApiAuthConfig.window_seconds a) /\
  in_uint u64_max (ApiAuthConfig.block_seconds a).
Definition config_typed (c : Config.t) : Prop :=
  in_uint u16_max (Config.api_port c) /\ in_uint u64_max (Config.capture_buffer c) /\
  from_option mqtt_typed True (Config.mqtt c) /\ from_option ntfy_typed True (Config.ntfy c) /\
  from_option webhook_typed True (Config.webhook c) /\
  from_option email_typed True (Config.email c) /\
  Forall rule_typed (Config.rules c) /\
  from_option auth_typed True (ApiConfig.auth (Config.api c)) /\
  in_uint u64_max (ScannerConfig.interval_seconds (Config.scanner c)) /\
  in_uint u64_max (StorageConfig.history_snapshot_hours (Config.storage c)) /\
  in_uint u64_max (StorageConfig.history_retention_days (Config.storage c)).

(** Texts without the control characters that TOML forbids in strings. *)
Definition printable (s : string) : bool := all_chars comment_char s.

(** * Lemmas *)

(** ** Lines *)

Lemma comment_char_no_newline s : all_chars comment_char s = true -> no_newline s = true.
Proof.
  apply all_chars_weaken. intros c Hc.
  destruct (Ascii.eqb_spec newline c) as [<-|]; [vm_compute in Hc; discriminate Hc | done].
Qed.

(** [text] is a run of whole lines that read as [sts]. *)
Definition reads (text : string) (sts : list stmt) : Prop :=
  forall rest, read_stmts (text +:+ rest) = (fun r => sts ++ r) <$> read_stmts rest.

Lemma reads_nil : reads "" [].
Proof. intros rest. simpl. by destruct (read_stmts rest). Qed.

Lemma reads_app t1 t2 s1 s2 : reads t1 s1 -> reads t2 s2 -> reads (t1 +:+ t2) (s1 ++ s2).
Proof.
  intros H1 H2 rest. rewrite string_app_assoc, H1, H2. destruct (read_stmts rest); simpl; [|done].
  by rewrite <- app_assoc.
Qed.

Lemma reads_line l st :
  no_newline l = true -> read_line l = Some st -> reads (l +:+ String newline "") [st].
Proof.
  intros Hl Hr rest. rewrite string_app_assoc. cbn [String.append]. unfold read_stmts.
  rewrite split_on_line by done. cbn [mapM]. rewrite Hr. simpl. by destruct (mapM _ _).
Qed.

(** A closed run of lines reads by evaluation. *)
Lemma reads_all text sts : reads text sts -> read_stmts text = Some (sts ++ [SBlank]).
Proof. intros H. specialize (H ""). by rewrite string_app_nil_r in H. Qed.

Lemma bare_key_char_ne c d : bare_key_char c = true -> bare_key_char d = false -> Ascii.eqb d c = false.
Proof. intros Hc Hd. apply Ascii.eqb_neq. congruence. Qed.

Lemma split_entry_key k r text :
  all_chars bare_key_char k = true -> strip_prefix " = " r = Some text ->
  split_entry (k +:+ r) = Some (k, text).
Proof.
  intros Hk Hr. induction k as [|c k IH].
  { destruct r; cbn [String.append split_entry]; by rewrite Hr. }
  cbn [all_chars] in Hk. apply andb_true_iff in Hk as [Hc Hk].
  cbn [String.append split_entry strip_prefix].
  rewrite (bare_key_char_ne c " ") by done. by rewrite IH.
Qed.

Lemma reads_entry k v text :
  is_bare_key k = true -> no_newline text = true -> read_value text = Some v ->
  reads (k +:+ " = " +:+ text +:+ String newline "") [SEntry k v].
Proof.
  intros Hk Ht Hv. rewrite <- !string_app_assoc.
  pose proof Hk as [Hne Hb]%andb_true_iff. apply reads_line.
  - unfold no_newline in *. rewrite !all_chars_app, Ht, andb_true_r. apply andb_true_iff.
    split; [|reflexivity]. revert Hb. apply all_chars_weaken. intros c Hc.
    by rewrite (bare_key_char_ne c newline).
  - rewrite string_app_assoc.
    assert (read_entry (k +:+ " = " +:+ text) = Some (SEntry k v)) as He.
    { unfold read_entry. by rewrite (split_entry_key _ _ text), Hk, Hv by (done || apply strip_prefix_app). }
    destruct k as [|c k]; [done|]. cbn [all_chars] in Hb. apply andb_true_iff in Hb as [Hc _].
    revert He. cbn [String.append]. generalize (k +:+ " = " +:+ text). intros r He.
    destruct c as [[] [] [] [] [] [] [] []]; try (vm_compute in Hc; discriminate Hc); exact He.
Qed.

(** ** Values *)

Lemma read_value_uint n : 0 <= n <= i64_max -> read_value (fmt_uint n) = Some (TInteger n).
Proof.
  intros Hn.
  assert (read_integer (fmt_uint n) = Some n) as Hi.
  { unfold read_integer. rewrite parse_fmt_uint by (unfold i64_max, u64_max in *; lia). simpl.
    by rewrite String.eqb_refl. }
  unfold read_value. rewrite Hi. destruct (fmt_uint n) as [|c s] eqn:E; [by vm_compute in Hi|].
  destruct (Ascii.eqb_spec c dquote) as [->|]; [|done].
  unfold read_integer in Hi. by vm_compute in Hi.
Qed.

Lemma fmt_go_no_newline fuel n acc :
  0 <= n -> no_newline acc = true -> no_newline (fmt_go fuel n acc) = true.
Proof.
  revert n acc. induction fuel as [|fuel IH]; intros n acc Hn Hacc; cbn [fmt_go]; [done|].
  assert (no_newline (String (digit (n mod 10)) acc) = true) as Hd.
  { unfold no_newline in *. cbn [all_chars]. rewrite Hacc, andb_true_r, negb_true_iff.
    apply Ascii.eqb_neq. intros Heq. apply (f_equal digit_value) in Heq.
    rewrite digit_value_digit in Heq by (apply Z.mod_pos_bound; lia). by vm_compute in Heq. }
  destruct (n <? 10); [done|]. apply IH; [apply Z.div_pos; lia | done].
Qed.

Lemma reads_uint k n :
  is_bare_key k = true -> 0 <= n <= i64_max ->
  reads (k +:+ " = " +:+ fmt_uint n +:+ String newline "") [SEntry k (TInteger n)].
Proof.
  intros Hk Hn. apply reads_entry; [done | | by apply read_value_uint].
  apply fmt_go_no_newline; [lia | done].
Qed.

Lemma printable_no_newline s : printable s = true -> no_newline s = true.
Proof. apply comment_char_no_newline. Qed.

(** ** Grouping *)

Lemma group_app_entries es rest :
  group (entry_stmts es ++ rest) =
    let '(es', secs) := group rest in (es ++ es', secs).
Proof.
  induction es as [|[k v] es IH]; cbn [entry_stmts map app group fst snd].
  - by destruct (group rest).
  - fold (entry_stmts es). rewrite IH. by destruct (group rest).
Qed.

Lemma group_section h es rest secs :
  group rest = ([], secs) ->
  group (SBlank :: SHead h :: entry_stmts es ++ rest) = ([], (h, es) :: secs).
Proof. intros Hr. simpl. rewrite group_app_entries, Hr. by rewrite app_nil_r. Qed.

(** ** The derives respect the integer types *)

Lemma de_uint_Some max v n : de_uint max v = Some n -> in_uint max n.
Proof.
  unfold de_uint, in_range, in_uint. destruct v; try done. case_match; [|done].
  intros [= <-]. bool_to_prop. lia.
Qed.

Lemma opt_Some {A} k (de : tvalue -> option A) t o :
  opt k de t = Some o -> from_option (fun a => exists v, de v = Some a) True o.
Proof.
  unfold opt. destruct (lookup_key k t) as [v|]; [|by intros [= <-]].
  destruct (de v) eqn:E; simpl; [|done]. intros [= <-]. simpl. eauto.
Qed.

Lemma opt_uint_default k max t o d :
  in_uint max d -> opt k (de_uint max) t = Some o -> in_uint max (default d o).
Proof.
  intros Hd Ho. apply opt_Some in Ho. destruct o as [n|]; [|done]. destruct Ho as [v Hv].
  by eapply de_uint_Some.
Qed.

Lemma opt_table_P {A B} k (de : entries_t -> option A) (f : A -> B) (P : B -> Prop) t o :
  (forall t a, de t = Some a -> P (f a)) ->
  opt k (de_table de) t = Some o -> from_option P True (f <$> o).
Proof.
  intros H Ho. apply opt_Some in Ho. destruct o as [a|]; [|done]. destruct Ho as [[] Hv]; try done.
  simpl in *. eauto.
Qed.

Lemma opt_table_default {A B} k (de : entries_t -> option A) (f : A -> B) d (P : B -> Prop) t o :
  P d -> (forall t a, de t = Some a -> P (f a)) ->
  opt k (de_table de) t = Some o -> P (from_option f d o).
Proof.
  intros Hd H Ho. eapply opt_table_P in Ho; [|done]. by destruct o.
Qed.

Lemma in_uint_bool max d : in_range 0 max d = true -> in_uint max d.
Proof. unfold in_range, in_uint. intros H. bool_to_prop. lia. Qed.

Ltac de_inv :=
  repeat match goal with
  | H : (_ ≫= _) = Some _ |- _ => apply bind_Some in H as (? & ? & ?)
  | H : Some _ = Some _ |- _ => injection H as <-
  end.
Ltac solve_uint := eapply opt_uint_default; [by apply in_uint_bool | done].

Lemma de_mqtt_typed t m : de_mqtt t = Some m -> mqtt_typed (MqttConfig.of_raw m).
Proof. unfold de_mqtt. intros H. de_inv. split; cbn; solve_uint. Qed.

Lemma de_ntfy_typed t n : de_ntfy t = Some n -> ntfy_typed n.
Proof.
  unfold de_ntfy. intros H. de_inv. unfold ntfy_typed, opt_uint. cbn.
  match goal with H : opt _ (de_uint _) _ = Some ?o |- _ => apply opt_Some in H; destruct o end;
    [|done]. destruct_and?. naive_solver eauto using de_uint_Some.
Qed.

Lemma de_webhook_typed t w : de_webhook t = Some w -> webhook_typed (WebhookConfig.of_raw w).
Proof. unfold de_webhook. intros H. de_inv. unfold webhook_typed. cbn. solve_uint. Qed.

Lemma de_email_typed t e : de_email t = Some e -> email_typed (EmailConfig.of_raw e).
Proof. unfold de_email. intros H. de_inv. unfold email_typed. cbn. solve_uint. Qed.

Lemma de_condition_typed v c :
  de_condition v = Some c -> match c with DeviceOfflineCfg s => in_uint u64_max s | _ => True end.
Proof.
  destruct v as [| | |t|]; cbn [de_condition]; try done; [by intros [= <-]|].
  destruct (req "new_device_by_vendor" de_string t); [by intros [= <-]|].
  destruct (req "new_device_by_mac_prefix" de_string t); [by intros [= <-]|].
  intros (n & (v & _ & Hv)%bind_Some & ->)%fmap_Some. destruct v; try done.
  apply bind_Some in Hv as (v & _ & Hv). by eapply de_uint_Some.
Qed.

Lemma de_rule_typed t r : de_rule t = Some r -> rule_typed (RuleConfig.of_raw r).
Proof.
  unfold de_rule. intros H. de_inv. split; cbn; [solve_uint|].
  match goal with H : req _ de_condition _ = _ |- _ => apply bind_Some in H as (v & _ & H) end.
  by eapply de_condition_typed.
Qed.

Lemma de_auth_typed t a : de_auth t = Some a -> auth_typed (ApiAuthConfig.of_raw a).
Proof. unfold de_auth. intros H. de_inv. split_and!; cbn; solve_uint. Qed.

Lemma de_api_typed t a :
  de_api t = Some a -> from_option auth_typed True (ApiConfig.auth (ApiConfig.of_raw a)).
Proof.
  unfold de_api. intros H. de_inv. cbn. eapply opt_table_P; [|done]. apply de_auth_typed.
Qed.

Lemma de_scanner_typed t s :
  de_scanner t = Some s -> in_uint u64_max (ScannerConfig.interval_seconds (ScannerConfig.of_raw s)).
Proof. unfold de_scanner. intros H. de_inv. cbn. solve_uint. Qed.

Lemma de_storage_typed t s :
  de_storage t = Some s ->
  in_uint u64_max (StorageConfig.history_snapshot_hours (StorageConfig.of_raw s)) /\
  in_uint u64_max (StorageConfig.history_retention_days (StorageConfig.of_raw s)).
Proof. unfold de_storage. intros H. de_inv. cbn. split; solve_uint. Qed.

Lemma de_rules_typed t o :
  opt "rules" (de_array (de_table de_rule)) t = Some o ->
  Forall rule_typed (RuleConfig.of_raw <$> default [] o).
Proof.
  intros H%opt_Some. destruct o as [l|]; [|constructor]. destruct H as [[] H]; try done.
  simpl in *. apply mapM_Some in H. induction H as [|v r vs rs Hv _ IH]; constructor; [|done].
  destruct v; try done. by eapply de_rule_typed.
Qed.

Lemma de_config_typed t r : de_config t = Some r -> config_typed (Config.of_raw r).
Proof.
  unfold de_config. intros H. de_inv.
  assert (forall o, opt "storage" (de_table de_storage) t = Some o ->
    let s := from_option StorageConfig.of_raw StorageConfig.default_config o in
    in_uint u64_max (StorageConfig.history_snapshot_hours s) /\
    in_uint u64_max (StorageConfig.history_retention_days s)) as Hst.
  { intros o. cbv zeta.
    apply (opt_table_default _ de_storage StorageConfig.of_raw StorageConfig.default_config
      (fun s => in_uint u64_max (StorageConfig.history_snapshot_hours s) /\
                in_uint u64_max (StorageConfig.history_retention_days s)));
      [|apply de_storage_typed]. split; by apply in_uint_bool. }
  unfold config_typed; split_and!; cbn; try solve_uint.
  - eapply opt_table_P; [|done]. apply de_mqtt_typed.
  - match goal with H : opt "ntfy" _ _ = Some ?o |- _ =>
      apply (opt_table_P _ de_ntfy id ntfy_typed) in H; [by destruct o | apply de_ntfy_typed] end.
  - eapply opt_table_P; [|done]. apply de_webhook_typed.
  - eapply opt_table_P; [|done]. apply de_email_typed.
  - by eapply de_rules_typed.
  - eapply (opt_table_default _ _ _ _ (fun a => from_option auth_typed True (ApiConfig.auth a)));
      [done| |done]. apply de_api_typed.
  - eapply (opt_table_default _ _ _ _ (fun s => in_uint u64_max (ScannerConfig.interval_seconds s)));
      [by apply in_uint_bool| |done]. apply de_scanner_typed.
  - by eapply Hst.
  - by eapply Hst.
Qed.

Definition ref_toml_laws : @TomlLaws ref_toml.
Proof. split. intros s doc r Hs Hr. simpl. by rewrite Hs; simpl; rewrite Hr. Defined.

Lemma normalized_typed c : config_typed c -> config_typed (normalized c).
Proof.
  unfold config_typed, normalized. intros (? & ? & ? & Hn & ?). cbn. split_and!; try tauto.
  by destruct (Config.ntfy c).
Qed.

(** * Properties *)

(** Every integer of a configuration that was read from a file and
    accepted fits the Rust type of its field, whether the file gave it or a
    default did (ports in [u16], QoS and priority in [u8], the failure limit
    in [u32], durations and sizes in [u64]), for the documents [read_toml]
    reads; the QoS is one of the three MQTT
    knows; and a port given in the file is taken as it is, never wrapped. *)
Theorem accepted_config_typed `{!Toml, !TomlLaws} (content : string) (doc : entries_t)
  (r : Config.raw) (c : Config.t) :
  read_toml content = Some doc -> de_config doc = Some r -> config_from_str content = Ok c ->
  config_typed c /\
  from_option (fun m => 0 <= MqttConfig.qos m <= 2) True (Config.mqtt c) /\
  (forall z, lookup_key "api_port" doc = Some (TInteger z) -> Config.api_port c = z).
Proof.
  intros Hd Hr Hc. pose proof (de_config_typed _ _ Hr) as Ht.
  unfold config_from_str in Hc. rewrite (toml_from_str_reads _ _ _ Hd Hr) in Hc. cbn in Hc.
  apply validate_Ok in Hc as [(_ & Hm & _) ->]. split_and!; [by apply normalized_typed | |].
  - destruct Ht as (_ & _ & Ht & _). cbn in *. destruct (Config.r_mqtt r); cbn in *; [|done].
    destruct Hm as [_ Hq], Ht as [_ Ht]. unfold in_uint in Ht. cbn in *. lia.
  - intros z Hz. unfold de_config in Hr. de_inv. cbn.
    match goal with H : opt "api_port" _ _ = _ |- _ => revert H end.
    unfold opt. rewrite Hz. intros (n & Hn & ->)%fmap_Some. unfold de_uint in Hn.
    case_match; [|done]. by injection Hn as <-.
Qed.

Definition demo_port_text : string :=
  "interface = " +:+ String dquote ("eth0" +:+ String dquote (String newline
    ("api_port = 9090" +:+ String newline ("[mqtt]" +:+ String newline
    ("host = " +:+ String dquote ("hub" +:+ String dquote (String newline "qos = 2"))))))).
Definition demo_port_doc : entries_t :=
  [("interface", TString "eth0"); ("api_port", TInteger 9090);
   ("mqtt", TTable [("host", TString "hub"); ("qos", TInteger 2)])].

Lemma accepted_config_typed_witness :
  exists c, @config_from_str ref_toml demo_port_text = Ok c /\ config_typed c /\
    Config.api_port c = 9090.
Proof.
  eexists. split; [vm_compute; reflexivity|].
  edestruct (@accepted_config_typed ref_toml ref_toml_laws demo_port_text demo_port_doc) as (H1 & _ & H2);
    [vm_compute; reflexivity | vm_compute; reflexivity | vm_compute; reflexivity |].
  split; [exact H1 | apply H2; reflexivity].
Defined.
