(* ===== verification/Setup.v ===== *)
(** The setup wizard, [crates/cli/src/setup.rs]: the inputs, the emitter of
    the configuration text, key generation, the prompts and [run], with the
    part of the file system they touch.

    The terminal ([dialoguer]), hexadecimal encoding ([hex]), SHA-256 and the
    TOML parser are parameters with their documented behaviour.  The random
    bytes of a key are an argument.  The file system is a record of files and
    directories keyed by the text of their path, and any operation on it may
    fail. *)

From S2P Require Import Prelude Text Types Config.
From S2P Require Import Reference Net Auth Toml.

(** * The file system *)

Record Fs : Type := mkFs { files : gmap string string; dirs : gset string }.
Definition set_file (p content : string) (fs : Fs) : Fs :=
  mkFs (<[p := content]> (files fs)) (dirs fs).
Definition remove_file (p : string) (fs : Fs) : Fs := mkFs (delete p (files fs)) (dirs fs).
Definition path_exists (fs : Fs) (p : string) : bool :=
  bool_decide (p ∈ dom (files fs)) || bool_decide (p ∈ dirs fs).

(** What the operating system refuses: [None] is a success.  A failed write
    may leave anything in the file. *)
Class Os : Type := {
  path_parent : string -> option string;
  read_fault : Fs -> string -> option string;
  mkdir_fault : Fs -> string -> option string;
  write_fault : Fs -> string -> option (string * option string);
  remove_fault : Fs -> string -> bool
}.

Section FileOperations.
Context {O : Os}.

Definition fs_read (fs : Fs) (p : string) : result string string :=
  match read_fault fs p with
  | Some e => Err e
  | None => ok_or (files fs !! p) "No such file or directory (os error 2)"
  end.
Definition create_dir_all (p : string) (fs : Fs) : Fs * result unit string :=
  match mkdir_fault fs p with
  | Some e => (fs, Err e)
  | None => (mkFs (files fs) ({[p]} ∪ dirs fs), Ok tt)
  end.
Definition fs_write (p content : string) (fs : Fs) : Fs * result unit string :=
  match write_fault fs p with
  | Some (e, remains) => (mkFs (partial_alter (fun _ => remains) p (files fs)) (dirs fs), Err e)
  | None => (set_file p content fs, Ok tt)
  end.
Definition fs_remove (p : string) (fs : Fs) : Fs :=
  if remove_fault fs p then fs else remove_file p fs.
End FileOperations.

(** * The inputs *)

Module MqttInputs.
Record t : Type := mk {
  host : string; port : Z; topic : string; username : option string; password : option string
}.
End MqttInputs.

Module NtfyInputs.
Record t : Type := mk { base_url : string; topic : string; token : option string }.
End NtfyInputs.

Module WebhookInputs.
Record t : Type := mk { url : string; token : option string }.
End WebhookInputs.

Module EmailInputs.
Record t : Type := mk {
  host : string; port : Z; username : string; password : string; from : string; to : string
}.
End EmailInputs.

Module SetupInputs.
Record t : Type := mk {
  interface : string;
  api_port : Z;
  api_bind_address : string;
  log_level : string;
  database_path : string;
  generate_api_key : bool;
  mqtt : option MqttInputs.t;
  ntfy : option NtfyInputs.t;
  webhook : option WebhookInputs.t;
  email : option EmailInputs.t
}.
Definition default_inputs : t := mk "" 8080 "0.0.0.0" "info" "" false None None None None.
Definition set_interface (v : string) (i : t) : t :=
  mk v (api_port i) (api_bind_address i) (log_level i) (database_path i) (generate_api_key i)
     (mqtt i) (ntfy i) (webhook i) (email i).
Definition set_api_port (v : Z) (i : t) : t :=
  mk (interface i) v (api_bind_address i) (log_level i) (database_path i) (generate_api_key i)
     (mqtt i) (ntfy i) (webhook i) (email i).
Definition set_bind (v : string) (i : t) : t :=
  mk (interface i) (api_port i) v (log_level i) (database_path i) (generate_api_key i)
     (mqtt i) (ntfy i) (webhook i) (email i).
Definition set_database_path (v : string) (i : t) : t :=
  mk (interface i) (api_port i) (api_bind_address i) (log_level i) v (generate_api_key i)
     (mqtt i) (ntfy i) (webhook i) (email i).
Definition set_generate_api_key (v : bool) (i : t) : t :=
  mk (interface i) (api_port i) (api_bind_address i) (log_level i) (database_path i) v
     (mqtt i) (ntfy i) (webhook i) (email i).
Definition set_mqtt (v : option MqttInputs.t) (i : t) : t :=
  mk (interface i) (api_port i) (api_bind_address i) (log_level i) (database_path i)
     (generate_api_key i) v (ntfy i) (webhook i) (email i).
Definition set_ntfy (v : option NtfyInputs.t) (i : t) : t :=
  mk (interface i) (api_port i) (api_bind_address i) (log_level i) (database_path i)
     (generate_api_key i) (mqtt i) v (webhook i) (email i).
Definition set_webhook (v : option WebhookInputs.t) (i : t) : t :=
  mk (interface i) (api_port i) (api_bind_address i) (log_level i) (database_path i)
     (generate_api_key i) (mqtt i) (ntfy i) v (email i).
Definition set_email (v : option EmailInputs.t) (i : t) : t :=
  mk (interface i) (api_port i) (api_bind_address i) (log_level i) (database_path i)
     (generate_api_key i) (mqtt i) (ntfy i) (webhook i) v.
End SetupInputs.

(** * The emitter *)

Definition quoted (s : string) : string := String dquote (s +:+ String dquote "").

Definition toml_string (s : string) : string :=
  let escaped := replace_char dquote (String backslash (String dquote ""))
                   (replace_char backslash (String backslash (String backslash "")) s) in
  quoted escaped.

(** One [push_str] of a line [key = value]. *)
Definition key_value (k v : string) : string := k +:+ " = " +:+ v +:+ nl.
Definition opt_key_value (k : string) (v : option string) : string :=
  match v with Some s => key_value k (toml_string s) | None => "" end.

Definition render_mqtt (m : MqttInputs.t) : string :=
  nl +:+ "[mqtt]" +:+ nl +:+
  key_value "host" (toml_string (MqttInputs.host m)) +:+
  key_value "port" (fmt_uint (MqttInputs.port m)) +:+
  key_value "topic" (toml_string (MqttInputs.topic m)) +:+
  opt_key_value "username" (MqttInputs.username m) +:+
  opt_key_value "password" (MqttInputs.password m) +:+
  key_value "qos" "1".

Definition render_ntfy (n : NtfyInputs.t) : string :=
  nl +:+ "[ntfy]" +:+ nl +:+
  key_value "base_url" (toml_string (NtfyInputs.base_url n)) +:+
  key_value "topic" (toml_string (NtfyInputs.topic n)) +:+
  opt_key_value "token" (NtfyInputs.token n).

Definition render_webhook (w : WebhookInputs.t) : string :=
  nl +:+ "[webhook]" +:+ nl +:+
  key_value "url" (toml_string (WebhookInputs.url w)) +:+
  opt_key_value "token" (WebhookInputs.token w) +:+
  key_value "timeout_seconds" "10".

Definition render_email (e : EmailInputs.t) : string :=
  nl +:+ "[email]" +:+ nl +:+
  key_value "host" (toml_string (EmailInputs.host e)) +:+
  key_value "port" (fmt_uint (EmailInputs.port e)) +:+
  key_value "username" (toml_string (EmailInputs.username e)) +:+
  key_value "password" (toml_string (EmailInputs.password e)) +:+
  key_value "from" (toml_string (EmailInputs.from e)) +:+
  key_value "to" (toml_string (EmailInputs.to e)) +:+
  key_value "starttls" "true" +:+
  key_value "subject_prefix" (quoted "[EdgeShield]").

Definition render_default_rule : string :=
  nl +:+ "[[rules]]" +:+ nl +:+
  key_value "name" (quoted "new_device") +:+
  key_value "condition" (quoted "new_device") +:+
  key_value "severity" (quoted "info") +:+
  key_value "cooldown_seconds" "0".

(** [if let Some(ref x) = section]. *)
Definition render_opt {A} (render : A -> string) (o : option A) : string :=
  match o with Some a => render a | None => "" end.

(** [hex::encode]. *)
Class HexEncode : Type := { hex_encode : list Z -> string }.
Class HexLaws `{!Crypto, !HexEncode} : Prop := {
  hex_decode_encode l : bytes_ok l -> hex_decode (hex_encode l) = Some l;
  hex_encode_digits l : bytes_ok l -> all_chars is_ascii_hexdigit (hex_encode l) = true;
  hex_encode_length l : String.length (hex_encode l) = (2 * length l)%nat;
  sha256_bytes l : bytes_ok (sha256 l)
}.

(** * The terminal *)

(** A prompt of [dialoguer] and what the user makes of it: an answer, or an
    error of the terminal.  [input_text prompt default allow_empty]. *)
Class Terminal : Type := {
  input_text : string -> option string -> bool -> result string string;
  input_u16 : string -> option Z -> result Z string;
  confirm : string -> bool -> result bool string;
  select : string -> list string -> result nat string
}.
(** An empty line takes the default if there is one and is asked again
    otherwise; a selection is one of the items; a number fits its type. *)
Class TerminalLaws `{!Terminal} : Prop := {
  input_text_filled p d s : input_text p d false = Ok s -> d <> Some "" -> s <> "";
  input_u16_range p d n : input_u16 p d = Ok n -> 0 <= n <= u16_max;
  select_item p items i : items <> [] -> select p items = Ok i -> (i < length items)%nat
}.

Inductive SetupError : Type :=
| AlreadyExists (path : string)
| FailedValidation (e : ConfigError)
| CreateDirFailed (parent e : string)
| WriteFailed (path e : string)
| PromptFailed (e : string)
| InterfaceRequired.

(** The outermost text of the error chain. *)
Definition setup_error_display (e : SetupError) : string :=
  match e with
  | AlreadyExists path =>
      "config file already exists at " +:+ path +:+ ". Re-run with --force to overwrite."
  | FailedValidation _ => "generated config failed validation (this is a bug)"
  | CreateDirFailed parent _ => "failed to create config directory " +:+ parent
  | WriteFailed path _ => "failed to write config to " +:+ path
  | PromptFailed e => e
  | InterfaceRequired =>
      "non-interactive setup requires --interface (or EDGESHIELD_INTERFACE env var)"
  end.

(** The names in [/sys/class/net] as the directory reads: the directory may
    be missing, an entry may fail, a name may not be UTF-8. *)
Definition NetDir : Type := result (list (result (list Z) string)) string.

Definition interface_names (entries : list (result (list Z) string)) : list string :=
  omap (fun entry =>
    bytes ← result_ok entry;
    name ← from_utf8 bytes;
    if String.eqb name "lo" then None else Some name) entries.
Definition detect_interfaces (net_dir : NetDir) : list string :=
  merge_sort String.le
    match net_dir with Ok entries => interface_names entries | Err _ => [] end.

Section Wizard.
Context {TM : Toml} {CR : Crypto} {HX : HexEncode} {O : Os} {TT : Terminal}.

Definition sha256_hex (bytes : list Z) : string := hex_encode (sha256 bytes).
(** [rng] is what [OsRng.fill_bytes] puts into the 32 bytes. *)
Definition generate_api_key_plaintext (rng : list Z) : string := hex_encode rng.

Definition render_auth (plaintext : string) : string :=
  let hash := sha256_hex (as_bytes plaintext) in
  nl +:+ "[api.auth]" +:+ nl +:+
  "# read_key (plaintext, shown once by setup): " +:+ plaintext +:+ nl +:+
  key_value "read_key_hash" (toml_string hash).

Definition render_toml (inputs : SetupInputs.t) (api_key_plaintext : option string)
  : result string SetupError :=
  Ok ("# EdgeShield configuration — generated by `edgeshield setup`" +:+ nl +:+
      "# See https://github.com/edgeshield/edgeshield for the full reference." +:+ nl +:+ nl +:+
      key_value "interface" (toml_string (SetupInputs.interface inputs)) +:+
      key_value "api_port" (fmt_uint (SetupInputs.api_port inputs)) +:+
      key_value "api_bind_address" (toml_string (SetupInputs.api_bind_address inputs)) +:+
      key_value "log_level" (toml_string (SetupInputs.log_level inputs)) +:+
      key_value "capture_buffer" "4096" +:+
      key_value "database_path" (toml_string (SetupInputs.database_path inputs)) +:+
      render_opt render_auth api_key_plaintext +:+
      render_opt render_mqtt (SetupInputs.mqtt inputs) +:+
      render_opt render_ntfy (SetupInputs.ntfy inputs) +:+
      render_opt render_webhook (SetupInputs.webhook inputs) +:+
      render_opt render_email (SetupInputs.email inputs) +:+
      render_default_rule).

(** [setup::run].  The text is validated before anything is touched. *)
Definition run (inputs : SetupInputs.t) (path : string) (force : bool) (rng : list Z) (fs : Fs)
  : Fs * result (option string) SetupError :=
  if path_exists fs path && negb force then (fs, Err (AlreadyExists path))
  else
    let api_key_plaintext :=
      if SetupInputs.generate_api_key inputs then Some (generate_api_key_plaintext rng) else None in
    match render_toml inputs api_key_plaintext with
    | Err e => (fs, Err e)
    | Ok toml =>
        match config_from_str toml with
        | Err e => (fs, Err (FailedValidation e))
        | Ok _ =>
            let '(fs, made) :=
              match path_parent path with
              | Some parent =>
                  if is_empty parent then (fs, Ok tt)
                  else let '(fs, r) := create_dir_all parent fs in
                       (fs, map_err (CreateDirFailed parent) r)
              | None => (fs, Ok tt)
              end in
            match made with
            | Err e => (fs, Err e)
            | Ok _ =>
                let '(fs, written) := fs_write path toml fs in
                match written with
                | Err e => (fs, Err (WriteFailed path e))
                | Ok _ => (fs, Ok api_key_plaintext)
                end
            end
        end
    end.

(** ** The prompts *)

Definition ask {A} (r : result A string) : exec (result A SetupError) :=
  Done (map_err PromptFailed r).
Definition non_empty (s : string) : option string := if is_empty s then None else Some s.

Definition prompt_mqtt : exec (result MqttInputs.t SetupError) :=
  try! host := ask (input_text "MQTT broker host" None false) in
  try! port := ask (input_u16 "MQTT broker port" (Some 1883)) in
  try! topic := ask (input_text "MQTT topic" (Some "edgeshield/devices/new") false) in
  try! username := ask (input_text "MQTT username (leave empty for none)" None true) in
  try! password := ask (input_text "MQTT password (leave empty for none)" None true) in
  Done (Ok (MqttInputs.mk host port topic (non_empty username) (non_empty password))).

Definition prompt_ntfy : exec (result NtfyInputs.t SetupError) :=
  try! base_url := ask (input_text "ntfy server URL (e.g. https://ntfy.sh)" None false) in
  try! topic := ask (input_text "ntfy topic" None false) in
  try! token := ask (input_text "ntfy access token (leave empty for anonymous)" None true) in
  Done (Ok (NtfyInputs.mk base_url topic (non_empty token))).

Definition prompt_webhook : exec (result WebhookInputs.t SetupError) :=
  try! url := ask (input_text "Webhook URL" None false) in
  try! token := ask (input_text "Bearer token (leave empty for none)" None true) in
  Done (Ok (WebhookInputs.mk url (non_empty token))).

Definition prompt_email : exec (result EmailInputs.t SetupError) :=
  try! host := ask (input_text "SMTP host" None false) in
  try! port := ask (input_u16 "SMTP port" (Some 587)) in
  try! username := ask (input_text "SMTP username" None false) in
  try! password := ask (input_text "SMTP password" None false) in
  try! from := ask (input_text "From email address" None false) in
  try! to := ask (input_text "To email address (alert recipient)" None false) in
  Done (Ok (EmailInputs.mk host port username password from to)).

Definition notifier_options : list string :=
  ["None (skip notifications for now)"; "MQTT (Home Assistant / Node-RED)";
   "ntfy.sh (push notifications)"; "Webhook (Slack / Discord / Teams)"; "Email (SMTP)"].

Definition is_none {A} (o : option A) : bool := match o with None => true | Some _ => false end.

Definition prompt_notifiers (inputs : SetupInputs.t) : exec (result SetupInputs.t SetupError) :=
  if is_none (SetupInputs.mqtt inputs) && is_none (SetupInputs.ntfy inputs)
     && is_none (SetupInputs.webhook inputs) && is_none (SetupInputs.email inputs)
  then
    try! selection := ask (select "Configure a notification channel?" notifier_options) in
    match selection with
    | 1%nat => try! m := prompt_mqtt in Done (Ok (SetupInputs.set_mqtt (Some m) inputs))
    | 2%nat => try! n := prompt_ntfy in Done (Ok (SetupInputs.set_ntfy (Some n) inputs))
    | 3%nat => try! w := prompt_webhook in Done (Ok (SetupInputs.set_webhook (Some w) inputs))
    | 4%nat => try! e := prompt_email in Done (Ok (SetupInputs.set_email (Some e) inputs))
    | _ => Done (Ok inputs)
    end
  else Done (Ok inputs).

Definition prompt_interface (net_dir : NetDir) (inputs : SetupInputs.t)
  : exec (result SetupInputs.t SetupError) :=
  if is_empty (SetupInputs.interface inputs) then
    let ifaces := detect_interfaces net_dir in
    match ifaces with
    | [] =>
        try! v := ask (input_text "Network interface to capture (e.g. eth0)" None false) in
        Done (Ok (SetupInputs.set_interface v inputs))
    | _ =>
        try! selection := ask (select "Network interface to capture" ifaces) in
        match ifaces !! selection with
        | Some v => Done (Ok (SetupInputs.set_interface v inputs))
        | None => Panic
        end
    end
  else Done (Ok inputs).

Definition prompt_api_port (inputs : SetupInputs.t) : exec (result SetupInputs.t SetupError) :=
  if SetupInputs.api_port inputs =? 0 then
    try! port := ask (input_u16 "REST API port" (Some 8080)) in
    Done (Ok (SetupInputs.set_api_port port inputs))
  else Done (Ok inputs).

Definition prompt_bind (inputs : SetupInputs.t) : exec (result SetupInputs.t SetupError) :=
  if is_empty (SetupInputs.api_bind_address inputs) then
    try! bind_all := ask (confirm "Bind API to all interfaces (0.0.0.0)?" true) in
    Done (Ok (SetupInputs.set_bind (if bind_all : bool then "0.0.0.0" else "127.0.0.1") inputs))
  else Done (Ok inputs).

Definition prompt_database (inputs : SetupInputs.t) : exec (result SetupInputs.t SetupError) :=
  if is_empty (SetupInputs.database_path inputs) then
    try! use_db := ask (confirm "Persist devices/alerts to SQLite?" true) in
    if use_db : bool then
      try! v := ask (input_text "SQLite database path"
                       (Some "/var/lib/edgeshield/edgeshield.db") false) in
      Done (Ok (SetupInputs.set_database_path v inputs))
    else Done (Ok inputs)
  else Done (Ok inputs).

Definition prompt_api_key (inputs : SetupInputs.t) : exec (result SetupInputs.t SetupError) :=
  if SetupInputs.generate_api_key inputs then Done (Ok inputs)
  else
    try! gen_key := ask (confirm "Generate an API key (recommended)?" true) in
    Done (Ok (SetupInputs.set_generate_api_key gen_key inputs)).

Definition prompt_interactively (net_dir : NetDir) (inputs : SetupInputs.t)
  : exec (result SetupInputs.t SetupError) :=
  try! inputs := prompt_interface net_dir inputs in
  try! inputs := prompt_api_port inputs in
  try! inputs := prompt_bind inputs in
  try! inputs := prompt_database inputs in
  try! inputs := prompt_api_key inputs in
  prompt_notifiers inputs.
End Wizard.

(** ** The warning box *)

(** [str::repeat]. *)
(** [inner - 37] on [usize]: it panics in a checked build; in a release build
    it wraps to a length no allocation can have, and [repeat] panics. *)
Definition warning_lines (key : string) : exec (list string) :=
  let inner := (String.length key + 4)%nat in
  if (inner <? 37)%nat then Panic
  else
    let top := "┌" +:+ repeat_str inner "─" +:+ "┐" in
    let bottom := "└" +:+ repeat_str inner "─" +:+ "┘" in
    let key_line := "│  " +:+ key +:+ "  │" in
    let label_line :=
      "│  API key (shown once — save it now):" +:+ repeat_str (inner - 37) " " +:+ "│" in
    Done [top; label_line; key_line; bottom].

(** * What the text is meant to say *)

Definition config_of_inputs (inputs : SetupInputs.t) (hash : option string) : Config.t :=
  Config.mk (SetupInputs.interface inputs) (SetupInputs.api_port inputs)
    (SetupInputs.api_bind_address inputs)
    (ApiConfig.mk ((fun h => ApiAuthConfig.mk h None default_auth_max_failures
                       default_auth_window_seconds default_auth_block_seconds) <$> hash) None None)
    (SetupInputs.log_level inputs) 4096 (SetupInputs.database_path inputs)
    ((fun m => MqttConfig.mk (MqttInputs.host m) (MqttInputs.port m) (MqttInputs.topic m)
         default_mqtt_client_id (MqttInputs.username m) (MqttInputs.password m) 1)
       <$> SetupInputs.mqtt inputs)
    ((fun n => NtfyConfig.mk (NtfyInputs.base_url n) (NtfyInputs.topic n) (NtfyInputs.token n)
         None None) <$> SetupInputs.ntfy inputs)
    ((fun w => WebhookConfig.mk (WebhookInputs.url w) (WebhookInputs.token w) ∅ 10)
       <$> SetupInputs.webhook inputs)
    ((fun e => EmailConfig.mk (EmailInputs.host e) (EmailInputs.port e) (EmailInputs.username e)
         (EmailInputs.password e) (EmailInputs.from e) (EmailInputs.to e) true "[EdgeShield]")
       <$> SetupInputs.email inputs)
    [RuleConfig.mk "new_device" true (Simple "new_device") "info" 0]
    ScannerConfig.default_config StorageConfig.default_config.

(** Inputs of the Rust types whose texts have no control characters. *)
Definition opt_printable (o : option string) : Prop := from_option (fun s => printable s = true) True o.
Definition mqtt_clean (m : MqttInputs.t) : Prop :=
  in_uint u16_max (MqttInputs.port m) /\ printable (MqttInputs.host m) = true /\
  printable (MqttInputs.topic m) = true /\ opt_printable (MqttInputs.username m) /\
  opt_printable (MqttInputs.password m).
Definition ntfy_clean (n : NtfyInputs.t) : Prop :=
  printable (NtfyInputs.base_url n) = true /\ printable (NtfyInputs.topic n) = true /\
  opt_printable (NtfyInputs.token n).
Definition webhook_clean (w : WebhookInputs.t) : Prop :=
  printable (WebhookInputs.url w) = true /\ opt_printable (WebhookInputs.token w).
Definition email_clean (e : EmailInputs.t) : Prop :=
  in_uint u16_max (EmailInputs.port e) /\ printable (EmailInputs.host e) = true /\
  printable (EmailInputs.username e) = true /\ printable (EmailInputs.password e) = true /\
  printable (EmailInputs.from e) = true /\ printable (EmailInputs.to e) = true.
Definition inputs_clean (i : SetupInputs.t) : Prop :=
  in_uint u16_max (SetupInputs.api_port i) /\ printable (SetupInputs.interface i) = true /\
  printable (SetupInputs.api_bind_address i) = true /\
  printable (SetupInputs.log_level i) = true /\ printable (SetupInputs.database_path i) = true /\
  from_option mqtt_clean True (SetupInputs.mqtt i) /\
  from_option ntfy_clean True (SetupInputs.ntfy i) /\
  from_option webhook_clean True (SetupInputs.webhook i) /\
  from_option email_clean True (SetupInputs.email i).

(** The entries of a section. *)
Definition opt_entry (k : string) (o : option string) : entries_t :=
  match o with Some v => [(k, TString v)] | None => [] end.
Definition root_entries (i : SetupInputs.t) : entries_t :=
  [("interface", TString (SetupInputs.interface i));
   ("api_port", TInteger (SetupInputs.api_port i));
   ("api_bind_address", TString (SetupInputs.api_bind_address i));
   ("log_level", TString (SetupInputs.log_level i));
   ("capture_buffer", TInteger 4096);
   ("database_path", TString (SetupInputs.database_path i))].
Definition mqtt_entries (m : MqttInputs.t) : entries_t :=
  [("host", TString (MqttInputs.host m)); ("port", TInteger (MqttInputs.port m));
   ("topic", TString (MqttInputs.topic m))] ++
  opt_entry "username" (MqttInputs.username m) ++ opt_entry "password" (MqttInputs.password m) ++
  [("qos", TInteger 1)].
Definition ntfy_entries (n : NtfyInputs.t) : entries_t :=
  [("base_url", TString (NtfyInputs.base_url n)); ("topic", TString (NtfyInputs.topic n))] ++
  opt_entry "token" (NtfyInputs.token n).
Definition webhook_entries (w : WebhookInputs.t) : entries_t :=
  [("url", TString (WebhookInputs.url w))] ++ opt_entry "token" (WebhookInputs.token w) ++
  [("timeout_seconds", TInteger 10)].
Definition email_entries (e : EmailInputs.t) : entries_t :=
  [("host", TString (EmailInputs.host e)); ("port", TInteger (EmailInputs.port e));
   ("username", TString (EmailInputs.username e)); ("password", TString (EmailInputs.password e));
   ("from", TString (EmailInputs.from e)); ("to", TString (EmailInputs.to e));
   ("starttls", TBoolean true); ("subject_prefix", TString "[EdgeShield]")].
Definition rule_entries : entries_t :=
  [("name", TString "new_device"); ("condition", TString "new_device");
   ("severity", TString "info"); ("cooldown_seconds", TInteger 0)].

Definition opt_section {A} (h : heading) (es : A -> entries_t) (o : option A)
  : list (heading * entries_t) :=
  match o with Some a => [(h, es a)] | None => [] end.
Definition sections (i : SetupInputs.t) (hash : option string) : list (heading * entries_t) :=
  opt_section (HTable ["api"; "auth"]) (fun h => [("read_key_hash", TString h)]) hash ++
  opt_section (HTable ["mqtt"]) mqtt_entries (SetupInputs.mqtt i) ++
  opt_section (HTable ["ntfy"]) ntfy_entries (SetupInputs.ntfy i) ++
  opt_section (HTable ["webhook"]) webhook_entries (SetupInputs.webhook i) ++
  opt_section (HTable ["email"]) email_entries (SetupInputs.email i) ++
  [(HArray "rules", rule_entries)].

(** * Lemmas *)

(** ** The emitter's strings *)

Lemma all_chars_replace f c r s :
  all_chars f r = true -> all_chars f s = true -> all_chars f (replace_char c r s) = true.
Proof.
  intros Hr. induction s as [|d s IH]; cbn [replace_char all_chars]; [done|].
  rewrite andb_true_iff. intros [Hd Hs]. destruct (Ascii.eqb c d).
  - by rewrite all_chars_app, Hr, IH.
  - cbn [all_chars]. by rewrite Hd, IH.
Qed.

Lemma toml_string_no_newline s : printable s = true -> no_newline (toml_string s) = true.
Proof.
  intros Hs. apply comment_char_no_newline. unfold toml_string, quoted. cbn [all_chars].
  rewrite all_chars_app. apply andb_true_iff. split; [done|]. apply andb_true_iff. split; [|done].
  by do 2 (apply all_chars_replace; [done|]).
Qed.

(** The reader undoes the two replacements. *)
Lemma read_value_toml_string s : printable s = true -> read_value (toml_string s) = Some (TString s).
Proof.
  intros Hs. unfold toml_string, quoted, read_value. rewrite Ascii.eqb_refl.
  match goal with |- _ <$> ?r = _ => assert (r = Some s) as ->; [|done] end.
  unfold printable in Hs. induction s as [|c s IH]; [done|].
  cbn [all_chars] in Hs. apply andb_true_iff in Hs as [Hc Hs]. specialize (IH Hs).
  cbn [replace_char]. destruct (Ascii.eqb_spec backslash c) as [<-|Hb].
  - cbn [String.append replace_char]. cbn. cbn in IH. by rewrite IH.
  - cbn [replace_char]. destruct (Ascii.eqb_spec dquote c) as [<-|Hd].
    + cbn. cbn in IH. by rewrite IH.
    + cbn [String.append read_basic]. apply not_eq_sym, Ascii.eqb_neq in Hb, Hd.
      unfold basic_char. rewrite Hb, Hd, Hc. cbn [negb andb]. by rewrite IH.
Qed.

(** ** Reading what the emitter writes *)

Lemma reads_cons t1 t2 st sts : reads t1 [st] -> reads t2 sts -> reads (t1 +:+ t2) (st :: sts).
Proof. intros H1 H2. apply (reads_app _ _ [st]); done. Qed.

Lemma reads_blank t sts : reads t sts -> reads (nl +:+ t) (SBlank :: sts).
Proof. apply reads_cons, (reads_line ""); done. Qed.

Lemma reads_text l t st sts :
  no_newline l = true -> read_line l = Some st -> reads t sts -> reads (l +:+ nl +:+ t) (st :: sts).
Proof. intros. rewrite <- string_app_assoc. apply reads_cons; [by apply reads_line | done]. Qed.

Lemma reads_value k v tv :
  is_bare_key k = true -> no_newline v = true -> read_value v = Some tv ->
  reads (key_value k v) [SEntry k tv].
Proof. apply (fun Hk Hv => reads_entry k tv v Hk Hv). Qed.

Lemma reads_string k s :
  is_bare_key k = true -> printable s = true ->
  reads (key_value k (toml_string s)) [SEntry k (TString s)].
Proof.
  intros Hk Hs. apply reads_value; [done | by apply toml_string_no_newline |].
  by apply read_value_toml_string.
Qed.

Lemma reads_number k n :
  is_bare_key k = true -> in_uint u16_max n -> reads (key_value k (fmt_uint n)) [SEntry k (TInteger n)].
Proof.
  intros Hk Hn. apply reads_uint; [done|]. unfold in_uint, u16_max, i64_max in *. lia.
Qed.

Lemma reads_opt_string k o t sts :
  is_bare_key k = true -> opt_printable o -> reads t sts ->
  reads (opt_key_value k o +:+ t) (entry_stmts (opt_entry k o) ++ sts).
Proof.
  intros Hk Ho Ht. apply reads_app; [|done].
  destruct o as [s|]; [by apply reads_string | apply reads_nil].
Qed.

Lemma reads_last t sts : reads (t +:+ "") sts -> reads t sts.
Proof. by rewrite string_app_nil_r. Qed.

Lemma entry_stmts_app a b : entry_stmts (a ++ b) = entry_stmts a ++ entry_stmts b.
Proof. apply map_app. Qed.

(** One line of the text after the other. *)
Ltac reads_lines :=
  lazymatch goal with
  | |- reads "" _ => apply reads_nil
  | |- reads (nl +:+ _) _ => apply reads_blank; reads_lines
  | |- reads (opt_key_value _ _ +:+ _) _ =>
      apply reads_opt_string; [reflexivity | assumption | reads_lines]
  | |- reads (key_value _ (toml_string _) +:+ _) _ =>
      apply reads_cons; [apply reads_string; [reflexivity | assumption] | reads_lines]
  | |- reads (key_value _ (fmt_uint _) +:+ _) _ =>
      apply reads_cons; [apply reads_number; [reflexivity | assumption] | reads_lines]
  | |- reads (key_value _ _ +:+ _) _ =>
      apply reads_cons; [apply reads_value; reflexivity | reads_lines]
  | |- reads (_ +:+ nl +:+ _) _ => apply reads_text; [reflexivity | reflexivity | reads_lines]
  | |- reads _ _ => assumption
  end.

(** A section is a blank line, its heading and its entries. *)
Definition section_stmts (sec : heading * entries_t) : list stmt :=
  SBlank :: SHead sec.1 :: entry_stmts sec.2.

Lemma reads_mqtt m :
  mqtt_clean m -> reads (render_mqtt m) (section_stmts (HTable ["mqtt"], mqtt_entries m)).
Proof.
  intros (? & ? & ? & ? & ?). apply reads_last. unfold render_mqtt, section_stmts, mqtt_entries.
  cbn [fst snd]. rewrite !string_app_assoc, !entry_stmts_app. cbn [app entry_stmts map fst snd].
  reads_lines.
Qed.

Lemma reads_ntfy n :
  ntfy_clean n -> reads (render_ntfy n) (section_stmts (HTable ["ntfy"], ntfy_entries n)).
Proof.
  intros (? & ? & ?). apply reads_last. unfold render_ntfy, section_stmts, ntfy_entries.
  cbn [fst snd]. rewrite !string_app_assoc, <- (app_nil_r (opt_entry _ _)), !entry_stmts_app.
  cbn [app entry_stmts map fst snd]. reads_lines.
Qed.

Lemma reads_webhook w :
  webhook_clean w -> reads (render_webhook w) (section_stmts (HTable ["webhook"], webhook_entries w)).
Proof.
  intros (? & ?). apply reads_last. unfold render_webhook, section_stmts, webhook_entries.
  cbn [fst snd]. rewrite !string_app_assoc, !entry_stmts_app. cbn [app entry_stmts map fst snd].
  reads_lines.
Qed.

Lemma reads_email e :
  email_clean e -> reads (render_email e) (section_stmts (HTable ["email"], email_entries e)).
Proof.
  intros (? & ? & ? & ? & ? & ?). apply reads_last. unfold render_email, section_stmts, email_entries.
  cbn [fst snd]. rewrite !string_app_assoc. cbn [app entry_stmts map fst snd]. reads_lines.
Qed.

Lemma reads_rule : reads render_default_rule (section_stmts (HArray "rules", rule_entries)).
Proof.
  apply reads_last. unfold render_default_rule, section_stmts, rule_entries.
  cbn [fst snd]. rewrite !string_app_assoc. cbn [app entry_stmts map fst snd]. reads_lines.
Qed.

(** ** From lines to sections *)

(** [text] is a run of lines that holds the sections [secs]. *)
Definition holds_sections (text : string) (secs : list (heading * entries_t)) : Prop :=
  exists sts, reads text sts /\
    forall rest r, group rest = ([], r) -> group (sts ++ rest) = ([], secs ++ r).

Lemma holds_nil : holds_sections "" [].
Proof. exists []. split; [apply reads_nil | done]. Qed.

Lemma holds_app t1 t2 s1 s2 :
  holds_sections t1 s1 -> holds_sections t2 s2 -> holds_sections (t1 +:+ t2) (s1 ++ s2).
Proof.
  intros (l1 & Hr1 & H1) (l2 & Hr2 & H2). exists (l1 ++ l2). split; [by apply reads_app|].
  intros rest r Hr. rewrite <- !app_assoc. by apply H1, H2.
Qed.

Lemma holds_section t h es : reads t (section_stmts (h, es)) -> holds_sections t [(h, es)].
Proof.
  intros Ht. exists (section_stmts (h, es)). split; [done|]. intros rest r Hr. by apply group_section.
Qed.

Lemma holds_opt {A} (render : A -> string) h es o (P : A -> Prop) :
  (forall a, P a -> holds_sections (render a) [(h, es a)]) -> from_option P True o ->
  holds_sections (render_opt render o) (opt_section h es o).
Proof. intros H Ho. destruct o as [a|]; simpl in *; [by apply H | apply holds_nil]. Qed.

Lemma printable_hex s : all_chars is_ascii_hexdigit s = true -> printable s = true.
Proof.
  apply all_chars_weaken. intros c. unfold is_ascii_hexdigit, comment_char, in_range. cbv zeta.
  intros H. bool_to_prop. lia.
Qed.

Lemma NoDup_table (es : entries_t) : bool_decide (NoDup (es.*1)) = true -> table_of es = Some es.
Proof. unfold table_of. by intros ->. Qed.

(** The table of a document in which every kind of section occurs at most once. *)
Definition opt_table {A} (k : string) (es : A -> entries_t) (o : option A) : entries_t :=
  match o with Some a => [(k, TTable (es a))] | None => [] end.
Definition intended_doc (i : SetupInputs.t) (hash : option string) : entries_t :=
  root_entries i ++
  opt_table "api" (fun h => [("auth", TTable [("read_key_hash", TString h)])]) hash ++
  opt_table "mqtt" mqtt_entries (SetupInputs.mqtt i) ++
  opt_table "ntfy" ntfy_entries (SetupInputs.ntfy i) ++
  opt_table "webhook" webhook_entries (SetupInputs.webhook i) ++
  opt_table "email" email_entries (SetupInputs.email i) ++
  [("rules", TArray [TTable rule_entries])].

Lemma add_new_table doc k es secs :
  lookup_key k doc = None -> bool_decide (NoDup (es.*1)) = true ->
  add_sections doc ((HTable [k], es) :: secs) = add_sections (doc ++ [(k, TTable es)]) secs.
Proof. intros Hk Hes. cbn [add_sections add_section]. rewrite (NoDup_table es) by done. cbn. by rewrite Hk. Qed.

Lemma lookup_key_app k a b :
  lookup_key k (a ++ b) = match lookup_key k a with Some v => Some v | None => lookup_key k b end.
Proof. induction a as [|[k' v] a IH]; simpl; [done|]. by destruct (String.eqb k k'). Qed.

Lemma lookup_opt_table {A} k k' (es : A -> entries_t) o :
  String.eqb k k' = false -> lookup_key k (opt_table k' es o) = None.
Proof. intros H. destruct o; simpl; [by rewrite H | done]. Qed.

Lemma add_opt_table {A} doc k (es : A -> entries_t) o secs :
  lookup_key k doc = None -> (forall a, bool_decide (NoDup ((es a).*1)) = true) ->
  add_sections doc (opt_section (HTable [k]) es o ++ secs) =
    add_sections (doc ++ opt_table k es o) secs.
Proof.
  intros Hk Hes. destruct o as [a|]; simpl opt_table; simpl opt_section.
  - by apply add_new_table.
  - by rewrite app_nil_r.
Qed.

Lemma mqtt_entries_nodup m : bool_decide (NoDup ((mqtt_entries m).*1)) = true.
Proof. unfold mqtt_entries. by destruct (MqttInputs.username m), (MqttInputs.password m). Qed.
Lemma ntfy_entries_nodup n : bool_decide (NoDup ((ntfy_entries n).*1)) = true.
Proof. unfold ntfy_entries. by destruct (NtfyInputs.token n). Qed.
Lemma webhook_entries_nodup w : bool_decide (NoDup ((webhook_entries w).*1)) = true.
Proof. unfold webhook_entries. by destruct (WebhookInputs.token w). Qed.

Lemma add_sections_doc i hash :
  add_sections (root_entries i) (sections i hash) = Some (intended_doc i hash).
Proof.
  unfold sections, intended_doc.
  assert (forall secs, add_sections (root_entries i)
    (opt_section (HTable ["api"; "auth"]) (fun h => [("read_key_hash", TString h)]) hash ++ secs) =
    add_sections (root_entries i ++
      opt_table "api" (fun h => [("auth", TTable [("read_key_hash", TString h)])]) hash) secs) as ->
    by (intros secs; by destruct hash).
  assert (forall A k k' (es : A -> entries_t) o doc, String.eqb k k' = false ->
    lookup_key k doc = None -> lookup_key k (doc ++ opt_table k' es o) = None) as Hfresh
    by (intros; rewrite lookup_key_app, lookup_opt_table by done; by case_match).
  rewrite (add_opt_table _ "mqtt"), (add_opt_table _ "ntfy"), (add_opt_table _ "webhook"),
    (add_opt_table _ "email")
    by (intros; first [ apply mqtt_entries_nodup | apply ntfy_entries_nodup
          | apply webhook_entries_nodup | done | repeat (apply Hfresh; [done|]); done ]).
  cbn [add_sections add_section]. rewrite (NoDup_table rule_entries) by done. cbn [option_bind mbind].
  rewrite Hfresh by (done || (repeat (apply Hfresh; [done|]); done)). cbn.
  by rewrite <- !app_assoc.
Qed.

(** ** From the document to the configuration *)

Lemma de_uint_ok max n : in_uint max n -> de_uint max (TInteger n) = Some n.
Proof.
  unfold in_uint, de_uint, in_range. intros [H1 H2]. apply Z.leb_le in H1, H2. by rewrite H1, H2.
Qed.

Lemma opt_section_de {A B C} k (de : entries_t -> option B) (es : A -> entries_t) (f : B -> C)
  (g : A -> C) (P : A -> Prop) o doc :
  lookup_key k doc = (fun a => TTable (es a)) <$> o ->
  (forall a, P a -> exists r, de (es a) = Some r /\ f r = g a) -> from_option P True o ->
  exists o', opt k (de_table de) doc = Some o' /\ f <$> o' = g <$> o.
Proof.
  intros Hl H Ho. unfold opt. rewrite Hl. destruct o as [a|]; simpl in *.
  - destruct (H a Ho) as (r & -> & <-). by exists (Some r).
  - by exists None.
Qed.

Lemma de_mqtt_entries m : mqtt_clean m ->
  exists r, de_mqtt (mqtt_entries m) = Some r /\
    MqttConfig.of_raw r = MqttConfig.mk (MqttInputs.host m) (MqttInputs.port m) (MqttInputs.topic m)
      default_mqtt_client_id (MqttInputs.username m) (MqttInputs.password m) 1.
Proof.
  intros (Hp & _). unfold de_mqtt, mqtt_entries, opt, req.
  destruct (MqttInputs.username m), (MqttInputs.password m); cbn -[de_uint];
    rewrite !de_uint_ok by (done || by apply in_uint_bool); cbn; eauto.
Qed.

Lemma de_ntfy_entries n :
  de_ntfy (ntfy_entries n) =
    Some (NtfyConfig.mk (NtfyInputs.base_url n) (NtfyInputs.topic n) (NtfyInputs.token n) None None).
Proof. unfold de_ntfy, ntfy_entries, opt, req. by destruct (NtfyInputs.token n). Qed.

Lemma de_webhook_entries w :
  exists r, de_webhook (webhook_entries w) = Some r /\
    WebhookConfig.of_raw r = WebhookConfig.mk (WebhookInputs.url w) (WebhookInputs.token w) ∅ 10.
Proof. unfold de_webhook, webhook_entries, opt, req. destruct (WebhookInputs.token w); cbn; eauto. Qed.

Lemma de_email_entries e : email_clean e ->
  exists r, de_email (email_entries e) = Some r /\
    EmailConfig.of_raw r = EmailConfig.mk (EmailInputs.host e) (EmailInputs.port e)
      (EmailInputs.username e) (EmailInputs.password e) (EmailInputs.from e) (EmailInputs.to e) true
      "[EdgeShield]".
Proof.
  intros (Hp & _). unfold de_email, email_entries, opt, req. cbn -[de_uint].
  rewrite de_uint_ok by done. cbn. eauto.
Qed.

Section Lookups.
Context (i : SetupInputs.t) (hash : option string).
Let doc := intended_doc i hash.

Ltac by_sections :=
  unfold doc, intended_doc;
  destruct hash, (SetupInputs.mqtt i), (SetupInputs.ntfy i), (SetupInputs.webhook i),
    (SetupInputs.email i); reflexivity.

Lemma lookup_root k v : lookup_key k (root_entries i) = Some v -> lookup_key k doc = Some v.
Proof. intros H. unfold doc, intended_doc. by rewrite lookup_key_app, H. Qed.
Lemma lookup_api : lookup_key "api" doc =
  (fun h => TTable [("auth", TTable [("read_key_hash", TString h)])]) <$> hash.
Proof. by_sections. Qed.
Lemma lookup_mqtt : lookup_key "mqtt" doc = (fun m => TTable (mqtt_entries m)) <$> SetupInputs.mqtt i.
Proof. by_sections. Qed.
Lemma lookup_ntfy : lookup_key "ntfy" doc = (fun m => TTable (ntfy_entries m)) <$> SetupInputs.ntfy i.
Proof. by_sections. Qed.
Lemma lookup_webhook :
  lookup_key "webhook" doc = (fun m => TTable (webhook_entries m)) <$> SetupInputs.webhook i.
Proof. by_sections. Qed.
Lemma lookup_email :
  lookup_key "email" doc = (fun m => TTable (email_entries m)) <$> SetupInputs.email i.
Proof. by_sections. Qed.
Lemma lookup_rules : lookup_key "rules" doc = Some (TArray [TTable rule_entries]).
Proof. by_sections. Qed.
Lemma lookup_other k : In k ["scanner"; "storage"] -> lookup_key k doc = None.
Proof. intros [<-|[<-|[]]]; by_sections. Qed.
End Lookups.

Lemma de_intended_doc i hash :
  inputs_clean i ->
  exists r, de_config (intended_doc i hash) = Some r /\ Config.of_raw r = config_of_inputs i hash.
Proof.
  intros (Hport & _ & _ & _ & _ & Hm & _ & _ & He).
  destruct (opt_section_de "mqtt" de_mqtt mqtt_entries MqttConfig.of_raw _ _ _ _
    (lookup_mqtt i hash) de_mqtt_entries Hm) as (m & Em & Gm).
  destruct (opt_section_de "ntfy" de_ntfy ntfy_entries id _ (fun _ => True) _ _
    (lookup_ntfy i hash) (fun n _ => ex_intro _ _ (conj (de_ntfy_entries n) eq_refl))
    ltac:(by destruct (SetupInputs.ntfy i))) as (n & En & Gn).
  destruct (opt_section_de "webhook" de_webhook webhook_entries WebhookConfig.of_raw _ (fun _ => True)
    _ _ (lookup_webhook i hash) (fun w _ => de_webhook_entries w)
    ltac:(by destruct (SetupInputs.webhook i))) as (w & Ew & Gw).
  destruct (opt_section_de "email" de_email email_entries EmailConfig.of_raw _ _ _ _
    (lookup_email i hash) de_email_entries He) as (e & Ee & Ge).
  rewrite option_fmap_id in Gn. subst n. unfold de_config. rewrite Em, En, Ew, Ee. unfold req, opt.
  rewrite (lookup_root i hash "interface" _ eq_refl), (lookup_root i hash "api_port" _ eq_refl),
    (lookup_root i hash "api_bind_address" _ eq_refl), (lookup_root i hash "log_level" _ eq_refl),
    (lookup_root i hash "capture_buffer" _ eq_refl), (lookup_root i hash "database_path" _ eq_refl),
    lookup_api, lookup_rules, !lookup_other by (cbn; tauto).
  cbn -[de_uint intended_doc]. rewrite !de_uint_ok by (done || by apply in_uint_bool).
  destruct hash as [h|]; cbn -[de_uint]; rewrite ?de_uint_ok by (by apply in_uint_bool);
    (eexists; split; [reflexivity|]); unfold Config.of_raw, config_of_inputs; cbn;
    by rewrite Gm, Gw, Ge.
Qed.

Section RenderFacts.
Context {TM : Toml} {TL : TomlLaws} {CR : Crypto} {HX : HexEncode} {HL : HexLaws}.

Lemma sha256_hex_format `{!CryptoLaws} b : hash_format (sha256_hex b) = true.
Proof.
  unfold hash_format, sha256_hex. rewrite hex_encode_length, sha256_length.
  by rewrite hex_encode_digits by apply sha256_bytes.
Qed.

Lemma holds_auth key :
  printable key = true ->
  holds_sections (render_auth key)
    [(HTable ["api"; "auth"], [("read_key_hash", TString (sha256_hex (as_bytes key)))])].
Proof.
  intros Hk. exists [SBlank; SHead (HTable ["api"; "auth"]); SBlank;
    SEntry "read_key_hash" (TString (sha256_hex (as_bytes key)))]. split.
  - apply reads_last. unfold render_auth. rewrite !string_app_assoc.
    apply reads_blank, reads_text; [reflexivity | reflexivity |].
    rewrite <- (string_app_assoc "# read_key (plaintext, shown once by setup): ").
    assert (printable (sha256_hex (as_bytes key)) = true)
      by (apply printable_hex, hex_encode_digits, sha256_bytes).
    apply reads_text; [| | reads_lines].
    + unfold no_newline. rewrite all_chars_app. apply andb_true_iff. split; [done|].
      by apply printable_no_newline.
    + unfold printable in Hk.
      assert (all_chars comment_char (" read_key (plaintext, shown once by setup): " +:+ key) = true)
        as Hc by (by rewrite all_chars_app, Hk).
      revert Hc. cbn [String.append read_line]. by intros ->.
  - intros rest r Hr. cbn. by rewrite Hr.
Qed.

Lemma render_reads i key :
  inputs_clean i -> opt_printable key ->
  exists t, render_toml i key = Ok t /\
    read_toml t = Some (intended_doc i ((fun k => sha256_hex (as_bytes k)) <$> key)).
Proof.
  intros Hi Hk. pose proof Hi as (Hport & H1 & H2 & H3 & H4 & Hm & Hn & Hw & He).
  eexists. split; [reflexivity|].
  assert (holds_sections (render_opt render_auth key)
    (opt_section (HTable ["api"; "auth"]) (fun h => [("read_key_hash", TString h)])
       ((fun k => sha256_hex (as_bytes k)) <$> key))) as Ha
    by (destruct key; [by apply holds_auth | apply holds_nil]).
  pose proof (holds_opt _ _ _ _ _ (fun m H => holds_section _ _ _ (reads_mqtt m H)) Hm) as Hm'.
  pose proof (holds_opt _ _ _ _ _ (fun n H => holds_section _ _ _ (reads_ntfy n H)) Hn) as Hn'.
  pose proof (holds_opt _ _ _ _ _ (fun w H => holds_section _ _ _ (reads_webhook w H)) Hw) as Hw'.
  pose proof (holds_opt _ _ _ _ _ (fun e H => holds_section _ _ _ (reads_email e H)) He) as He'.
  pose proof (holds_section _ _ _ reads_rule) as Hr'.
  pose proof (holds_app _ _ _ _ Ha (holds_app _ _ _ _ Hm' (holds_app _ _ _ _ Hn'
    (holds_app _ _ _ _ Hw' (holds_app _ _ _ _ He' Hr'))))) as (sts & Hs & Hg).
  fold (sections i ((fun k => sha256_hex (as_bytes k)) <$> key)) in Hg.
  unfold read_toml. erewrite reads_all.
  2: { instantiate (1 := SBlank :: SBlank :: SBlank :: entry_stmts (root_entries i) ++ sts).
       cbn [root_entries entry_stmts map fst snd app]. revert Hs.
       generalize (render_opt render_auth key +:+ render_opt render_mqtt (SetupInputs.mqtt i) +:+
         render_opt render_ntfy (SetupInputs.ntfy i) +:+
         render_opt render_webhook (SetupInputs.webhook i) +:+
         render_opt render_email (SetupInputs.email i) +:+ render_default_rule).
       intros secs Hs. reads_lines. }
  cbn [mbind option_bind]. unfold document. cbn [app group]. rewrite <- app_assoc, group_app_entries.
  rewrite (Hg [SBlank] []) by done. rewrite !app_nil_r. cbn [mbind option_bind].
  rewrite NoDup_table by done. cbn [mbind option_bind]. apply add_sections_doc.
Qed.
End RenderFacts.

(** ** [run] *)

Section RunFacts.
Context {TM : Toml} {TL : TomlLaws} {CR : Crypto} {CL : CryptoLaws}.
Context {HX : HexEncode} {HL : HexLaws} {O : Os}.

Definition hash_of (key : option string) : option string :=
  (fun k => sha256_hex (as_bytes k)) <$> key.
Definition key_of (i : SetupInputs.t) (rng : list Z) : option string :=
  if SetupInputs.generate_api_key i then Some (generate_api_key_plaintext rng) else None.

Lemma key_of_printable i rng : bytes_ok rng -> opt_printable (key_of i rng).
Proof.
  intros Hr. unfold key_of. destruct (SetupInputs.generate_api_key i); simpl; [|done].
  by apply printable_hex, hex_encode_digits.
Qed.

Lemma render_config i key :
  inputs_clean i -> opt_printable key ->
  exists t, render_toml i key = Ok t /\
    config_from_str t = validate (config_of_inputs i (hash_of key)).
Proof.
  intros Hi Hk. destruct (render_reads i key Hi Hk) as (t & Ht & Hd). exists t. split; [done|].
  destruct (de_intended_doc i (hash_of key) Hi) as (r & Hr & Hc).
  unfold config_from_str. rewrite (toml_from_str_reads _ _ _ Hd Hr). cbn. by rewrite Hc.
Qed.

Lemma run_cases i path force rng fs :
  inputs_clean i -> bytes_ok rng ->
  exists text, render_toml i (key_of i rng) = Ok text /\
    config_from_str text = validate (config_of_inputs i (hash_of (key_of i rng))) /\
    let '(fs', r) := run i path force rng fs in
    match r with
    | Ok k => (path_exists fs path = true -> force = true) /\ k = key_of i rng /\
        is_ok (config_from_str text) = true /\ files fs' = <[path := text]> (files fs)
    | Err (AlreadyExists _) => fs' = fs /\ path_exists fs path = true /\ force = false
    | Err (FailedValidation e) => fs' = fs /\ config_from_str text = Err e
    | Err (CreateDirFailed _ _) => files fs' = files fs
    | Err (WriteFailed _ _) => delete path (files fs') = delete path (files fs)
    | Err _ => False
    end.
Proof.
  intros Hi Hr. destruct (render_config i (key_of i rng) Hi (key_of_printable i rng Hr))
    as (text & Ht & Hc). exists text. split_and!; [done..|].
  unfold run. fold (key_of i rng). rewrite Ht.
  destruct (path_exists fs path && negb force) eqn:Hg.
  { apply andb_true_iff in Hg as [? Hf]. by destruct force. }
  assert (path_exists fs path = true -> force = true) as Hforce
    by (intros He; rewrite He in Hg; by destruct force).
  destruct (config_from_str text) as [c|e] eqn:Ec; [|done].
  assert (forall fs1, files fs1 = files fs ->
    let '(fs', r) := (let '(fs, written) := fs_write path text fs1 in
       match written with
       | Err e => (fs, Err (WriteFailed path e))
       | Ok _ => (fs, Ok (key_of i rng))
       end) in
    match r with
    | Ok k => (path_exists fs path = true -> force = true) /\ k = key_of i rng /\
        is_ok (Ok (E:=ConfigError) c) = true /\ files fs' = <[path := text]> (files fs)
    | Err (AlreadyExists _) => fs' = fs /\ path_exists fs path = true /\ force = false
    | Err (FailedValidation e) => fs' = fs /\ Ok c = Err e
    | Err (CreateDirFailed _ _) => files fs' = files fs
    | Err (WriteFailed _ _) => delete path (files fs') = delete path (files fs)
    | Err _ => False
    end) as Hw.
  { intros fs1 Hfs. unfold fs_write. destruct (write_fault fs1 path) as [[e left]|]; simpl.
    - rewrite Hfs. apply map_eq. intros p. destruct (decide (p = path)) as [->|Hp].
      + by rewrite !lookup_delete_eq.
      + by rewrite !lookup_delete_ne, lookup_partial_alter_ne.
    - by rewrite Hfs. }
  destruct (path_parent path) as [parent|]; [|by apply Hw].
  destruct (is_empty parent); [by apply Hw|]. unfold create_dir_all.
  destruct (mkdir_fault fs parent); simpl; [done|]. by apply Hw.
Qed.
End RunFacts.

(** ** The key in front of the API *)

Section KeyFacts.
Context {CR : Crypto} {CL : CryptoLaws} {HX : HexEncode} {HL : HexLaws} {IT : IpText}.

Definition key_auth (key : string) : ApiAuthConfig.t :=
  ApiAuthConfig.mk (sha256_hex (as_bytes key)) None default_auth_max_failures
    default_auth_window_seconds default_auth_block_seconds.

Lemma auth_new_key key :
  auth_new (Some (key_auth key)) =
    mkAuthState (Some (sha256 (as_bytes key))) None (new_limiter 10 60 300).
Proof.
  unfold auth_new, key_auth, decode_hash, sha256_hex. cbn.
  rewrite hex_decode_encode by apply sha256_bytes. cbn. unfold as_32. by rewrite sha256_length.
Qed.

(** The only key of a fresh single-key state, asked by anyone. *)
Lemma single_key_middleware key token (r : Request) clk :
  path r <> "/health" -> authorization r = Some ("Bearer " +:+ token) -> token <> "" ->
  (auth_middleware (auth_new (Some (key_auth key))) r clk).2 =
    if bool_decide (sha256 (as_bytes token) = sha256 (as_bytes key)) then Next
    else Rejected 401 "unauthorized".
Proof.
  intros Hp Ha Ht. unfold auth_middleware. apply String.eqb_neq in Hp. rewrite Hp, auth_new_key.
  unfold check. cbn [is_enabled read_key_hash negb rate_limiter].
  assert (match client_ip r with
          | Some ip => is_blocked (new_limiter 10 60 300) ip (at_check clk)
          | None => false end = false) as ->.
  { destruct (client_ip r); [|done]. unfold is_blocked, new_limiter. cbn.
    by rewrite lookup_empty. }
  assert (extract_bearer_token (authorization r) = Ok token) as ->.
  { rewrite Ha. unfold extract_bearer_token. cbn [ok_or result_bind].
    rewrite strip_prefix_app. cbn [ok_or result_bind]. by destruct token. }
  unfold verify_token. cbn [read_key_hash admin_key_hash ok_or result_bind].
  case_bool_decide; [|by destruct (client_ip r)].
  by rewrite andb_false_r.
Qed.
End KeyFacts.

(** ** The prompts *)

Lemma detect_interfaces_spec nd name :
  name ∈ detect_interfaces nd <->
  name <> "lo" /\ exists entries bytes, nd = Ok entries /\ Ok bytes ∈ entries /\
    from_utf8 bytes = Some name.
Proof.
  unfold detect_interfaces. rewrite merge_sort_Permutation. destruct nd as [entries|e]; simpl.
  2: { rewrite elem_of_nil. naive_solver. }
  unfold interface_names. rewrite list_elem_of_omap. split.
  - intros ([bytes|e] & Hin & H); simpl in H; [|done].
    destruct (from_utf8 bytes) as [n|] eqn:E; simpl in H; [|done].
    destruct (String.eqb_spec n "lo"); [done|]. injection H as <-. eauto 10.
  - intros (Hlo & ? & bytes & [= <-] & Hin & Hb). exists (Ok bytes). split; [done|]. simpl.
    rewrite Hb. simpl. by destruct (String.eqb_spec name "lo").
Qed.

Section PromptFacts.
Context {TT : Terminal} {TL : TerminalLaws}.

(** A step of the wizard: it answers, or passes the terminal's error on. *)
Definition step_ok {A} (m : exec (result A SetupError)) (post : A -> Prop) : Prop :=
  match m with
  | Done (Ok a) => post a
  | Done (Err e) => exists t, e = PromptFailed t
  | _ => False
  end.

Lemma step_bind {A B} (m : exec (result A SetupError)) (f : A -> exec (result B SetupError)) P Q :
  step_ok m P -> (forall a, P a -> step_ok (f a) Q) -> step_ok (try_bind m f) Q.
Proof. destruct m as [[a|e]| |]; simpl; auto. Qed.

Lemma step_ask {A} (r : result A string) (P : A -> Prop) :
  (forall a, r = Ok a -> P a) -> step_ok (ask r) P.
Proof. unfold ask. destruct r; simpl; eauto. Qed.

Lemma step_weaken {A} (m : exec (result A SetupError)) (P Q : A -> Prop) :
  step_ok m P -> (forall a, P a -> Q a) -> step_ok m Q.
Proof. destruct m as [[a|e]| |]; simpl; auto. Qed.

(** What the prompts may not change of what was already set. *)
Definition keeps (i i' : SetupInputs.t) : Prop :=
  SetupInputs.log_level i' = SetupInputs.log_level i /\
  (SetupInputs.interface i <> "" -> SetupInputs.interface i' = SetupInputs.interface i) /\
  (SetupInputs.api_port i <> 0 -> SetupInputs.api_port i' = SetupInputs.api_port i) /\
  (SetupInputs.api_bind_address i <> "" ->
     SetupInputs.api_bind_address i' = SetupInputs.api_bind_address i) /\
  (SetupInputs.database_path i <> "" -> SetupInputs.database_path i' = SetupInputs.database_path i) /\
  (SetupInputs.generate_api_key i = true -> SetupInputs.generate_api_key i' = true).
Definition notifiers (i : SetupInputs.t)
  : option MqttInputs.t * option NtfyInputs.t * option WebhookInputs.t * option EmailInputs.t :=
  (SetupInputs.mqtt i, SetupInputs.ntfy i, SetupInputs.webhook i, SetupInputs.email i).
Definition no_notifier (i : SetupInputs.t) : Prop := notifiers i = (None, None, None, None).

(** The interface is the one given, one of those listed, or one typed in. *)
Definition interface_from (nd : NetDir) (i : SetupInputs.t) (v : string) : Prop :=
  (SetupInputs.interface i <> "" /\ v = SetupInputs.interface i) \/
  (SetupInputs.interface i = "" /\ v <> "lo" /\ v ∈ detect_interfaces nd) \/
  (SetupInputs.interface i = "" /\ detect_interfaces nd = [] /\ v <> "").

Lemma prompt_interface_ok nd i :
  step_ok (prompt_interface nd i) (fun i' => i' = SetupInputs.set_interface (SetupInputs.interface i') i /\
    interface_from nd i (SetupInputs.interface i')).
Proof.
  unfold prompt_interface, interface_from. destruct (is_empty (SetupInputs.interface i)) eqn:E.
  2: { simpl. split; [by destruct i|]. left. split; [|done]. by intros H; rewrite H in E. }
  assert (SetupInputs.interface i = "") as Hi by (by destruct (SetupInputs.interface i)).
  destruct (detect_interfaces nd) as [|n ns] eqn:Ed.
  - eapply step_bind; [by apply (step_ask _ (fun v => v <> "")); intros v Hv;
      eapply input_text_filled; [exact Hv|]|]. intros v Hv. simpl. auto 10.
  - eapply step_bind; [by apply (step_ask _ (fun k => k < length (n :: ns))%nat); intros k Hk;
      eapply select_item; [|exact Hk]|]. intros k Hk.
    destruct (lookup_lt_is_Some_2 (n :: ns) k Hk) as [v Hv]. rewrite Hv. simpl.
    split; [done|]. right. left. apply list_elem_of_lookup_2 in Hv. split_and!; [done| |done].
    rewrite <- Ed in Hv. by apply detect_interfaces_spec in Hv as [? _].
Qed.

Ltac step := eapply step_bind; [apply (step_ask _ (fun _ => True)); done | intros ? _].

Lemma prompt_api_port_ok i :
  step_ok (prompt_api_port i) (fun i' => keeps i i' /\ notifiers i' = notifiers i /\
    SetupInputs.interface i' = SetupInputs.interface i).
Proof.
  unfold prompt_api_port. destruct (SetupInputs.api_port i =? 0) eqn:E; bool_to_prop.
  - step. simpl. unfold keeps. simpl. tauto.
  - simpl. unfold keeps. tauto.
Qed.

Lemma prompt_bind_ok i :
  step_ok (prompt_bind i) (fun i' => keeps i i' /\ notifiers i' = notifiers i /\
    SetupInputs.interface i' = SetupInputs.interface i).
Proof.
  unfold prompt_bind. destruct (SetupInputs.api_bind_address i) as [|c s] eqn:E.
  - cbn [is_empty]. step. simpl. unfold keeps. simpl. rewrite E. tauto.
  - simpl. unfold keeps. tauto.
Qed.

Lemma prompt_database_ok i :
  step_ok (prompt_database i) (fun i' => keeps i i' /\ notifiers i' = notifiers i /\
    SetupInputs.interface i' = SetupInputs.interface i).
Proof.
  unfold prompt_database. destruct (SetupInputs.database_path i) as [|c s] eqn:E.
  - cbn [is_empty]. step. destruct a; [step|]; simpl; unfold keeps; simpl; rewrite E; tauto.
  - simpl. unfold keeps. tauto.
Qed.

Lemma prompt_api_key_ok i :
  step_ok (prompt_api_key i) (fun i' => keeps i i' /\ notifiers i' = notifiers i /\
    SetupInputs.interface i' = SetupInputs.interface i).
Proof.
  unfold prompt_api_key. destruct (SetupInputs.generate_api_key i) eqn:E.
  - simpl. unfold keeps. tauto.
  - step. simpl. unfold keeps. simpl. rewrite E. naive_solver.
Qed.

(** At most one channel, and only where there was none. *)
Definition at_most_one (i : SetupInputs.t) : Prop :=
  match notifiers i with
  | (None, None, None, None) | (Some _, None, None, None) | (None, Some _, None, None)
  | (None, None, Some _, None) | (None, None, None, Some _) => True
  | _ => False
  end.

(** Whatever a channel's questions give, an answer or an error of the terminal. *)
Lemma step_mqtt : step_ok prompt_mqtt (fun _ => True).
Proof. unfold prompt_mqtt. do 5 step. done. Qed.
Lemma step_ntfy : step_ok prompt_ntfy (fun _ => True).
Proof. unfold prompt_ntfy. do 3 step. done. Qed.
Lemma step_webhook : step_ok prompt_webhook (fun _ => True).
Proof. unfold prompt_webhook. do 2 step. done. Qed.
Lemma step_email : step_ok prompt_email (fun _ => True).
Proof. unfold prompt_email. do 6 step. done. Qed.

Definition notifiers_post (i i' : SetupInputs.t) : Prop :=
  keeps i i' /\ SetupInputs.interface i' = SetupInputs.interface i /\
  (~ no_notifier i -> notifiers i' = notifiers i) /\ (no_notifier i -> at_most_one i').

Lemma notifiers_post_refl i : notifiers_post i i.
Proof.
  unfold notifiers_post, keeps, at_most_one. split_and!; auto. intros H. by rewrite H.
Qed.

Lemma prompt_notifiers_ok i : step_ok (prompt_notifiers i) (notifiers_post i).
Proof.
  unfold prompt_notifiers.
  destruct (is_none _ && is_none _ && is_none _ && is_none _) eqn:E;
    [|apply notifiers_post_refl].
  assert (no_notifier i) as Hno.
  { unfold no_notifier, notifiers.
    by destruct (SetupInputs.mqtt i), (SetupInputs.ntfy i), (SetupInputs.webhook i),
      (SetupInputs.email i). }
  pose proof Hno as [= Hm Hn Hw He].
  step. destruct a as [|[|[|[|[|k]]]]]; try apply notifiers_post_refl.
  - eapply step_bind; [apply step_mqtt|]. intros m _. simpl.
    unfold notifiers_post, keeps, at_most_one, notifiers. simpl. by rewrite Hn, Hw, He.
  - eapply step_bind; [apply step_ntfy|]. intros m _. simpl.
    unfold notifiers_post, keeps, at_most_one, notifiers. simpl. by rewrite Hm, Hw, He.
  - eapply step_bind; [apply step_webhook|]. intros m _. simpl.
    unfold notifiers_post, keeps, at_most_one, notifiers. simpl. by rewrite Hm, Hn, He.
  - eapply step_bind; [apply step_email|]. intros m _. simpl.
    unfold notifiers_post, keeps, at_most_one, notifiers. simpl. by rewrite Hm, Hn, Hw.
Qed.

Lemma keeps_trans a b c :
  keeps a b -> SetupInputs.interface b = SetupInputs.interface a -> keeps b c -> keeps a c.
Proof.
  unfold keeps. intros (H1 & H2 & H3 & H4 & H5 & H6) Hi (K1 & K2 & K3 & K4 & K5 & K6).
  split_and!; try congruence; intros H.
  - rewrite K2; congruence.
  - rewrite K3; rewrite H3; congruence.
  - rewrite K4; rewrite H4; congruence.
  - rewrite K5; rewrite H5; congruence.
  - auto.
Qed.

(** A step that keeps the interface and the channels. *)
Definition quiet (i i' : SetupInputs.t) : Prop :=
  keeps i i' /\ notifiers i' = notifiers i /\ SetupInputs.interface i' = SetupInputs.interface i.

Lemma quiet_trans a b c : quiet a b -> quiet b c -> quiet a c.
Proof.
  unfold quiet. intros (H1 & H2 & H3) (K1 & K2 & K3). split_and!; try congruence.
  by apply (keeps_trans a b).
Qed.

Lemma notifiers_post_after a b c : quiet a b -> notifiers_post b c -> notifiers_post a c.
Proof.
  unfold quiet, notifiers_post, no_notifier. intros (H1 & H2 & H3) (K1 & K2 & K3 & K4).
  rewrite H2 in *. split_and!; try congruence; [by apply (keeps_trans a b) | auto..].
Qed.

Lemma prompt_interactively_ok nd i :
  step_ok (prompt_interactively nd i) (fun i' =>
    interface_from nd i (SetupInputs.interface i') /\
    notifiers_post (SetupInputs.set_interface (SetupInputs.interface i') i) i').
Proof.
  unfold prompt_interactively.
  eapply step_bind; [apply prompt_interface_ok|]. intros i1 [E1 H1].
  eapply step_bind; [apply prompt_api_port_ok|]. intros i2 H2.
  eapply step_bind; [apply prompt_bind_ok|]. intros i3 H3.
  eapply step_bind; [apply prompt_database_ok|]. intros i4 H4.
  eapply step_bind; [apply prompt_api_key_ok|]. intros i5 H5.
  eapply step_weaken; [apply prompt_notifiers_ok|]. intros i6 H6.
  assert (notifiers_post i1 i6) as H.
  { eapply notifiers_post_after; [|exact H6].
    eapply quiet_trans; [exact H2|]. eapply quiet_trans; [exact H3|].
    eapply quiet_trans; [exact H4 | exact H5]. }
  assert (SetupInputs.interface i6 = SetupInputs.interface i1) as -> by (by destruct H as (_ & ? & _)).
  split; [done|]. by rewrite <- E1.
Qed.
End PromptFacts.

(** ** The warning box *)

Lemma ascii_hex s : all_chars is_ascii_hexdigit s = true -> all_chars is_ascii_char s = true.
Proof.
  apply all_chars_weaken. intros c. unfold is_ascii_hexdigit, is_ascii_char, in_range. cbv zeta.
  intros H. bool_to_prop. lia.
Qed.

Lemma warning_lines_done key :
  (33 <= String.length key)%nat -> all_chars is_ascii_char key = true ->
  exists lines, warning_lines key = Done lines /\
    Forall (fun l => char_count l = (String.length key + 6)%nat) lines /\ length lines = 4%nat.
Proof.
  intros Hl Ha. unfold warning_lines. destruct (Nat.ltb_spec (String.length key + 4) 37); [lia|].
  eexists. split; [done|]. split; [|done].
  repeat (apply Forall_cons_2; [rewrite ?char_count_app, ?char_count_repeat|]); [..|apply Forall_nil_2].
  - change (char_count "┌") with 1%nat. change (char_count "┐") with 1%nat.
    change (char_count "─") with 1%nat. lia.
  - change (char_count "│  API key (shown once — save it now):") with 38%nat.
    change (char_count "│") with 1%nat. change (char_count " ") with 1%nat. lia.
  - change (char_count "│  ") with 3%nat. change (char_count "  │") with 3%nat.
    rewrite char_count_ascii by done. lia.
  - change (char_count "└") with 1%nat. change (char_count "┘") with 1%nat.
    change (char_count "─") with 1%nat. lia.
Qed.

(** * Properties *)

Section SetupProperties.
Context {TM : Toml} {TL : TomlLaws} {CR : Crypto} {CL : CryptoLaws}.
Context {HX : HexEncode} {HL : HexLaws} {O : Os} {IT : IpText}.

(** What the wizard writes, the program reads back: for inputs of the
    Rust types whose texts hold no control characters (quotes, backslashes
    and non-ASCII text included), parsing the emitted text gives exactly the
    configuration the inputs describe, with the SHA-256 of the generated key
    in place of the key, and the outcome is that of validating it. *)
Theorem setup_config_roundtrip (inputs : SetupInputs.t) (api_key_plaintext : option string) :
  inputs_clean inputs -> opt_printable api_key_plaintext ->
  exists text, render_toml inputs api_key_plaintext = Ok text /\
    config_from_str text =
      validate (config_of_inputs inputs (hash_of api_key_plaintext)).
Proof. apply render_config. Qed.

(** C23: a run of the wizard on any disk: without [force] an existing file is
    never touched; a configuration that does not validate never reaches the
    disk; when the run succeeds the file is new or [force] was given, it is
    the only file that changed, and its content is accepted and says what the
    inputs describe; a failure to create the directory changes no file, a
    failure to write no other file. *)
Theorem setup_run_outcome (inputs : SetupInputs.t) (path : string) (force : bool) (rng : list Z)
  (fs : Fs) :
  inputs_clean inputs -> bytes_ok rng ->
  let key := key_of inputs rng in
  let cfg := config_of_inputs inputs (hash_of key) in
  let '(fs', r) := run inputs path force rng fs in
  match r with
  | Ok k =>
      k = key /\ (path_exists fs path = true -> force = true) /\ config_valid cfg /\
      exists text, files fs' = <[path := text]> (files fs) /\
        config_from_file path (Ok text) = Ok (normalized cfg)
  | Err (AlreadyExists _) => fs' = fs /\ path_exists fs path = true /\ force = false
  | Err (FailedValidation e) => fs' = fs /\ validate cfg = Err e
  | Err (CreateDirFailed _ _) => files fs' = files fs
  | Err (WriteFailed _ _) => delete path (files fs') = delete path (files fs)
  | Err _ => False
  end.
Proof.
  intros Hi Hr key cfg. destruct (run_cases inputs path force rng fs Hi Hr) as (text & _ & Hc & H).
  destruct (run inputs path force rng fs) as [fs' [k|e]].
  - destruct H as (Hf & -> & Hok & Hfs). rewrite Hc in Hok.
    fold key cfg in Hc, Hok. destruct (validate cfg) as [c|e] eqn:Ev; [|done].
    pose proof Ev as [Hv ->]%validate_Ok. split_and!; try done. by exists text.
  - destruct e; try done. by rewrite Hc in H.
Qed.

(** C22: the key the wizard prints is the key the daemon takes: on the
    configuration read back from the file a run wrote, the printed key opens
    every method and every path, and a token whose SHA-256 is another one is
    turned away with 401 everywhere but on [/health]. *)
Theorem setup_key_opens_api (inputs : SetupInputs.t) (path : string) (force : bool) (rng : list Z)
  (fs fs' : Fs) (key text : string) (c : Config.t) (r : Request) (clk : AuthClock) :
  inputs_clean inputs -> bytes_ok rng -> length rng = 32%nat ->
  run inputs path force rng fs = (fs', Ok (Some key)) ->
  files fs' !! path = Some text -> config_from_file path (Ok text) = Ok c ->
  let a := auth_new (ApiConfig.auth (Config.api c)) in
  (authorization r = Some ("Bearer " +:+ key) -> (auth_middleware a r clk).2 = Next) /\
  (forall token, Auth.path r <> "/health" -> authorization r = Some ("Bearer " +:+ token) ->
     token <> "" -> sha256 (as_bytes token) <> sha256 (as_bytes key) ->
     (auth_middleware a r clk).2 = Rejected 401 "unauthorized").
Proof.
  intros Hi Hr Hlen Hrun Htext Hc.
  destruct (run_cases inputs path force rng fs Hi Hr) as (t & _ & Ht & H).
  rewrite Hrun in H. destruct H as (_ & Hk & _ & Hfs).
  rewrite Hfs, lookup_insert_eq in Htext. injection Htext as ->.
  unfold config_from_file in Hc. cbn in Hc. rewrite Ht in Hc. apply validate_Ok in Hc as [_ ->].
  assert (key <> "") as Hne.
  { unfold key_of in Hk. destruct (SetupInputs.generate_api_key inputs); [|done].
    injection Hk as ->. unfold generate_api_key_plaintext. intros Hz.
    pose proof (hex_encode_length rng) as Hl. rewrite Hz, Hlen in Hl. done. }
  rewrite <- Hk.
  replace (ApiConfig.auth _) with (Some (key_auth key)) by reflexivity.
  split.
  - intros Ha. destruct (decide (Auth.path r = "/health")) as [Hp|Hp].
    { unfold auth_middleware. by rewrite Hp. }
    rewrite (single_key_middleware key key) by done. by rewrite bool_decide_eq_true_2.
  - intros token Hp Ha Htok Hne'. rewrite (single_key_middleware key token) by done.
    by rewrite bool_decide_eq_false_2.
Qed.
End SetupProperties.

(** The prompts never panic and leave the terminal's errors as they are;
    what a flag already set they do not ask again nor change; the interface
    is the one given, one of those listed (never the loopback one), or, when
    none is listed, what was typed; a notification channel is only added
    where there was none, and at most one. *)
Theorem setup_prompts_exact {TT : Terminal} {TL : TerminalLaws} (net_dir : NetDir)
  (inputs : SetupInputs.t) :
  exists r, prompt_interactively net_dir inputs = Done r /\
    match r with
    | Err e => exists t, e = PromptFailed t
    | Ok i' =>
        interface_from net_dir inputs (SetupInputs.interface i') /\ keeps inputs i' /\
        (~ no_notifier inputs -> notifiers i' = notifiers inputs) /\
        (no_notifier inputs -> at_most_one i')
    end.
Proof.
  pose proof (prompt_interactively_ok net_dir inputs) as H. unfold step_ok in H.
  destruct (prompt_interactively net_dir inputs) as [[i'|e]| |]; try done; [|eauto].
  eexists. split; [done|]. destruct H as (Hi & Hk & _ & Hn & Hn'). split_and!; try done.
  destruct Hk as (K1 & K2 & K3 & K4 & K5 & K6). unfold keeps. cbn in *. split_and!; auto.
  by destruct Hi as [[_ Hi]|[[Hi _]|[Hi _]]].
Qed.

(** The warning about the key is a box whose four lines have the same
    width for every ASCII key of at least 33 characters, so for every
    generated key; a shorter key makes the subtraction of its size panic. *)
Theorem warning_box_aligned (key : string) :
  ((String.length key < 33)%nat <-> warning_lines key = Panic) /\
  (all_chars is_ascii_char key = true -> (33 <= String.length key)%nat ->
   exists lines, warning_lines key = Done lines /\ length lines = 4%nat /\
     Forall (fun l => char_count l = (String.length key + 6)%nat) lines) /\
  (forall `{!Crypto, !CryptoLaws, !HexEncode, !HexLaws} rng, bytes_ok rng -> length rng = 32%nat ->
     is_done (warning_lines (generate_api_key_plaintext rng)) = true).
Proof.
  split_and!.
  - unfold warning_lines. destruct (Nat.ltb_spec (String.length key + 4) 37); split; intros; try done; lia.
  - intros Ha Hl. destruct (warning_lines_done key Hl Ha) as (lines & ? & ? & ?). eauto.
  - intros CR CL HX HL rng Hr Hlen. unfold generate_api_key_plaintext.
    destruct (warning_lines_done (hex_encode rng)) as (lines & -> & _); [|by apply ascii_hex, hex_encode_digits|done].
    rewrite hex_encode_length, Hlen. lia.
Qed.

(** * Witnesses *)

Definition demo_sha (l : list Z) : list Z := take 32 (((fun z => z mod 256) <$> l) ++ replicate 32 0).
#[local] Instance setup_crypto : Crypto := {| sha256 := demo_sha; hex_decode := demo_decode |}.
#[local] Instance setup_hex : HexEncode := {| hex_encode := foldr hex_byte "" |}.
#[local] Existing Instances ref_toml ref_toml_laws std_ip_text.

#[local] Instance setup_crypto_laws : CryptoLaws.
Proof.
  split; [|apply demo_decode_even]. intros l. unfold sha256, setup_crypto, demo_sha.
  rewrite length_take, length_app, length_fmap, length_replicate. lia.
Defined.

Lemma hex_digit_hexdigit d : 0 <= d < 16 -> is_ascii_hexdigit (hex_digit d) = true.
Proof.
  intros Hd. assert (forallb (fun d => is_ascii_hexdigit (hex_digit d)) (seqZ 0 16) = true) as H
    by (vm_compute; reflexivity).
  rewrite forallb_forall in H. apply H, list_elem_of_In, elem_of_seqZ. lia.
Qed.

#[local] Instance setup_hex_laws : HexLaws.
Proof.
  split.
  - intros l Hl. change (demo_decode (foldr hex_byte "" l) = Some l).
    induction Hl as [|b l Hb Hl IH]; [done|]. cbn [foldr]. unfold hex_byte at 1.
    cbn [demo_decode]. by rewrite hex_pair_byte, IH.
  - intros l Hl. change (all_chars is_ascii_hexdigit (foldr hex_byte "" l) = true).
    induction Hl as [|b l Hb Hl IH]; [done|]. cbn [foldr]. unfold hex_byte at 1.
    cbn [all_chars]. unfold in_u8, u8_max in Hb. rewrite !hex_digit_hexdigit, IH; [done| |].
    + by apply Z.mod_pos_bound.
    + split; [apply Z.div_pos; lia | apply Z.div_lt_upper_bound; lia].
  - intros l. change (String.length (foldr hex_byte "" l) = (2 * length l)%nat).
    induction l as [|b l IH]; [done|]. cbn [foldr]. unfold hex_byte at 1. cbn [String.length length]. rewrite IH. lia.
  - intros l. cbn. unfold demo_sha. apply Forall_take, Forall_app. split.
    + apply Forall_fmap, Forall_true. intros z. cbn. unfold in_u8, u8_max.
      pose proof (Z.mod_pos_bound z 256). lia.
    + apply Forall_replicate. unfold in_u8, u8_max. lia.
Defined.

Definition demo_os : Os := {|
  path_parent p := if String.eqb p "config.toml" then Some "" else Some "/etc/edgeshield";
  read_fault _ _ := None; mkdir_fault _ _ := None; write_fault _ _ := None;
  remove_fault _ _ := false
|}.
#[local] Existing Instance demo_os.

(** A password with a quote and a backslash, a topic that is not ASCII. *)
Definition demo_inputs : SetupInputs.t :=
  SetupInputs.mk "eth0" 8080 "0.0.0.0" "info" "/var/lib/es.db" true
    (Some (MqttInputs.mk "hub.local" 1883 "maison/réseau" (Some "es")
       (Some (String "a" (String dquote (String backslash "b"))))))
    (Some (NtfyInputs.mk "https://ntfy.sh/" "edgeshield" None)) None None.
Definition demo_rng : list Z := Z.of_nat <$> seq 100 32.
Definition demo_fs : Fs := mkFs {["config.toml" := "interface = 1"]} ∅.

Lemma demo_inputs_clean : inputs_clean demo_inputs.
Proof. unfold inputs_clean, in_uint, u16_max. cbn. repeat split; try lia; vm_compute; try reflexivity; discriminate. Qed.
Lemma demo_rng_ok : bytes_ok demo_rng.
Proof. vm_compute. repeat (constructor; [split; discriminate|]). constructor. Qed.

Lemma setup_config_roundtrip_witness :
  exists text, render_toml demo_inputs (key_of demo_inputs demo_rng) = Ok text /\
    (exists c, config_from_str text = Ok c /\
       (MqttConfig.password <$> Config.mqtt c) =
         Some (Some (String "a" (String dquote (String backslash "b"))))).
Proof.
  destruct (setup_config_roundtrip demo_inputs (key_of demo_inputs demo_rng)) as (text & Ht & Hc);
    [exact demo_inputs_clean | vm_compute; reflexivity |].
  exists text. split; [exact Ht|]. eexists. split; [rewrite Hc; vm_compute; reflexivity | reflexivity].
Defined.

Lemma setup_run_outcome_witness :
  exists fs', run demo_inputs "config.toml" true demo_rng demo_fs =
      (fs', Ok (Some (generate_api_key_plaintext demo_rng))) /\
    exists text, files fs' = <["config.toml" := text]> (files demo_fs) /\
      is_ok (config_from_str text) = true.
Proof.
  pose proof (setup_run_outcome demo_inputs "config.toml" true demo_rng demo_fs
    demo_inputs_clean demo_rng_ok) as H. cbv zeta in H.
  destruct (run demo_inputs "config.toml" true demo_rng demo_fs) as [fs' [k|e]] eqn:E.
  - destruct H as (-> & _ & _ & text & Hf & Hc). exists fs'. split; [reflexivity|].
    exists text. split; [exact Hf|]. unfold config_from_file in Hc. cbn in Hc. rewrite Hc. reflexivity.
  - exfalso. assert (is_ok (run demo_inputs "config.toml" true demo_rng demo_fs).2 = true) as Hok
      by (vm_compute; reflexivity). rewrite E in Hok. discriminate Hok.
Defined.

Definition demo_key : string := generate_api_key_plaintext demo_rng.

Lemma setup_key_opens_api_witness :
  exists c, config_from_str (default "" (files (run demo_inputs "config.toml" true demo_rng demo_fs).1
      !! "config.toml")) = Ok c /\
    (auth_middleware (auth_new (ApiConfig.auth (Config.api c)))
       (demo_request "DELETE" ("Bearer " +:+ demo_key)) (mkAuthClock 5 6)).2 = Next.
Proof.
  eexists. split; [vm_compute; reflexivity|].
  eapply (setup_key_opens_api demo_inputs "config.toml" true demo_rng demo_fs _ demo_key);
    [exact demo_inputs_clean | exact demo_rng_ok | reflexivity | vm_compute; reflexivity
    | vm_compute; reflexivity | vm_compute; reflexivity | reflexivity].
Defined.

Definition demo_terminal : Terminal := {|
  input_text p d _ := Ok (default "typed" d);
  input_u16 _ d := Ok (match d with Some n => Z.max 0 (Z.min n u16_max) | None => 0 end);
  confirm _ d := Ok d;
  select _ _ := Ok 0%nat
|}.
Definition demo_terminal_laws : @TerminalLaws demo_terminal.
Proof.
  split.
  - intros p d s. cbn. intros [= <-] Hd. destruct d; cbn; congruence.
  - intros p d n. cbn. intros [= <-]. unfold u16_max. destruct d; lia.
  - intros p items i. cbn. intros Hi [= <-]. destruct items; [done | simpl; lia].
Defined.

(** [eth0] and [lo] are listed: the first item is [eth0]. *)
Lemma setup_prompts_exact_witness :
  exists i', @prompt_interactively demo_terminal
      (Ok [Ok (as_bytes "lo"); Ok (as_bytes "eth0")]) SetupInputs.default_inputs = Done (Ok i') /\
    keeps SetupInputs.default_inputs i' /\ SetupInputs.interface i' = "eth0".
Proof.
  destruct (@setup_prompts_exact demo_terminal demo_terminal_laws
    (Ok [Ok (as_bytes "lo"); Ok (as_bytes "eth0")]) SetupInputs.default_inputs) as (r & Hr & H).
  destruct r as [i'|e].
  - exists i'. split; [exact Hr|]. split; [exact (proj1 (proj2 H))|].
    vm_compute in Hr. injection Hr as <-. reflexivity.
  - exfalso. vm_compute in Hr. discriminate Hr.
Defined.
