(* ===== verification/Completions.v ===== *)
(** The completion scripts of [crates/cli/src/cli.rs], [print_bash_completion]
    and [print_zsh_completion]: their text line by line, as the shell gets it
    (the doubled braces of the format string are single here), and the words
    they offer against the arguments that exist. *)

From S2P Require Import Prelude Text.
From S2P Require Import Config Toml.

Definition dq : string := String dquote "".
(** The lines of a raw string, each with its end. *)
Definition text_of (lines : list string) : string :=
  foldr (fun l rest => l +:+ String newline rest) "" lines.

Definition bash_lines : list string := [
  "# EdgeShield bash completion";
  "_edgeshield() {";
  "    local cur prev words cword";
  "    _init_completion || return";
  EmptyString;
  "    if [[ $cword -eq 1 ]]; then";
  "        COMPREPLY=($(compgen -W " +:+ dq +:+ "run default-config completions tui setup" +:+ dq +:+ " -- " +:+ dq +:+ "$cur" +:+ dq +:+ "))";
  "        return";
  "    fi";
  EmptyString;
  "    case " +:+ dq +:+ "${words[1]}" +:+ dq +:+ " in";
  "        run)";
  "            case " +:+ dq +:+ "$prev" +:+ dq +:+ " in";
  "                -c|--config)";
  "                    COMPREPLY=($(compgen -f -- " +:+ dq +:+ "$cur" +:+ dq +:+ "))";
  "                    ;;";
  "                *)";
  "                    COMPREPLY=($(compgen -W " +:+ dq +:+ "-c --config" +:+ dq +:+ " -- " +:+ dq +:+ "$cur" +:+ dq +:+ "))";
  "                    ;;";
  "            esac";
  "            ;;";
  "        tui)";
  "            case " +:+ dq +:+ "$prev" +:+ dq +:+ " in";
  "                --url)";
  "                    ;;";
  "                --key)";
  "                    ;;";
  "                --refresh-ms)";
  "                    COMPREPLY=($(compgen -W " +:+ dq +:+ "1000 2000 5000" +:+ dq +:+ " -- " +:+ dq +:+ "$cur" +:+ dq +:+ "))";
  "                    ;;";
  "                *)";
  "                    COMPREPLY=($(compgen -W " +:+ dq +:+ "--url --key --refresh-ms" +:+ dq +:+ " -- " +:+ dq +:+ "$cur" +:+ dq +:+ "))";
  "                    ;;";
  "            esac";
  "            ;;";
  "        setup)";
  "            case " +:+ dq +:+ "$prev" +:+ dq +:+ " in";
  "                -c|--config)";
  "                    COMPREPLY=($(compgen -f -- " +:+ dq +:+ "$cur" +:+ dq +:+ "))";
  "                    ;;";
  "                --interface)";
  "                    COMPREPLY=($(compgen -W " +:+ dq +:+ "$(ls /sys/class/net 2>/dev/null)" +:+ dq +:+ " -- " +:+ dq +:+ "$cur" +:+ dq +:+ "))";
  "                    ;;";
  "                --log-level)";
  "                    COMPREPLY=($(compgen -W " +:+ dq +:+ "trace debug info warn error" +:+ dq +:+ " -- " +:+ dq +:+ "$cur" +:+ dq +:+ "))";
  "                    ;;";
  "                *)";
  "                    COMPREPLY=($(compgen -W " +:+ dq +:+ "-c --config --non-interactive --force --interface --api-port --bind --log-level --database-path --generate-api-key --enable-mqtt --mqtt-host --mqtt-port --mqtt-topic --enable-ntfy --ntfy-url --ntfy-topic --enable-webhook --webhook-url --enable-email --email-host --email-port --email-username --email-password --email-from --email-to" +:+ dq +:+ " -- " +:+ dq +:+ "$cur" +:+ dq +:+ "))";
  "                    ;;";
  "            esac";
  "            ;;";
  "    esac";
  "} && complete -F _edgeshield edgeshield"
].
Definition print_bash_completion : string := text_of bash_lines.

Definition zsh_lines : list string := [
  "#compdef edgeshield";
  "# EdgeShield zsh completion";
  "_edgeshield() {";
  "    local -a subcommands";
  "    subcommands=(";
  "        'run:Start the EdgeShield daemon'";
  "        'default-config:Print the default configuration'";
  "        'completions:Generate shell completion script'";
  "        'tui:Launch the read-only observability dashboard'";
  "        'setup:First-run setup wizard'";
  "    )";
  EmptyString;
  "    _arguments \\";
  "        '1: :->command' \\";
  "        '*: :->args'";
  EmptyString;
  "    case $state in";
  "        command)";
  "            _describe 'command' subcommands";
  "            ;;";
  "        args)";
  "            case $words[1] in";
  "                run)";
  "                    _arguments \";
  "                        '(-c --config)'{-c,--config}'[Path to configuration file]:config file:_files'";
  "                    ;;";
  "                tui)";
  "                    _arguments \";
  "                        '--url[Base URL of the daemon REST API]:url' \";
  "                        '--key[Bearer token for the daemon REST API]:key' \";
  "                        '--refresh-ms[Refresh interval in milliseconds]:ms'";
  "                    ;;";
  "                setup)";
  "                    _arguments \";
  "                        '(-c --config)'{-c,--config}'[Path to write config file]:config file:_files' \";
  "                        '--non-interactive[Run without prompting]' \";
  "                        '--force[Overwrite existing config]' \";
  "                        '--interface[Network interface]:interface' \";
  "                        '--api-port[REST API port]:port' \";
  "                        '--bind[Bind address]:addr' \";
  "                        '--log-level[Log level]:level:(trace debug info warn error)' \";
  "                        '--database-path[SQLite path]:path:_files' \";
  "                        '--generate-api-key[Generate an API key]' \";
  "                        '--enable-mqtt[Enable MQTT]' \";
  "                        '--mqtt-host[MQTT host]:host' \";
  "                        '--mqtt-port[MQTT port]:port' \";
  "                        '--mqtt-topic[MQTT topic]:topic' \";
  "                        '--enable-ntfy[Enable ntfy]' \";
  "                        '--ntfy-url[ntfy URL]:url' \";
  "                        '--ntfy-topic[ntfy topic]:topic' \";
  "                        '--enable-webhook[Enable webhook]' \";
  "                        '--webhook-url[Webhook URL]:url' \";
  "                        '--enable-email[Enable email]' \";
  "                        '--email-host[SMTP host]:host' \";
  "                        '--email-port[SMTP port]:port' \";
  "                        '--email-username[SMTP username]:user' \";
  "                        '--email-password[SMTP password]:password' \";
  "                        '--email-from[From address]:addr' \";
  "                        '--email-to[To address]:addr'";
  "                    ;;";
  "            esac";
  "            ;;";
  "    esac";
  "}";
  EmptyString;
  "_edgeshield"
].
Definition print_zsh_completion : string := text_of zsh_lines.

(** * The arguments that exist *)

(** The subcommands and the long flags, as [clap] derives them from the names
    of the variants and fields of [Command]. *)
Definition subcommands : list string := ["run"; "default-config"; "completions"; "tui"; "setup"].
Definition run_flags : list string := ["--config"].
Definition tui_flags : list string := ["--url"; "--key"; "--refresh-ms"].
Definition setup_flags : list string :=
  ["--config"; "--non-interactive"; "--force"; "--interface"; "--api-port"; "--bind"; "--log-level";
   "--database-path"; "--generate-api-key"; "--enable-mqtt"; "--mqtt-host"; "--mqtt-port";
   "--mqtt-topic"; "--enable-ntfy"; "--ntfy-url"; "--ntfy-topic"; "--enable-webhook";
   "--webhook-url"; "--enable-email"; "--email-host"; "--email-port"; "--email-username";
   "--email-password"; "--email-from"; "--email-to"].

(** The words of a script, cut at spaces, quotes, commas, braces and brackets. *)
Definition separator (c : ascii) : bool :=
  existsb (Ascii.eqb c) [" "; newline; dquote; "'"; ","; "{"; "}"; "["; ":"]%char.
Fixpoint words_go (cur : string) (s : string) : list string :=
  match s with
  | "" => [cur]
  | String c s' => if separator c then cur :: words_go "" s' else words_go (cur +:+ String c "") s'
  end.
Definition offers (script : string) (word : string) : bool :=
  existsb (String.eqb word) (words_go "" script).

(** * Lemmas *)

(** Both scripts offer every subcommand and every long flag. *)
Lemma completions_cover_arguments :
  forallb (fun script => forallb (offers script) (subcommands ++ run_flags ++ tui_flags ++ setup_flags))
    [print_bash_completion; print_zsh_completion] = true.
Proof. vm_compute. reflexivity. Qed.

(** The first [_arguments] call of the zsh script ends its lines with two
    backslashes, which quote each other: the call has no specification and
    the next lines are commands of their own.  The later calls end with one. *)
Lemma zsh_first_call_broken :
  contains print_zsh_completion
    ("    _arguments " +:+ String backslash (String backslash (String newline "        '1: :->command'"))) = true /\
  contains print_zsh_completion
    ("_arguments " +:+ String backslash (String newline "                        '--url[")) = true.
Proof. vm_compute. split; reflexivity. Qed.
