(* ===== verification/Cli.v ===== *)
(** The command line, [crates/cli/src/cli.rs]: the subcommands, the PID file
    that guards a single instance, the search for a configuration, and the
    [setup] subcommand in front of the wizard of [Setup].

    [clap] has parsed the arguments already: a command is a value.  What the
    daemon and the dashboard come to, a panic included, is an argument (their
    own models are [Startup], [System] and [Tui]); [kill(pid, 0)] is a predicate on process ids. *)

From S2P Require Import Prelude Text Types Config.
From S2P Require Import Reference Auth Toml Setup Completions.

Definition PID_FILE : string := "/run/edgeshield.pid".

(** * The arguments *)

(** The fields of [Command::Setup]. *)
Module SetupArgs.
Record t : Type := mk {
  config : string;
  non_interactive : bool;
  force : bool;
  interface : option string;
  api_port : option Z;
  bind : option string;
  log_level : option string;
  database_path : option string;
  generate_api_key : bool;
  enable_mqtt : bool;
  mqtt_host : option string;
  mqtt_port : option Z;
  mqtt_topic : option string;
  enable_ntfy : bool;
  ntfy_url : option string;
  ntfy_topic : option string;
  enable_webhook : bool;
  webhook_url : option string;
  enable_email : bool;
  email_host : option string;
  email_port : option Z;
  email_username : option string;
  email_password : option string;
  email_from : option string;
  email_to : option string
}.
End SetupArgs.

Inductive Command : Type :=
| RunCommand (config : string)
| DefaultConfig
| Completions (shell : string)
| TuiCommand (url : string) (key : option string) (refresh_ms : Z)
| SetupCommand (args : SetupArgs.t).

Inductive CliError : Type :=
| AlreadyRunning (pid : Z)
| PidFile (e : string)
| LoadConfig (e : ConfigError)
| UnsupportedShell (shell : string)
| SetupFailed (e : SetupError)
| Failed (e : string).

(** What the command finds: the process, the machine, and what the long
    running parts return. *)
Record Env : Type := mkEnv {
  is_root : bool;
  own_pid : Z;
  alive : Z -> bool;
  net_dir : NetDir;
  rng : list Z;
  daemon_run : Config.t -> Fs -> Fs * exec (result unit string);
  tui_run : string -> option string -> Z -> exec (result unit string)
}.

(** The disk and the two output streams. *)
Record World : Type := mkWorld { disk : Fs; stdout : list string; stderr : list string }.
Definition set_disk (fs : Fs) (w : World) : World := mkWorld fs (stdout w) (stderr w).
Definition println (l : string) (w : World) : World := mkWorld (disk w) (stdout w ++ [l]) (stderr w).
Definition eprintln (l : string) (w : World) : World := mkWorld (disk w) (stdout w) (stderr w ++ [l]).
Definition eprint_lines (ls : list string) (w : World) : World :=
  mkWorld (disk w) (stdout w) (stderr w ++ ls).

(** * The checks before a run *)

Definition check_root (root : bool) (w : World) : World :=
  if root then w
  else eprintln ("warning: not running as root — packet capture will fail on most systems." +:+ nl +:+
    "Run with sudo or grant CAP_NET_RAW: sudo setcap cap_net_raw+ep $(which edgeshield)") w.

Definition check_interface (iface : string) (w : World) : World :=
  let wireless_path := "/sys/class/net/" +:+ iface +:+ "/wireless" in
  if path_exists (disk w) wireless_path then
    eprintln ("info: '" +:+ iface +:+
      "' is a wireless interface. EdgeShield uses read-only capture mode" +:+ nl +:+
      "that should not disrupt normal WiFi connectivity. If you experience" +:+ nl +:+
      "network issues, switch to a wired interface or use a monitor-mode" +:+ nl +:+
      "capable secondary interface.") w
  else w.

(** * The PID file *)

(** [pid as i32]. *)
Definition as_i32 (pid : Z) : Z := if pid <=? 2147483647 then pid else pid - 4294967296.

Section Cli.
Context {TM : Toml} {CR : Crypto} {HX : HexEncode} {O : Os} {TT : Terminal}.

(** The process id of the file, if there is one and it answers. *)
Definition running_pid (alive : Z -> bool) (fs : Fs) : option Z :=
  match fs_read fs PID_FILE with
  | Ok content =>
      match parse_uint u32_max (trim content) with
      | Some pid => if alive (as_i32 pid) then Some pid else None
      | None => None
      end
  | Err _ => None
  end.

Definition write_pid_file (own : Z) (fs : Fs) : Fs * result unit CliError :=
  let '(fs, made) :=
    match path_parent PID_FILE with
    | Some parent => create_dir_all parent fs
    | None => (fs, Ok tt)
    end in
  match made with
  | Err e => (fs, Err (PidFile e))
  | Ok _ => let '(fs, r) := fs_write PID_FILE (fmt_uint own +:+ nl) fs in (fs, map_err PidFile r)
  end.

Definition acquire_pid_file (alive : Z -> bool) (own : Z) (fs : Fs) : Fs * result unit CliError :=
  match running_pid alive fs with
  | Some pid => (fs, Err (AlreadyRunning pid))
  | None => write_pid_file own fs
  end.

Definition release_pid_file (fs : Fs) : Fs := fs_remove PID_FILE fs.

(** * The configuration *)

Definition from_file (path : string) (fs : Fs) : result Config.t ConfigError :=
  config_from_file path (fs_read fs path).

Definition fallbacks : list string :=
  ["/etc/edgeshield/config.toml"; "/usr/local/etc/edgeshield/config.toml"; "edgeshield.toml";
   "config.toml"].

(** The first fallback, other than the path itself, that loads. *)
Fixpoint try_fallbacks (path : string) (fs : Fs) (l : list string) : option (string * Config.t) :=
  match l with
  | [] => None
  | fb :: l' =>
      if String.eqb fb path then try_fallbacks path fs l'
      else match from_file fb fs with
           | Ok cfg => Some (fb, cfg)
           | Err _ => try_fallbacks path fs l'
           end
  end.

Definition load_config (path : string) (w : World) : World * result Config.t CliError :=
  match from_file path (disk w) with
  | Ok cfg => (w, Ok cfg)
  | Err _ =>
      match try_fallbacks path (disk w) fallbacks with
      | Some (fb, cfg) => (eprintln ("info: loaded config from fallback path: " +:+ fb) w, Ok cfg)
      | None => (w, map_err LoadConfig (from_file path (disk w)))
      end
  end.

(** * The subcommands *)

Definition default_config_text : string :=
  "# EdgeShield Configuration" +:+ nl +:+
  "interface = " +:+ quoted "eth0" +:+ nl +:+
  "api_port = 8080" +:+ nl +:+
  "log_level = " +:+ quoted "info" +:+ nl +:+
  "capture_buffer = 4096" +:+ nl +:+
  "database_path = " +:+ quoted "" +:+ nl.

(** A panic of the daemon unwinds through the command. *)
Definition run_daemon (env : Env) (config : string) (w : World)
  : World * exec (result unit CliError) :=
  let w := check_root (is_root env) w in
  let '(fs, acquired) := acquire_pid_file (alive env) (own_pid env) (disk w) in
  let w := set_disk fs w in
  match acquired with
  | Err e => (w, Done (Err e))
  | Ok _ =>
      let '(w, loaded) := load_config config w in
      match loaded with
      | Err e => (w, Done (Err e))
      | Ok cfg =>
          let w := check_interface (Config.interface cfg) w in
          match daemon_run env cfg (disk w) with
          | (fs, Done result) => (set_disk (release_pid_file fs) w, Done (map_err Failed result))
          | (fs, Panic) => (set_disk fs w, Panic)
          | (fs, Diverge) => (set_disk fs w, Diverge)
          end
      end
  end.

(** [unwrap_or_default], [unwrap_or], [unwrap_or_else] of the flags. *)
Definition inputs_of_args (a : SetupArgs.t) : SetupInputs.t :=
  SetupInputs.mk (default "" (SetupArgs.interface a)) (default 8080 (SetupArgs.api_port a))
    (default "0.0.0.0" (SetupArgs.bind a)) (default "info" (SetupArgs.log_level a))
    (default "" (SetupArgs.database_path a)) (SetupArgs.generate_api_key a)
    (if SetupArgs.enable_mqtt a then
       Some (MqttInputs.mk (default "" (SetupArgs.mqtt_host a)) (default 1883 (SetupArgs.mqtt_port a))
         (default "edgeshield/devices/new" (SetupArgs.mqtt_topic a)) None None)
     else None)
    (if SetupArgs.enable_ntfy a then
       Some (NtfyInputs.mk (default "" (SetupArgs.ntfy_url a)) (default "" (SetupArgs.ntfy_topic a)) None)
     else None)
    (if SetupArgs.enable_webhook a then
       Some (WebhookInputs.mk (default "" (SetupArgs.webhook_url a)) None)
     else None)
    (if SetupArgs.enable_email a then
       Some (EmailInputs.mk (default "" (SetupArgs.email_host a)) (default 587 (SetupArgs.email_port a))
         (default "" (SetupArgs.email_username a)) (default "" (SetupArgs.email_password a))
         (default "" (SetupArgs.email_from a)) (default "" (SetupArgs.email_to a)))
     else None).

Definition print_api_key_warning (key : string) (w : World) : exec World :=
  lines ← warning_lines key;
  Done (eprint_lines ([""] ++ lines ++
    ["Only the SHA-256 hash was written to the config. Use this key as the" +:+ nl +:+
     "Bearer token for API requests." +:+ nl]) w).

(** The first half of [run_setup]: the inputs, from the flags and the prompts. *)
Definition gather_inputs (env : Env) (a : SetupArgs.t) : exec (result SetupInputs.t SetupError) :=
  let inputs := inputs_of_args a in
  if negb (SetupArgs.non_interactive a) then prompt_interactively (net_dir env) inputs
  else if blank (SetupInputs.interface inputs) then Done (Err InterfaceRequired)
  else Done (Ok inputs).

Definition run_setup (env : Env) (a : SetupArgs.t) (w : World)
  : exec (World * result unit CliError) :=
  answered ← gather_inputs env a;
  match answered with
  | Err e => Done (w, Err (SetupFailed e))
  | Ok inputs =>
      let path := SetupArgs.config a in
      let '(fs, r) := run inputs path (SetupArgs.force a) (rng env) (disk w) in
      let w := set_disk fs w in
      match r with
      | Err e => Done (w, Err (SetupFailed e))
      | Ok api_key =>
          let w := println ("Config written to " +:+ path) w in
          match api_key with
          | Some key => w' ← print_api_key_warning key w; Done (w', Ok tt)
          | None => Done (w, Ok tt)
          end
      end
  end.

Definition print_completions (shell : string) (w : World) : World * result unit CliError :=
  if String.eqb shell "bash" then (println print_bash_completion w, Ok tt)
  else if String.eqb shell "zsh" then (println print_zsh_completion w, Ok tt)
  else (w, Err (UnsupportedShell shell)).

(** The dashboard runs on a thread of its own; joining it turns its panic
    into an error. *)
Definition join_tui (r : exec (result unit string)) : result unit CliError :=
  match r with
  | Done r => map_err Failed r
  | _ => Err (Failed "TUI worker thread panicked")
  end.

(** [cli::run]. *)
Definition run_command (env : Env) (c : Command) (w : World) : exec (World * result unit CliError) :=
  match c with
  | RunCommand config =>
      let (w', outcome) := run_daemon env config w in run! r := outcome in Done (w', r)
  | DefaultConfig => Done (println default_config_text w, Ok tt)
  | Completions shell => Done (print_completions shell w)
  | TuiCommand url key refresh_ms => Done (w, join_tui (tui_run env url key refresh_ms))
  | SetupCommand args => run_setup env args w
  end.
End Cli.

(** ** What a run looks at, in order *)

Definition candidates (path : string) : list string := path :: filter (fun fb => fb <> path) fallbacks.

(** ** Two processes that start at once *)

(** The check and the write of [acquire_pid_file] are separate system calls. *)
Inductive Phase : Type := Starting | Checked | Holding | Refused.

Section Race.
Context {O : Os} (alive : Z -> bool) (pid1 pid2 : Z).

Definition StartState : Type := Fs * Phase * Phase.
Definition check_phase (fs : Fs) : Phase :=
  match running_pid alive fs with Some _ => Refused | None => Checked end.
Definition write_phase (r : result unit CliError) : Phase :=
  match r with Ok _ => Holding | Err _ => Refused end.

Inductive start_step : StartState -> StartState -> Prop :=
| Check1 fs p2 : start_step (fs, Starting, p2) (fs, check_phase fs, p2)
| Check2 fs p1 : start_step (fs, p1, Starting) (fs, p1, check_phase fs)
| Write1 fs fs' r p2 : write_pid_file pid1 fs = (fs', r) ->
    start_step (fs, Checked, p2) (fs', write_phase r, p2)
| Write2 fs fs' r p1 : write_pid_file pid2 fs = (fs', r) ->
    start_step (fs, p1, Checked) (fs', p1, write_phase r).
End Race.

(** * Lemmas *)

(** ** The text of the PID file *)

Fixpoint last_char (s : string) : option ascii :=
  match s with "" => None | String c "" => Some c | String _ s' => last_char s' end.

Lemma last_char_app a b : b <> "" -> last_char (a +:+ b) = last_char b.
Proof.
  intros Hb. induction a as [|c a IH]; [done|]. cbn [String.append last_char]. rewrite IH.
  destruct (a +:+ b) eqn:E; [|done]. by destruct a, b.
Qed.

Lemma strip_any_suffix_None l s c :
  last_char s = Some c ->
  forallb (fun w => match last_char w with Some d => negb (Ascii.eqb d c) | None => false end) l = true ->
  strip_any strip_suffix l s = None.
Proof.
  intros Hs. induction l as [|w l IH]; simpl; [done|]. rewrite andb_true_iff. intros [Hw Hl].
  destruct (strip_suffix w s) as [r|] eqn:E; [|by apply IH].
  apply strip_suffix_Some in E as ->. destruct (last_char w) as [d|] eqn:Ed; [|done].
  rewrite last_char_app, Ed in Hs by (by intros ->). injection Hs as ->.
  by rewrite Ascii.eqb_refl in Hw.
Qed.

Lemma hexdigit_no_space_end c :
  is_ascii_hexdigit c = true ->
  forallb (fun w => match last_char w with Some d => negb (Ascii.eqb d c) | None => false end)
    white_space = true.
Proof.
  intros Hc. apply forallb_forall. intros w Hw. vm_compute in Hw.
  repeat (destruct Hw as [<-|Hw]; [cbn [last_char];
    match goal with |- negb (Ascii.eqb ?d c) = true =>
      destruct (Ascii.eqb_spec d c) as [<-|]; [vm_compute in Hc; discriminate Hc | done] end|]).
  destruct Hw.
Qed.

Lemma trim_digits_newline c s :
  is_ascii_hexdigit c = true -> (exists p d, is_ascii_hexdigit d = true /\ String c s = p +:+ String d "") ->
  trim (String c s +:+ nl) = String c s.
Proof.
  intros Hc (p & d & Hd & Hs). unfold trim. cbn [String.append].
  rewrite trim_start_hex by done. change (String c (s +:+ nl)) with (String c s +:+ nl).
  unfold trim_end. rewrite string_length_app, Nat.add_comm. cbn [String.length Nat.add nl trim_with].
  assert (last_char (String c s) = Some d) as Hl by (rewrite Hs; by apply last_char_app).
  assert (strip_any strip_suffix white_space (String c s +:+ nl) = Some (String c s)) as ->.
  { assert (white_space = string_of_bytes [9] :: nl :: drop 2 white_space) as -> by reflexivity.
    unfold strip_any. cbn [foldr]. destruct (strip_suffix (string_of_bytes [9]) _) as [r|] eqn:E.
    - apply strip_suffix_Some, (f_equal last_char) in E.
      rewrite !last_char_app in E by done. vm_compute in E. discriminate E.
    - by rewrite strip_suffix_app. }
  destruct (String.length s) as [|n] eqn:En; cbn [trim_with];
    by rewrite (strip_any_suffix_None _ _ d Hl (hexdigit_no_space_end d Hd)).
Qed.

Lemma digit_hexdigit d : 0 <= d < 10 -> is_ascii_hexdigit (digit d) = true.
Proof.
  intros Hd. assert (forallb (fun d => is_ascii_hexdigit (digit d)) (seqZ 0 10) = true) as H
    by (vm_compute; reflexivity).
  rewrite forallb_forall in H. apply H, list_elem_of_In, elem_of_seqZ. lia.
Qed.

Lemma fmt_go_shape fuel n acc :
  0 <= n -> exists p, fmt_go fuel n acc = p +:+ acc /\ all_chars is_ascii_hexdigit p = true.
Proof.
  revert n acc. induction fuel as [|fuel IH]; intros n acc Hn; cbn [fmt_go]; [by exists ""|].
  pose proof (digit_hexdigit (n mod 10) (Z.mod_pos_bound n 10 ltac:(lia))) as Hd.
  destruct (n <? 10).
  - exists (String (digit (n mod 10)) ""). cbn. by rewrite Hd.
  - destruct (IH (n / 10) (String (digit (n mod 10)) acc) ltac:(apply Z.div_pos; lia)) as (p & -> & Hp).
    exists (p +:+ String (digit (n mod 10)) ""). rewrite string_app_assoc. split; [done|].
    rewrite all_chars_app, Hp. cbn. by rewrite Hd.
Qed.

Lemma trim_pid_line n : 0 <= n -> trim (fmt_uint n +:+ nl) = fmt_uint n.
Proof.
  intros Hn. pose proof (digit_hexdigit (n mod 10) (Z.mod_pos_bound n 10 ltac:(lia))) as Hd.
  assert (exists p, fmt_uint n = p +:+ String (digit (n mod 10)) "" /\
    all_chars is_ascii_hexdigit p = true) as (p & Hp & Ha).
  { change (fmt_uint n) with (if n <? 10 then String (digit (n mod 10)) ""
      else fmt_go 19 (n / 10) (String (digit (n mod 10)) "")).
    destruct (n <? 10); [by exists ""|].
    apply fmt_go_shape, Z.div_pos; lia. }
  rewrite Hp. destruct p as [|c p].
  - apply (trim_digits_newline _ ""); [done|]. by exists "", (digit (n mod 10)).
  - cbn [all_chars] in Ha. apply andb_true_iff in Ha as [Hc _].
    apply (trim_digits_newline c); [done|]. by exists (String c p), (digit (n mod 10)).
Qed.

(** ** The guard *)

Section GuardFacts.
Context {O : Os}.
Context (alive : Z -> bool).
Hypothesis readable : forall fs, read_fault fs PID_FILE = None.

Lemma running_pid_own own fs :
  0 <= own <= u32_max -> files fs !! PID_FILE = Some (fmt_uint own +:+ nl) ->
  running_pid alive fs = if alive (as_i32 own) then Some own else None.
Proof.
  intros Hown Hf. unfold running_pid, fs_read. rewrite readable, Hf. cbn [ok_or].
  rewrite trim_pid_line, parse_fmt_uint by (unfold u32_max, u64_max in *; lia). done.
Qed.

Lemma running_pid_absent fs : files fs !! PID_FILE = None -> running_pid alive fs = None.
Proof. intros Hf. unfold running_pid, fs_read. by rewrite readable, Hf. Qed.

Lemma write_pid_file_cases own fs :
  let '(fs', r) := write_pid_file own fs in
  match r with
  | Ok _ => files fs' = <[PID_FILE := fmt_uint own +:+ nl]> (files fs)
  | Err (PidFile _) => delete PID_FILE (files fs') = delete PID_FILE (files fs)
  | Err _ => False
  end.
Proof.
  assert (forall fs1, files fs1 = files fs ->
    let '(fs', r) := (let '(fs, r) := fs_write PID_FILE (fmt_uint own +:+ nl) fs1 in
                      (fs, map_err PidFile r)) in
    match r with
    | Ok _ => files fs' = <[PID_FILE := fmt_uint own +:+ nl]> (files fs)
    | Err (PidFile _) => delete PID_FILE (files fs') = delete PID_FILE (files fs)
    | Err _ => False
    end) as Hw.
  { intros fs1 <-. unfold fs_write. destruct (write_fault fs1 PID_FILE) as [[e rest]|]; simpl; [|done].
    apply map_eq. intros p. destruct (decide (p = PID_FILE)) as [->|Hp].
    - by rewrite !lookup_delete_eq.
    - by rewrite !lookup_delete_ne, lookup_partial_alter_ne. }
  unfold write_pid_file. destruct (path_parent PID_FILE) as [parent|]; [|by apply Hw].
  unfold create_dir_all. destruct (mkdir_fault fs parent); simpl; [done|]. by apply Hw.
Qed.

Lemma acquire_cases own fs :
  0 <= own <= u32_max ->
  let '(fs', r) := acquire_pid_file alive own fs in
  match r with
  | Ok _ => running_pid alive fs = None /\
      files fs' = <[PID_FILE := fmt_uint own +:+ nl]> (files fs) /\
      running_pid alive fs' = if alive (as_i32 own) then Some own else None
  | Err (AlreadyRunning pid) => running_pid alive fs = Some pid /\ fs' = fs
  | Err (PidFile _) => running_pid alive fs = None /\
      delete PID_FILE (files fs') = delete PID_FILE (files fs)
  | Err _ => False
  end.
Proof.
  intros Hown. unfold acquire_pid_file. destruct (running_pid alive fs) as [pid|] eqn:E; [done|].
  pose proof (write_pid_file_cases own fs) as H. destruct (write_pid_file own fs) as [fs' [[]|e]].
  - split_and!; [done | exact H |]. apply running_pid_own; [done|]. by rewrite H, lookup_insert_eq.
  - by destruct e.
Qed.
End GuardFacts.

(** ** The configuration *)

Section LoadFacts.
Context {TM : Toml} {O : Os}.

Lemma try_fallbacks_Some path fs l p cfg :
  try_fallbacks path fs l = Some (p, cfg) ->
  exists l1 l2, filter (fun fb => fb <> path) l = l1 ++ p :: l2 /\ from_file p fs = Ok cfg /\
    Forall (fun q => is_ok (from_file q fs) = false) l1.
Proof.
  induction l as [|fb l IH]; [done|]. cbn [try_fallbacks]. rewrite filter_cons.
  destruct (String.eqb_spec fb path) as [->|Hne].
  - rewrite decide_False by naive_solver. done.
  - rewrite decide_True by done. destruct (from_file fb fs) as [c|e] eqn:E.
    + intros [= <- <-]. by exists [], (filter (fun fb => fb <> path) l).
    + intros H. destruct (IH H) as (l1 & l2 & -> & Hp & Hl). exists (fb :: l1), l2.
      split_and!; [done..|]. constructor; [by rewrite E | done].
Qed.

Lemma try_fallbacks_None path fs l :
  try_fallbacks path fs l = None <->
  Forall (fun q => is_ok (from_file q fs) = false) (filter (fun fb => fb <> path) l).
Proof.
  induction l as [|fb l IH]; [by split|]. cbn [try_fallbacks]. rewrite filter_cons.
  destruct (String.eqb_spec fb path) as [->|Hne].
  - rewrite decide_False by naive_solver. done.
  - rewrite decide_True by done. rewrite Forall_cons. destruct (from_file fb fs) as [c|e] eqn:E; naive_solver.
Qed.

(** The first candidate that loads, or the error of the path asked for. *)
Lemma load_config_cases path w :
  let '(w', r) := load_config path w in
  disk w' = disk w /\
  match r with
  | Ok cfg => exists l1 p l2, candidates path = l1 ++ p :: l2 /\ from_file p (disk w) = Ok cfg /\
      Forall (fun q => is_ok (from_file q (disk w)) = false) l1
  | Err e => Forall (fun q => is_ok (from_file q (disk w)) = false) (candidates path) /\
      exists e', from_file path (disk w) = Err e' /\ e = LoadConfig e'
  end.
Proof.
  unfold load_config, candidates. destruct (from_file path (disk w)) as [cfg|e] eqn:E.
  { split; [done|]. by exists [], path, (filter (fun fb => fb <> path) fallbacks). }
  destruct (try_fallbacks path (disk w) fallbacks) as [[fb cfg]|] eqn:Ef.
  - split; [done|]. destruct (try_fallbacks_Some _ _ _ _ _ Ef) as (l1 & l2 & Hl & Hp & Hf).
    exists (path :: l1), fb, l2. rewrite Hl. split_and!; [done..|]. constructor; [by rewrite E | done].
  - split; [done|]. cbn [map_err]. split; [|eauto]. constructor; [by rewrite E|].
    by apply try_fallbacks_None.
Qed.
End LoadFacts.

(** * Properties *)

(** The single-instance guard, step by step.  Acquiring is refused exactly
    when the PID file names a process that answers, and then nothing changes;
    otherwise the file ends up holding the own id, which reads back, so that
    any later start is refused for as long as this process answers; a write
    that fails changes no other file; releasing frees the guard. *)
Theorem pid_guard_exact {O : Os} (alive : Z -> bool) (own : Z) (fs : Fs) :
  (forall fs, read_fault fs PID_FILE = None) ->
  (forall fs, remove_fault fs PID_FILE = false) ->
  0 <= own <= u32_max ->
  let '(fs', r) := acquire_pid_file alive own fs in
  match r with
  | Ok _ =>
      running_pid alive fs = None /\
      files fs' = <[PID_FILE := fmt_uint own +:+ nl]> (files fs) /\
      (alive (as_i32 own) = true -> forall other,
         acquire_pid_file alive other fs' = (fs', Err (AlreadyRunning own))) /\
      running_pid alive (release_pid_file fs') = None
  | Err (AlreadyRunning pid) => running_pid alive fs = Some pid /\ fs' = fs
  | Err (PidFile _) =>
      running_pid alive fs = None /\ delete PID_FILE (files fs') = delete PID_FILE (files fs)
  | Err _ => False
  end.
Proof.
  intros Hrd Hrm Hown. pose proof (acquire_cases alive Hrd own fs Hown) as H.
  destruct (acquire_pid_file alive own fs) as [fs' [[]|e]]; [|by destruct e].
  destruct H as (Hn & Hf & Hr). split_and!; [done | done | |].
  - intros Ha other. rewrite Ha in Hr. unfold acquire_pid_file. by rewrite Hr.
  - apply running_pid_absent; [done|]. unfold release_pid_file, fs_remove. rewrite Hrm. cbn.
    apply lookup_delete_eq.
Qed.

(** The guard is not atomic: from any disk on which nobody runs, two
    processes that start at once can both end up holding it, because both may
    read the file before either writes it; the file then names the later one
    only. *)
Theorem pid_guard_race {O : Os} (alive : Z -> bool) (pid1 pid2 : Z) (fs : Fs) :
  (forall fs p, read_fault fs p = None /\ mkdir_fault fs p = None /\ write_fault fs p = None) ->
  running_pid alive fs = None ->
  exists fs', rtc (start_step alive pid1 pid2) (fs, Starting, Starting) (fs', Holding, Holding) /\
    files fs' !! PID_FILE = Some (fmt_uint pid2 +:+ nl).
Proof.
  intros Hos Hn.
  assert (forall own fs, exists fs', write_pid_file own fs = (fs', Ok tt) /\
    files fs' = <[PID_FILE := fmt_uint own +:+ nl]> (files fs)) as Hw.
  { intros own fs0. unfold write_pid_file, create_dir_all, fs_write.
    destruct (path_parent PID_FILE) as [parent|].
    - destruct (Hos fs0 parent) as (_ & -> & _). cbn.
      destruct (Hos (mkFs (files fs0) ({[parent]} ∪ dirs fs0)) PID_FILE) as (_ & _ & ->). cbn. eauto.
    - destruct (Hos fs0 PID_FILE) as (_ & _ & ->). cbn. eauto. }
  destruct (Hw pid1 fs) as (fs1 & H1 & F1). destruct (Hw pid2 fs1) as (fs2 & H2 & F2).
  exists fs2. split; [|rewrite F2; apply lookup_insert_eq].
  assert (check_phase alive fs = Checked) as Hc by (unfold check_phase; by rewrite Hn).
  eapply rtc_l; [apply Check1|]. rewrite Hc.
  eapply rtc_l; [apply Check2|]. rewrite Hc.
  eapply rtc_l; [by apply Write1|].
  eapply rtc_l; [by apply Write2|]. apply rtc_refl.
Qed.

(** C27: the [run] subcommand, on every branch and whatever faults the disk
    has.  A running instance stops it with the disk untouched; a PID file
    that cannot be read counts as none.  When the own PID file cannot be
    written that is the error, and no other file changes.  Otherwise the
    daemon is started exactly when one of the candidate files loads (the path
    asked for, then the well-known ones), on the configuration of the first
    that does, whatever is wrong with the earlier ones.  When the daemon
    returns, its result is the command's and the PID file is removed, unless
    the removal fails, which nobody is told; when it panics, so does the
    command, with the disk as the daemon left it: the PID file stays.  If no
    candidate loads, the error is that of the path asked for and the PID file
    of the process stays behind. *)
Theorem run_daemon_exact {TM : Toml} {O : Os} (env : Env) (config : string) (w : World) :
  let '(w', r) := run_daemon env config w in
  (is_ok (fs_read (disk w) PID_FILE) = false -> running_pid (alive env) (disk w) = None) /\
  match running_pid (alive env) (disk w) with
  | Some pid => r = Done (Err (AlreadyRunning pid)) /\ disk w' = disk w
  | None =>
      let '(fs, written) := write_pid_file (own_pid env) (disk w) in
      match written with
      | Err e => r = Done (Err e) /\ disk w' = fs /\
          delete PID_FILE (files fs) = delete PID_FILE (files (disk w))
      | Ok _ => files fs = <[PID_FILE := fmt_uint (own_pid env) +:+ nl]> (files (disk w)) /\
          ((exists l1 p l2 cfg, candidates config = l1 ++ p :: l2 /\ from_file p fs = Ok cfg /\
              Forall (fun q => is_ok (from_file q fs) = false) l1 /\
              let '(fs2, result) := daemon_run env cfg fs in
              match result with
              | Done res => r = Done (map_err Failed res) /\
                  files (disk w') = (if remove_fault fs2 PID_FILE then files fs2
                                     else delete PID_FILE (files fs2))
              | Panic => r = Panic /\ disk w' = fs2
              | Diverge => r = Diverge
              end) \/
           (Forall (fun q => is_ok (from_file q fs) = false) (candidates config) /\
              exists e, from_file config fs = Err e /\ r = Done (Err (LoadConfig e)) /\ disk w' = fs))
      end
  end.
Proof.
  assert (disk (check_root (is_root env) w) = disk w) as Hd by (unfold check_root; by destruct (is_root env)).
  unfold run_daemon, acquire_pid_file. rewrite Hd.
  assert (is_ok (fs_read (disk w) PID_FILE) = false -> running_pid (alive env) (disk w) = None) as Hread
    by (unfold running_pid; by destruct (fs_read _ _)).
  destruct (running_pid (alive env) (disk w)) as [pid|] eqn:Er; [by split_and!|].
  pose proof (write_pid_file_cases (own_pid env) (disk w)) as Hw.
  destruct (write_pid_file (own_pid env) (disk w)) as [fs [[]|e]] eqn:E; [|by destruct e; destruct Hw].
  pose proof (load_config_cases config (set_disk fs (check_root (is_root env) w))) as Hl.
  destruct (load_config config _) as [w1 [cfg|e]]; destruct Hl as [Hw1 Hl]; cbn in Hw1, Hl.
  - destruct Hl as (l1 & p & l2 & Hc & Hp & Hq).
    assert (disk (check_interface (Config.interface cfg) w1) = fs) as Hci
      by (unfold check_interface; by destruct (path_exists _ _)).
    rewrite Hci. destruct (daemon_run env cfg fs) as [fs2 res] eqn:Ed.
    destruct res; (split; [done|]; split; [done|]; left; exists l1, p, l2, cfg; rewrite Ed; split_and!; try done).
    cbn. unfold release_pid_file, fs_remove. by destruct (remove_fault fs2 PID_FILE).
  - destruct Hl as (Hall & e' & He & ->). split; [done|]. split; [done|]. right. split; [done|]. by exists e'.
Qed.

(** C17: setting up and then running.  The [setup] command never panics; when
    it succeeds, with clean inputs from the flags or the prompts, the [run]
    command given the same path finds there, without falling back and without
    a warning, exactly the configuration the inputs describe. *)
Theorem setup_then_run_loads {TM : Toml} {TL : TomlLaws} {CR : Crypto} {CL : CryptoLaws}
  {HX : HexEncode} {HL : HexLaws} {O : Os} {TT : Terminal} {TTL : TerminalLaws}
  (env : Env) (a : SetupArgs.t) (w : World) :
  bytes_ok (rng env) -> length (rng env) = 32%nat ->
  exists w' r, run_setup env a w = Done (w', r) /\
    forall inputs, gather_inputs env a = Done (Ok inputs) -> inputs_clean inputs -> r = Ok tt ->
      (forall fs, read_fault fs (SetupArgs.config a) = None) ->
      load_config (SetupArgs.config a) w' =
        (w', Ok (normalized (config_of_inputs inputs (hash_of (key_of inputs (rng env)))))).
Proof.
  intros Hr Hlen. unfold run_setup.
  assert (exists g, gather_inputs env a = Done g) as [g Hg].
  { unfold gather_inputs. destruct (negb (SetupArgs.non_interactive a)).
    - pose proof (prompt_interactively_ok (net_dir env) (inputs_of_args a)) as H.
      destruct (prompt_interactively _ _); [eauto | done | done].
    - case_match; eauto. }
  rewrite Hg. cbn [mbind exec_bind]. destruct g as [inputs|e].
  2: { eexists _, _. split; [done|]. congruence. }
  pose proof (run_cases inputs (SetupArgs.config a) (SetupArgs.force a) (rng env) (disk w)) as Hrun.
  destruct (run inputs (SetupArgs.config a) (SetupArgs.force a) (rng env) (disk w)) as [fs [k|e]] eqn:E.
  2: { eexists _, _. split; [done|]. by intros i _ _ Hbad. }
  assert (k = None \/ k = Some (generate_api_key_plaintext (rng env))) as Hk.
  { unfold run in E. fold (key_of inputs (rng env)) in E. unfold key_of in E.
    repeat case_match; simplify_eq; auto. }
  set (w1 := println ("Config written to " +:+ SetupArgs.config a) (set_disk fs w)).
  assert (exists w', match k with
    | Some key => w' ← print_api_key_warning key w1; Done (w', Ok tt)
    | None => Done (w1, Ok tt) end = Done (w', Ok (E:=CliError) tt) /\ disk w' = fs) as (w' & Hw & Hd).
  { destruct Hk as [-> | ->]; [by exists w1|].
    destruct (warning_lines_done (generate_api_key_plaintext (rng env))) as (lines & Hl & _).
    { unfold generate_api_key_plaintext. rewrite hex_encode_length, Hlen. lia. }
    { by apply ascii_hex, hex_encode_digits. }
    unfold print_api_key_warning. rewrite Hl. cbn. by eexists. }
  exists w', (Ok tt). split; [exact Hw|]. intros inputs' [= <-] Hi _ Hread.
  destruct (Hrun Hi Hr) as (text & _ & Hc & _ & -> & Hok & Hf).
  rewrite Hc in Hok. destruct (validate _) as [c|] eqn:Ev; [|done].
  apply validate_Ok in Ev as [_ ->].
  unfold load_config, from_file, config_from_file, fs_read. rewrite Hd, Hread, Hf, lookup_insert_eq.
  cbn [ok_or map_err result_bind]. by rewrite Hc.
Qed.

(** What [edgeshield default-config] prints is a configuration the program
    accepts: the defaults, on [eth0]. *)
Theorem default_config_loads {TM : Toml} {TL : TomlLaws} :
  config_from_str default_config_text =
    Ok (Config.mk "eth0" 8080 "0.0.0.0" ApiConfig.default_config "info" 4096 "" None None None None []
          ScannerConfig.default_config StorageConfig.default_config).
Proof.
  unfold config_from_str. erewrite toml_from_str_reads; [|vm_compute; reflexivity|vm_compute; reflexivity].
  vm_compute. reflexivity.
Qed.

(** * Witnesses *)

#[local] Existing Instances ref_toml ref_toml_laws setup_crypto setup_crypto_laws setup_hex
  setup_hex_laws demo_os demo_terminal demo_terminal_laws.

(** Process 4242 answers. *)
Definition demo_alive (pid : Z) : bool := pid =? 4242.

Lemma pid_guard_exact_witness :
  exists fs', acquire_pid_file demo_alive 4242 demo_fs = (fs', Ok tt) /\
    acquire_pid_file demo_alive 77 fs' = (fs', Err (AlreadyRunning 4242)) /\
    running_pid demo_alive (release_pid_file fs') = None.
Proof.
  pose proof (pid_guard_exact demo_alive 4242 demo_fs (fun _ => eq_refl) (fun _ => eq_refl)
    ltac:(unfold u32_max; lia)) as H.
  destruct (acquire_pid_file demo_alive 4242 demo_fs) as [fs' [[]|e]] eqn:E.
  - exists fs'. split; [reflexivity|]. destruct H as (_ & _ & H1 & H2).
    split; [apply H1; reflexivity | exact H2].
  - exfalso. assert (is_ok (acquire_pid_file demo_alive 4242 demo_fs).2 = true) as Hok
      by (vm_compute; reflexivity). rewrite E in Hok. discriminate Hok.
Defined.

Lemma pid_guard_race_witness :
  exists fs', rtc (start_step demo_alive 4242 77) (demo_fs, Starting, Starting) (fs', Holding, Holding) /\
    files fs' !! PID_FILE = Some (fmt_uint 77 +:+ nl).
Proof.
  apply (pid_guard_race demo_alive 4242 77 demo_fs).
  - intros fs p. split; [reflexivity | split; reflexivity].
  - vm_compute. reflexivity.
Defined.

Definition demo_env : Env :=
  mkEnv true 4242 demo_alive (Err "no such directory") demo_rng
    (fun cfg fs => (fs, if Config.capture_buffer cfg =? 0 then Panic else Done (Ok tt)))
    (fun _ _ _ => Done (Ok tt)).
Definition demo_world : World := mkWorld demo_fs [] [].

(** The daemon of [demo_env] panics on a [capture_buffer] of 0, as
    [Startup.start] does: the PID file stays. *)
Definition no_buffer_world : World :=
  let text := "interface = " +:+ quoted "eth0" +:+ nl +:+ "capture_buffer = 0" +:+ nl in
  mkWorld (mkFs {["edge.toml" := text]} ∅) [] [].

Lemma run_daemon_exact_witness :
  (run_daemon demo_env "edge.toml" no_buffer_world).2 = Panic /\
  files (disk (run_daemon demo_env "edge.toml" no_buffer_world).1) !! PID_FILE =
    Some (fmt_uint 4242 +:+ nl).
Proof.
  pose proof (run_daemon_exact demo_env "edge.toml" no_buffer_world) as H.
  assert ((run_daemon demo_env "edge.toml" no_buffer_world).2 = Panic) as Hp by (vm_compute; reflexivity).
  destruct (run_daemon demo_env "edge.toml" no_buffer_world) as [w' r]. cbn [fst snd] in Hp |- *. subst r.
  split; [reflexivity|].
  assert (running_pid (alive demo_env) (disk no_buffer_world) = None) as Er by (vm_compute; reflexivity).
  rewrite Er in H. destruct H as [_ H].
  destruct (write_pid_file (own_pid demo_env) (disk no_buffer_world)) as [fs [[]|e]].
  - destruct H as [Hf [(l1 & p & l2 & cfg & _ & _ & _ & H)|(_ & e & _ & H & _)]]; [|discriminate H].
    unfold demo_env in H. cbn [daemon_run] in H.
    destruct (Config.capture_buffer cfg =? 0); destruct H as [H ->]; [|discriminate H].
    rewrite Hf. apply lookup_insert_eq.
  - destruct H as [H _]. discriminate H.
Defined.

Definition demo_args : SetupArgs.t :=
  SetupArgs.mk "config.toml" true true (Some "wlan0") (Some 9000) None None None true
    true (Some "hub.local") None None false None None false None false None None None None None None.

Lemma setup_then_run_loads_witness :
  exists w' cfg, run_setup demo_env demo_args demo_world = Done (w', Ok tt) /\
    load_config "config.toml" w' = (w', Ok cfg) /\ Config.interface cfg = "wlan0".
Proof.
  destruct (setup_then_run_loads demo_env demo_args demo_world demo_rng_ok eq_refl)
    as (w' & r & Hrun & H).
  assert (match run_setup demo_env demo_args demo_world with
    | Done (_, r) => is_ok r | _ => false end = true) as Hok by (vm_compute; reflexivity).
  rewrite Hrun in Hok. destruct r as [[]|e]; [|discriminate Hok].
  exists w'. eexists. split; [exact Hrun|]. split.
  - apply (H (inputs_of_args demo_args)); try reflexivity.
    unfold inputs_clean, in_uint, u16_max. cbn. repeat split; try lia; vm_compute; try reflexivity; discriminate.
  - reflexivity.
Defined.
