(* ===== verification/Testing.v ===== *)
(** The repository's own tests, run on the model: the harness.  A test is a
    computation that panics where an assertion of the Rust test fails, an
    [unwrap] or [expect] finds nothing, or the code under test panics; it
    passes when it returns.  The files [Test*] translate the tests of
    [crates/*/src] and [crates/*/tests] one by one, under the names of the
    Rust functions, and evaluate them. *)

From S2P Require Import Prelude Text Types.

(** [assert!], [assert_eq!], [unwrap] and [expect]. *)
Definition assert_that (b : bool) : exec unit := if b then Done tt else Panic.
Definition assert_eq {A} `{EqDecision A} (a b : A) : exec unit := assert_that (bool_decide (a = b)).
Definition assert_ne {A} `{EqDecision A} (a b : A) : exec unit := assert_that (bool_decide (a <> b)).
Definition unwrap {A} (o : option A) : exec A := match o with Some a => Done a | None => Panic end.
Definition unwrap_ok {A E} (r : result A E) : exec A := match r with Ok a => Done a | Err _ => Panic end.
Definition unwrap_err {A E} (r : result A E) : exec E := match r with Ok _ => Panic | Err e => Done e end.
Definition is_none {A} (o : option A) : bool := match o with None => true | Some _ => false end.
Definition is_some {A} (o : option A) : bool := negb (is_none o).
Definition is_err {A E} (r : result A E) : bool := negb (is_ok r).

(** The statements of a test, one after the other. *)
Notation "m ;! k" := (mbind (M:=exec) (fun _ => k) m)
  (at level 100, k at level 200, right associativity) : rust_scope.

(** [for x in l { .. }]. *)
Fixpoint for_each {A} (l : list A) (body : A -> exec unit) : exec unit :=
  match l with
  | [] => Done tt
  | x :: l' => body x ;! for_each l' body
  end.

(** A suite of named tests. *)
Definition suite : Type := list (string * exec unit).
Definition failing (s : suite) : list string := fst <$> List.filter (fun t => negb (is_done t.2)) s.

(** [u16::to_be_bytes]; an IPv4 address from its four numbers. *)
Definition u16_to_be_bytes (n : Z) : list Z := [n / 256; n mod 256].
Definition ipv4_addr (a b c d : Z) : IpAddr := V4 (u32_from_be_bytes a b c d).

(** * Lemmas *)

Lemma failing_none s : failing s = [] -> Forall (fun t => is_done t.2 = true) s.
Proof.
  unfold failing. induction s as [|[n t] s IH]; simpl; [constructor|].
  destruct (is_done t) eqn:E; simpl; [|done]. intros H. constructor; [done | by apply IH].
Qed.

Lemma u16_to_be_bytes_roundtrip n :
  0 <= n <= u16_max -> match u16_to_be_bytes n with [a; b] => u16_from_be_bytes a b = n | _ => False end.
Proof.
  intros Hn. unfold u16_to_be_bytes. unfold u16_max in Hn.
  rewrite u16_from_be_bytes_add; [rewrite <- Z.div_mod by lia; lia | apply Z.div_pos; lia |].
  unfold in_u8, u8_max. pose proof (Z.mod_pos_bound n 256). lia.
Qed.
