(* ===== verification/TestPackets.v ===== *)
(** The tests of the packet decoder and of the protocol parsers
    ([crates/packet], [crates/protocol]). *)

From S2P Require Import Prelude Text Types Reference Packet Classify Dhcp Mdns Testing.

#[local] Existing Instance wire_pnet.

(** * crates/packet/src/decode.rs *)

Module DecodeTests.

Definition build_test_packet : list Z :=
  [0; 0; 0; 0; 0; 0] ++ [0; 0; 0; 0; 0; 0] ++ [0x08; 0x00] ++
  [0x45] ++ [0x00] ++ [0x00; 0x34] ++ [0x00; 0x00] ++ [0x40; 0x00] ++ [0x40] ++ [0x06] ++
  [0x00; 0x00] ++ [0xc0; 0xa8; 0x01; 0x01] ++ [0xc0; 0xa8; 0x01; 0x02] ++
  [0x1f; 0x90] ++ [0x00; 0x50] ++ [0x00; 0x00; 0x00; 0x00] ++ [0x00; 0x00; 0x00; 0x00] ++
  [0x50] ++ [0x00] ++ [0xff; 0xff] ++ [0x00; 0x00] ++ [0x00; 0x00].

Definition test_decode_ethernet_ipv4_tcp : exec unit :=
  let data := build_test_packet in
  let buf := mkPacketBuf data 14 in
  run! r := decode_packet buf in
  run! decoded := unwrap_ok r in
  assert_eq (ethertype (ethernet decoded)) 0x0800 ;!
  assert_that (is_some (ipv4 decoded)) ;!
  run! ip := unwrap (ipv4 decoded) in
  assert_eq (ip_source ip) (ipv4_addr 192 168 1 1) ;!
  assert_eq (ip_destination ip) (ipv4_addr 192 168 1 2) ;!
  assert_eq (ip_protocol ip) 6 ;!
  run! transport := unwrap (transport decoded) in
  match transport with
  | TcpHdr tcp => assert_eq (source_port tcp) 8080 ;! assert_eq (destination_port tcp) 80
  | _ => Panic
  end.

Definition test_decode_ethernet_only : exec unit :=
  let buf := [0; 0; 0; 0; 0; 0] ++ [0; 0; 0; 0; 0; 0] ++ [0x08; 0x06] in
  let packet_buf := mkPacketBuf buf 14 in
  run! r := decode_packet packet_buf in
  run! decoded := unwrap_ok r in
  assert_eq (ethertype (ethernet decoded)) 0x0806 ;!
  assert_that (is_none (ipv4 decoded)) ;!
  assert_that (is_none (transport decoded)).

Definition test_decode_truncated_packet : exec unit :=
  let buf := mkPacketBuf [0x00; 0x01; 0x02] 14 in
  run! result := decode_packet buf in
  assert_that (is_err result).

Definition tests : suite :=
  [("test_decode_ethernet_ipv4_tcp", test_decode_ethernet_ipv4_tcp);
   ("test_decode_ethernet_only", test_decode_ethernet_only);
   ("test_decode_truncated_packet", test_decode_truncated_packet)].

End DecodeTests.

(** * crates/packet/tests/fixtures.rs *)

Module FixtureTests.

(** [u8::from_str_radix(.., 16)] on two characters; a slice past the end
    panics. *)
Fixpoint hex_pairs (cleaned : string) : exec (list Z) :=
  match cleaned with
  | "" => Done []
  | String a (String b rest) =>
      run! byte := unwrap (hex_pair a b) in
      run! bytes := hex_pairs rest in Done (byte :: bytes)
  | String _ "" => Panic
  end.
Fixpoint without_spaces (s : string) : string :=
  match s with
  | "" => ""
  | String c s' => if Ascii.eqb c " " then without_spaces s' else String c (without_spaces s')
  end.
Definition hex_to_bytes (hex : string) : exec (list Z) := hex_pairs (without_spaces hex).
Definition fixture_buf (hex : string) : exec PacketBuf :=
  run! bytes := hex_to_bytes hex in Done (mkPacketBuf bytes 14).

Definition TCP_SYN_FIXTURE : string :=
  "aa bb cc dd ee ff " +:+ "00 11 22 33 44 55 " +:+ "08 00 " +:+
  "45 00 00 3c 00 01 40 00 40 06 00 00 c0 a8 01 0a " +:+ "5d b8 d8 22 " +:+
  "d4 31 00 50 00 00 00 01 00 00 00 00 50 02 ff ff " +:+ "00 00 00 00".
Definition DNS_QUERY_FIXTURE : string :=
  "aa bb cc dd ee ff " +:+ "00 11 22 33 44 55 " +:+ "08 00 " +:+
  "45 00 00 2c 00 02 40 00 40 11 00 00 c0 a8 01 0a " +:+ "08 08 08 08 " +:+
  "d4 31 00 35 00 18 00 00 " +:+ "12 34 01 00 00 01 00 00 00 00 00 00 07 65 78 61 " +:+
  "6d 70 6c 65 03 63 6f 6d 00 00 01 00 01".
Definition ARP_REQUEST_FIXTURE : string :=
  "ff ff ff ff ff ff " +:+ "00 11 22 33 44 55 " +:+ "08 06 " +:+ "00 01 08 00 06 04 00 01 " +:+
  "00 11 22 33 44 55 c0 a8 01 0a " +:+ "00 00 00 00 00 00 c0 a8 01 01".
Definition ICMP_ECHO_FIXTURE : string :=
  "aa bb cc dd ee ff " +:+ "00 11 22 33 44 55 " +:+ "08 00 " +:+
  "45 00 00 54 00 03 40 00 40 01 00 00 c0 a8 01 0a " +:+ "08 08 08 08 " +:+
  "08 00 12 34 00 01 00 02 61 62 63 64 65 66 67 68 " +:+
  "69 6a 6b 6c 6d 6e 6f 70 71 72 73 74 75 76 77 61 " +:+ "62 63 64 65 66 67 68 69".

(** [decode_packet(&fixture_buf(hex)).expect(..)]. *)
Definition decode_fixture (hex : string) : exec DecodedPacket :=
  run! buf := fixture_buf hex in
  run! r := decode_packet buf in
  unwrap_ok r.

Definition test_fixture_tcp_syn : exec unit :=
  run! decoded := decode_fixture TCP_SYN_FIXTURE in
  assert_eq (eth_source (ethernet decoded)) (mkMac 0x00 0x11 0x22 0x33 0x44 0x55) ;!
  assert_eq (eth_destination (ethernet decoded)) (mkMac 0xaa 0xbb 0xcc 0xdd 0xee 0xff) ;!
  assert_eq (ethertype (ethernet decoded)) 0x0800 ;!
  run! ip := unwrap (ipv4 decoded) in
  assert_eq (ip_source ip) (ipv4_addr 192 168 1 10) ;!
  assert_eq (ip_destination ip) (ipv4_addr 93 184 216 34) ;!
  assert_eq (ip_protocol ip) 6 ;!
  assert_eq (total_length ip) 60 ;!
  run! transport := unwrap (transport decoded) in
  match transport with
  | TcpHdr tcp => assert_eq (source_port tcp) 54321 ;! assert_eq (destination_port tcp) 80
  | _ => Panic
  end.

Definition test_fixture_dns_query : exec unit :=
  run! decoded := decode_fixture DNS_QUERY_FIXTURE in
  assert_eq (ethertype (ethernet decoded)) 0x0800 ;!
  run! ip := unwrap (ipv4 decoded) in
  assert_eq (ip_source ip) (ipv4_addr 192 168 1 10) ;!
  assert_eq (ip_destination ip) (ipv4_addr 8 8 8 8) ;!
  assert_eq (ip_protocol ip) 17 ;!
  run! transport := unwrap (transport decoded) in
  match transport with
  | UdpHdr udp => assert_eq (source_port udp) 54321 ;! assert_eq (destination_port udp) 53
  | _ => Panic
  end.

Definition test_fixture_arp_request : exec unit :=
  run! decoded := decode_fixture ARP_REQUEST_FIXTURE in
  assert_eq (eth_source (ethernet decoded)) (mkMac 0x00 0x11 0x22 0x33 0x44 0x55) ;!
  assert_eq (eth_destination (ethernet decoded)) (mkMac 0xff 0xff 0xff 0xff 0xff 0xff) ;!
  assert_eq (ethertype (ethernet decoded)) 0x0806 ;!
  assert_that (is_none (ipv4 decoded)) ;!
  assert_that (is_none (transport decoded)).

Definition test_fixture_icmp_echo : exec unit :=
  run! decoded := decode_fixture ICMP_ECHO_FIXTURE in
  assert_eq (ethertype (ethernet decoded)) 0x0800 ;!
  run! ip := unwrap (ipv4 decoded) in
  assert_eq (ip_source ip) (ipv4_addr 192 168 1 10) ;!
  assert_eq (ip_destination ip) (ipv4_addr 8 8 8 8) ;!
  assert_eq (ip_protocol ip) 1 ;!
  run! transport := unwrap (transport decoded) in
  match transport with
  | IcmpHdr icmp => assert_eq (icmp_type icmp) 8 ;! assert_eq (icmp_code icmp) 0
  | _ => Panic
  end.

Definition test_fixture_all_decode_without_panic : exec unit :=
  for_each [("TCP_SYN", TCP_SYN_FIXTURE); ("DNS_QUERY", DNS_QUERY_FIXTURE);
            ("ARP_REQUEST", ARP_REQUEST_FIXTURE); ("ICMP_ECHO", ICMP_ECHO_FIXTURE)] (fun f =>
    run! buf := fixture_buf f.2 in
    run! result := decode_packet buf in
    assert_that (is_ok result)).

Definition test_fixture_truncated_packet_returns_error : exec unit :=
  let buf := mkPacketBuf [0x00; 0x01; 0x02] 14 in
  run! result := decode_packet buf in
  assert_that (is_err result).

Definition tests : suite :=
  [("test_fixture_tcp_syn", test_fixture_tcp_syn);
   ("test_fixture_dns_query", test_fixture_dns_query);
   ("test_fixture_arp_request", test_fixture_arp_request);
   ("test_fixture_icmp_echo", test_fixture_icmp_echo);
   ("test_fixture_all_decode_without_panic", test_fixture_all_decode_without_panic);
   ("test_fixture_truncated_packet_returns_error", test_fixture_truncated_packet_returns_error)].

End FixtureTests.

(** * crates/protocol/src/classifier.rs *)

Module ClassifierTests.

Definition build_udp_packet (src_port dst_port : Z) : PacketBuf :=
  mkPacketBuf ([0; 0; 0; 0; 0; 0] ++ [0; 0; 0; 0; 0; 0] ++ [0x08; 0x00] ++
    [0x45] ++ [0x00] ++ [0x00; 0x2a] ++ [0x00; 0x00] ++ [0x40; 0x00] ++ [0x40] ++ [0x11] ++
    [0x00; 0x00] ++ [0xc0; 0xa8; 0x01; 0x01] ++ [0xc0; 0xa8; 0x01; 0x02] ++
    u16_to_be_bytes src_port ++ u16_to_be_bytes dst_port ++ [0x00; 0x10] ++ [0x00; 0x00]) 14.

Definition build_tcp_packet (src_port dst_port : Z) : PacketBuf :=
  mkPacketBuf ([0; 0; 0; 0; 0; 0] ++ [0; 0; 0; 0; 0; 0] ++ [0x08; 0x00] ++
    [0x45] ++ [0x00] ++ [0x00; 0x34] ++ [0x00; 0x00] ++ [0x40; 0x00] ++ [0x40] ++ [0x06] ++
    [0x00; 0x00] ++ [0xc0; 0xa8; 0x01; 0x01] ++ [0xc0; 0xa8; 0x01; 0x02] ++
    u16_to_be_bytes src_port ++ u16_to_be_bytes dst_port ++
    [0x00; 0x00; 0x00; 0x01] ++ [0x00; 0x00; 0x00; 0x00] ++ [0x50] ++ [0x02] ++ [0xff; 0xff] ++
    [0x00; 0x00] ++ [0x00; 0x00]) 14.

Definition build_arp_packet : PacketBuf :=
  mkPacketBuf ([0; 0; 0; 0; 0; 0] ++ [0; 0; 0; 0; 0; 0] ++ [0x08; 0x06] ++ replicate 28 0) 14.

Definition build_icmp_packet : PacketBuf :=
  mkPacketBuf ([0; 0; 0; 0; 0; 0] ++ [0; 0; 0; 0; 0; 0] ++ [0x08; 0x00] ++
    [0x45] ++ [0x00] ++ [0x00; 0x1c] ++ [0x00; 0x00] ++ [0x40; 0x00] ++ [0x40] ++ [0x01] ++
    [0x00; 0x00] ++ [0xc0; 0xa8; 0x01; 0x01] ++ [0xc0; 0xa8; 0x01; 0x02] ++
    [0x08] ++ [0x00] ++ [0x00; 0x00]) 14.

Definition build_tcp_packet_with_payload (src_port dst_port : Z) (payload : list Z) : PacketBuf :=
  let total_len := 40 + Z.of_nat (length payload) in
  mkPacketBuf ([0; 0; 0; 0; 0; 0] ++ [0; 0; 0; 0; 0; 0] ++ [0x08; 0x00] ++
    [0x45] ++ [0x00] ++ u16_to_be_bytes total_len ++ [0x00; 0x00] ++ [0x40; 0x00] ++ [0x40] ++ [0x06] ++
    [0x00; 0x00] ++ [0xc0; 0xa8; 0x01; 0x01] ++ [0xc0; 0xa8; 0x01; 0x02] ++
    u16_to_be_bytes src_port ++ u16_to_be_bytes dst_port ++
    [0x00; 0x00; 0x00; 0x01] ++ [0x00; 0x00; 0x00; 0x00] ++ [0x50] ++ [0x02] ++ [0xff; 0xff] ++
    [0x00; 0x00] ++ [0x00; 0x00] ++ payload) 14.

(** [assert_eq!(classify(&decode_packet(&buf).unwrap()), p)]. *)
Definition classified (buf : PacketBuf) (p : Protocol) : exec unit :=
  run! r := decode_packet buf in
  run! decoded := unwrap_ok r in
  run! q := classify decoded in
  assert_eq q p.

Definition crlf : string := String (chr 13) nl.

Definition test_classify_arp : exec unit := classified build_arp_packet Arp.
Definition test_classify_udp : exec unit := classified (build_udp_packet 12345 54321) Udp.
Definition test_classify_dns_udp : exec unit := classified (build_udp_packet 53 12345) Dns.
Definition test_classify_dns_tcp : exec unit := classified (build_tcp_packet 12345 53) Dns.
Definition test_classify_dhcp_server : exec unit := classified (build_udp_packet 67 12345) Dhcp.
Definition test_classify_dhcp_client : exec unit := classified (build_udp_packet 12345 68) Dhcp.
Definition test_classify_http : exec unit := classified (build_tcp_packet 12345 80) Http.
Definition test_classify_https : exec unit := classified (build_tcp_packet 12345 443) Https.
Definition test_classify_mdns : exec unit := classified (build_udp_packet 5353 12345) Mdns.
Definition test_classify_ntp : exec unit := classified (build_udp_packet 123 12345) Ntp.
Definition test_classify_icmp : exec unit := classified build_icmp_packet Icmp.
Definition test_classify_http_banner_get_request : exec unit :=
  classified (build_tcp_packet_with_payload 12345 8080
    (as_bytes ("GET / HTTP/1.1" +:+ crlf +:+ "Host: x" +:+ crlf +:+ crlf))) Http.
Definition test_classify_http_banner_post_request : exec unit :=
  classified (build_tcp_packet_with_payload 12345 9000
    (as_bytes ("POST /api HTTP/1.1" +:+ crlf +:+ crlf))) Http.
Definition test_classify_http_banner_response : exec unit :=
  classified (build_tcp_packet_with_payload 8080 12345
    (as_bytes ("HTTP/1.1 200 OK" +:+ crlf +:+ crlf))) Http.
Definition test_classify_http_banner_not_http : exec unit :=
  classified (build_tcp_packet_with_payload 12345 8080 ([0; 1; 2; 3] ++ as_bytes "random data")) Tcp.
Definition test_classify_http_banner_too_short : exec unit :=
  classified (build_tcp_packet_with_payload 12345 8080 (as_bytes "GE")) Tcp.
Definition test_classify_http_banner_empty_payload : exec unit :=
  classified (build_tcp_packet 12345 8080) Tcp.

Definition tests : suite :=
  [("test_classify_arp", test_classify_arp); ("test_classify_udp", test_classify_udp);
   ("test_classify_dns_udp", test_classify_dns_udp); ("test_classify_dns_tcp", test_classify_dns_tcp);
   ("test_classify_dhcp_server", test_classify_dhcp_server);
   ("test_classify_dhcp_client", test_classify_dhcp_client); ("test_classify_http", test_classify_http);
   ("test_classify_https", test_classify_https); ("test_classify_mdns", test_classify_mdns);
   ("test_classify_ntp", test_classify_ntp); ("test_classify_icmp", test_classify_icmp);
   ("test_classify_http_banner_get_request", test_classify_http_banner_get_request);
   ("test_classify_http_banner_post_request", test_classify_http_banner_post_request);
   ("test_classify_http_banner_response", test_classify_http_banner_response);
   ("test_classify_http_banner_not_http", test_classify_http_banner_not_http);
   ("test_classify_http_banner_too_short", test_classify_http_banner_too_short);
   ("test_classify_http_banner_empty_payload", test_classify_http_banner_empty_payload)].

End ClassifierTests.

(** * crates/protocol/src/dhcp.rs *)

Module DhcpTests.

Definition build_dhcp_payload (name : string) : list Z :=
  replicate 240 0 ++ [0x63; 0x82; 0x53; 0x63] ++ [53] ++ [1] ++ [3] ++
  [12] ++ [Z.of_nat (String.length name)] ++ as_bytes name ++ [255].

Definition test_dhcp_parse_hostname : exec unit :=
  let payload := build_dhcp_payload "raspberrypi" in
  run! r := parse_dhcp payload in
  run! info := unwrap r in
  assert_eq (hostname info) (Some "raspberrypi") ;!
  assert_eq (message_type info) (Some 3).

Definition test_dhcp_parse_empty_hostname : exec unit :=
  let payload := build_dhcp_payload "" in
  run! r := parse_dhcp payload in
  run! info := unwrap r in
  assert_that (is_none (hostname info)).

Definition test_dhcp_parse_too_short : exec unit :=
  run! result := parse_dhcp (replicate 10 0) in
  assert_that (is_none result).

Definition test_dhcp_parse_no_magic_cookie : exec unit :=
  let payload := <[243%nat := 0x00]> (<[242%nat := 0x00]> (<[241%nat := 0x00]>
    (<[240%nat := 0x00]> (replicate 244 0)))) in
  run! result := parse_dhcp payload in
  assert_that (is_none result).

Definition test_dhcp_parse_vendor_class : exec unit :=
  let buf := replicate 240 0 ++ [0x63; 0x82; 0x53; 0x63] ++ [60] ++ [9] ++ as_bytes "udhcp 1.0" ++ [255] in
  run! r := parse_dhcp buf in
  run! info := unwrap r in
  assert_eq (vendor_class info) (Some "udhcp 1.0").

Definition test_dhcp_parse_multiple_options : exec unit :=
  let buf := replicate 240 0 ++ [0x63; 0x82; 0x53; 0x63] ++ [53] ++ [1] ++ [2] ++
    [12] ++ [5] ++ as_bytes "my-pc" ++ [60] ++ [6] ++ as_bytes "dhcpcd" ++ [255] in
  run! r := parse_dhcp buf in
  run! info := unwrap r in
  assert_eq (hostname info) (Some "my-pc") ;!
  assert_eq (vendor_class info) (Some "dhcpcd") ;!
  assert_eq (message_type info) (Some 2).

Definition tests : suite :=
  [("test_dhcp_parse_hostname", test_dhcp_parse_hostname);
   ("test_dhcp_parse_empty_hostname", test_dhcp_parse_empty_hostname);
   ("test_dhcp_parse_too_short", test_dhcp_parse_too_short);
   ("test_dhcp_parse_no_magic_cookie", test_dhcp_parse_no_magic_cookie);
   ("test_dhcp_parse_vendor_class", test_dhcp_parse_vendor_class);
   ("test_dhcp_parse_multiple_options", test_dhcp_parse_multiple_options)].

End DhcpTests.

(** * crates/protocol/src/mdns.rs *)

Module MdnsTests.

Definition encode_name (buf : list Z) (name : string) : list Z :=
  foldl (fun buf label => buf ++ [Z.of_nat (String.length label)] ++ as_bytes label) buf
    (split_on "." name) ++ [0].

(** A record: its owner, type, class IN and TTL 120, a length to be filled in,
    and the data behind it. *)
Definition push_record (owner : list Z -> list Z) (record_type : Z) (rdata : list Z -> list Z)
  (buf : list Z) : list Z :=
  let buf := owner buf ++ u16_to_be_bytes record_type ++ [0x00; 0x01] ++ [0x00; 0x00; 0x00; 0x78] in
  let rdlen_pos := length buf in
  let buf := buf ++ [0x00; 0x00] in
  let rdata_start := length buf in
  let buf := rdata buf in
  let rdlen := Z.of_nat (length buf - rdata_start) in
  take rdlen_pos buf ++ u16_to_be_bytes rdlen ++ drop (rdlen_pos + 2) buf.

Definition build_mdns_response (service_type instance hostname : string) : list Z :=
  let buf := [0x00; 0x00] ++ [0x84; 0x00] ++ [0x00; 0x00] ++ [0x00; 0x02] ++ [0x00; 0x00] ++ [0x00; 0x00] in
  let buf := push_record (fun b => encode_name b service_type) RECORD_TYPE_PTR
               (fun b => encode_name b instance) buf in
  push_record (fun b => encode_name b instance) RECORD_TYPE_SRV
    (fun b => encode_name (b ++ [0x00; 0x00] ++ [0x00; 0x00] ++ [0x1f; 0x90]) hostname) buf.

Definition test_parse_mdns_extracts_hostname_and_instance : exec unit :=
  let payload := build_mdns_response "_airplay._tcp.local" "Living Room._airplay._tcp.local"
                   "living-room-apple-tv.local" in
  run! r := parse_mdns payload in
  run! info := unwrap r in
  assert_eq (mdns_hostname info) (Some "living-room-apple-tv.local") ;!
  assert_eq (instance info) (Some "Living Room._airplay._tcp.local") ;!
  assert_eq (service_type info) (Some "_airplay._tcp.local").

Definition test_parse_mdns_too_short : exec unit :=
  run! r := parse_mdns (replicate 5 0) in
  assert_that (is_none r).

Definition test_parse_mdns_empty_response : exec unit :=
  let payload := [0x00; 0x00; 0x84; 0x00; 0x00; 0x00; 0x00; 0x00; 0x00; 0x00; 0x00; 0x00] in
  run! r := parse_mdns payload in
  assert_that (is_none r).

Definition test_parse_mdns_with_compression_pointer : exec unit :=
  let service_type := "_airplay._tcp.local" in
  let instance := "Living Room._airplay._tcp.local" in
  let hostname := "apple-tv.local" in
  let buf := [0x00; 0x00; 0x84; 0x00; 0x00; 0x00; 0x00; 0x02; 0x00; 0x00; 0x00; 0x00] in
  let rdata_start := (length (encode_name buf service_type) + 10)%nat in
  let buf := push_record (fun b => encode_name b service_type) RECORD_TYPE_PTR
               (fun b => encode_name b instance) buf in
  let buf := push_record (fun b => b ++ [0xC0] ++ [Z.of_nat rdata_start]) RECORD_TYPE_SRV
               (fun b => encode_name (b ++ [0x00; 0x00; 0x00; 0x00; 0x00; 0x50]) hostname) buf in
  run! r := parse_mdns buf in
  run! info := unwrap r in
  assert_eq (mdns_hostname info) (Some "apple-tv.local") ;!
  assert_eq (Mdns.instance info) (Some "Living Room._airplay._tcp.local").

Definition test_parse_mdns_question_only : exec unit :=
  let buf := [0x00; 0x00; 0x00; 0x00; 0x00; 0x01; 0x00; 0x00; 0x00; 0x00; 0x00; 0x00] in
  let buf := encode_name buf "_airplay._tcp.local" ++ [0x00; 0x0C] ++ [0x00; 0x01] in
  run! r := parse_mdns buf in
  assert_that (is_none r).

Definition test_parse_mdns_srv_only : exec unit :=
  let buf := [0x00; 0x00; 0x84; 0x00; 0x00; 0x00; 0x00; 0x01; 0x00; 0x00; 0x00; 0x00] in
  let buf := push_record (fun b => encode_name b "printer._ipp._tcp.local") RECORD_TYPE_SRV
               (fun b => encode_name (b ++ [0x00; 0x00; 0x00; 0x00; 0x06; 0x51]) "hp-printer.local") buf in
  run! r := parse_mdns buf in
  run! info := unwrap r in
  assert_eq (mdns_hostname info) (Some "hp-printer.local") ;!
  assert_that (is_none (instance info)).

Definition test_parse_mdns_truncated_record : exec unit :=
  let payload := [0x00; 0x00; 0x84; 0x00; 0x00; 0x00; 0x00; 0x01; 0x00; 0x00; 0x00; 0x00; 0x00] in
  run! r := parse_mdns payload in
  assert_that (is_none r).

Definition tests : suite :=
  [("test_parse_mdns_extracts_hostname_and_instance", test_parse_mdns_extracts_hostname_and_instance);
   ("test_parse_mdns_too_short", test_parse_mdns_too_short);
   ("test_parse_mdns_empty_response", test_parse_mdns_empty_response);
   ("test_parse_mdns_with_compression_pointer", test_parse_mdns_with_compression_pointer);
   ("test_parse_mdns_question_only", test_parse_mdns_question_only);
   ("test_parse_mdns_srv_only", test_parse_mdns_srv_only);
   ("test_parse_mdns_truncated_record", test_parse_mdns_truncated_record)].

End MdnsTests.

(** * crates/protocol/src/ntp.rs *)

Module NtpTests.

Definition build_ntp_request (version mode leap : Z) : list Z :=
  let first_byte := Z.lor (Z.lor (Z.shiftl leap 6) (Z.shiftl version 3)) mode in
  <[1%nat := 1]> (<[0%nat := first_byte]> (replicate 48 0)).

Definition test_parse_ntp_v4_client_request : exec unit :=
  run! r := parse_ntp (build_ntp_request 4 3 0) in
  run! info := unwrap r in
  assert_eq (version info) 4 ;! assert_eq (mode info) 3 ;! assert_eq (leap_indicator info) 0.

Definition test_parse_ntp_v3_server_response : exec unit :=
  run! r := parse_ntp (build_ntp_request 3 4 0) in
  run! info := unwrap r in
  assert_eq (version info) 3 ;! assert_eq (mode info) 4.

Definition test_parse_ntp_leap_indicator_extracted : exec unit :=
  run! r := parse_ntp (build_ntp_request 4 3 3) in
  run! info := unwrap r in
  assert_eq (leap_indicator info) 3.

Definition test_parse_ntp_too_short : exec unit :=
  run! r := parse_ntp (replicate 47 0) in
  assert_that (is_none r).

Definition test_parse_ntp_invalid_version : exec unit :=
  run! r := parse_ntp (build_ntp_request 2 3 0) in
  assert_that (is_none r) ;!
  run! r := parse_ntp (build_ntp_request 5 3 0) in
  assert_that (is_none r).

Definition test_parse_ntp_invalid_mode : exec unit :=
  run! r := parse_ntp (build_ntp_request 4 0 0) in
  assert_that (is_none r) ;!
  run! r := parse_ntp (build_ntp_request 4 7 0) in
  assert_that (is_none r).

Definition test_parse_ntp_all_valid_modes : exec unit :=
  for_each [1; 2; 3; 4; 5; 6] (fun m =>
    run! r := parse_ntp (build_ntp_request 4 m 0) in
    run! info := unwrap r in
    assert_eq (mode info) m).

Definition tests : suite :=
  [("test_parse_ntp_v4_client_request", test_parse_ntp_v4_client_request);
   ("test_parse_ntp_v3_server_response", test_parse_ntp_v3_server_response);
   ("test_parse_ntp_leap_indicator_extracted", test_parse_ntp_leap_indicator_extracted);
   ("test_parse_ntp_too_short", test_parse_ntp_too_short);
   ("test_parse_ntp_invalid_version", test_parse_ntp_invalid_version);
   ("test_parse_ntp_invalid_mode", test_parse_ntp_invalid_mode);
   ("test_parse_ntp_all_valid_modes", test_parse_ntp_all_valid_modes)].

End NtpTests.

(** * They pass *)

Lemma decode_tests_pass : failing DecodeTests.tests = [].
Proof. vm_compute. reflexivity. Qed.
Lemma fixture_tests_pass : failing FixtureTests.tests = [].
Proof. vm_compute. reflexivity. Qed.
Lemma classifier_tests_pass : failing ClassifierTests.tests = [].
Proof. vm_compute. reflexivity. Qed.
Lemma dhcp_tests_pass : failing DhcpTests.tests = [].
Proof. vm_compute. reflexivity. Qed.
Lemma mdns_tests_pass : failing MdnsTests.tests = [].
Proof. vm_compute. reflexivity. Qed.
Lemma ntp_tests_pass : failing NtpTests.tests = [].
Proof. vm_compute. reflexivity. Qed.
