(* ===== verification/TestCommon.v ===== *)
(** The tests of the domain types ([crates/common]).  The text of JSON is
    [serde_json]'s: where a test compares it with a literal, the JSON value
    behind it is compared.  The two tests of [time.rs] look at the text
    [chrono] prints and have no counterpart. *)

From S2P Require Import Prelude Text Types Reference Net Json Testing.

#[local] Existing Instances ref_mac_text std_ip_text ref_chrono ref_serde_json.

(** [Timestamp::now()], and [MacAddress::from_str("00:11:22:33:44:55").unwrap()]. *)
Definition test_now : Timestamp := from_secs 1784419200.
Definition test_mac : exec MacAddress := unwrap (mac_parse "00:11:22:33:44:55").

(** [serde_json::to_string(&d).unwrap()] and [from_str(..).unwrap()]. *)
Definition device_through_json (d : Device.t) : exec Device.t :=
  unwrap (json_from_str (json_to_string (device_to_json d)) ≫= device_from_json).
Definition alert_through_json (a : Alert.t) : exec Alert.t :=
  unwrap (json_from_str (json_to_string (alert_to_json a)) ≫= alert_from_json).

(** * crates/common/src/types.rs *)

Module TypesTests.

Definition test_device_new : exec unit :=
  run! mac := test_mac in
  let device := Device.new mac test_now in
  assert_eq (Device.mac device) mac ;!
  assert_eq (Device.packet_count device) 0 ;!
  assert_eq (Device.bytes_sent device) 0 ;!
  assert_eq (Device.bytes_received device) 0 ;!
  assert_that (bool_decide (Device.protocols device = ∅)) ;!
  assert_that (bool_decide (Device.ips device = ∅)).

Definition test_device_record_sent : exec unit :=
  run! mac := test_mac in
  let device := Device.record_sent (Device.new mac test_now) 100 Tcp test_now in
  assert_eq (Device.packet_count device) 1 ;!
  assert_eq (Device.bytes_sent device) 100 ;!
  assert_that (bool_decide (Tcp ∈ Device.protocols device)).

Definition test_device_record_received : exec unit :=
  run! mac := test_mac in
  let device := Device.record_received (Device.new mac test_now) 200 Udp test_now in
  assert_eq (Device.packet_count device) 1 ;!
  assert_eq (Device.bytes_received device) 200 ;!
  assert_that (bool_decide (Udp ∈ Device.protocols device)).

Definition test_device_add_ip : exec unit :=
  run! mac := test_mac in
  let ip := ipv4_addr 192 168 1 10 in
  let device := Device.add_ip (Device.new mac test_now) ip in
  assert_that (bool_decide (ip ∈ Device.ips device)) ;!
  assert_eq (size (Device.ips device)) 1%nat.

Definition test_protocol_display : exec unit :=
  assert_eq (protocol_display Arp) "ARP" ;!
  assert_eq (protocol_display Tcp) "TCP" ;!
  assert_eq (protocol_display Dns) "DNS" ;!
  assert_eq (protocol_display (Other 42)) "UNKNOWN(42)".

Definition test_device_serde_roundtrip : exec unit :=
  run! mac := test_mac in
  let device := Device.new mac test_now in
  let device := Device.record_sent device 100 Tcp test_now in
  let device := Device.record_received device 200 Udp test_now in
  let device := Device.add_ip device (ipv4_addr 192 168 1 10) in
  run! deserialized := device_through_json device in
  assert_eq (Device.mac deserialized) (Device.mac device) ;!
  assert_eq (Device.packet_count deserialized) (Device.packet_count device) ;!
  assert_eq (Device.bytes_sent deserialized) (Device.bytes_sent device) ;!
  assert_eq (Device.bytes_received deserialized) (Device.bytes_received device) ;!
  assert_eq (Device.protocols deserialized) (Device.protocols device) ;!
  assert_eq (Device.ips deserialized) (Device.ips device).

Definition test_protocol_stats_incremented_on_record_sent : exec unit :=
  run! mac := test_mac in
  let device := Device.new mac test_now in
  let device := Device.record_sent device 100 Tcp test_now in
  let device := Device.record_sent device 200 Tcp test_now in
  let device := Device.record_sent device 50 Udp test_now in
  assert_eq (Device.protocol_stats device !! Tcp) (Some 2) ;!
  assert_eq (Device.protocol_stats device !! Udp) (Some 1) ;!
  assert_eq (Device.protocol_stats device !! Dns) None.

Definition test_protocol_stats_incremented_on_record_received : exec unit :=
  run! mac := test_mac in
  let device := Device.new mac test_now in
  let device := Device.record_received device 100 Dns test_now in
  let device := Device.record_received device 100 Dns test_now in
  let device := Device.record_received device 100 Dns test_now in
  assert_eq (Device.protocol_stats device !! Dns) (Some 3).

Definition test_dhcp_vendor_class_default_none : exec unit :=
  run! mac := test_mac in
  let device := Device.new mac test_now in
  assert_that (is_none (Device.dhcp_vendor_class device)) ;!
  assert_that (bool_decide (Device.protocol_stats device = ∅)).

Definition test_protocol_stats_serde_roundtrip : exec unit :=
  run! mac := test_mac in
  let device := Device.new mac test_now in
  let device := Device.record_sent device 100 Tcp test_now in
  let device := Device.record_sent device 200 Mdns test_now in
  let device := Device.set_dhcp_vendor_class (Some "MSFT 5.0") device in
  run! deserialized := device_through_json device in
  assert_eq (Device.protocol_stats deserialized) (Device.protocol_stats device) ;!
  assert_eq (Device.dhcp_vendor_class deserialized) (Device.dhcp_vendor_class device).

Definition tests : suite :=
  [("test_device_new", test_device_new); ("test_device_record_sent", test_device_record_sent);
   ("test_device_record_received", test_device_record_received);
   ("test_device_add_ip", test_device_add_ip); ("test_protocol_display", test_protocol_display);
   ("test_device_serde_roundtrip", test_device_serde_roundtrip);
   ("test_protocol_stats_incremented_on_record_sent", test_protocol_stats_incremented_on_record_sent);
   ("test_protocol_stats_incremented_on_record_received",
    test_protocol_stats_incremented_on_record_received);
   ("test_dhcp_vendor_class_default_none", test_dhcp_vendor_class_default_none);
   ("test_protocol_stats_serde_roundtrip", test_protocol_stats_serde_roundtrip)].

End TypesTests.

(** * crates/common/src/alert.rs *)

Module AlertTests.

Definition sample_device : exec Device.t :=
  run! mac := test_mac in Done (Device.new mac test_now).

Definition test_severity_display : exec unit :=
  assert_eq (severity_display Info) "info" ;!
  assert_eq (severity_display Warning) "warning" ;!
  assert_eq (severity_display Critical) "critical".

Definition test_severity_from_str : exec unit :=
  run! s := unwrap_ok (severity_from_str "info") in assert_eq s Info ;!
  run! s := unwrap_ok (severity_from_str "warning") in assert_eq s Warning ;!
  run! s := unwrap_ok (severity_from_str "warn") in assert_eq s Warning ;!
  run! s := unwrap_ok (severity_from_str "critical") in assert_eq s Critical ;!
  run! s := unwrap_ok (severity_from_str "CRITICAL") in assert_eq s Critical.

Definition test_severity_from_str_invalid : exec unit :=
  assert_that (is_err (severity_from_str "urgent")).

Definition test_severity_serde_roundtrip : exec unit :=
  let json := json_to_string (severity_to_json Warning) in
  assert_eq json (json_to_string (JStr "warning")) ;!
  run! recovered := unwrap (json_from_str json ≫= severity_from_json) in
  assert_eq recovered Warning.

Definition test_alert_event_type_display : exec unit :=
  assert_eq (event_type_display NewDevice) "new_device" ;!
  assert_eq (event_type_display DeviceOffline) "device_offline" ;!
  assert_eq (event_type_display ProtocolChange) "protocol_change" ;!
  assert_eq (event_type_display (Custom "rogue_dhcp")) "rogue_dhcp".

Definition test_alert_new : exec unit :=
  run! device := sample_device in
  let alert := Alert.new "new-device-alert" Info NewDevice device
                 "New device 00:11:22:33:44:55 discovered" test_now in
  assert_eq (Alert.id alert) 0 ;!
  assert_eq (Alert.rule_name alert) "new-device-alert" ;!
  assert_eq (Alert.severity alert) Info ;!
  assert_eq (Alert.event_type alert) NewDevice ;!
  assert_eq (Alert.mac alert) (Device.mac device) ;!
  assert_that (negb (Alert.acknowledged alert)).

Definition test_alert_serde_roundtrip : exec unit :=
  run! device := sample_device in
  let alert := Alert.new "device-offline" Warning DeviceOffline device "Device silent for 30 min" test_now in
  run! recovered := alert_through_json alert in
  assert_eq (Alert.rule_name recovered) (Alert.rule_name alert) ;!
  assert_eq (Alert.severity recovered) (Alert.severity alert) ;!
  assert_eq (Alert.event_type recovered) (Alert.event_type alert) ;!
  assert_eq (Alert.mac recovered) (Alert.mac alert) ;!
  assert_eq (Alert.message recovered) (Alert.message alert).

Definition tests : suite :=
  [("test_severity_display", test_severity_display); ("test_severity_from_str", test_severity_from_str);
   ("test_severity_from_str_invalid", test_severity_from_str_invalid);
   ("test_severity_serde_roundtrip", test_severity_serde_roundtrip);
   ("test_alert_event_type_display", test_alert_event_type_display);
   ("test_alert_new", test_alert_new); ("test_alert_serde_roundtrip", test_alert_serde_roundtrip)].

End AlertTests.

(** * crates/common/src/history_store.rs *)

Module SnapshotTests.

Definition sample_device : exec Device.t :=
  run! mac := test_mac in
  let device := Device.new mac test_now in
  let device := Device.record_sent device 100 Tcp test_now in
  let device := Device.add_ip device (ipv4_addr 192 168 1 10) in
  let device := Device.set_vendor (Some "TP-Link") device in
  Done (Device.set_hostname (Some "living-room-plug") device).

Definition test_snapshot_from_device : exec unit :=
  run! device := sample_device in
  let snapshot := Snapshot.from_device device "2026-07-19" test_now in
  assert_eq (Snapshot.mac snapshot) (Device.mac device) ;!
  assert_eq (Snapshot.snapshot_date snapshot) "2026-07-19" ;!
  assert_eq (Snapshot.packet_count snapshot) 1 ;!
  assert_eq (Snapshot.bytes_sent snapshot) 100 ;!
  assert_eq (Snapshot.hostname snapshot) (Some "living-room-plug") ;!
  assert_eq (Snapshot.vendor snapshot) (Some "TP-Link") ;!
  assert_that (bool_decide (ipv4_addr 192 168 1 10 ∈ Snapshot.ips snapshot)) ;!
  assert_that (bool_decide (Tcp ∈ Snapshot.protocols snapshot)).

Definition test_snapshot_independent_of_device_changes : exec unit :=
  run! device := sample_device in
  let snapshot := Snapshot.from_device device "2026-07-19" test_now in
  let device := Device.record_sent device 999 Udp test_now in
  let device := Device.set_hostname (Some "changed") device in
  assert_eq (Snapshot.packet_count snapshot) 1 ;!
  assert_eq (Snapshot.hostname snapshot) (Some "living-room-plug").

Definition tests : suite :=
  [("test_snapshot_from_device", test_snapshot_from_device);
   ("test_snapshot_independent_of_device_changes", test_snapshot_independent_of_device_changes)].

End SnapshotTests.

(** * They pass *)

Lemma types_tests_pass : failing TypesTests.tests = [].
Proof. vm_compute. reflexivity. Qed.
Lemma alert_tests_pass : failing AlertTests.tests = [].
Proof. vm_compute. reflexivity. Qed.
Lemma snapshot_tests_pass : failing SnapshotTests.tests = [].
Proof. vm_compute. reflexivity. Qed.
