(* ===== verification/TestStores.v ===== *)
(** The tests of the stores: [crates/storage] and the in-memory alert store of
    [crates/rules].  A file is the table it holds; opening it loads the rows
    of the table.  [Timestamp::now()] is a second later at each alert. *)

From S2P Require Import Prelude Text Types Reference Net Json Stores Sqlite HistorySqlite Alerts AlertSqlite.
From S2P Require Import Testing TestCommon.

#[local] Existing Instances ref_mac_text std_ip_text ref_chrono ref_serde_json.

(** [MacAddress::from_str(s).unwrap()] and [Device::new] of it. *)
Definition mac_of (s : string) : exec MacAddress := unwrap (mac_parse s).
Definition test_device (mac_str : string) : exec Device.t :=
  run! mac := mac_of mac_str in Done (Device.new mac test_now).

(** [format!("00:11:22:33:44:{i:02x}")]. *)
Definition numbered_mac (i : Z) : string := "00:11:22:33:44:" +:+ to_ascii_lowercase (hex_byte i "").

(** The calls of the traits, with [unwrap]. *)
Section Calls.
Context {S : Type} {DS : DeviceStore S}.
Definition upsert (s : S) (d : Device.t) : exec S :=
  let (s', r) := ds_upsert s d in unwrap_ok r ;! Done s'.
Definition get (s : S) (m : MacAddress) : exec (option Device.t) := unwrap_ok (ds_get s m).
Definition list_all (s : S) : exec (list Device.t) := unwrap_ok (ds_list s).
Definition count (s : S) : exec nat := unwrap_ok (ds_count s).
End Calls.
Section AlertCalls.
Context {A : Type} {AS : AlertStore A}.
Definition insert_alert (s : A) (a : Alert.t) : exec (A * AlertId) :=
  let (s', r) := as_insert s a in run! i := unwrap_ok r in Done (s', i).
Definition acknowledge_alert (s : A) (i : AlertId) : exec A :=
  let (s', r) := as_acknowledge s i in unwrap_ok r ;! Done s'.
Definition delete_alert (s : A) (i : AlertId) : exec A :=
  let (s', r) := as_delete s i in unwrap_ok r ;! Done s'.
Fixpoint insert_alerts (s : A) (l : list (exec Alert.t)) : exec A :=
  match l with
  | [] => Done s
  | a :: l' => run! x := a in run! p := insert_alert s x in insert_alerts p.1 l'
  end.
End AlertCalls.

(** [alerts[0]]. *)
Definition first {T} (l : list T) : exec T := unwrap (l !! 0%nat).

(** * crates/storage/src/store.rs *)

Module MemoryStoreTests.

Definition test_memory_store_upsert_and_get : exec unit :=
  let store := MemoryStore.new in
  run! mac := mac_of "00:11:22:33:44:55" in
  run! device := test_device "00:11:22:33:44:55" in
  run! store := upsert store device in
  run! found := get store mac in
  run! retrieved := unwrap found in
  assert_eq (Device.mac retrieved) mac.

Definition test_memory_store_get_nonexistent : exec unit :=
  let store := MemoryStore.new in
  run! mac := mac_of "00:11:22:33:44:55" in
  run! result := get store mac in
  assert_that (is_none result).

Definition test_memory_store_list : exec unit :=
  let store := MemoryStore.new in
  run! d1 := test_device "00:11:22:33:44:55" in
  run! store := upsert store d1 in
  run! d2 := test_device "00:11:22:33:44:66" in
  run! store := upsert store d2 in
  run! devices := list_all store in
  assert_eq (length devices) 2%nat.

Definition test_memory_store_count : exec unit :=
  let store := MemoryStore.new in
  run! n := count store in
  assert_eq n 0%nat ;!
  run! d := test_device "00:11:22:33:44:55" in
  run! store := upsert store d in
  run! n := count store in
  assert_eq n 1%nat.

Definition test_memory_store_update_existing : exec unit :=
  let store := MemoryStore.new in
  run! mac := mac_of "00:11:22:33:44:55" in
  run! device := test_device "00:11:22:33:44:55" in
  run! store := upsert store (Device.record_sent device 100 Tcp test_now) in
  run! device2 := test_device "00:11:22:33:44:55" in
  run! store := upsert store (Device.record_sent device2 200 Udp test_now) in
  run! found := get store mac in
  run! retrieved := unwrap found in
  assert_eq (Device.packet_count retrieved) 1 ;!
  assert_eq (Device.bytes_sent retrieved) 200.

Definition tests : suite :=
  [("test_memory_store_upsert_and_get", test_memory_store_upsert_and_get);
   ("test_memory_store_get_nonexistent", test_memory_store_get_nonexistent);
   ("test_memory_store_list", test_memory_store_list);
   ("test_memory_store_count", test_memory_store_count);
   ("test_memory_store_update_existing", test_memory_store_update_existing)].

End MemoryStoreTests.

(** * crates/storage/src/sqlite.rs *)

Module SqliteStoreTests.

(** [SqliteStore::open(&path).unwrap().unwrap()] on a file with this table:
    every statement runs, and the query yields the rows. *)
Definition open_file (tbl : devices_table) : exec SqliteStore.t :=
  run! o := unwrap_ok (SqliteStore.open "row error" "edgeshield-test.db" test_now
    (SqliteStore.mkOpenIo (Ok tt) (Ok tt) (Ok tt) (fun _ => Ok tt) (Ok tt) (Ok (map_to_list tbl).*2)) tbl) in
  unwrap o.
Definition open_test_store : exec SqliteStore.t := open_file ∅.
Definition flush (s : SqliteStore.t) : exec (SqliteStore.t * nat) :=
  let (s', r) := SqliteStore.flush "bind error" elements (fun _ => None) s in
  run! n := unwrap_ok r in Done (s', n).

Definition test_sqlite_store_upsert_and_get : exec unit :=
  run! store := open_test_store in
  run! mac := mac_of "00:11:22:33:44:55" in
  run! device := test_device "00:11:22:33:44:55" in
  run! store := upsert store device in
  run! found := get store mac in
  run! retrieved := unwrap found in
  assert_eq (Device.mac retrieved) mac.

Definition test_sqlite_store_get_nonexistent : exec unit :=
  run! store := open_test_store in
  run! mac := mac_of "00:11:22:33:44:55" in
  run! result := get store mac in
  assert_that (is_none result).

Definition test_sqlite_store_list : exec unit :=
  run! store := open_test_store in
  run! d1 := test_device "00:11:22:33:44:55" in
  run! store := upsert store d1 in
  run! d2 := test_device "00:11:22:33:44:66" in
  run! store := upsert store d2 in
  run! devices := list_all store in
  assert_eq (length devices) 2%nat.

Definition test_sqlite_store_count : exec unit :=
  run! store := open_test_store in
  run! n := count store in
  assert_eq n 0%nat ;!
  run! d := test_device "00:11:22:33:44:55" in
  run! store := upsert store d in
  run! n := count store in
  assert_eq n 1%nat.

Definition test_sqlite_store_update_existing : exec unit :=
  run! store := open_test_store in
  run! mac := mac_of "00:11:22:33:44:55" in
  run! device := test_device "00:11:22:33:44:55" in
  run! store := upsert store (Device.record_sent device 100 Tcp test_now) in
  run! device2 := test_device "00:11:22:33:44:55" in
  run! store := upsert store (Device.record_sent device2 200 Udp test_now) in
  run! found := get store mac in
  run! retrieved := unwrap found in
  assert_eq (Device.packet_count retrieved) 1 ;!
  assert_eq (Device.bytes_sent retrieved) 200.

Definition test_sqlite_store_roundtrip_protocols : exec unit :=
  run! store := open_test_store in
  run! mac := mac_of "00:11:22:33:44:55" in
  let device := Device.new mac test_now in
  let device := Device.record_sent device 100 Tcp test_now in
  let device := Device.record_sent device 200 Udp test_now in
  let device := Device.record_sent device 300 Dns test_now in
  let device := Device.add_ip device (ipv4_addr 192 168 1 10) in
  run! store := upsert store device in
  run! found := get store mac in
  run! retrieved := unwrap found in
  assert_eq (size (Device.protocols retrieved)) 3%nat ;!
  assert_that (bool_decide (Tcp ∈ Device.protocols retrieved)) ;!
  assert_that (bool_decide (Udp ∈ Device.protocols retrieved)) ;!
  assert_that (bool_decide (Dns ∈ Device.protocols retrieved)) ;!
  assert_that (bool_decide (ipv4_addr 192 168 1 10 ∈ Device.ips retrieved)).

Definition test_sqlite_store_persistence : exec unit :=
  run! store := open_file ∅ in
  run! d1 := test_device "00:11:22:33:44:55" in
  run! store := upsert store d1 in
  run! d2 := test_device "00:11:22:33:44:66" in
  run! store := upsert store d2 in
  run! f := flush store in
  run! store := open_file (SqliteStore.conn f.1) in
  run! n := count store in
  assert_eq n 2%nat.

Definition test_serde_ips_roundtrip : exec unit :=
  let ips : gset IpAddr := {[ipv4_addr 192 168 1 10]} ∪ {[ipv4_addr 10 0 0 1]} in
  assert_eq ips (ips_from_json (ips_to_json ips)).

Definition test_serde_protocols_roundtrip : exec unit :=
  let protocols : gset Protocol := {[Tcp]} ∪ {[Dns]} ∪ {[Other 42]} in
  assert_eq protocols (protocols_from_json (protocols_to_json protocols)).

Definition test_serde_protocol_stats_roundtrip : exec unit :=
  let stats : gmap Protocol Z := <[Other 42 := 1]> (<[Mdns := 5]> (<[Tcp := 10]> ∅)) in
  assert_eq stats (protocol_stats_from_json (protocol_stats_to_json stats)).

Definition test_sqlite_store_roundtrip_dhcp_vendor_class_and_stats : exec unit :=
  run! store := open_test_store in
  run! mac := mac_of "00:11:22:33:44:55" in
  let device := Device.new mac test_now in
  let device := Device.record_sent device 100 Tcp test_now in
  let device := Device.record_sent device 200 Tcp test_now in
  let device := Device.record_sent device 50 Mdns test_now in
  let device := Device.set_dhcp_vendor_class (Some "android-dhcp-13") device in
  run! store := upsert store device in
  run! found := get store mac in
  run! retrieved := unwrap found in
  assert_eq (Device.dhcp_vendor_class retrieved) (Some "android-dhcp-13") ;!
  assert_eq (Device.protocol_stats retrieved !! Tcp) (Some 2) ;!
  assert_eq (Device.protocol_stats retrieved !! Mdns) (Some 1).

Definition test_sqlite_store_persists_new_fields_across_reopen : exec unit :=
  run! store := open_file ∅ in
  run! device := test_device "00:11:22:33:44:55" in
  let device := Device.record_sent device 100 Tcp test_now in
  let device := Device.set_dhcp_vendor_class (Some "MSFT 5.0") device in
  run! store := upsert store device in
  run! f := flush store in
  run! store := open_file (SqliteStore.conn f.1) in
  run! mac := mac_of "00:11:22:33:44:55" in
  run! found := get store mac in
  run! retrieved := unwrap found in
  assert_eq (Device.dhcp_vendor_class retrieved) (Some "MSFT 5.0") ;!
  assert_eq (Device.protocol_stats retrieved !! Tcp) (Some 1).

Definition test_writeback_cache_flush_persists_dirty : exec unit :=
  run! store := open_file ∅ in
  run! device := test_device "00:11:22:33:44:55" in
  run! store := upsert store (Device.record_sent device 100 Tcp test_now) in
  run! n := count store in
  assert_eq n 1%nat ;!
  run! f := flush store in
  assert_eq f.2 1%nat ;!
  run! g := flush f.1 in
  assert_eq g.2 0%nat ;!
  run! store := open_file (SqliteStore.conn g.1) in
  run! n := count store in
  assert_eq n 1%nat ;!
  run! mac := mac_of "00:11:22:33:44:55" in
  run! found := get store mac in
  run! device := unwrap found in
  assert_eq (Device.bytes_sent device) 100.

Definition test_writeback_cache_marks_dirty_on_upsert : exec unit :=
  run! store := open_test_store in
  run! device := test_device "00:11:22:33:44:55" in
  run! store := upsert store device in
  run! f := flush store in
  assert_eq f.2 1%nat ;!
  run! g := flush f.1 in
  assert_eq g.2 0%nat.

Definition test_writeback_cache_loads_existing_on_open : exec unit :=
  run! store := open_file ∅ in
  run! d1 := test_device "00:11:22:33:44:55" in
  run! store := upsert store d1 in
  run! d2 := test_device "00:11:22:33:44:66" in
  run! store := upsert store d2 in
  run! f := flush store in
  run! store := open_file (SqliteStore.conn f.1) in
  run! n := count store in
  assert_eq n 2%nat ;!
  run! mac := mac_of "00:11:22:33:44:55" in
  run! found := get store mac in
  assert_that (is_some found).

Definition tests : suite :=
  [("test_sqlite_store_upsert_and_get", test_sqlite_store_upsert_and_get);
   ("test_sqlite_store_get_nonexistent", test_sqlite_store_get_nonexistent);
   ("test_sqlite_store_list", test_sqlite_store_list); ("test_sqlite_store_count", test_sqlite_store_count);
   ("test_sqlite_store_update_existing", test_sqlite_store_update_existing);
   ("test_sqlite_store_roundtrip_protocols", test_sqlite_store_roundtrip_protocols);
   ("test_sqlite_store_persistence", test_sqlite_store_persistence);
   ("test_serde_ips_roundtrip", test_serde_ips_roundtrip);
   ("test_serde_protocols_roundtrip", test_serde_protocols_roundtrip);
   ("test_serde_protocol_stats_roundtrip", test_serde_protocol_stats_roundtrip);
   ("test_sqlite_store_roundtrip_dhcp_vendor_class_and_stats",
    test_sqlite_store_roundtrip_dhcp_vendor_class_and_stats);
   ("test_sqlite_store_persists_new_fields_across_reopen",
    test_sqlite_store_persists_new_fields_across_reopen);
   ("test_writeback_cache_flush_persists_dirty", test_writeback_cache_flush_persists_dirty);
   ("test_writeback_cache_marks_dirty_on_upsert", test_writeback_cache_marks_dirty_on_upsert);
   ("test_writeback_cache_loads_existing_on_open", test_writeback_cache_loads_existing_on_open)].

End SqliteStoreTests.

(** * crates/rules/src/store.rs *)

Module InMemoryAlertTests.


Definition sample_alert (rule_name mac_str : string) (now : Timestamp) : exec Alert.t :=
  run! mac := mac_of mac_str in
  Done (Alert.new rule_name Info NewDevice (Device.new mac now) "test alert" now).

Definition test_insert_and_get : exec unit :=
  let store := InMemoryAlertStore.new in
  run! alert := sample_alert "new-device" "00:11:22:33:44:55" test_now in
  run! (store, id) := insert_alert store alert in
  assert_eq id 1 ;!
  run! found := unwrap_ok (as_get store id) in
  run! retrieved := unwrap found in
  assert_eq (Alert.rule_name retrieved) "new-device".

Definition test_list_alerts_most_recent_first : exec unit :=
  let store := InMemoryAlertStore.new in
  run! store := insert_alerts store
    [sample_alert "rule-a" "00:11:22:33:44:55" test_now;
     sample_alert "rule-b" "00:11:22:33:44:66" (test_now + 10 * ns_per_ms)] in
  run! alerts := unwrap_ok (as_list store AlertFilter.default) in
  assert_eq (length alerts) 2%nat ;!
  run! a := first alerts in
  assert_eq (Alert.rule_name a) "rule-b".

Definition with_severity (s : Severity) (a : Alert.t) : Alert.t :=
  Alert.mk (Alert.id a) (Alert.rule_name a) s (Alert.event_type a) (Alert.mac a) (Alert.message a)
    (Alert.device_snapshot a) (Alert.timestamp a) (Alert.acknowledged a).
Definition test_list_alerts_filter_by_severity : exec unit :=
  let store := InMemoryAlertStore.new in
  run! a1 := sample_alert "info-rule" "00:11:22:33:44:55" test_now in
  run! a2 := sample_alert "warn-rule" "00:11:22:33:44:66" test_now in
  run! store := insert_alerts store [Done (with_severity Info a1); Done (with_severity Warning a2)] in
  run! alerts := unwrap_ok (as_list store (AlertFilter.mk (Some Warning) None None None)) in
  assert_eq (length alerts) 1%nat ;!
  run! a := first alerts in
  assert_eq (Alert.rule_name a) "warn-rule".

Definition test_acknowledge_and_suppression : exec unit :=
  let store := InMemoryAlertStore.new in
  run! alert := sample_alert "new-device" "00:11:22:33:44:55" test_now in
  run! (store, id) := insert_alert store alert in
  run! mac := mac_of "00:11:22:33:44:55" in
  run! acked := unwrap_ok (as_is_acknowledged store "new-device" mac) in
  assert_that (negb acked) ;!
  run! store := acknowledge_alert store id in
  run! acked := unwrap_ok (as_is_acknowledged store "new-device" mac) in
  assert_that acked.

Definition test_delete_alert : exec unit :=
  let store := InMemoryAlertStore.new in
  run! alert := sample_alert "new-device" "00:11:22:33:44:55" test_now in
  run! (store, id) := insert_alert store alert in
  run! n := unwrap_ok (as_count store) in
  assert_eq n 1%nat ;!
  run! store := delete_alert store id in
  run! n := unwrap_ok (as_count store) in
  assert_eq n 0%nat ;!
  run! found := unwrap_ok (as_get store id) in
  assert_that (is_none found).

Definition test_list_alerts_limit : exec unit :=
  let store := InMemoryAlertStore.new in
  run! store := insert_alerts store ((fun i =>
    run! mac := mac_of (numbered_mac i) in
    Done (Alert.new "rule" Info NewDevice (Device.new mac test_now) "test" test_now)) <$>
    [0; 1; 2; 3; 4; 5; 6; 7; 8; 9]) in
  run! alerts := unwrap_ok (as_list store (AlertFilter.mk None None None (Some 3%nat))) in
  assert_eq (length alerts) 3%nat.

Definition tests : suite :=
  [("test_insert_and_get", test_insert_and_get);
   ("test_list_alerts_most_recent_first", test_list_alerts_most_recent_first);
   ("test_list_alerts_filter_by_severity", test_list_alerts_filter_by_severity);
   ("test_acknowledge_and_suppression", test_acknowledge_and_suppression);
   ("test_delete_alert", test_delete_alert);
   ("test_list_alerts_limit", test_list_alerts_limit)].

End InMemoryAlertTests.

(** * crates/storage/src/alert_sqlite.rs *)

Module SqliteAlertTests.

#[local] Instance test_alert_store : AlertStore SqliteAlertStore.t :=
  sqlite_alert_store test_now "row error" "full error".

(** [SqliteAlertStore::open(&path).unwrap().unwrap()] on a file with this
    table. *)
Definition open_file (tbl : SqliteAlertStore.t) : exec SqliteAlertStore.t :=
  run! o := unwrap_ok (SqliteAlertStore.open "edgeshield-alert-test.db"
    (mkTableIo (Ok tt) (Ok tt) (Ok tt)) tbl) in
  unwrap o.
Definition open_test_store : exec SqliteAlertStore.t := open_file SqliteAlertStore.empty.

Definition sample_alert (rule_name mac_str : string) (now : Timestamp) : exec Alert.t :=
  run! mac := mac_of mac_str in
  Done (Alert.new rule_name Info NewDevice (Device.new mac now) "test alert" now).

Definition test_sqlite_alert_insert_and_get : exec unit :=
  run! store := open_test_store in
  run! alert := sample_alert "new-device" "00:11:22:33:44:55" test_now in
  run! (store, id) := insert_alert store alert in
  assert_that (0 <? id) ;!
  run! found := unwrap_ok (as_get store id) in
  run! retrieved := unwrap found in
  assert_eq (Alert.rule_name retrieved) "new-device" ;!
  assert_eq (Alert.severity retrieved) Info ;!
  assert_that (negb (Alert.acknowledged retrieved)).

Definition test_sqlite_alert_list_most_recent_first : exec unit :=
  run! store := open_test_store in
  run! store := insert_alerts store
    [sample_alert "rule-a" "00:11:22:33:44:55" test_now;
     sample_alert "rule-b" "00:11:22:33:44:66" (test_now + 10 * ns_per_ms)] in
  run! alerts := unwrap_ok (as_list store AlertFilter.default) in
  assert_eq (length alerts) 2%nat ;!
  run! a := first alerts in
  assert_eq (Alert.rule_name a) "rule-b".

Definition with_severity (s : Severity) (a : Alert.t) : Alert.t :=
  Alert.mk (Alert.id a) (Alert.rule_name a) s (Alert.event_type a) (Alert.mac a) (Alert.message a)
    (Alert.device_snapshot a) (Alert.timestamp a) (Alert.acknowledged a).
Definition test_sqlite_alert_filter_by_severity : exec unit :=
  run! store := open_test_store in
  run! a1 := sample_alert "info-rule" "00:11:22:33:44:55" test_now in
  run! a2 := sample_alert "warn-rule" "00:11:22:33:44:66" test_now in
  run! store := insert_alerts store [Done (with_severity Info a1); Done (with_severity Warning a2)] in
  run! alerts := unwrap_ok (as_list store (AlertFilter.mk (Some Warning) None None None)) in
  assert_eq (length alerts) 1%nat ;!
  run! a := first alerts in
  assert_eq (Alert.rule_name a) "warn-rule".

Definition test_sqlite_alert_acknowledge_and_suppression : exec unit :=
  run! store := open_test_store in
  run! alert := sample_alert "new-device" "00:11:22:33:44:55" test_now in
  run! (store, id) := insert_alert store alert in
  run! mac := mac_of "00:11:22:33:44:55" in
  run! acked := unwrap_ok (as_is_acknowledged store "new-device" mac) in
  assert_that (negb acked) ;!
  run! store := acknowledge_alert store id in
  run! acked := unwrap_ok (as_is_acknowledged store "new-device" mac) in
  assert_that acked.

Definition test_sqlite_alert_delete : exec unit :=
  run! store := open_test_store in
  run! alert := sample_alert "new-device" "00:11:22:33:44:55" test_now in
  run! (store, id) := insert_alert store alert in
  run! n := unwrap_ok (as_count store) in
  assert_eq n 1%nat ;!
  run! store := delete_alert store id in
  run! n := unwrap_ok (as_count store) in
  assert_eq n 0%nat ;!
  run! found := unwrap_ok (as_get store id) in
  assert_that (is_none found).

Definition test_sqlite_alert_persistence_across_reopen : exec unit :=
  run! store := open_file SqliteAlertStore.empty in
  run! store := insert_alerts store [sample_alert "persistent-rule" "00:11:22:33:44:55" test_now] in
  run! store := open_file store in
  run! n := unwrap_ok (as_count store) in
  assert_eq n 1%nat ;!
  run! alerts := unwrap_ok (as_list store AlertFilter.default) in
  run! a := first alerts in
  assert_eq (Alert.rule_name a) "persistent-rule".

Definition test_sqlite_alert_filter_by_acknowledged : exec unit :=
  run! store := open_test_store in
  run! a1 := sample_alert "ack-rule" "00:11:22:33:44:55" test_now in
  run! (store, id1) := insert_alert store a1 in
  run! store := insert_alerts store [sample_alert "unack-rule" "00:11:22:33:44:66" test_now] in
  run! store := acknowledge_alert store id1 in
  run! alerts := unwrap_ok (as_list store (AlertFilter.mk None (Some true) None None)) in
  assert_eq (length alerts) 1%nat ;!
  run! a := first alerts in
  assert_eq (Alert.rule_name a) "ack-rule".

Definition test_sqlite_alert_filter_by_rule_name : exec unit :=
  run! store := open_test_store in
  run! store := insert_alerts store
    [sample_alert "rule-a" "00:11:22:33:44:55" test_now; sample_alert "rule-b" "00:11:22:33:44:66" test_now] in
  run! alerts := unwrap_ok (as_list store (AlertFilter.mk None None (Some "rule-b") None)) in
  assert_eq (length alerts) 1%nat ;!
  run! a := first alerts in
  assert_eq (Alert.rule_name a) "rule-b".

Definition test_sqlite_alert_list_limit : exec unit :=
  run! store := open_test_store in
  run! store := insert_alerts store ((fun i =>
    run! mac := mac_of (numbered_mac i) in
    Done (Alert.new "rule" Info NewDevice (Device.new mac test_now) "test" test_now)) <$>
    [0; 1; 2; 3; 4; 5; 6; 7; 8; 9]) in
  run! alerts := unwrap_ok (as_list store (AlertFilter.mk None None None (Some 3%nat))) in
  assert_eq (length alerts) 3%nat.

Definition tests : suite :=
  [("test_sqlite_alert_insert_and_get", test_sqlite_alert_insert_and_get);
   ("test_sqlite_alert_list_most_recent_first", test_sqlite_alert_list_most_recent_first);
   ("test_sqlite_alert_filter_by_severity", test_sqlite_alert_filter_by_severity);
   ("test_sqlite_alert_acknowledge_and_suppression", test_sqlite_alert_acknowledge_and_suppression);
   ("test_sqlite_alert_delete", test_sqlite_alert_delete);
   ("test_sqlite_alert_persistence_across_reopen", test_sqlite_alert_persistence_across_reopen);
   ("test_sqlite_alert_filter_by_acknowledged", test_sqlite_alert_filter_by_acknowledged);
   ("test_sqlite_alert_filter_by_rule_name", test_sqlite_alert_filter_by_rule_name);
   ("test_sqlite_alert_list_limit", test_sqlite_alert_list_limit)].

End SqliteAlertTests.

(** * crates/storage/src/history_sqlite.rs *)

Module SqliteHistoryTests.

#[local] Instance test_history_store : DeviceHistoryStore history_table :=
  sqlite_history_store test_now "bind error" "row error".

Definition sample_device (mac_str : string) (packets : nat) : exec Device.t :=
  run! mac := mac_of mac_str in
  let device := Nat.iter packets (fun d => Device.record_sent d 100 Tcp test_now) (Device.new mac test_now) in
  let device := Device.set_hostname (Some "test-device") device in
  Done (Device.set_vendor (Some "TestVendor") device).

Definition open_file (tbl : history_table) : exec history_table :=
  run! o := unwrap_ok (SqliteHistoryStore.open "edgeshield-history-test.db"
    (mkTableIo (Ok tt) (Ok tt) (Ok tt)) tbl) in
  unwrap o.
Definition open_test_store : exec history_table := open_file ∅.

(** A snapshot of a sample device, inserted. *)
Definition insert_sample (store : history_table) (packets : nat) (day : string) : exec history_table :=
  run! device := sample_device "00:11:22:33:44:55" packets in
  let snapshot := Snapshot.from_device device day test_now in
  let (store', r) := hs_insert store snapshot in
  unwrap_ok r ;! Done store'.
Fixpoint insert_days (store : history_table) (days : list (string * nat)) : exec history_table :=
  match days with
  | [] => Done store
  | (day, packets) :: days' =>
      run! store' := insert_sample store packets day in insert_days store' days'
  end.
Definition list_history (store : history_table) (from to : option string) (limit : option nat)
  : exec (list Snapshot.t) :=
  run! mac := mac_of "00:11:22:33:44:55" in
  unwrap_ok (hs_list store mac from to limit).
Definition date_of (l : list Snapshot.t) (i : nat) : exec string :=
  run! x := unwrap (l !! i) in Done (Snapshot.snapshot_date x).

Definition test_insert_and_list_snapshot : exec unit :=
  run! store := open_test_store in
  run! store := insert_sample store 10 "2026-07-19" in
  run! history := list_history store None None None in
  assert_eq (length history) 1%nat ;!
  run! x := first history in
  assert_eq (Snapshot.snapshot_date x) "2026-07-19" ;!
  assert_eq (Snapshot.packet_count x) 10 ;!
  assert_eq (Snapshot.hostname x) (Some "test-device").

Definition test_upsert_same_day_replaces : exec unit :=
  run! store := open_test_store in
  run! store := insert_sample store 10 "2026-07-19" in
  run! store := insert_sample store 50 "2026-07-19" in
  run! history := list_history store None None None in
  assert_eq (length history) 1%nat ;!
  run! x := first history in
  assert_eq (Snapshot.packet_count x) 50.

Definition test_multiple_days : exec unit :=
  run! store := open_test_store in
  run! store := insert_days store [("2026-07-18", 10%nat); ("2026-07-19", 20%nat); ("2026-07-20", 30%nat)] in
  run! history := list_history store None None None in
  assert_eq (length history) 3%nat ;!
  run! d := date_of history 0 in assert_eq d "2026-07-18" ;!
  run! d := date_of history 2 in assert_eq d "2026-07-20".

Definition four_days : list (string * nat) :=
  [("2026-07-18", 5%nat); ("2026-07-19", 5%nat); ("2026-07-20", 5%nat); ("2026-07-21", 5%nat)].

Definition test_list_history_date_range : exec unit :=
  run! store := open_test_store in
  run! store := insert_days store four_days in
  run! history := list_history store (Some "2026-07-19") (Some "2026-07-20") None in
  assert_eq (length history) 2%nat ;!
  run! d := date_of history 0 in assert_eq d "2026-07-19" ;!
  run! d := date_of history 1 in assert_eq d "2026-07-20".

Definition test_list_history_limit : exec unit :=
  run! store := open_test_store in
  run! store := insert_days store ((fun i => ("2026-07-0" +:+ fmt_uint i, 5%nat)) <$>
    [0; 1; 2; 3; 4; 5; 6; 7; 8; 9]) in
  run! history := list_history store None None (Some 3%nat) in
  assert_eq (length history) 3%nat.

Definition test_delete_before : exec unit :=
  run! store := open_test_store in
  run! store := insert_days store four_days in
  let (store, r) := hs_delete_before store "2026-07-20" in
  run! deleted := unwrap_ok r in
  assert_eq deleted 2%nat ;!
  run! history := list_history store None None None in
  assert_eq (length history) 2%nat ;!
  run! d := date_of history 0 in assert_eq d "2026-07-20".

Definition test_persistence_across_reopen : exec unit :=
  run! store := open_file ∅ in
  run! store := insert_sample store 42 "2026-07-19" in
  run! store := open_file store in
  run! history := list_history store None None None in
  assert_eq (length history) 1%nat ;!
  run! x := first history in
  assert_eq (Snapshot.packet_count x) 42.

Definition test_vacuum_no_error : exec unit :=
  run! store := open_test_store in
  unwrap_ok (hs_vacuum store).

Definition tests : suite :=
  [("test_insert_and_list_snapshot", test_insert_and_list_snapshot);
   ("test_upsert_same_day_replaces", test_upsert_same_day_replaces);
   ("test_multiple_days", test_multiple_days);
   ("test_list_history_date_range", test_list_history_date_range);
   ("test_list_history_limit", test_list_history_limit); ("test_delete_before", test_delete_before);
   ("test_persistence_across_reopen", test_persistence_across_reopen);
   ("test_vacuum_no_error", test_vacuum_no_error)].

End SqliteHistoryTests.

(** * They pass *)

Lemma memory_store_tests_pass : failing MemoryStoreTests.tests = [].
Proof. vm_compute. reflexivity. Qed.
Lemma sqlite_store_tests_pass : failing SqliteStoreTests.tests = [].
Proof. vm_compute. reflexivity. Qed.
Lemma in_memory_alert_tests_pass : failing InMemoryAlertTests.tests = [].
Proof. vm_compute. reflexivity. Qed.
Lemma sqlite_alert_tests_pass : failing SqliteAlertTests.tests = [].
Proof. vm_compute. reflexivity. Qed.
Lemma sqlite_history_tests_pass : failing SqliteHistoryTests.tests = [].
Proof. vm_compute. reflexivity. Qed.
