(* ===== verification/Sha256.v ===== *)
(** A concrete instance of the digest the API uses: SHA-256 as FIPS 180-4
    defines it, on 32-bit words, and hexadecimal in lower case as [hex]
    prints and reads it.  The theorems about authentication hold for any
    digest; this one lets whole requests be evaluated, and shows that the
    hypotheses of [Auth] and [Api] hold of the real function. *)

From S2P Require Import Prelude Text Types Reference Auth Api.

Module Sha256.

(** * Words *)

Definition word (z : Z) : Z := Z.land z u32_max.
Definition rotr (n x : Z) : Z := Z.lor (Z.shiftr x n) (word (Z.shiftl x (32 - n))).
Definition Ch (x y z : Z) : Z := Z.lxor (Z.land x y) (Z.land (Z.lxor x u32_max) z).
Definition Maj (x y z : Z) : Z := Z.lxor (Z.lxor (Z.land x y) (Z.land x z)) (Z.land y z).
Definition Sigma0 (x : Z) : Z := Z.lxor (Z.lxor (rotr 2 x) (rotr 13 x)) (rotr 22 x).
Definition Sigma1 (x : Z) : Z := Z.lxor (Z.lxor (rotr 6 x) (rotr 11 x)) (rotr 25 x).
Definition sigma0 (x : Z) : Z := Z.lxor (Z.lxor (rotr 7 x) (rotr 18 x)) (Z.shiftr x 3).
Definition sigma1 (x : Z) : Z := Z.lxor (Z.lxor (rotr 17 x) (rotr 19 x)) (Z.shiftr x 10).

(** The largest [r] below [2^n + r0] with [r^k <= x]. *)
Fixpoint root (k : Z) (n : nat) (r0 x : Z) : Z :=
  match n with
  | O => r0
  | S n' =>
      let r := r0 + 2 ^ Z.of_nat n' in
      root k n' (if r ^ k <=? x then r else r0) x
  end.
Definition is_prime (n : Z) : bool :=
  forallb (fun d => negb (n mod d =? 0)) (seqZ 2 (n - 2)).
Definition primes : list Z := List.filter is_prime (seqZ 2 310).
(** The first 32 bits of the fractional part of the [k]-th root of a prime. *)
Definition root_bits (k p : Z) : Z := word (root k 40 0 (p * 2 ^ (32 * k))).

(** One constant per round, from the cube roots of the first 64 primes. *)
Definition K : list Z := Eval vm_compute in root_bits 3 <$> primes.

(** * The message *)

Fixpoint be_bytes (n : nat) (z : Z) : list Z :=
  match n with
  | O => []
  | S n' => Z.land (Z.shiftr z (8 * Z.of_nat n')) 255 :: be_bytes n' z
  end.
(** One bit, zeros up to eight bytes before a multiple of 64, the length. *)
Definition pad (l : list Z) : list Z :=
  let len := Z.of_nat (length l) in
  l ++ [128] ++ replicate (Z.to_nat ((55 - len) mod 64)) 0 ++ be_bytes 8 (8 * len).

Fixpoint words (l : list Z) : list Z :=
  match l with
  | a :: b :: c :: d :: l' => u32_from_be_bytes a b c d :: words l'
  | _ => []
  end.
(** [w] holds the words so far, the last one first. *)
Fixpoint schedule (n : nat) (w : list Z) : list Z :=
  match n with
  | O => reverse w
  | S n' =>
      let at_ i := nth i w 0 in
      schedule n' (word (sigma1 (at_ 1%nat) + at_ 6%nat + sigma0 (at_ 14%nat) + at_ 15%nat) :: w)
  end.

(** * The digest *)

Record state : Type := mkState { ra : Z; rb : Z; rc : Z; rd : Z; re : Z; rf : Z; rg : Z; rh : Z }.
(** From the square roots of the first eight primes. *)
Definition initial : state := Eval vm_compute in
  let h i := root_bits 2 (nth i primes 0) in
  mkState (h 0%nat) (h 1%nat) (h 2%nat) (h 3%nat) (h 4%nat) (h 5%nat) (h 6%nat) (h 7%nat).

Definition round (s : state) (kw : Z * Z) : state :=
  let t1 := rh s + Sigma1 (re s) + Ch (re s) (rf s) (rg s) + kw.1 + kw.2 in
  let t2 := Sigma0 (ra s) + Maj (ra s) (rb s) (rc s) in
  mkState (word (t1 + t2)) (ra s) (rb s) (rc s) (word (rd s + t1)) (re s) (rf s) (rg s).
Definition compress (s : state) (block : list Z) : state :=
  let s' := foldl round s (combine K (schedule 48 (reverse (words block)))) in
  mkState (word (ra s + ra s')) (word (rb s + rb s')) (word (rc s + rc s')) (word (rd s + rd s'))
    (word (re s + re s')) (word (rf s + rf s')) (word (rg s + rg s')) (word (rh s + rh s')).

Fixpoint blocks (n : nat) (l : list Z) : list (list Z) :=
  match n with O => [] | S n' => take 64 l :: blocks n' (drop 64 l) end.
Definition digest (l : list Z) : list Z :=
  let m := pad l in
  let s := foldl compress initial (blocks (length m / 64) m) in
  be_bytes 4 (ra s) ++ be_bytes 4 (rb s) ++ be_bytes 4 (rc s) ++ be_bytes 4 (rd s) ++
  be_bytes 4 (re s) ++ be_bytes 4 (rf s) ++ be_bytes 4 (rg s) ++ be_bytes 4 (rh s).

(** [hex::encode]. *)
Definition hex_encode (l : list Z) : string := to_ascii_lowercase (foldr (fun b s => hex_byte b s) "" l).

End Sha256.

Definition sha256_crypto : Crypto := {| sha256 := Sha256.digest; hex_decode := demo_decode |}.
Definition sha256_text : ApiText :=
  {| Api.hex_encode := Sha256.hex_encode; json_key_error := "key must be a string" |}.

(** * Lemmas *)

Lemma length_be_bytes n z : length (Sha256.be_bytes n z) = n.
Proof. induction n; simpl; congruence. Qed.

(** The padded message is made of whole blocks. *)
Lemma length_pad l : (length (Sha256.pad l) mod 64 = 0)%nat.
Proof.
  unfold Sha256.pad. rewrite !length_app, length_be_bytes, length_replicate. cbn [length].
  set (n := length l). apply Nat2Z.inj. rewrite Nat2Z.inj_mod, !Nat2Z.inj_add.
  pose proof (Z.mod_pos_bound (55 - Z.of_nat n) 64). rewrite Z2Nat.id by lia.
  pose proof (Z.div_mod (55 - Z.of_nat n) 64).
  replace (_ + _) with ((1 - (55 - Z.of_nat n) / 64) * 64) by lia.
  by rewrite Z.mod_mul.
Qed.

Definition sha256_crypto_laws : @CryptoLaws sha256_crypto.
Proof.
  split; [|apply demo_decode_even]. intros l. unfold sha256, sha256_crypto, Sha256.digest.
  by rewrite !length_app, !length_be_bytes.
Qed.

(** The examples of FIPS 180-2, appendix B, and the empty message. *)
Lemma sha256_vectors :
  (fun s => Sha256.hex_encode (Sha256.digest (as_bytes s))) <$>
    [""; "abc"; "abcdbcdecdefdefgefghfghighijhijkijkljklmklmnlmnomnopnopq"] =
  ["e3b0c44298fc1c149afbf4c8996fb92427ae41e4649b934ca495991b7852b855";
   "ba7816bf8f01cfea414140de5dae2223b00361a396177a9cb410ff61f20015ad";
   "248d6a61d20638b8e5c026930c3e6039a33ce45964ff2167f6ecedd419db06c1"].
Proof. vm_compute. reflexivity. Qed.
