(* ===== verification/TestConfig.v ===== *)
(** The tests of the configuration ([crates/config/src/config.rs]).  The TOML
    texts are those of the tests, without their indentation; the two that
    write a condition as an inline table are given as the document such a
    text denotes. *)

From S2P Require Import Prelude Text Types Config Toml Testing.

#[local] Existing Instance ref_toml.

Module ConfigTests.

(** [key = "value"], and a text of lines. *)
Definition kv (key value : string) : string :=
  key +:+ " = " +:+ String dquote (value +:+ String dquote "").
Definition toml_text (lines : list string) : string := String.concat nl lines.
Definition parse (lines : list string) : result Config.t ConfigError :=
  config_from_str (toml_text lines).
Definition parse_document (doc : entries_t) : result Config.t ConfigError :=
  let? r := ok_or (de_config doc) (Parse "") in validate (Config.of_raw r).

Definition test_default_config : exec unit :=
  let config := Config.default_config in
  assert_eq (Config.api_port config) 8080 ;!
  assert_eq (Config.log_level config) "info" ;!
  assert_eq (Config.capture_buffer config) 4096.

Definition test_parse_valid_config : exec unit :=
  run! config := unwrap_ok (parse
    [kv "interface" "eth0";
     "api_port = 9090";
     kv "log_level" "debug";
     "capture_buffer = 8192"]) in
  assert_eq (Config.interface config) "eth0" ;!
  assert_eq (Config.api_port config) 9090 ;!
  assert_eq (Config.log_level config) "debug" ;!
  assert_eq (Config.capture_buffer config) 8192.

Definition test_parse_minimal_config : exec unit :=
  run! config := unwrap_ok (parse [kv "interface" "eth0"]) in
  assert_eq (Config.interface config) "eth0" ;!
  assert_eq (Config.api_port config) 8080 ;!
  assert_eq (Config.log_level config) "info".

Definition test_parse_empty_interface : exec unit :=
  let result := (parse [kv "interface" ""]) in
  assert_that (is_err result).

Definition test_parse_invalid_toml : exec unit :=
  let result := (parse ["interface = 123"]) in
  assert_that (is_err result).

Definition test_mqtt_disabled_by_default : exec unit :=
  run! config := unwrap_ok (parse [kv "interface" "eth0"]) in
  assert_that (is_none (Config.mqtt config)).

Definition test_mqtt_config_with_defaults : exec unit :=
  run! config := unwrap_ok (parse
    [kv "interface" "eth0";
     "[mqtt]";
     kv "host" "homeassistant.local"]) in
  run! mqtt := unwrap (Config.mqtt config) in
  assert_eq (MqttConfig.host mqtt) "homeassistant.local" ;!
  assert_eq (MqttConfig.port mqtt) 1883 ;!
  assert_eq (MqttConfig.topic mqtt) "edgeshield/devices/new" ;!
  assert_eq (MqttConfig.client_id mqtt) "edgeshield" ;!
  assert_eq (MqttConfig.qos mqtt) 1 ;!
  assert_that (is_none (MqttConfig.username mqtt)) ;!
  assert_that (is_none (MqttConfig.password mqtt)).

Definition test_mqtt_config_full : exec unit :=
  run! config := unwrap_ok (parse
    [kv "interface" "eth0";
     "[mqtt]";
     kv "host" "broker.example.com";
     "port = 8883";
     kv "topic" "home/edgeshield/new";
     kv "client_id" "edgeshield-livingroom";
     kv "username" "edgeshield";
     kv "password" "secret";
     "qos = 2"]) in
  run! mqtt := unwrap (Config.mqtt config) in
  assert_eq (MqttConfig.host mqtt) "broker.example.com" ;!
  assert_eq (MqttConfig.port mqtt) 8883 ;!
  assert_eq (MqttConfig.topic mqtt) "home/edgeshield/new" ;!
  assert_eq (MqttConfig.client_id mqtt) "edgeshield-livingroom" ;!
  assert_eq (MqttConfig.username mqtt) (Some "edgeshield") ;!
  assert_eq (MqttConfig.password mqtt) (Some "secret") ;!
  assert_eq (MqttConfig.qos mqtt) 2.

Definition test_mqtt_empty_host_rejected : exec unit :=
  let result := (parse
    [kv "interface" "eth0";
     "[mqtt]";
     kv "host" ""]) in
  assert_that (match result with Err EmptyMqttHost => true | _ => false end).

Definition test_mqtt_invalid_qos_rejected : exec unit :=
  let result := (parse
    [kv "interface" "eth0";
     "[mqtt]";
     kv "host" "broker.example.com";
     "qos = 3"]) in
  assert_that (match result with Err (InvalidMqttQos n) => n =? 3 | _ => false end).

Definition test_ntfy_disabled_by_default : exec unit :=
  run! config := unwrap_ok (parse [kv "interface" "eth0"]) in
  assert_that (is_none (Config.ntfy config)).

Definition test_ntfy_config_minimal : exec unit :=
  run! config := unwrap_ok (parse
    [kv "interface" "eth0";
     "[ntfy]";
     kv "base_url" "https://ntfy.sh";
     kv "topic" "edgeshield"]) in
  run! ntfy := unwrap (Config.ntfy config) in
  assert_eq (NtfyConfig.base_url ntfy) "https://ntfy.sh" ;!
  assert_eq (NtfyConfig.topic ntfy) "edgeshield" ;!
  assert_that (is_none (NtfyConfig.token ntfy)) ;!
  assert_that (is_none (NtfyConfig.priority ntfy)) ;!
  assert_that (is_none (NtfyConfig.tags ntfy)).

Definition test_ntfy_config_full : exec unit :=
  run! config := unwrap_ok (parse
    [kv "interface" "eth0";
     "[ntfy]";
     kv "base_url" "https://ntfy.example.com";
     kv "topic" "edgeshield-new-device";
     kv "token" "tok_abc123";
     "priority = 2";
     kv "tags" "warning,desktop"]) in
  run! ntfy := unwrap (Config.ntfy config) in
  assert_eq (NtfyConfig.base_url ntfy) "https://ntfy.example.com" ;!
  assert_eq (NtfyConfig.topic ntfy) "edgeshield-new-device" ;!
  assert_eq (NtfyConfig.token ntfy) (Some "tok_abc123") ;!
  assert_eq (NtfyConfig.priority ntfy) (Some 2) ;!
  assert_eq (NtfyConfig.tags ntfy) (Some "warning,desktop").

Definition test_ntfy_trailing_slash_normalized : exec unit :=
  run! config := unwrap_ok (parse
    [kv "interface" "eth0";
     "[ntfy]";
     kv "base_url" "https://ntfy.example.com/";
     kv "topic" "edgeshield"]) in
  run! ntfy := unwrap (Config.ntfy config) in
  assert_eq (NtfyConfig.base_url ntfy) "https://ntfy.example.com".

Definition test_ntfy_empty_base_url_rejected : exec unit :=
  let result := (parse
    [kv "interface" "eth0";
     "[ntfy]";
     kv "base_url" "";
     kv "topic" "edgeshield"]) in
  assert_that (match result with Err EmptyNtfyBaseUrl => true | _ => false end).

Definition test_ntfy_empty_topic_rejected : exec unit :=
  let result := (parse
    [kv "interface" "eth0";
     "[ntfy]";
     kv "base_url" "https://ntfy.sh";
     kv "topic" ""]) in
  assert_that (match result with Err EmptyNtfyTopic => true | _ => false end).

Definition test_rules_default_empty : exec unit :=
  run! config := unwrap_ok (parse [kv "interface" "eth0"]) in
  assert_eq (length (Config.rules config)) 0%nat ;!
  assert_eq (ScannerConfig.interval_seconds (Config.scanner config)) 60.

Definition test_rules_parse_simple_new_device : exec unit :=
  run! config := unwrap_ok (parse
    [kv "interface" "eth0";
     "[[rules]]";
     kv "name" "new-device-alert";
     kv "condition" "new_device";
     kv "severity" "info";
     "cooldown_seconds = 300"]) in
  assert_eq (length (Config.rules config)) 1%nat ;!
  run! rule := unwrap (Config.rules config !! 0%nat) in
  assert_eq (RuleConfig.name rule) "new-device-alert" ;!
  assert_eq (RuleConfig.severity rule) "info" ;!
  assert_eq (RuleConfig.cooldown_seconds rule) 300 ;!
  assert_that (RuleConfig.enabled rule).

Definition test_rules_parse_device_offline : exec unit :=
  run! config := unwrap_ok (parse_document
    [("interface", TString "eth0");
     ("rules", TArray [TTable
       [("name", TString "offline-30min");
        ("condition", TTable [("device_offline", TTable [("after_seconds", TInteger 1800)])]);
        ("severity", TString "warning")]])]) in
  assert_eq (length (Config.rules config)) 1%nat ;!
  run! rule := unwrap (Config.rules config !! 0%nat) in
  match RuleConfig.condition rule with
  | DeviceOfflineCfg after_seconds => assert_eq after_seconds 1800
  | _ => Panic
  end.

Definition test_rules_parse_new_device_by_vendor : exec unit :=
  run! config := unwrap_ok (parse_document
    [("interface", TString "eth0");
     ("rules", TArray [TTable
       [("name", TString "new-iot");
        ("condition", TTable [("new_device_by_vendor", TString "TP-Link")])]])]) in
  run! rule := unwrap (Config.rules config !! 0%nat) in
  match RuleConfig.condition rule with
  | NewDeviceByVendorCfg new_device_by_vendor => assert_eq new_device_by_vendor "TP-Link"
  | _ => Panic
  end.

Definition test_rules_parse_disabled : exec unit :=
  run! config := unwrap_ok (parse
    [kv "interface" "eth0";
     "[[rules]]";
     kv "name" "disabled-rule";
     "enabled = false";
     kv "condition" "new_device"]) in
  run! rule := unwrap (Config.rules config !! 0%nat) in
  assert_that (negb (RuleConfig.enabled rule)).

Definition test_rules_empty_name_rejected : exec unit :=
  let result := (parse
    [kv "interface" "eth0";
     "[[rules]]";
     kv "name" "";
     kv "condition" "new_device"]) in
  assert_that (match result with Err EmptyRuleName => true | _ => false end).

Definition test_rules_invalid_severity_rejected : exec unit :=
  let result := (parse
    [kv "interface" "eth0";
     "[[rules]]";
     kv "name" "bad-severity";
     kv "condition" "new_device";
     kv "severity" "urgent"]) in
  assert_that (match result with Err (InvalidSeverity _) => true | _ => false end).

Definition test_scanner_custom_interval : exec unit :=
  run! config := unwrap_ok (parse
    [kv "interface" "eth0";
     "[scanner]";
     "interval_seconds = 120"]) in
  assert_eq (ScannerConfig.interval_seconds (Config.scanner config)) 120.

Definition test_storage_defaults : exec unit :=
  run! config := unwrap_ok (parse [kv "interface" "eth0"]) in
  assert_eq (StorageConfig.history_snapshot_hours (Config.storage config)) 24 ;!
  assert_eq (StorageConfig.history_retention_days (Config.storage config)) 90.

Definition test_storage_custom_settings : exec unit :=
  run! config := unwrap_ok (parse
    [kv "interface" "eth0";
     "[storage]";
     "history_snapshot_hours = 12";
     "history_retention_days = 30"]) in
  assert_eq (StorageConfig.history_snapshot_hours (Config.storage config)) 12 ;!
  assert_eq (StorageConfig.history_retention_days (Config.storage config)) 30.

Definition test_storage_disable_retention : exec unit :=
  run! config := unwrap_ok (parse
    [kv "interface" "eth0";
     "[storage]";
     "history_retention_days = 0"]) in
  assert_eq (StorageConfig.history_retention_days (Config.storage config)) 0.

Definition test_api_bind_address_default : exec unit :=
  run! config := unwrap_ok (parse [kv "interface" "eth0"]) in
  assert_eq (Config.api_bind_address config) "0.0.0.0".

Definition test_api_bind_address_custom : exec unit :=
  run! config := unwrap_ok (parse
    [kv "interface" "eth0";
     kv "api_bind_address" "127.0.0.1"]) in
  assert_eq (Config.api_bind_address config) "127.0.0.1".

Definition test_api_auth_default_none : exec unit :=
  run! config := unwrap_ok (parse [kv "interface" "eth0"]) in
  assert_that (is_none (ApiConfig.auth (Config.api config))) ;!
  assert_that (is_none (ApiConfig.tls (Config.api config))) ;!
  assert_that (is_none (ApiConfig.audit (Config.api config))).

Definition test_api_auth_config : exec unit :=
  run! config := unwrap_ok (parse
    [kv "interface" "eth0";
     "[api.auth]";
     kv "read_key_hash" "a1b2c3d4e5f6a1b2c3d4e5f6a1b2c3d4e5f6a1b2c3d4e5f6a1b2c3d4e5f6a1b2";
     kv "admin_key_hash" "f6e5d4c3b2a1f6e5d4c3b2a1f6e5d4c3b2a1f6e5d4c3b2a1f6e5d4c3b2a1f6e5";
     "max_failures = 5";
     "window_seconds = 30";
     "block_seconds = 600"]) in
  run! auth := unwrap (ApiConfig.auth (Config.api config)) in
  assert_eq (String.length (ApiAuthConfig.read_key_hash auth)) 64%nat ;!
  assert_that (is_some (ApiAuthConfig.admin_key_hash auth)) ;!
  assert_eq (ApiAuthConfig.max_failures auth) 5 ;!
  assert_eq (ApiAuthConfig.window_seconds auth) 30 ;!
  assert_eq (ApiAuthConfig.block_seconds auth) 600.

Definition test_api_auth_empty_key_hash_rejected : exec unit :=
  let result := (parse
    [kv "interface" "eth0";
     "[api.auth]";
     kv "read_key_hash" ""]) in
  assert_that (match result with Err EmptyAuthKeyHash => true | _ => false end).

Definition test_api_auth_invalid_hash_format_rejected : exec unit :=
  let result := (parse
    [kv "interface" "eth0";
     "[api.auth]";
     kv "read_key_hash" "not-a-valid-hash"]) in
  assert_that (match result with Err InvalidKeyHashFormat => true | _ => false end).

Definition test_api_tls_config : exec unit :=
  run! config := unwrap_ok (parse
    [kv "interface" "eth0";
     "[api.tls]";
     kv "cert_path" "/etc/edgeshield/cert.pem";
     kv "key_path" "/etc/edgeshield/key.pem"]) in
  run! tls := unwrap (ApiConfig.tls (Config.api config)) in
  assert_eq (cert_path tls) "/etc/edgeshield/cert.pem" ;!
  assert_eq (key_path tls) "/etc/edgeshield/key.pem".

Definition test_api_tls_empty_cert_rejected : exec unit :=
  let result := (parse
    [kv "interface" "eth0";
     "[api.tls]";
     kv "cert_path" "";
     kv "key_path" "/etc/edgeshield/key.pem"]) in
  assert_that (match result with Err EmptyTlsCertPath => true | _ => false end).

Definition test_api_audit_config : exec unit :=
  run! config := unwrap_ok (parse
    [kv "interface" "eth0";
     "[api.audit]";
     kv "log_path" "/var/log/edgeshield/audit.log"]) in
  run! audit := unwrap (ApiConfig.audit (Config.api config)) in
  assert_eq (log_path audit) "/var/log/edgeshield/audit.log".

Definition tests : suite :=
  [("test_default_config", test_default_config);
   ("test_parse_valid_config", test_parse_valid_config);
   ("test_parse_minimal_config", test_parse_minimal_config);
   ("test_parse_empty_interface", test_parse_empty_interface);
   ("test_parse_invalid_toml", test_parse_invalid_toml);
   ("test_mqtt_disabled_by_default", test_mqtt_disabled_by_default);
   ("test_mqtt_config_with_defaults", test_mqtt_config_with_defaults);
   ("test_mqtt_config_full", test_mqtt_config_full);
   ("test_mqtt_empty_host_rejected", test_mqtt_empty_host_rejected);
   ("test_mqtt_invalid_qos_rejected", test_mqtt_invalid_qos_rejected);
   ("test_ntfy_disabled_by_default", test_ntfy_disabled_by_default);
   ("test_ntfy_config_minimal", test_ntfy_config_minimal);
   ("test_ntfy_config_full", test_ntfy_config_full);
   ("test_ntfy_trailing_slash_normalized", test_ntfy_trailing_slash_normalized);
   ("test_ntfy_empty_base_url_rejected", test_ntfy_empty_base_url_rejected);
   ("test_ntfy_empty_topic_rejected", test_ntfy_empty_topic_rejected);
   ("test_rules_default_empty", test_rules_default_empty);
   ("test_rules_parse_simple_new_device", test_rules_parse_simple_new_device);
   ("test_rules_parse_device_offline", test_rules_parse_device_offline);
   ("test_rules_parse_new_device_by_vendor", test_rules_parse_new_device_by_vendor);
   ("test_rules_parse_disabled", test_rules_parse_disabled);
   ("test_rules_empty_name_rejected", test_rules_empty_name_rejected);
   ("test_rules_invalid_severity_rejected", test_rules_invalid_severity_rejected);
   ("test_scanner_custom_interval", test_scanner_custom_interval);
   ("test_storage_defaults", test_storage_defaults);
   ("test_storage_custom_settings", test_storage_custom_settings);
   ("test_storage_disable_retention", test_storage_disable_retention);
   ("test_api_bind_address_default", test_api_bind_address_default);
   ("test_api_bind_address_custom", test_api_bind_address_custom);
   ("test_api_auth_default_none", test_api_auth_default_none);
   ("test_api_auth_config", test_api_auth_config);
   ("test_api_auth_empty_key_hash_rejected", test_api_auth_empty_key_hash_rejected);
   ("test_api_auth_invalid_hash_format_rejected", test_api_auth_invalid_hash_format_rejected);
   ("test_api_tls_config", test_api_tls_config);
   ("test_api_tls_empty_cert_rejected", test_api_tls_empty_cert_rejected);
   ("test_api_audit_config", test_api_audit_config)].

End ConfigTests.

(** * Lemmas *)

Lemma config_tests_pass : failing ConfigTests.tests = [].
Proof. vm_compute. reflexivity. Qed.
