(* ===== verification/TestEngines.v ===== *)
(** The tests of the two engines: the rule engine and the conversion of rules
    ([crates/rules]), the discovery engine ([crates/discovery]) and the pipeline
    around it ([crates/daemon/tests]).  A test
    that spawns the engine and feeds it one event at a time runs its turns
    in that order; [try_recv] takes the head of the queue. *)

From S2P Require Import Prelude Text Types Reference Packet Stores Alerts Oui Discovery Config Rules.
From S2P Require Import Testing TestCommon TestStores.

#[local] Existing Instances ref_mac_text wire_pnet demo_oui queue_mpsc.

(** * crates/rules/src/config_bridge.rs *)

Module BridgeTests.

Definition test_convert_new_device_rule : exec unit :=
  let config := RuleConfig.mk "new-device" true (Simple "new_device") "info" 300 in
  run! rule := unwrap_ok (rule_try_from config) in
  assert_eq (Rule.name rule) "new-device" ;!
  assert_that (Rule.enabled rule) ;!
  assert_eq (Rule.severity rule) Info ;!
  assert_eq (Rule.cooldown_seconds rule) 300 ;!
  assert_that (match Rule.condition rule with CondNewDevice => true | _ => false end).

Definition test_convert_device_offline_rule : exec unit :=
  let config := RuleConfig.mk "offline" true (DeviceOfflineCfg 1800) "warning" 0 in
  run! rule := unwrap_ok (rule_try_from config) in
  assert_that (match Rule.condition rule with CondDeviceOffline s => s =? 1800 | _ => false end).

Definition test_convert_invalid_simple_condition : exec unit :=
  let config := RuleConfig.mk "bad" true (Simple "unknown_condition") "info" 0 in
  assert_that (is_err (rule_try_from config)).

Definition tests : suite :=
  [("test_convert_new_device_rule", test_convert_new_device_rule);
   ("test_convert_device_offline_rule", test_convert_device_offline_rule);
   ("test_convert_invalid_simple_condition", test_convert_invalid_simple_condition)].

End BridgeTests.

(** * crates/rules/src/engine.rs *)

Module RuleEngineTests.

Definition sample_device : exec Device.t :=
  run! mac := mac_of "00:11:22:33:44:55" in
  Done (Device.set_hostname (Some "living-room-plug")
          (Device.set_vendor (Some "TP-Link Technologies") (Device.new mac test_now))).

(** The engine, and the queue of its alerts; an event sent and handled. *)
Definition setup : Type := rule_engine InMemoryAlertStore.t * list Alert.t.
Definition setup_engine (rules : list Rule.t) : setup :=
  (mkRuleEngine rules InMemoryAlertStore.new, []).
Definition send (s : setup) (e : DiscoveryEvent) : setup :=
  let '(en, sent, _) := process_event s.1 e (fun _ => mkRuleClock test_now test_now) in
  (en, s.2 ++ sent).
Definition recv (s : setup) : exec (Alert.t * setup) :=
  match s.2 with a :: rest => Done (a, (s.1, rest)) | [] => Panic end.
Definition try_recv (s : setup) : option Alert.t := head s.2.

Definition test_mac_matches_prefix_case_insensitive : exec unit :=
  run! mac := mac_of "8C:85:90:12:34:56" in
  assert_that (mac_matches_prefix mac "8C:85:90") ;!
  assert_that (mac_matches_prefix mac "8c:85:90") ;!
  assert_that (mac_matches_prefix mac "8c:85") ;!
  assert_that (negb (mac_matches_prefix mac "8c:86")).

Definition test_new_device_rule_fires : exec unit :=
  let rule := Rule.new "new-device" true CondNewDevice Info 0 in
  let s := setup_engine [rule] in
  run! device := sample_device in
  run! (alert, s) := recv (send s (DeviceDiscovered device)) in
  assert_eq (Alert.rule_name alert) "new-device" ;!
  assert_eq (Alert.severity alert) Info ;!
  assert_eq (Alert.event_type alert) NewDevice.

Definition test_disabled_rule_does_not_fire : exec unit :=
  let rule := Rule.new "disabled" false CondNewDevice Info 0 in
  let s := setup_engine [rule] in
  run! device := sample_device in
  assert_that (is_none (try_recv (send s (DeviceDiscovered device)))).

Definition test_new_device_by_vendor_fires_on_match : exec unit :=
  let rule := Rule.new "new-iot" true (CondNewDeviceByVendor "TP-Link") Warning 0 in
  let s := setup_engine [rule] in
  run! device := sample_device in
  run! (alert, s) := recv (send s (DeviceDiscovered device)) in
  assert_eq (Alert.rule_name alert) "new-iot" ;!
  assert_eq (Alert.severity alert) Warning.

Definition test_new_device_by_vendor_no_match : exec unit :=
  let rule := Rule.new "new-apple" true (CondNewDeviceByVendor "Apple") Info 0 in
  let s := setup_engine [rule] in
  run! device := sample_device in
  assert_that (is_none (try_recv (send s (DeviceDiscovered device)))).

Definition test_new_device_by_mac_prefix_fires : exec unit :=
  let rule := Rule.new "new-apple-mac" true (CondNewDeviceByMacPrefix "00:11:22") Info 0 in
  let s := setup_engine [rule] in
  run! device := sample_device in
  run! (alert, s) := recv (send s (DeviceDiscovered device)) in
  assert_eq (Alert.rule_name alert) "new-apple-mac".

Definition test_device_offline_rule_fires : exec unit :=
  let rule := Rule.new "offline-30min" true (CondDeviceOffline 1800) Warning 0 in
  let s := setup_engine [rule] in
  run! device := sample_device in
  run! (alert, s) := recv (send s (Discovery.DeviceOffline device)) in
  assert_eq (Alert.event_type alert) Types.DeviceOffline ;!
  assert_eq (Alert.severity alert) Warning.

Definition test_cooldown_suppresses_second_alert : exec unit :=
  let rule := Rule.new "cooldown-test" true CondNewDevice Info 3600 in
  let s := setup_engine [rule] in
  run! device := sample_device in
  run! (alert, s) := recv (send s (DeviceDiscovered device)) in
  assert_eq (Alert.rule_name alert) "cooldown-test" ;!
  assert_that (is_none (try_recv (send s (DeviceDiscovered device)))).

Definition test_acknowledgment_suppresses_alert : exec unit :=
  let rule := Rule.new "ack-test" true CondNewDevice Info 0 in
  let s := setup_engine [rule] in
  run! device := sample_device in
  run! (alert, s) := recv (send s (DeviceDiscovered device)) in
  run! alert_store := acknowledge_alert (alert_store s.1) (Alert.id alert) in
  let s := (mkRuleEngine (rules s.1) alert_store, s.2) in
  assert_that (is_none (try_recv (send s (DeviceDiscovered device)))).

Definition test_protocol_change_rule_fires_on_update : exec unit :=
  let rule := Rule.new "proto-change" true CondProtocolChange Info 0 in
  let s := setup_engine [rule] in
  run! device := sample_device in
  run! (alert, s) := recv (send s (DeviceUpdated device)) in
  assert_eq (Alert.event_type alert) ProtocolChange.

Definition tests : suite :=
  [("test_mac_matches_prefix_case_insensitive", test_mac_matches_prefix_case_insensitive);
   ("test_new_device_rule_fires", test_new_device_rule_fires);
   ("test_disabled_rule_does_not_fire", test_disabled_rule_does_not_fire);
   ("test_new_device_by_vendor_fires_on_match", test_new_device_by_vendor_fires_on_match);
   ("test_new_device_by_vendor_no_match", test_new_device_by_vendor_no_match);
   ("test_new_device_by_mac_prefix_fires", test_new_device_by_mac_prefix_fires);
   ("test_device_offline_rule_fires", test_device_offline_rule_fires);
   ("test_cooldown_suppresses_second_alert", test_cooldown_suppresses_second_alert);
   ("test_acknowledgment_suppresses_alert", test_acknowledgment_suppresses_alert);
   ("test_protocol_change_rule_fires_on_update", test_protocol_change_rule_fires_on_update)].

End RuleEngineTests.

(** * crates/discovery/src/discovery.rs *)

Module DiscoveryTests.

Definition build_test_packet (src_mac dst_mac : list Z) : PacketBuf :=
  mkPacketBuf
    (dst_mac ++ src_mac ++ [0x08; 0x00] ++
     [0x45; 0x00] ++ [0x00; 0x34] ++ [0x00; 0x00] ++ [0x40; 0x00] ++ [0x40; 0x06] ++
     [0x00; 0x00] ++ [0xc0; 0xa8; 0x01; 0x01] ++ [0xc0; 0xa8; 0x01; 0x02] ++
     [0x1f; 0x90] ++ [0x00; 0x50] ++ [0x00; 0x00; 0x00; 0x00] ++ [0x00; 0x00; 0x00; 0x00] ++
     [0x50; 0x00] ++ [0xff; 0xff] ++ [0x00; 0x00] ++ [0x00; 0x00]) 14.

Definition build_udp_packet (src_mac dst_mac : list Z) : PacketBuf :=
  mkPacketBuf
    (dst_mac ++ src_mac ++ [0x08; 0x00] ++
     [0x45; 0x00] ++ [0x00; 0x1e] ++ [0x00; 0x00] ++ [0x40; 0x00] ++ [0x40; 0x11] ++
     [0x00; 0x00] ++ [0xc0; 0xa8; 0x01; 0x01] ++ [0xc0; 0xa8; 0x01; 0x02] ++
     [0x00; 0x35] ++ [0x00; 0x35] ++ [0x00; 0x0a] ++ [0x00; 0x00]) 14.

(** The engine over an empty store and a channel of 100 events. *)
Definition test_engine : Type := engine MemoryStore.t.
Definition new_engine : test_engine := mkEngine MemoryStore.new ([], 100%nat).
Definition process (e : test_engine) (buf : PacketBuf) : exec test_engine :=
  process_packet e buf (mkClock test_now test_now test_now).
(** [event_rx.try_recv()]. *)
Definition try_recv (e : test_engine) : option DiscoveryEvent * test_engine :=
  match event_tx e with
  | (ev :: rest, n) => (Some ev, mkEngine (store e) (rest, n))
  | ([], _) => (None, e)
  end.
Definition is_device_discovered (ev : option DiscoveryEvent) : bool :=
  match ev with Some (DeviceDiscovered _) => true | _ => false end.

Definition src_mac : list Z := [0x00; 0x11; 0x22; 0x33; 0x44; 0x55].
Definition dst_mac : list Z := [0x66; 0x77; 0x88; 0x99; 0xaa; 0xbb].
Definition src_mac_addr : MacAddress := mkMac 0x00 0x11 0x22 0x33 0x44 0x55.
Definition dst_mac_addr : MacAddress := mkMac 0x66 0x77 0x88 0x99 0xaa 0xbb.

Definition test_discovery_new_device : exec unit :=
  run! engine := process new_engine (build_test_packet src_mac dst_mac) in
  run! found := get (store engine) src_mac_addr in
  run! src_device := unwrap found in
  assert_eq (Device.packet_count src_device) 1 ;!
  assert_eq (Device.bytes_sent src_device) 54 ;!
  run! found := get (store engine) dst_mac_addr in
  run! dst_device := unwrap found in
  assert_eq (Device.packet_count dst_device) 1 ;!
  assert_eq (Device.bytes_received dst_device) 54 ;!
  let (event1, engine) := try_recv engine in
  assert_that (is_device_discovered event1) ;!
  let (event2, engine) := try_recv engine in
  assert_that (is_device_discovered event2).

Definition test_discovery_existing_device : exec unit :=
  run! engine := process new_engine (build_test_packet src_mac dst_mac) in
  let (_, engine) := try_recv engine in
  let (_, engine) := try_recv engine in
  run! engine := process engine (build_test_packet src_mac dst_mac) in
  run! found := get (store engine) src_mac_addr in
  run! device := unwrap found in
  assert_eq (Device.packet_count device) 2 ;!
  assert_eq (Device.bytes_sent device) 108 ;!
  assert_that (is_none (try_recv engine).1).

(** [while let Ok(event) = event_rx.try_recv()]: it empties the queue. *)
Definition saw_updated (e : test_engine) : bool :=
  existsb (fun ev => match ev with DeviceUpdated _ => true | _ => false end) (event_tx e).1.

Definition test_discovery_emits_event_on_protocol_change : exec unit :=
  run! engine := process new_engine (build_test_packet src_mac dst_mac) in
  let (_, engine) := try_recv engine in
  let (_, engine) := try_recv engine in
  run! engine := process engine (build_test_packet src_mac dst_mac) in
  assert_that (is_none (try_recv engine).1) ;!
  run! engine := process engine (build_udp_packet src_mac dst_mac) in
  assert_that (saw_updated engine) ;!
  run! found := get (store engine) src_mac_addr in
  run! device := unwrap found in
  assert_that (bool_decide (Http ∈ Device.protocols device)) ;!
  assert_that (bool_decide (Dns ∈ Device.protocols device)).

Definition tests : suite :=
  [("test_discovery_new_device", test_discovery_new_device);
   ("test_discovery_existing_device", test_discovery_existing_device);
   ("test_discovery_emits_event_on_protocol_change", test_discovery_emits_event_on_protocol_change)].

End DiscoveryTests.

(** * crates/daemon/tests/pipeline.rs *)

Module PipelineTests.

(** The total length is written back into bytes 16 and 17. *)
Definition fix_total_length (buf : list Z) : list Z :=
  <[16%nat := Z.of_nat (length buf) / 256]> (<[17%nat := Z.of_nat (length buf) mod 256]> buf).

Definition build_tcp_packet (src_mac dst_mac src_ip dst_ip : list Z) (src_port dst_port : Z) : list Z :=
  fix_total_length
    (dst_mac ++ src_mac ++ [0x08; 0x00] ++
     [0x45; 0x00] ++ [0; 0] ++ [0x00; 0x01] ++ [0x40; 0x00] ++ [0x40; 0x06] ++ [0x00; 0x00] ++
     src_ip ++ dst_ip ++
     u16_to_be_bytes src_port ++ u16_to_be_bytes dst_port ++ [0x00; 0x00; 0x00; 0x01] ++
     [0x00; 0x00; 0x00; 0x00] ++ [0x50; 0x02] ++ [0xff; 0xff] ++ [0x00; 0x00] ++ [0x00; 0x00]).

Definition build_arp_packet (src_mac src_ip : list Z) : list Z :=
  [0xff; 0xff; 0xff; 0xff; 0xff; 0xff] ++ src_mac ++ [0x08; 0x06] ++
  [0x00; 0x01] ++ [0x08; 0x00] ++ [0x06; 0x04] ++ [0x00; 0x01] ++ src_mac ++ src_ip ++
  [0x00; 0x00; 0x00; 0x00; 0x00; 0x00] ++ [0xc0; 0xa8; 0x01; 0x01].

Definition build_dns_packet (src_mac dst_mac : list Z) : list Z :=
  fix_total_length
    (dst_mac ++ src_mac ++ [0x08; 0x00] ++
     [0x45; 0x00] ++ [0; 0] ++ [0x00; 0x02] ++ [0x40; 0x00] ++ [0x40; 0x11] ++ [0x00; 0x00] ++
     [0xc0; 0xa8; 0x01; 0x0a] ++ [0x08; 0x08; 0x08; 0x08] ++
     [0x00; 0x35] ++ [0x00; 0x35] ++ [0x00; 0x10] ++ [0x00; 0x00]).

Definition src_mac : list Z := [0x00; 0x11; 0x22; 0x33; 0x44; 0x55].
Definition dst_mac : list Z := [0xaa; 0xbb; 0xcc; 0xdd; 0xee; 0xff].
Definition src_ip : list Z := [192; 168; 1; 10].
Definition dst_ip : list Z := [10; 0; 0; 1].
Definition process (e : DiscoveryTests.test_engine) (raw : list Z) : exec DiscoveryTests.test_engine :=
  DiscoveryTests.process e (mkPacketBuf raw 14).
(** [store.get(&MacAddress::new(mac)).unwrap()]. *)
Definition stored (e : DiscoveryTests.test_engine) (mac : list Z) : exec (option Device.t) :=
  run! mac := unwrap (mac_of_bytes mac) in get (store e) mac.

Definition test_pipeline_tcp_packet : exec unit :=
  let raw := build_tcp_packet src_mac dst_mac src_ip dst_ip 12345 23456 in
  run! engine := process DiscoveryTests.new_engine raw in
  run! found := stored engine src_mac in
  run! src_device := unwrap found in
  assert_eq (Device.packet_count src_device) 1 ;!
  assert_that (0 <? Device.bytes_sent src_device) ;!
  assert_that (bool_decide (Tcp ∈ Device.protocols src_device)) ;!
  assert_that (bool_decide (ipv4_addr 192 168 1 10 ∈ Device.ips src_device)) ;!
  run! found := stored engine dst_mac in
  run! dst_device := unwrap found in
  assert_eq (Device.packet_count dst_device) 1 ;!
  assert_that (0 <? Device.bytes_received dst_device) ;!
  assert_that (bool_decide (Tcp ∈ Device.protocols dst_device)).

Definition test_pipeline_arp_packet : exec unit :=
  run! engine := process DiscoveryTests.new_engine (build_arp_packet src_mac src_ip) in
  run! found := stored engine src_mac in
  run! device := unwrap found in
  assert_that (bool_decide (Arp ∈ Device.protocols device)) ;!
  assert_eq (Device.packet_count device) 1.

Definition test_pipeline_dns_packet : exec unit :=
  run! engine := process DiscoveryTests.new_engine (build_dns_packet src_mac dst_mac) in
  run! found := stored engine src_mac in
  run! device := unwrap found in
  assert_that (bool_decide (Dns ∈ Device.protocols device)).

Definition test_pipeline_multiple_packets_same_device : exec unit :=
  let raw := build_tcp_packet src_mac dst_mac src_ip dst_ip 12345 23456 in
  run! engine := process DiscoveryTests.new_engine raw in
  run! engine := process engine raw in
  run! engine := process engine raw in
  run! found := stored engine src_mac in
  run! device := unwrap found in
  assert_eq (Device.packet_count device) 3.

Definition devices : list (list Z * list Z) :=
  [([0x00; 0x11; 0x22; 0x33; 0x44; 0x55], [192; 168; 1; 10]);
   ([0x00; 0x11; 0x22; 0x33; 0x44; 0x66], [192; 168; 1; 11]);
   ([0x00; 0x11; 0x22; 0x33; 0x44; 0x77], [192; 168; 1; 12])].
Fixpoint process_arps (e : DiscoveryTests.test_engine) (l : list (list Z * list Z))
  : exec DiscoveryTests.test_engine :=
  match l with
  | [] => Done e
  | (mac, ip) :: l' => run! e' := process e (build_arp_packet mac ip) in process_arps e' l'
  end.
Definition test_pipeline_multiple_devices : exec unit :=
  run! engine := process_arps DiscoveryTests.new_engine devices in
  run! all := list_all (store engine) in
  assert_eq (length all) 4%nat ;!
  for_each devices (fun d => run! found := stored engine d.1 in assert_that (is_some found)).

Definition tests : suite :=
  [("test_pipeline_tcp_packet", test_pipeline_tcp_packet);
   ("test_pipeline_arp_packet", test_pipeline_arp_packet);
   ("test_pipeline_dns_packet", test_pipeline_dns_packet);
   ("test_pipeline_multiple_packets_same_device", test_pipeline_multiple_packets_same_device);
   ("test_pipeline_multiple_devices", test_pipeline_multiple_devices)].

End PipelineTests.

(** * Lemmas *)

Lemma bridge_tests_pass : failing BridgeTests.tests = [].
Proof. vm_compute. reflexivity. Qed.
Lemma rule_engine_tests_pass : failing RuleEngineTests.tests = [].
Proof. vm_compute. reflexivity. Qed.
Lemma discovery_tests_pass : failing DiscoveryTests.tests = [].
Proof. vm_compute. reflexivity. Qed.
Lemma pipeline_tests_pass : failing PipelineTests.tests = [].
Proof. vm_compute. reflexivity. Qed.
