(* ===== verification/TestApi.v ===== *)
(** The tests of the REST API ([crates/api]): authentication, the audit log
    and the routes, with SHA-256 itself as the digest.  An [Instant] is a
    second later at each attempt; the audit file of a test starts absent,
    and every write of it succeeds. *)

From S2P Require Import Prelude Text Types Reference Net Json Stores HistorySqlite Config Alerts Auth Api.
From S2P Require Import AuditLog Sha256 Testing TestCommon TestStores.

#[local] Existing Instances ref_mac_text std_ip_text ref_chrono ref_serde_json sha256_crypto sha256_text
  demo_history_store.

(** * crates/api/src/auth.rs *)

Module AuthTests.

Definition sha256_hex (input : string) : string := hex_encode (sha256 (as_bytes input)).

Definition auth_config (read_key : string) (admin_key : option string) : ApiAuthConfig.t :=
  ApiAuthConfig.mk (sha256_hex read_key) (sha256_hex <$> admin_key) 5 60 300.

Definition TEST_READ_KEY : string := "test-read-key-1234567890abcdef".
Definition TEST_ADMIN_KEY : string := "test-admin-key-1234567890abcdef".

(** [state.check(..)] at a second of the clock, and its result alone. *)
Definition check_at (secs : Z) (state : AuthState) (method : string) (header : option string)
  (ip : option IpAddr) : AuthState * exec (result Permission AuthError) :=
  check state method header ip (mkAuthClock (from_secs secs) (from_secs secs)).
Definition checked (state : AuthState) (method : string) (header : option string)
  : exec (result Permission AuthError) := (check_at 0 state method header None).2.
Definition allows (m : exec (result Permission AuthError)) : exec unit :=
  run! r := m in assert_that (is_ok r).
Definition granted_by (m : exec (result Permission AuthError)) : exec Permission :=
  run! r := m in unwrap_ok r.
Definition refused_by (m : exec (result Permission AuthError)) : exec AuthError :=
  run! r := m in unwrap_err r.

Definition test_auth_disabled_allows_all : exec unit :=
  let state := auth_new None in
  assert_that (negb (is_enabled state)) ;!
  allows (checked state "GET" None).

Definition test_valid_read_key_get : exec unit :=
  let state := auth_new (Some (auth_config TEST_READ_KEY (Some TEST_ADMIN_KEY))) in
  run! granted := granted_by (checked state "GET" (Some ("Bearer " +:+ TEST_READ_KEY))) in
  assert_eq granted PermRead.

Definition test_valid_admin_key_get : exec unit :=
  let state := auth_new (Some (auth_config TEST_READ_KEY (Some TEST_ADMIN_KEY))) in
  run! granted := granted_by (checked state "GET" (Some ("Bearer " +:+ TEST_ADMIN_KEY))) in
  assert_eq granted PermAdmin.

Definition test_valid_admin_key_post : exec unit :=
  let state := auth_new (Some (auth_config TEST_READ_KEY (Some TEST_ADMIN_KEY))) in
  allows (checked state "POST" (Some ("Bearer " +:+ TEST_ADMIN_KEY))).

Definition test_read_key_cannot_post : exec unit :=
  let state := auth_new (Some (auth_config TEST_READ_KEY (Some TEST_ADMIN_KEY))) in
  run! e := refused_by (checked state "POST" (Some ("Bearer " +:+ TEST_READ_KEY))) in
  assert_eq e InsufficientPermission.

Definition test_single_key_mode_read_key_can_post : exec unit :=
  let state := auth_new (Some (auth_config TEST_READ_KEY None)) in
  allows (checked state "POST" (Some ("Bearer " +:+ TEST_READ_KEY))).

Definition test_missing_header : exec unit :=
  let state := auth_new (Some (auth_config TEST_READ_KEY None)) in
  run! e := refused_by (checked state "GET" None) in
  assert_eq e MissingHeader.

Definition test_malformed_header : exec unit :=
  let state := auth_new (Some (auth_config TEST_READ_KEY None)) in
  run! e := refused_by (checked state "GET" (Some "Basic abc123")) in
  assert_eq e MalformedHeader.

Definition test_empty_bearer_token : exec unit :=
  let state := auth_new (Some (auth_config TEST_READ_KEY None)) in
  run! e := refused_by (checked state "GET" (Some "Bearer ")) in
  assert_eq e MalformedHeader.

Definition test_invalid_key : exec unit :=
  let state := auth_new (Some (auth_config TEST_READ_KEY None)) in
  run! e := refused_by (checked state "GET" (Some "Bearer wrong-key")) in
  assert_eq e InvalidKey.

Definition test_case_insensitive_bearer_prefix : exec unit :=
  let state := auth_new (Some (auth_config TEST_READ_KEY None)) in
  allows (checked state "GET" (Some ("bearer " +:+ TEST_READ_KEY))).

(** [for _ in 0..n]: the wrong key, from one address. *)
Fixpoint attempts (n : nat) (secs : Z) (state : AuthState) (ip : IpAddr)
  : AuthState * list (exec (result Permission AuthError)) :=
  match n with
  | O => (state, [])
  | S n' =>
      let (state, r) := check_at secs state "GET" (Some "Bearer wrong") (Some ip) in
      let (state, rs) := attempts n' (secs + 1) state ip in
      (state, r :: rs)
  end.

Definition test_rate_limiting_blocks_after_max_failures : exec unit :=
  let state := auth_new (Some (ApiAuthConfig.mk (sha256_hex TEST_READ_KEY) None 3 60 300)) in
  let ip := ipv4_addr 192 168 1 100 in
  let (state, results) := attempts 3 0 state ip in
  for_each results (fun r => run! e := refused_by r in assert_eq e InvalidKey) ;!
  run! e := refused_by (check_at 3 state "GET" (Some ("Bearer " +:+ TEST_READ_KEY)) (Some ip)).2 in
  assert_eq e RateLimited.

Definition test_rate_limiting_disabled_when_max_failures_zero : exec unit :=
  let state := auth_new (Some (ApiAuthConfig.mk (sha256_hex TEST_READ_KEY) None 0 60 300)) in
  let ip := ipv4_addr 192 168 1 100 in
  let (state, _) := attempts 100 0 state ip in
  allows (check_at 100 state "GET" (Some ("Bearer " +:+ TEST_READ_KEY)) (Some ip)).2.

Definition test_rate_limiting_different_ips_independent : exec unit :=
  let state := auth_new (Some (ApiAuthConfig.mk (sha256_hex TEST_READ_KEY) None 2 60 300)) in
  let ip1 := ipv4_addr 192 168 1 100 in
  let ip2 := ipv4_addr 192 168 1 200 in
  let (state, _) := attempts 2 0 state ip1 in
  assert_that (is_blocked (rate_limiter state) ip1 (from_secs 2)) ;!
  allows (check_at 2 state "GET" (Some ("Bearer " +:+ TEST_READ_KEY)) (Some ip2)).2.

Definition test_constant_time_comparison : exec unit :=
  let state := auth_new (Some (auth_config TEST_READ_KEY None)) in
  let wrong_key := String.substring 0 (String.length TEST_READ_KEY - 1) TEST_READ_KEY +:+ "X" in
  run! e := refused_by (checked state "GET" (Some ("Bearer " +:+ wrong_key))) in
  assert_eq e InvalidKey.

Definition tests : suite :=
  [("test_auth_disabled_allows_all", test_auth_disabled_allows_all);
   ("test_valid_read_key_get", test_valid_read_key_get);
   ("test_valid_admin_key_get", test_valid_admin_key_get);
   ("test_valid_admin_key_post", test_valid_admin_key_post);
   ("test_read_key_cannot_post", test_read_key_cannot_post);
   ("test_single_key_mode_read_key_can_post", test_single_key_mode_read_key_can_post);
   ("test_missing_header", test_missing_header);
   ("test_malformed_header", test_malformed_header);
   ("test_empty_bearer_token", test_empty_bearer_token);
   ("test_invalid_key", test_invalid_key);
   ("test_case_insensitive_bearer_prefix", test_case_insensitive_bearer_prefix);
   ("test_rate_limiting_blocks_after_max_failures", test_rate_limiting_blocks_after_max_failures);
   ("test_rate_limiting_disabled_when_max_failures_zero",
    test_rate_limiting_disabled_when_max_failures_zero);
   ("test_rate_limiting_different_ips_independent", test_rate_limiting_different_ips_independent);
   ("test_constant_time_comparison", test_constant_time_comparison)].

End AuthTests.

(** * crates/api/src/audit.rs *)

Module AuditTests.

Definition test_key_hash_prefix_is_4_chars : exec unit :=
  let prefix := key_hash_prefix "test-key" in
  assert_eq (String.length prefix) 4%nat ;!
  assert_that (all_chars is_ascii_hexdigit prefix).

Definition test_key_hash_prefix_different_keys_differ : exec unit :=
  let p1 := key_hash_prefix "key-one" in
  let p2 := key_hash_prefix "key-two" in
  assert_ne p1 p2.

(** [logger.write(..)] at a time. *)
Definition write (file method path : string) (code : Z) (prefix : option string) (ms : Z)
  (now : Timestamp) : string :=
  audit_write file (mkAuditEntry (fmt_iso8601 now) method path code prefix ms) None.

(** [entry["key"]], of a parsed line. *)
Definition at_key (entry : json) (key : string) : exec json :=
  match entry with
  | JObj fields => unwrap (snd <$> find (fun f => String.eqb f.1 key) fields)
  | _ => Panic
  end.
Definition is_str (j : json) (s : string) : bool :=
  match j with JStr s' => String.eqb s' s | _ => false end.
Definition is_num (j : json) (n : Z) : bool := match j with JNum n' => n' =? n | _ => false end.
Definition is_null (j : json) : bool := match j with JNull => true | _ => false end.

Definition test_audit_logger_writes_entries : exec unit :=
  run! logger := unwrap_ok (audit_logger_new (Ok tt) (Ok "")) in
  let logger := write logger "GET" "/devices" 200 (Some "a1b2") 5 test_now in
  let content := write logger "POST" "/alerts/1/acknowledge" 401 None 2 test_now in
  run! lines := unwrap (read_json_lines content) in
  assert_eq (length lines) 2%nat ;!
  run! entry1 := unwrap (lines !! 0%nat) in
  run! v := at_key entry1 "method" in assert_that (is_str v "GET") ;!
  run! v := at_key entry1 "path" in assert_that (is_str v "/devices") ;!
  run! v := at_key entry1 "status" in assert_that (is_num v 200) ;!
  run! v := at_key entry1 "key_prefix" in assert_that (is_str v "a1b2") ;!
  run! entry2 := unwrap (lines !! 1%nat) in
  run! v := at_key entry2 "method" in assert_that (is_str v "POST") ;!
  run! v := at_key entry2 "status" in assert_that (is_num v 401) ;!
  run! v := at_key entry2 "key_prefix" in assert_that (is_null v).

Definition test_audit_logger_creates_parent_dirs : exec unit :=
  run! logger := unwrap_ok (audit_logger_new (Ok tt) (Ok "")) in
  let content := write logger "GET" "/health" 200 None 1 test_now in
  assert_that (negb (is_empty content)).

Definition tests : suite :=
  [("test_key_hash_prefix_is_4_chars", test_key_hash_prefix_is_4_chars);
   ("test_key_hash_prefix_different_keys_differ", test_key_hash_prefix_different_keys_differ);
   ("test_audit_logger_writes_entries", test_audit_logger_writes_entries);
   ("test_audit_logger_creates_parent_dirs", test_audit_logger_creates_parent_dirs)].

End AuditTests.

(** * crates/api/src/routes.rs *)

Module RoutesTests.

Definition app : Type := AppState MemoryStore.t InMemoryAlertStore.t history_table.

Definition test_app : exec app :=
  run! mac := mac_of "00:11:22:33:44:55" in
  let device := Device.record_sent (Device.new mac test_now) 100 Tcp test_now in
  let device := Device.add_ip device (ipv4_addr 192 168 1 10) in
  run! store := upsert MemoryStore.new device in
  Done (mkAppState store InMemoryAlertStore.new None (auth_new None) None).

(** [app.oneshot(Request::builder().method(GET).uri(..))]: the handler of the
    route; the test's router has no middleware. *)
Definition oneshot (a : app) (e : Endpoint) : exec Response :=
  run! (_, response) := handle "0.1.0" true a e 60 in Done response.
(** [serde_json::from_slice(&to_bytes(response.into_body()))]. *)
Definition json_body (r : Response) : exec json :=
  match body r with
  | JsonBody j => unwrap (json_from_str (json_to_string j))
  | _ => Panic
  end.

Definition test_health_endpoint : exec unit :=
  run! app := test_app in
  run! response := oneshot app Health in
  assert_eq (Api.status response) 200 ;!
  run! body := json_body response in
  run! v := AuditTests.at_key body "status" in
  assert_that (AuditTests.is_str v "ok").

Definition test_list_devices_endpoint : exec unit :=
  run! app := test_app in
  run! response := oneshot app ListDevices in
  assert_eq (Api.status response) 200 ;!
  run! body := json_body response in
  run! devices := unwrap (match body with JArr l => mapM device_from_json l | _ => None end) in
  assert_eq (length devices) 1%nat ;!
  run! device := unwrap (devices !! 0%nat) in
  run! mac := mac_of "00:11:22:33:44:55" in
  assert_eq (Device.mac device) mac.

Definition test_get_device_endpoint : exec unit :=
  run! app := test_app in
  run! response := oneshot app (GetDevice "00:11:22:33:44:55") in
  assert_eq (Api.status response) 200 ;!
  run! body := json_body response in
  run! device := unwrap (device_from_json body) in
  run! mac := mac_of "00:11:22:33:44:55" in
  assert_eq (Device.mac device) mac.

Definition test_get_device_not_found : exec unit :=
  run! app := test_app in
  run! response := oneshot app (GetDevice "00:11:22:33:44:66") in
  assert_eq (Api.status response) 404.

Definition test_get_device_invalid_mac : exec unit :=
  run! app := test_app in
  run! response := oneshot app (GetDevice "not-a-mac") in
  assert_eq (Api.status response) 400.

Definition test_metrics_endpoint : exec unit :=
  run! app := test_app in
  run! response := oneshot app Metrics in
  assert_eq (Api.status response) 200 ;!
  run! metrics := json_body response in
  run! v := AuditTests.at_key metrics "total_devices" in
  assert_that (AuditTests.is_num v 1) ;!
  run! v := AuditTests.at_key metrics "total_packets" in
  assert_that (match v with JNum n => 0 <? n | _ => false end).

Definition tests : suite :=
  [("test_health_endpoint", test_health_endpoint);
   ("test_list_devices_endpoint", test_list_devices_endpoint);
   ("test_get_device_endpoint", test_get_device_endpoint);
   ("test_get_device_not_found", test_get_device_not_found);
   ("test_get_device_invalid_mac", test_get_device_invalid_mac);
   ("test_metrics_endpoint", test_metrics_endpoint)].

End RoutesTests.

(** * Lemmas *)

Lemma auth_tests_pass : failing AuthTests.tests = [].
Proof. vm_compute. reflexivity. Qed.
Lemma audit_tests_pass : failing AuditTests.tests = [].
Proof. vm_compute. reflexivity. Qed.
Lemma routes_tests_pass : failing RoutesTests.tests = [].
Proof. vm_compute. reflexivity. Qed.
