(* ===== verification/TestNotify.v ===== *)
(** The tests of the notifiers ([crates/notify]).  A header value is accepted
    when it is printable ASCII, a name in its lower case; where a test looks
    into a JSON text, the fields of the value it was printed from are
    looked at.  That a time prints with a [T] is [chrono]'s doing and is
    left out. *)

From S2P Require Import Prelude Text Types Reference Net Json Config Alerts Notify.
From S2P Require Import Testing TestCommon TestStores.

#[local] Existing Instances ref_mac_text std_ip_text ref_chrono ref_serde_json.
#[local] Instance test_http : Http :=
  {| header_value := all_chars (fun c => in_range 32 126 (ord c));
     header_name s := Some (to_ascii_lowercase s); status_display := fmt_uint |}.

(** [json.contains(key:value)] of an object printed without blanks. *)
Definition has_text_field (j : json) (key value : string) : bool :=
  match j with
  | JObj fields =>
      existsb (fun f => String.eqb f.1 key &&
                        match f.2 with JStr s => String.eqb s value | _ => false end) fields
  | _ => false
  end.
(** [serde_json::to_string(..).unwrap()], as a value again. *)
Definition printed (j : json) : exec json := unwrap (json_from_str (json_to_string j)).

(** [headers.get(name)]. *)
Definition get_header (h : gmap string string) (name : string) : option string :=
  h !! to_ascii_lowercase name.

(** The device of the MQTT and ntfy tests. *)
Definition plain_device : exec Device.t :=
  run! mac := mac_of "00:11:22:33:44:55" in Done (Device.new mac test_now).

(** * crates/notify/src/email.rs *)

Module EmailTests.

Definition sample_alert : exec Alert.t :=
  run! device := plain_device in
  let device := Device.set_vendor (Some "TP-Link") device in
  let device := Device.set_hostname (Some "living-room-plug") device in
  Done (Alert.new "new-device" Warning NewDevice device "New device discovered" test_now).

Definition test_format_alert_body_includes_fields : exec unit :=
  run! alert := sample_alert in
  let body := format_alert_body alert in
  assert_that (contains body "Rule: new-device") ;!
  assert_that (contains body "Severity: warning") ;!
  assert_that (contains body "MAC: 00:11:22:33:44:55") ;!
  assert_that (contains body "Hostname: living-room-plug") ;!
  assert_that (contains body "Vendor: TP-Link") ;!
  assert_that (contains body "Message: New device discovered").

Definition test_format_alert_body_handles_unknown_fields : exec unit :=
  run! device := plain_device in
  let alert := Alert.new "test" Info NewDevice device "test" test_now in
  let body := format_alert_body alert in
  assert_that (contains body "Hostname: (unknown)") ;!
  assert_that (contains body "Vendor: (unknown)") ;!
  assert_that (contains body "IPs: (none)").

Definition tests : suite :=
  [("test_format_alert_body_includes_fields", test_format_alert_body_includes_fields);
   ("test_format_alert_body_handles_unknown_fields", test_format_alert_body_handles_unknown_fields)].

End EmailTests.

(** * crates/notify/src/mqtt.rs *)

Module MqttTests.

Definition sample_device : exec Device.t :=
  run! device := plain_device in
  let device := Device.record_sent device 100 Tcp test_now in
  let device := Device.add_ip device (ipv4_addr 192 168 1 10) in
  Done (Device.set_vendor (Some "TP-Link Technologies") device).

Definition test_payload_from_device_with_ip : exec unit :=
  run! device := sample_device in
  let payload := payload_from_device device "TCP" in
  assert_eq (event payload) "new_device" ;!
  assert_eq (mac payload) "00:11:22:33:44:55" ;!
  assert_eq (ip payload) (Some (ip_to_string (ipv4_addr 192 168 1 10))) ;!
  assert_eq (vendor payload) (Some "TP-Link Technologies") ;!
  assert_eq (protocol payload) "TCP".

Definition test_payload_from_device_without_ip : exec unit :=
  run! device := plain_device in
  let payload := payload_from_device device "ARP" in
  assert_eq (mac payload) "00:11:22:33:44:55" ;!
  assert_that (Testing.is_none (ip payload)) ;!
  assert_that (Testing.is_none (vendor payload)) ;!
  assert_eq (protocol payload) "ARP".

Definition test_payload_serializes_to_json : exec unit :=
  run! device := sample_device in
  run! json := printed (payload_to_json (payload_from_device device "TCP")) in
  assert_that (has_text_field json "event" "new_device") ;!
  assert_that (has_text_field json "mac" "00:11:22:33:44:55") ;!
  assert_that (has_text_field json "vendor" "TP-Link Technologies") ;!
  assert_that (has_text_field json "protocol" "TCP").

Definition tests : suite :=
  [("test_payload_from_device_with_ip", test_payload_from_device_with_ip);
   ("test_payload_from_device_without_ip", test_payload_from_device_without_ip);
   ("test_payload_serializes_to_json", test_payload_serializes_to_json)].

End MqttTests.

(** * crates/notify/src/ntfy.rs *)

Module NtfyTests.

Definition sample_config : NtfyConfig.t :=
  NtfyConfig.mk "https://ntfy.example.com" "edgeshield" None None None.

Definition test_build_headers_no_auth : exec unit :=
  let notifier := ntfy_new sample_config in
  assert_that (Testing.is_none (get_header (base_headers notifier) "Authorization")) ;!
  assert_that (Testing.is_none (get_header (base_headers notifier) "Priority")) ;!
  assert_that (Testing.is_none (get_header (base_headers notifier) "Tags")).

Definition test_build_headers_with_auth_and_options : exec unit :=
  let config := NtfyConfig.mk (NtfyConfig.base_url sample_config) (NtfyConfig.topic sample_config)
                  (Some "tok_abc123") (Some 2) (Some "warning,desktop") in
  let notifier := ntfy_new config in
  assert_eq (get_header (base_headers notifier) "Authorization") (Some "Bearer tok_abc123") ;!
  assert_eq (get_header (base_headers notifier) "Priority") (Some "2") ;!
  assert_eq (get_header (base_headers notifier) "Tags") (Some "warning,desktop").

Definition test_build_headers_invalid_token_ignored : exec unit :=
  let config := NtfyConfig.mk (NtfyConfig.base_url sample_config) (NtfyConfig.topic sample_config)
                  (Some ("bad" +:+ nl +:+ "token")) None None in
  let notifier := ntfy_new config in
  assert_that (Testing.is_none (get_header (base_headers notifier) "Authorization")).

Definition test_payload_reused_from_mqtt_notifier : exec unit :=
  run! device := MqttTests.sample_device in
  run! json := printed (payload_to_json (payload_from_device device "TCP")) in
  assert_that (has_text_field json "event" "new_device") ;!
  assert_that (has_text_field json "mac" "00:11:22:33:44:55") ;!
  assert_that (has_text_field json "vendor" "TP-Link Technologies").

Definition tests : suite :=
  [("test_build_headers_no_auth", test_build_headers_no_auth);
   ("test_build_headers_with_auth_and_options", test_build_headers_with_auth_and_options);
   ("test_build_headers_invalid_token_ignored", test_build_headers_invalid_token_ignored);
   ("test_payload_reused_from_mqtt_notifier", test_payload_reused_from_mqtt_notifier)].

End NtfyTests.

(** * crates/notify/src/webhook.rs *)

Module WebhookTests.

Definition sample_alert : exec Alert.t :=
  run! device := plain_device in
  Done (Alert.new "test-rule" Info NewDevice device "test alert" test_now).

Definition sample_config : WebhookConfig.t :=
  WebhookConfig.mk "https://hooks.slack.com/services/test" None ∅ 10.

Definition test_webhook_notifier_creation : exec unit :=
  let notifier := webhook_new map_to_list sample_config in
  assert_that (Testing.is_none (get_header (headers notifier) "Authorization")).

Definition test_webhook_notifier_with_token : exec unit :=
  let config := WebhookConfig.mk (WebhookConfig.url sample_config) (Some "tok_abc") ∅ 10 in
  let notifier := webhook_new map_to_list config in
  assert_eq (get_header (headers notifier) "Authorization") (Some "Bearer tok_abc").

Definition test_webhook_notifier_with_custom_headers : exec unit :=
  let config := WebhookConfig.mk (WebhookConfig.url sample_config) None
                  {["X-Custom" := "value"]} 10 in
  let notifier := webhook_new map_to_list config in
  assert_eq (get_header (headers notifier) "X-Custom") (Some "value").

Definition test_webhook_alert_serialization : exec unit :=
  run! alert := sample_alert in
  run! json := printed (alert_to_json alert) in
  assert_that (has_text_field json "rule_name" "test-rule") ;!
  assert_that (has_text_field json "severity" "info").

Definition tests : suite :=
  [("test_webhook_notifier_creation", test_webhook_notifier_creation);
   ("test_webhook_notifier_with_token", test_webhook_notifier_with_token);
   ("test_webhook_notifier_with_custom_headers", test_webhook_notifier_with_custom_headers);
   ("test_webhook_alert_serialization", test_webhook_alert_serialization)].

End WebhookTests.

(** * Lemmas *)

Lemma email_tests_pass : failing EmailTests.tests = [].
Proof. vm_compute. reflexivity. Qed.
Lemma mqtt_tests_pass : failing MqttTests.tests = [].
Proof. vm_compute. reflexivity. Qed.
Lemma ntfy_tests_pass : failing NtfyTests.tests = [].
Proof. vm_compute. reflexivity. Qed.
Lemma webhook_tests_pass : failing WebhookTests.tests = [].
Proof. vm_compute. reflexivity. Qed.
