(* ===== verification/TestSetup.v ===== *)
(** The tests of the setup wizard ([crates/cli/src/setup.rs]), with SHA-256
    itself as the digest.  A temporary directory is a file system that holds
    nothing else; no operation on it fails. *)

From S2P Require Import Prelude Text Types Reference Config Auth Api Toml Setup Sha256 Testing.

#[local] Existing Instances ref_toml sha256_crypto.
#[local] Instance sha256_hex_encode : HexEncode := {| Setup.hex_encode := Sha256.hex_encode |}.

(** [Path::parent] of a path of names, as text. *)
Definition parent_of (p : string) : option string :=
  Some (String.concat "/" (removelast (split_on "/" p))).
#[local] Instance test_os : Os := {|
  path_parent := parent_of;
  read_fault _ _ := None; mkdir_fault _ _ := None; write_fault _ _ := None; remove_fault _ _ := false
|}.

Module SetupTests.

Definition dir : string := "/tmp/edgeshield-test-1-0".
(** [tempfile_dir()]. *)
Definition tempfile_dir : Fs := mkFs ∅ {[dir]}.
Definition inputs_for (interface : string) : SetupInputs.t :=
  SetupInputs.set_interface interface SetupInputs.default_inputs.
(** The 32 bytes the generator gives. *)
Definition rng : list Z := Z.of_nat <$> seq 100 32.
Definition eth0_file : string := "interface = " +:+ quoted "eth0" +:+ nl.

Definition test_setup_generates_valid_config : exec unit :=
  let inputs := SetupInputs.set_database_path "/tmp/edgeshield-test.db" (inputs_for "eth0") in
  run! toml := unwrap_ok (render_toml inputs None) in
  run! cfg := unwrap_ok (config_from_str toml) in
  assert_eq (Config.interface cfg) "eth0" ;!
  assert_eq (Config.api_port cfg) 8080 ;!
  assert_eq (Config.database_path cfg) "/tmp/edgeshield-test.db".

Definition test_setup_api_key_hash_is_sha256 : exec unit :=
  let plaintext := generate_api_key_plaintext rng in
  assert_eq (String.length plaintext) 64%nat ;!
  assert_that (all_chars is_ascii_hexdigit plaintext) ;!
  let hash := sha256_hex (as_bytes plaintext) in
  assert_eq (String.length hash) 64%nat ;!
  assert_that (all_chars is_ascii_hexdigit hash).

Definition test_setup_overwrite_guard : exec unit :=
  let path := dir +:+ "/config.toml" in
  let (fs, r) := fs_write path eth0_file tempfile_dir in
  unwrap_ok r ;!
  let (fs, r) := run (inputs_for "eth0") path false rng fs in
  run! err := unwrap_err r in
  assert_that (contains (setup_error_display err) "already exists").

Definition test_setup_force_overwrites : exec unit :=
  let path := dir +:+ "/config.toml" in
  let (fs, r) := fs_write path eth0_file tempfile_dir in
  unwrap_ok r ;!
  let (fs, r) := run (inputs_for "wlan0") path true rng fs in
  unwrap_ok r ;!
  run! written := unwrap_ok (fs_read fs path) in
  assert_that (contains written "wlan0").

Definition test_setup_writes_validated_config : exec unit :=
  let path := dir +:+ "/subdir/config.toml" in
  let inputs := SetupInputs.set_database_path (dir +:+ "/edgeshield.db") (inputs_for "eth0") in
  let (fs, r) := run inputs path false rng tempfile_dir in
  unwrap_ok r ;!
  run! written := unwrap_ok (fs_read fs path) in
  unwrap_ok (config_from_str written) ;!
  Done tt.

Definition test_setup_mqtt_section_validates : exec unit :=
  let inputs := SetupInputs.set_mqtt
    (Some (MqttInputs.mk "homeassistant.local" 1883 "edgeshield/devices/new" None None))
    (inputs_for "eth0") in
  run! toml := unwrap_ok (render_toml inputs None) in
  run! cfg := unwrap_ok (config_from_str toml) in
  run! mqtt := unwrap (Config.mqtt cfg) in
  assert_eq (MqttConfig.host mqtt) "homeassistant.local" ;!
  assert_eq (MqttConfig.port mqtt) 1883.

Definition test_detect_interfaces_excludes_lo : exec unit :=
  let net_dir : NetDir := Ok [Ok (as_bytes "lo"); Ok (as_bytes "wlan0"); Ok (as_bytes "eth0")] in
  assert_eq (detect_interfaces net_dir) ["eth0"; "wlan0"].

Definition test_detect_interfaces_missing_dir_is_empty : exec unit :=
  let net_dir : NetDir := Err "No such file or directory (os error 2)" in
  assert_eq (detect_interfaces net_dir) [].

Definition quote : string := String dquote "".
Definition slash : string := String backslash "".
Definition test_toml_string_escapes_quotes : exec unit :=
  assert_eq (toml_string "simple") (quote +:+ "simple" +:+ quote) ;!
  assert_eq (toml_string ("with " +:+ quote +:+ "quotes" +:+ quote))
    (quote +:+ "with " +:+ slash +:+ quote +:+ "quotes" +:+ slash +:+ quote +:+ quote) ;!
  assert_eq (toml_string ("back" +:+ slash +:+ "slash"))
    (quote +:+ "back" +:+ slash +:+ slash +:+ "slash" +:+ quote).

Definition test_api_key_plaintext_matches_hash_in_config : exec unit :=
  let path := dir +:+ "/config.toml" in
  let inputs := SetupInputs.set_generate_api_key true (inputs_for "eth0") in
  let (fs, r) := run inputs path false rng tempfile_dir in
  run! key := unwrap_ok r in
  run! plaintext := unwrap key in
  run! written := unwrap_ok (fs_read fs path) in
  let expected_hash := sha256_hex (as_bytes plaintext) in
  assert_that (contains written ("read_key_hash = " +:+ quoted expected_hash)) ;!
  run! cfg := unwrap_ok (config_from_str written) in
  run! auth := unwrap (ApiConfig.auth (Config.api cfg)) in
  assert_eq (ApiAuthConfig.read_key_hash auth) expected_hash.

Definition tests : suite :=
  [("test_setup_generates_valid_config", test_setup_generates_valid_config);
   ("test_setup_api_key_hash_is_sha256", test_setup_api_key_hash_is_sha256);
   ("test_setup_overwrite_guard", test_setup_overwrite_guard);
   ("test_setup_force_overwrites", test_setup_force_overwrites);
   ("test_setup_writes_validated_config", test_setup_writes_validated_config);
   ("test_setup_mqtt_section_validates", test_setup_mqtt_section_validates);
   ("test_detect_interfaces_excludes_lo", test_detect_interfaces_excludes_lo);
   ("test_detect_interfaces_missing_dir_is_empty", test_detect_interfaces_missing_dir_is_empty);
   ("test_toml_string_escapes_quotes", test_toml_string_escapes_quotes);
   ("test_api_key_plaintext_matches_hash_in_config", test_api_key_plaintext_matches_hash_in_config)].

End SetupTests.

(** * Lemmas *)

Lemma setup_tests_pass : failing SetupTests.tests = [].
Proof. vm_compute. reflexivity. Qed.
