(* ===== verification/TestTui.v ===== *)
(** The tests of the dashboard's client ([crates/tui/tests/client.rs]).  The
    mock server is a world that counts the acknowledgments; a port nothing
    listens on is the silent one. *)

From S2P Require Import Prelude Text Types Reference Net Json Stores Alerts Notify Tui.
From S2P Require Import Testing TestCommon TestStores TestNotify.

#[local] Existing Instances ref_mac_text std_ip_text ref_chrono ref_serde_json test_http silent_world.

Module ClientTests.

Definition json_answer (j : json) : HttpResponse := mkHttpResponse 200 (Ok (json_to_string j)).
Definition status_answer (code : Z) : HttpResponse := mkHttpResponse code (Ok "").

Definition mock_device : Device.t := Device.new (mkMac 0x00 0x11 0x22 0x33 0x44 0x55) test_now.
Definition mock_alert : Alert.t :=
  Alert.new "test-rule" Warning NewDevice mock_device "a new device appeared" test_now.

(** The base URL of the mock, and what it answers; its state is the number
    of acknowledgments. *)
Definition url : string := "http://127.0.0.1:40000".
Definition mock_app (ack_calls : Z) (method path : string) : Z * HttpResponse :=
  if String.eqb method "POST" && String.eqb path "/alerts/7/acknowledge"
  then (ack_calls + 1, status_answer 204)
  else if negb (String.eqb method "GET") then (ack_calls, status_answer 405)
  else (ack_calls,
    if String.eqb path "/health"
    then json_answer (JObj [("status", JStr "ok"); ("version", JStr "0.1.0")])
    else if String.eqb path "/devices" then json_answer (JArr [device_to_json mock_device])
    else if String.eqb path "/alerts" then json_answer (JArr [alert_to_json mock_alert])
    else if String.eqb path "/metrics"
    then json_answer (JObj [("total_devices", JNum 1); ("total_packets", JNum 100);
                            ("total_bytes", JNum 10000); ("uptime_seconds", JNum 42)])
    else if starts_with path "/devices/" && contains path "/history" then json_answer (JArr [])
    else status_answer 404).
#[local] Instance mock_world : World Z := {|
  send w method full _ :=
    match strip_prefix url full with
    | Some path => let (w', r) := mock_app w method path in (w', Ok r)
    | None => (w, Err "connection refused")
    end
|}.
(** A server whose history is disabled. *)
Definition no_history : World Z := {| send w _ _ _ := (w, Ok (status_answer 501)) |}.

Definition client_of (base : string) (key : option string) : result Client ClientError :=
  client_new "failed to parse header value" (Ok tt) base key.
Definition parse_error (s : string) : string := "invalid JSON".

Definition test_client_health_ok : exec unit :=
  run! client := unwrap_ok (client_of url None) in
  run! health := unwrap_ok (get_health parse_error 0 client).2 in
  assert_eq (h_status health) "ok" ;!
  assert_eq (h_version health) "0.1.0".

Definition test_client_devices_ok : exec unit :=
  run! client := unwrap_ok (client_of url None) in
  run! devices := unwrap_ok (get_devices parse_error 0 client).2 in
  assert_eq (length devices) 1%nat ;!
  run! device := unwrap (devices !! 0%nat) in
  run! mac := mac_of "00:11:22:33:44:55" in
  assert_eq (Device.mac device) mac.

Definition test_client_alerts_ok : exec unit :=
  run! client := unwrap_ok (client_of url None) in
  run! alerts := unwrap_ok (get_alerts parse_error 0 client).2 in
  assert_eq (length alerts) 1%nat ;!
  run! alert := unwrap (alerts !! 0%nat) in
  assert_eq (Alert.rule_name alert) "test-rule" ;!
  assert_eq (Alert.severity alert) Warning.

Definition test_client_metrics_ok : exec unit :=
  run! client := unwrap_ok (client_of url None) in
  run! metrics := unwrap_ok (get_metrics parse_error 0 client).2 in
  assert_eq (total_devices metrics) 1 ;!
  assert_eq (total_packets metrics) 100 ;!
  assert_eq (uptime_seconds metrics) 42.

Definition test_client_acknowledge_ok : exec unit :=
  run! client := unwrap_ok (client_of url None) in
  let (ack_calls, r) := post_acknowledge 0 client 7 in
  unwrap_ok r ;!
  assert_eq ack_calls 1.

Definition test_client_snapshot_aggregates_all : exec unit :=
  run! client := unwrap_ok (client_of url None) in
  let snap := (fetch_snapshot parse_error 0 client 0).2 in
  assert_that (Snapshot.is_reachable snap) ;!
  assert_eq (Snapshot.device_count snap) 1%nat ;!
  assert_eq (Snapshot.alert_count snap) 1%nat ;!
  assert_that (is_some (Snapshot.metrics snap)) ;!
  assert_that (Testing.is_none (Snapshot.last_error snap)).

Definition test_client_network_error_unreachable : exec unit :=
  run! client := unwrap_ok (client_of url None) in
  run! err := unwrap_err (get_health parse_error tt client).2 in
  assert_that (match err with Network _ => true | _ => false end).

Definition test_client_snapshot_records_error_on_failure : exec unit :=
  run! client := unwrap_ok (client_of url None) in
  let snap := (fetch_snapshot parse_error tt client 0).2 in
  assert_that (negb (Snapshot.is_reachable snap)) ;!
  assert_that (is_some (Snapshot.last_error snap)) ;!
  assert_eq (Snapshot.device_count snap) 0%nat.

Definition test_client_strips_trailing_slash : exec unit :=
  run! client := unwrap_ok (client_of (url +:+ "/") None) in
  run! health := unwrap_ok (get_health parse_error 0 client).2 in
  assert_eq (h_status health) "ok".

Definition test_client_with_bearer_token_header : exec unit :=
  run! client := unwrap_ok (client_of url (Some "secret-key")) in
  run! health := unwrap_ok (get_health parse_error 0 client).2 in
  assert_eq (h_status health) "ok".

Definition test_client_device_history_ok : exec unit :=
  run! client := unwrap_ok (client_of url None) in
  run! history := unwrap_ok (device_history parse_error 0 client "00:11:22:33:44:55").2 in
  assert_eq (length history) 0%nat.

Definition test_client_device_history_501_treated_as_empty : exec unit :=
  run! client := unwrap_ok (client_of url None) in
  run! history :=
    unwrap_ok (device_history (WO:=no_history) parse_error 0 client "00:11:22:33:44:55").2 in
  assert_eq (length history) 0%nat.

Definition test_client_invalid_key_returns_build_error : exec unit :=
  run! err := unwrap_err (client_of "http://localhost:8080" (Some ("bad" +:+ nl +:+ "key"))) in
  assert_that (match err with Build _ => true | _ => false end).

Definition tests : suite :=
  [("test_client_health_ok", test_client_health_ok);
   ("test_client_devices_ok", test_client_devices_ok);
   ("test_client_alerts_ok", test_client_alerts_ok);
   ("test_client_metrics_ok", test_client_metrics_ok);
   ("test_client_acknowledge_ok", test_client_acknowledge_ok);
   ("test_client_snapshot_aggregates_all", test_client_snapshot_aggregates_all);
   ("test_client_network_error_unreachable", test_client_network_error_unreachable);
   ("test_client_snapshot_records_error_on_failure", test_client_snapshot_records_error_on_failure);
   ("test_client_strips_trailing_slash", test_client_strips_trailing_slash);
   ("test_client_with_bearer_token_header", test_client_with_bearer_token_header);
   ("test_client_device_history_ok", test_client_device_history_ok);
   ("test_client_device_history_501_treated_as_empty",
    test_client_device_history_501_treated_as_empty);
   ("test_client_invalid_key_returns_build_error", test_client_invalid_key_returns_build_error)].

End ClientTests.

(** * Lemmas *)

Lemma client_tests_pass : failing ClientTests.tests = [].
Proof. vm_compute. reflexivity. Qed.
